(** * CompileMetadataResolver: a shallow embedding of
    [modules/@angular/compiler/src/metadata_resolver.ts]

    The resolver turns the annotations of modules, directives and pipes
    into compile metadata.  The embedding keeps the structure of the
    TypeScript source: JavaScript values are an inductive type, the six
    caches of the resolver are insertion-ordered maps (as JavaScript's
    [Map]), thrown errors are an explicit result, calls to the
    collaborators (annotation readers, reflector, template normaliser) are
    recorded in a call log, and the recursive module resolution runs on
    fuel. *)

From Stdlib Require Import ZArith String Ascii List Bool.
From stdpp Require Import base tactics decidable option list countable strings.
Set Warnings "-register-all".

Local Open Scope string_scope.
Local Open Scope list_scope.

(** ** JavaScript values found in annotations *)

(** Objects carry an identity: two object literals with the same fields
    are different values for [===] and for [Set]/[Map] keys. *)
Inductive Value : Type :=
| VNull                                        (* null and undefined *)
| VBool (b : bool)
| VNum (n : Z)
| VStr (s : string)
| VType (id : positive)                        (* a class or a function *)
| VStatic (id : positive) (filePath : string)  (* a StaticSymbol *)
| VFwdRef (v : Value)                          (* forwardRef(() => v) *)
| VArr (l : list Value)
| VObj (id : positive) (fields : list (string * Value))  (* object literal *)
| VHost | VSelf | VSkipSelf | VOptional        (* instances of the DI markers *)
| VAttribute (attributeName : string)
| VInject (token : Value)
| VOther (id : positive).                      (* any other object *)

Module ValueEq.

Definition leafT : Type := (bool + Z + string + positive)%type.
Definition lfB (b : bool) : gen_tree leafT := GenLeaf (inl (inl (inl b))).
Definition lfZ (n : Z) : gen_tree leafT := GenLeaf (inl (inl (inr n))).
Definition lfS (s : string) : gen_tree leafT := GenLeaf (inl (inr s)).
Definition lfP (p : positive) : gen_tree leafT := GenLeaf (inr p).

Fixpoint enc (v : Value) : gen_tree leafT :=
  match v with
  | VNull => GenNode 0 []
  | VBool b => GenNode 1 [lfB b]
  | VNum n => GenNode 2 [lfZ n]
  | VStr s => GenNode 3 [lfS s]
  | VType i => GenNode 4 [lfP i]
  | VStatic i f => GenNode 5 [lfP i; lfS f]
  | VFwdRef w => GenNode 6 [enc w]
  | VArr l => GenNode 7 (map enc l)
  | VObj i fs =>
      GenNode 8 [lfP i; GenNode 0 (map (fun kv => lfS (fst kv)) fs);
                 GenNode 0 (map (fun kv => enc (snd kv)) fs)]
  | VHost => GenNode 9 []
  | VSelf => GenNode 10 []
  | VSkipSelf => GenNode 11 []
  | VOptional => GenNode 12 []
  | VAttribute a => GenNode 13 [lfS a]
  | VInject t => GenNode 14 [enc t]
  | VOther i => GenNode 15 [lfP i]
  end.

Definition decS (t : gen_tree leafT) : string :=
  match t with GenLeaf (inl (inr s)) => s | _ => EmptyString end.
Definition decB (t : gen_tree leafT) : bool :=
  match t with GenLeaf (inl (inl (inl b))) => b | _ => false end.
Definition decZ (t : gen_tree leafT) : Z :=
  match t with GenLeaf (inl (inl (inr n))) => n | _ => 0%Z end.
Definition decP (t : gen_tree leafT) : positive :=
  match t with GenLeaf (inr p) => p | _ => 1%positive end.
Definition kids (t : gen_tree leafT) : list (gen_tree leafT) :=
  match t with GenNode _ l => l | _ => [] end.
Definition nthT (i : nat) (l : list (gen_tree leafT)) : gen_tree leafT :=
  nth i l (GenNode 0 []).

Fixpoint dec (t : gen_tree leafT) : Value :=
  match t with
  | GenLeaf _ => VNull
  | GenNode n l =>
      match n with
      | 1 => VBool (decB (nthT 0 l))
      | 2 => VNum (decZ (nthT 0 l))
      | 3 => VStr (decS (nthT 0 l))
      | 4 => VType (decP (nthT 0 l))
      | 5 => VStatic (decP (nthT 0 l)) (decS (nthT 1 l))
      | 6 => match l with w :: _ => VFwdRef (dec w) | [] => VNull end
      | 7 => VArr (map dec l)
      | 8 => match l with
             | i :: ks :: GenNode _ vs :: _ =>
                 VObj (decP i) (zip (map decS (kids ks)) (map dec vs))
             | _ => VNull
             end
      | 9 => VHost
      | 10 => VSelf
      | 11 => VSkipSelf
      | 12 => VOptional
      | 13 => VAttribute (decS (nthT 0 l))
      | 14 => match l with w :: _ => VInject (dec w) | [] => VNull end
      | 15 => VOther (decP (nthT 0 l))
      | _ => VNull
      end
  end.

Fixpoint dec_enc (v : Value) : dec (enc v) = v.
Proof.
  destruct v as [| | | | | |w|l|i fs| | | | | |w|]; simpl; try reflexivity.
  - f_equal. apply dec_enc.
  - f_equal. induction l as [|x l IH]; simpl; [reflexivity|].
    f_equal; [apply dec_enc | exact IH].
  - f_equal. induction fs as [|[k x] fs IH]; simpl; [reflexivity|].
    f_equal; [f_equal; apply dec_enc | exact IH].
  - f_equal. apply dec_enc.
Qed.

End ValueEq.

(** [===] on values. *)
#[global] Instance Value_eq_dec : EqDecision Value.
Proof.
  intros x y. destruct (decide (ValueEq.enc x = ValueEq.enc y)) as [H|H].
  - left. rewrite <- (ValueEq.dec_enc x), <- (ValueEq.dec_enc y). by rewrite H.
  - right. intros ->. by apply H.
Defined.

(** ** Insertion-ordered maps and sets ([Map], [Set]) keyed by values *)

Module JsMap.

Definition t (V : Type) : Type := list (Value * V).

Fixpoint get {V} (m : t V) (k : Value) : option V :=
  match m with
  | [] => None
  | (k', v) :: r => if decide (k' = k) then Some v else get r k
  end.

Definition has {V} (m : t V) (k : Value) : bool :=
  match get m k with Some _ => true | None => false end.

(** [set] overwrites in place or appends, as [Map.prototype.set]. *)
Fixpoint set {V} (k : Value) (v : V) (m : t V) : t V :=
  match m with
  | [] => [(k, v)]
  | (k', v') :: r =>
      if decide (k' = k) then (k, v) :: r else (k', v') :: set k v r
  end.

Fixpoint delete {V} (k : Value) (m : t V) : t V :=
  match m with
  | [] => []
  | (k', v') :: r =>
      if decide (k' = k) then delete k r else (k', v') :: delete k r
  end.

Definition clear {V} (m : t V) : t V := [].

Definition keys {V} (m : t V) : list Value := map fst m.

End JsMap.

Module JsSet.

Definition t : Type := list Value.

Definition has (s : t) (x : Value) : bool := bool_decide (x ∈ s).

Definition add (x : Value) (s : t) : t := if has s x then s else s ++ [x].

End JsSet.

(** ** Helpers from [facade/lang] and [@angular/core] *)

(** [resolveForwardRef] unwraps one forward reference. *)
Definition resolveForwardRef (v : Value) : Value :=
  match v with
  | VFwdRef w => w
  | _ => v
  end.

(** [isBlank(x)] is [x == null]; [isPresent] is its negation. *)
Definition isBlank (v : Value) : bool :=
  match v with VNull => true | _ => false end.

Definition isPresent (v : Value) : bool := negb (isBlank v).

(** JavaScript truthiness, for [if (x)] and [!x]. *)
Definition truthy (v : Value) : bool :=
  match v with
  | VNull => false
  | VBool b => b
  | VNum n => negb (n =? 0)%Z
  | VStr s => match s with EmptyString => false | _ => true end
  | _ => true
  end.

Definition isStaticSymbol (v : Value) : bool :=
  match v with VStatic _ _ => true | _ => false end.

(** [isValidType]: a static symbol or an instance of [Type], which is
    [Function]; a forward-reference function is a function too. *)
Definition isValidType (value : Value) : bool :=
  isStaticSymbol value ||
  match value with VType _ | VFwdRef _ => true | _ => false end.

(** Own property of an object literal; any other value has none. *)
Fixpoint lookupField (fields : list (string * Value)) (name : string) : option Value :=
  match fields with
  | [] => None
  | (k, v) :: r => if String.eqb k name then Some v else lookupField r name
  end.

Definition hasOwnProperty (v : Value) (name : string) : bool :=
  match v with
  | VObj _ fields => match lookupField fields name with Some _ => true | None => false end
  | _ => false
  end.

Definition getProperty (v : Value) (name : string) : Value :=
  match v with
  | VObj _ fields => default VNull (lookupField fields name)
  | _ => VNull
  end.

(** ** [flattenArray], [dedupeArray], [flattenAndDedupeArray] *)

(** What one entry of the tree contributes to [out]. *)
Fixpoint flattenItem (entry : Value) : list Value :=
  match entry with
  | VArr l => flat_map flattenItem l
  | VFwdRef (VArr l) => flat_map flattenItem l
  | VFwdRef w => [w]
  | _ => [entry]
  end.

Definition flattenArray (tree : list Value) : list Value :=
  flat_map flattenItem tree.

(** [Array.from(new Set(array))]: first occurrences, in order. *)
Fixpoint dedupeFrom (seen : JsSet.t) (array : list Value) : list Value :=
  match array with
  | [] => []
  | x :: r =>
      if JsSet.has seen x then dedupeFrom seen r
      else x :: dedupeFrom (JsSet.add x seen) r
  end.

Definition dedupeArray (array : list Value) : list Value := dedupeFrom [] array.

Definition flattenAndDedupeArray (tree : list Value) : list Value :=
  dedupeArray (flattenArray tree).

(** ** Compile metadata ([compile_metadata.ts]), as far as the resolver
    builds it *)

Record CompileIdentifierMetadata := mkIdentifier { reference : Value }.

(** A token holds either a [value] (a string) or an [identifier]. *)
Inductive CompileTokenMetadata :=
| TokenValue (value : string)
| TokenIdentifier (identifier : CompileIdentifierMetadata).

(** Modelled from the spec: [tokenReference] of [compile_metadata.ts] is
    not in the source file; two tokens are equal iff they have the same
    string value or the same identifier reference, so the reference of a
    token is its identifier's reference when it has one and its value
    otherwise. *)
Definition tokenReference (token : CompileTokenMetadata) : Value :=
  match token with
  | TokenValue s => VStr s
  | TokenIdentifier i => reference i
  end.

Record CompileDiDependencyMetadata := mkDep {
  isAttribute : bool;
  isHost : bool;
  isSelf : bool;
  isSkipSelf : bool;
  isOptional : bool;
  token : CompileTokenMetadata
}.

Record CompileTypeMetadata := mkTypeMeta {
  type_reference : Value;
  diDeps : list CompileDiDependencyMetadata;
  lifecycleHooks : list string
}.

Record CompileFactoryMetadata := mkFactoryMeta {
  factory_reference : Value;
  factory_diDeps : list CompileDiDependencyMetadata
}.

(** The result of [convertToCompileValue]. *)
Inductive CompileValue :=
| CVPrimitive (v : Value)
| CVArray (l : list CompileValue)
| CVMap (l : list (string * CompileValue))
| CVIdentifier (i : CompileIdentifierMetadata).

Record CompileProviderMetadata := mkProvider {
  provider_token : CompileTokenMetadata;
  provider_useClass : option CompileTypeMetadata;
  provider_useValue : CompileValue;
  provider_useFactory : option CompileFactoryMetadata;
  provider_useExisting : option CompileTokenMetadata;
  provider_deps : option (list CompileDiDependencyMetadata);
  provider_multi : bool
}.

(** An element of the arrays [_getProvidersMetadata] returns:
    [CompileProviderMetadata | CompileTypeMetadata | any[]]. *)
Inductive CompileProvider :=
| CPProvider (p : CompileProviderMetadata)
| CPType (t : CompileTypeMetadata)
| CPArray (l : list CompileProvider).

(** Modelled from the spec: [ProviderMeta] of [compile_metadata.ts] is not
    in the source file; the object-literal shorthand [{provide, ...}] is
    lifted into the provider record shape, with a boolean [multi] flag. *)
Record ProviderMeta := mkProviderMeta {
  pm_token : Value;
  pm_useClass : Value;
  pm_useValue : Value;
  pm_useExisting : Value;
  pm_useFactory : Value;
  pm_dependencies : option (list Value);
  pm_multi : bool
}.

Definition newProviderMeta (token : Value) (literal : Value) : ProviderMeta :=
  {| pm_token := token;
     pm_useClass := getProperty literal "useClass";
     pm_useValue := getProperty literal "useValue";
     pm_useExisting := getProperty literal "useExisting";
     pm_useFactory := getProperty literal "useFactory";
     pm_dependencies :=
       match getProperty literal "deps" with VArr l => Some l | _ => None end;
     pm_multi := truthy (getProperty literal "multi") |}.

(** *** Animations *)

Inductive AnimationMetadata :=
| AnimationStyleMetadata (styles : Value) (offset : Value)
| AnimationKeyframesSequenceMetadata (steps : list (Value * Value))
| AnimationAnimateMetadata (timings : Value) (styles : AnimationMetadata)
| AnimationGroupMetadata (steps : list AnimationMetadata)
| AnimationSequenceMetadata (steps : list AnimationMetadata)
| AnimationOtherMetadata.

Inductive AnimationStateMetadata :=
| AnimationStateDeclarationMetadata (stateNameExpr : string) (styles offset : Value)
| AnimationStateTransitionMetadata (stateChangeExpr : string) (steps : AnimationMetadata)
| AnimationStateOtherMetadata.

Record AnimationEntryMetadata := mkAnimationEntry {
  entry_name : string;
  entry_definitions : list AnimationStateMetadata
}.

Inductive CompileAnimationMetadata :=
| CompileAnimationStyleMetadata (offset : Value) (styles : Value)
| CompileAnimationKeyframesSequenceMetadata (steps : list (Value * Value))
| CompileAnimationAnimateMetadata (timings : Value) (styles : option CompileAnimationMetadata)
| CompileAnimationGroupMetadata (steps : list (option CompileAnimationMetadata))
| CompileAnimationSequenceMetadata (steps : list (option CompileAnimationMetadata)).

Inductive CompileAnimationStateMetadata :=
| CompileAnimationStateDeclarationMetadata (stateNameExpr : string) (offset styles : Value)
| CompileAnimationStateTransitionMetadata (stateChangeExpr : string)
    (steps : option CompileAnimationMetadata).

Record CompileAnimationEntryMetadata := mkCompileAnimationEntry {
  centry_name : string;
  centry_definitions : list (option CompileAnimationStateMetadata)
}.

(** *** Templates and directives *)

Record CompileTemplateMetadata := mkTemplate {
  tpl_encapsulation : Value;
  tpl_template : Value;
  tpl_templateUrl : Value;
  tpl_styles : Value;
  tpl_styleUrls : Value;
  tpl_animations : option (list CompileAnimationEntryMetadata);
  tpl_interpolation : Value
}.

(** The argument of [DirectiveNormalizer.normalizeTemplate]. *)
Record PrenormalizedTemplateMetadata := mkPrenormalized {
  pre_componentType : Value;
  pre_moduleUrl : string;
  pre_encapsulation : Value;
  pre_template : Value;
  pre_templateUrl : Value;
  pre_styles : Value;
  pre_styleUrls : Value;
  pre_animations : option (list CompileAnimationEntryMetadata);
  pre_interpolation : Value
}.

(** [SyncAsyncResult]: either [syncResult] is available, or only the
    promise [asyncResult], identified by a number. *)
Inductive SyncAsyncResult :=
| SyncResult (syncResult : CompileTemplateMetadata)
| AsyncResult (asyncResult : positive).

Record CompileQueryMetadata := mkQuery {
  query_selectors : list CompileTokenMetadata;
  query_first : Value;
  query_descendants : Value;
  query_propertyName : string;
  query_read : option CompileTokenMetadata
}.

Record CompileDirectiveMetadata := mkDirective {
  dir_type : CompileTypeMetadata;
  dir_isComponent : bool;
  dir_selector : string;
  dir_exportAs : Value;
  dir_changeDetection : Value;
  dir_inputs : Value;
  dir_outputs : Value;
  dir_hostListeners : Value;
  dir_hostProperties : Value;
  dir_hostAttributes : Value;
  dir_providers : list CompileProvider;
  dir_viewProviders : list CompileProvider;
  dir_queries : list CompileQueryMetadata;
  dir_viewQueries : list CompileQueryMetadata;
  dir_entryComponents : list CompileIdentifierMetadata;
  dir_template : option CompileTemplateMetadata
}.

(** Modelled from the spec: [CompileDirectiveMetadata.toSummary] is not in
    the source file; the summary strips template and provider detail and
    retains what other modules need transitively (selector, exportAs,
    inputs, outputs, host bindings). *)
Record CompileDirectiveSummary := mkDirectiveSummary {
  dsum_type : CompileTypeMetadata;
  dsum_isComponent : bool;
  dsum_selector : string;
  dsum_exportAs : Value;
  dsum_inputs : Value;
  dsum_outputs : Value;
  dsum_hostListeners : Value;
  dsum_hostProperties : Value;
  dsum_hostAttributes : Value
}.

Definition directive_toSummary (d : CompileDirectiveMetadata) : CompileDirectiveSummary :=
  {| dsum_type := dir_type d;
     dsum_isComponent := dir_isComponent d;
     dsum_selector := dir_selector d;
     dsum_exportAs := dir_exportAs d;
     dsum_inputs := dir_inputs d;
     dsum_outputs := dir_outputs d;
     dsum_hostListeners := dir_hostListeners d;
     dsum_hostProperties := dir_hostProperties d;
     dsum_hostAttributes := dir_hostAttributes d |}.

Record CompilePipeMetadata := mkPipe {
  pipe_type : CompileTypeMetadata;
  pipe_name : string;
  pipe_pure : bool
}.

(** Modelled from the spec: [CompilePipeMetadata.toSummary] is not in the
    source file; the summary mirrors the pipe metadata directly. *)
Record CompilePipeSummary := mkPipeSummary {
  psum_type : CompileTypeMetadata;
  psum_name : string;
  psum_pure : bool
}.

Definition pipe_toSummary (p : CompilePipeMetadata) : CompilePipeSummary :=
  {| psum_type := pipe_type p; psum_name := pipe_name p; psum_pure := pipe_pure p |}.

(** *** Modules *)

(** The entry-component arrays of a module are typed
    [CompileIdentifierMetadata[]]; they hold the identifiers collected from
    providers and the [CompileTypeMetadata] of the declared entry and
    bootstrap components. *)
Inductive EntryComponent :=
| EntryIdentifier (i : CompileIdentifierMetadata)
| EntryType (t : CompileTypeMetadata).

(** A directive loader is the closure
    [() => this._loadDirectiveMetadata(declaredType, isSync)]; it is kept
    as the two values it captures. *)
Record DirectiveLoader := mkLoader {
  loader_declaredType : Value;
  loader_isSync : bool
}.

(** Modelled from the spec: [CompileNgModuleMetadata.toSummary] and
    [toInjectorSummary] are not in the source file; a summary is the
    reduced, transitively shareable projection of a module: its type, own
    entry components and providers, the summaries of its imported and
    exported modules, its exported directives and pipes, and the directive
    loaders of its transitive module. *)
Inductive CompileNgModuleSummary := mkSummary {
  sum_type : CompileTypeMetadata;
  sum_entryComponents : list EntryComponent;
  sum_providers : list CompileProvider;
  sum_importedModules : list CompileNgModuleSummary;
  sum_exportedModules : list CompileNgModuleSummary;
  sum_exportedDirectives : list CompileIdentifierMetadata;
  sum_exportedPipes : list CompileIdentifierMetadata;
  sum_directiveLoaders : list DirectiveLoader
}.

(** Modelled from the spec: the constructor of
    [TransitiveCompileNgModuleMetadata] is not in the source file; the
    directive and pipe sets hold the references of the directive and pipe
    lists it is built from. *)
Record TransitiveCompileNgModuleMetadata := mkTransitive {
  tm_modules : list CompileNgModuleSummary;
  tm_providers : list CompileProvider;
  tm_entryComponents : list EntryComponent;
  tm_directives : list CompileIdentifierMetadata;
  tm_pipes : list CompileIdentifierMetadata;
  tm_directiveLoaders : list DirectiveLoader;
  tm_directivesSet : JsSet.t;
  tm_pipesSet : JsSet.t
}.

Definition newTransitiveCompileNgModuleMetadata
    (modules : list CompileNgModuleSummary) (providers : list CompileProvider)
    (entryComponents : list EntryComponent)
    (directives pipes : list CompileIdentifierMetadata)
    (directiveLoaders : list DirectiveLoader) : TransitiveCompileNgModuleMetadata :=
  {| tm_modules := modules;
     tm_providers := providers;
     tm_entryComponents := entryComponents;
     tm_directives := directives;
     tm_pipes := pipes;
     tm_directiveLoaders := directiveLoaders;
     tm_directivesSet := fold_left (fun s dir => JsSet.add (reference dir) s) directives [];
     tm_pipesSet := fold_left (fun s pipe => JsSet.add (reference pipe) s) pipes [] |}.

Record CompileNgModuleMetadata := mkNgModule {
  mod_type : CompileTypeMetadata;
  mod_providers : list CompileProvider;
  mod_entryComponents : list EntryComponent;
  mod_bootstrapComponents : list CompileTypeMetadata;
  mod_schemas : list Value;
  mod_declaredDirectives : list CompileIdentifierMetadata;
  mod_exportedDirectives : list CompileIdentifierMetadata;
  mod_declaredPipes : list CompileIdentifierMetadata;
  mod_exportedPipes : list CompileIdentifierMetadata;
  mod_importedModules : list CompileNgModuleSummary;
  mod_exportedModules : list CompileNgModuleSummary;
  mod_transitiveModule : TransitiveCompileNgModuleMetadata;
  mod_id : Value
}.

Definition toSummary (m : CompileNgModuleMetadata) : CompileNgModuleSummary :=
  {| sum_type := mod_type m;
     sum_entryComponents := mod_entryComponents m;
     sum_providers := mod_providers m;
     sum_importedModules := mod_importedModules m;
     sum_exportedModules := mod_exportedModules m;
     sum_exportedDirectives := mod_exportedDirectives m;
     sum_exportedPipes := mod_exportedPipes m;
     sum_directiveLoaders := tm_directiveLoaders (mod_transitiveModule m) |}.

(** The injector summary has the type, entry components, providers and the
    imported and exported modules only. *)
Definition toInjectorSummary (m : CompileNgModuleMetadata) : CompileNgModuleSummary :=
  {| sum_type := mod_type m;
     sum_entryComponents := mod_entryComponents m;
     sum_providers := mod_providers m;
     sum_importedModules := mod_importedModules m;
     sum_exportedModules := mod_exportedModules m;
     sum_exportedDirectives := [];
     sum_exportedPipes := [];
     sum_directiveLoaders := [] |}.

(** ** Raw annotations ([@angular/core]) *)

Record Query := mkRawQuery {
  q_selector : Value;
  q_first : Value;
  q_descendants : Value;
  q_isViewQuery : bool;
  q_read : Value
}.

(** The fields a [Component] adds to a [Directive]. *)
Record ComponentFields := mkComponent {
  cmp_changeDetection : Value;
  cmp_viewProviders : option (list Value);
  cmp_moduleId : Value;
  cmp_templateUrl : Value;
  cmp_template : Value;
  cmp_styleUrls : Value;
  cmp_styles : Value;
  cmp_animations : option (list AnimationEntryMetadata);
  cmp_encapsulation : Value;
  cmp_interpolation : Value;
  cmp_entryComponents : option (list Value)
}.

Record Directive := mkRawDirective {
  d_selector : option string;
  d_inputs : Value;
  d_outputs : Value;
  d_host : Value;
  d_providers : option (list Value);
  d_exportAs : Value;
  d_queries : option (list (string * Query));
  d_component : option ComponentFields      (* [dirMeta instanceof Component] *)
}.

Record Pipe := mkRawPipe {
  p_name : string;
  p_pure : bool
}.

Record NgModule := mkRawNgModule {
  m_providers : option (list Value);
  m_declarations : option (list Value);
  m_imports : option (list Value);
  m_exports : option (list Value);
  m_entryComponents : option (list Value);
  m_bootstrap : option (list Value);
  m_schemas : option (list Value);
  m_id : Value
}.

(** ** The collaborators *)

Record Env := mkEnv {
  (* NgModuleResolver, DirectiveResolver, PipeResolver *)
  ngModuleResolver_resolve : Value -> option NgModule;
  ngModuleResolver_isNgModule : Value -> bool;
  directiveResolver_resolve : Value -> option Directive;
  directiveResolver_isDirective : Value -> bool;
  pipeResolver_resolve : Value -> option Pipe;
  pipeResolver_isPipe : Value -> bool;
  (* ReflectorReader *)
  reflector_parameters : Value -> option (list Value);
  reflector_importUri : Value -> string;
  (* DirectiveNormalizer *)
  directiveNormalizer_normalizeTemplate : PrenormalizedTemplateMetadata -> SyncAsyncResult;
  (* ElementSchemaRegistry *)
  schemaRegistry_getDefaultComponentElementName : string;
  (* lifecycle_reflector and private_import_core *)
  LIFECYCLE_HOOKS_VALUES : list string;
  hasLifecycleHook : string -> Value -> bool;
  (* identifiers *)
  ANALYZE_FOR_ENTRY_COMPONENTS : Value;
  (* facade/lang, url_resolver, util, assertions *)
  stringify : Value -> string;
  stringifyToken : CompileTokenMetadata -> string;
  getUrlScheme : string -> string;
  MODULE_SUFFIX : string;
  assertArrayOfStrings : string -> Value -> option string;
  assertInterpolationSymbols : string -> Value -> option string;
  (* String.prototype.split with the pattern of _queryVarBindings *)
  splitQuerySelector : string -> list string;
  (* CompileDirectiveMetadata.create: the input, output and host maps *)
  create_inputs : Value -> Value;
  create_outputs : Value -> Value;
  create_hostListeners : Value -> Value;
  create_hostProperties : Value -> Value;
  create_hostAttributes : Value -> Value
}.

(** A call to a collaborator, as recorded in the call log. *)
Inductive Call :=
| CallNgModuleResolve (type : Value) (throwIfNotFound : bool)
| CallIsNgModule (type : Value)
| CallDirectiveResolve (type : Value)
| CallIsDirective (type : Value)
| CallPipeResolve (type : Value)
| CallIsPipe (type : Value)
| CallReflectorParameters (typeOrFunc : Value)
| CallReflectorImportUri (type : Value)
| CallNormalizeTemplate (componentType : Value)
| CallGetDefaultComponentElementName
| CallHasLifecycleHook (hook : string) (type : Value)
| CallNormalizerClearCacheFor (type : Value)
| CallNormalizerClearCache.

(** ** Errors *)

Inductive Error :=
| NoNgModuleMetadata (type : Value)
| NoDirectiveMetadata (type : Value)
| NoPipeMetadata (type : Value)
| TypeError
| AssertionError (message : string)
| MissingSelector (directiveType : Value)
| ModuleIdNotString (type : Value)
| UnresolvedDependency (typeOrFunc : Value) (deps : list (option CompileDiDependencyMetadata))
| InvalidProvider (debugInfo : option string) (providersInfo : list string)
| EntryComponentsOnlyUseValue
| EntryComponentsOnlyMulti
| QuerySelectorUndefined (propertyName : string) (typeOrFunc : Value)
| InvalidImportKind (descriptor : string) (importedType moduleType : Value)
| InvalidImport (importedType moduleType : Value)
| InvalidExport (exportedType moduleType : Value)
| InvalidDeclaration (declaredType moduleType : Value)
| InvalidDeclarationKind (descriptor : string) (declaredType moduleType : Value)
| UndeclaredExport (descriptor : string) (exported moduleType : Value)
| InvalidBootstrap (type moduleType : Value)
| DirectiveInTwoModules (type oldModule moduleType : Value)
| ComponentStillLoading (directiveType : Value)
| IllegalState (accessor : string) (type : Value).

Inductive Result (A : Type) :=
| Ok (a : A)
| Err (e : Error).
Arguments Ok {A} a.
Arguments Err {A} e.

(** ** Computations that call collaborators: a writer/error monad

    Most methods of the resolver read no cache: they compute a value or
    throw, and call collaborators on the way.  [W A] is the list of calls
    made, in order, and the outcome. *)

Definition W (A : Type) : Type := (list Call * Result A)%type.

Definition retW {A} (a : A) : W A := ([], Ok a).
Definition throwW {A} (e : Error) : W A := ([], Err e).
Definition callW {A} (c : Call) (r : A) : W A := ([c], Ok r).

Definition bindW {A B} (m : W A) (k : A -> W B) : W B :=
  match m with
  | (calls, Ok a) => let '(calls', r) := k a in (calls ++ calls', r)
  | (calls, Err e) => (calls, Err e)
  end.

Declare Scope W_scope.
Delimit Scope W_scope with W.
Notation "x <- m ; k" := (bindW m (fun x => k))
  (at level 20, m at level 100, k at level 200, only parsing) : W_scope.
Notation "' p <- m ; k" := (bindW m (fun x => let 'p := x in k))
  (at level 20, p pattern, m at level 100, k at level 200, only parsing) : W_scope.

(** [array.map(f)] and [array.forEach(f)] with a body that may throw. *)
Fixpoint mapW {A B} (f : A -> W B) (l : list A) : W (list B) :=
  match l with
  | [] => retW []
  | x :: r => (y <- f x ; ys <- mapW f r ; retW (y :: ys))%W
  end.

Section Collaborators.

Variable E : Env.

Definition isDirective (type : Value) : W bool :=
  callW (CallIsDirective type) (directiveResolver_isDirective E type).

Definition isPipe (type : Value) : W bool :=
  callW (CallIsPipe type) (pipeResolver_isPipe E type).

Definition isNgModule (type : Value) : W bool :=
  callW (CallIsNgModule type) (ngModuleResolver_isNgModule E type).

(** Modelled from the spec: the resolvers of [ng_module_resolver.ts],
    [directive_resolver.ts] and [pipe_resolver.ts] are not in the source
    file; [resolveModuleAnnotation(type, throwIfNotFound)] returns the raw
    module or nothing, and fails for a missing annotation when
    [throwIfNotFound] is set; the directive resolver returns the raw
    directive or nothing, the pipe resolver the raw pipe. *)
Definition ngModuleResolver_resolve_call (type : Value) (throwIfNotFound : bool)
    : W (option NgModule) :=
  (meta <- callW (CallNgModuleResolve type throwIfNotFound) (ngModuleResolver_resolve E type) ;
   match meta with
   | Some m => retW (Some m)
   | None => if throwIfNotFound then throwW (NoNgModuleMetadata type) else retW None
   end)%W.

Definition directiveResolver_resolve_call (type : Value) : W (option Directive) :=
  callW (CallDirectiveResolve type) (directiveResolver_resolve E type).

Definition pipeResolver_resolve_call (type : Value) : W Pipe :=
  (meta <- callW (CallPipeResolve type) (pipeResolver_resolve E type) ;
   match meta with
   | Some p => retW p
   | None => throwW (NoPipeMetadata type)
   end)%W.

(** *** Animations *)

Definition _getAnimationStyleMetadata (styles offset : Value) : CompileAnimationMetadata :=
  CompileAnimationStyleMetadata offset styles.

Fixpoint _getAnimationMetadata (value : AnimationMetadata) : option CompileAnimationMetadata :=
  match value with
  | AnimationStyleMetadata styles offset => Some (_getAnimationStyleMetadata styles offset)
  | AnimationKeyframesSequenceMetadata steps =>
      Some (CompileAnimationKeyframesSequenceMetadata
              (map (fun entry => (snd entry, fst entry)) steps))
  | AnimationAnimateMetadata timings styles =>
      Some (CompileAnimationAnimateMetadata timings (_getAnimationMetadata styles))
  | AnimationGroupMetadata steps =>
      Some (CompileAnimationGroupMetadata (map _getAnimationMetadata steps))
  | AnimationSequenceMetadata steps =>
      Some (CompileAnimationSequenceMetadata (map _getAnimationMetadata steps))
  | AnimationOtherMetadata => None
  end.

Definition _getAnimationStateMetadata (value : AnimationStateMetadata)
    : option CompileAnimationStateMetadata :=
  match value with
  | AnimationStateDeclarationMetadata stateNameExpr styles offset =>
      Some (CompileAnimationStateDeclarationMetadata stateNameExpr offset styles)
  | AnimationStateTransitionMetadata stateChangeExpr steps =>
      Some (CompileAnimationStateTransitionMetadata stateChangeExpr (_getAnimationMetadata steps))
  | AnimationStateOtherMetadata => None
  end.

Definition getAnimationEntryMetadata (entry : AnimationEntryMetadata)
    : CompileAnimationEntryMetadata :=
  let defs := map _getAnimationStateMetadata (entry_definitions entry) in
  mkCompileAnimationEntry (entry_name entry) defs.

(** *** Identifiers, tokens and dependencies *)

Definition _getIdentifierMetadata (type : Value) : CompileIdentifierMetadata :=
  let type := resolveForwardRef type in
  mkIdentifier type.

Definition _getTokenMetadata (token : Value) : CompileTokenMetadata :=
  let token := resolveForwardRef token in
  match token with
  | VStr s => TokenValue s
  | _ => TokenIdentifier (mkIdentifier token)
  end.

(** The local variables of the callback of [params.map]. *)
Record ParamState := mkParamState {
  ps_isAttribute : bool;
  ps_isHost : bool;
  ps_isSelf : bool;
  ps_isSkipSelf : bool;
  ps_isOptional : bool;
  ps_token : Value
}.

Definition paramStart : ParamState :=
  mkParamState false false false false false VNull.

(** The body of [param.forEach]. *)
Definition paramEntryStep (s : ParamState) (paramEntry : Value) : ParamState :=
  match paramEntry with
  | VHost =>
      mkParamState (ps_isAttribute s) true (ps_isSelf s) (ps_isSkipSelf s)
        (ps_isOptional s) (ps_token s)
  | VSelf =>
      mkParamState (ps_isAttribute s) (ps_isHost s) true (ps_isSkipSelf s)
        (ps_isOptional s) (ps_token s)
  | VSkipSelf =>
      mkParamState (ps_isAttribute s) (ps_isHost s) (ps_isSelf s) true
        (ps_isOptional s) (ps_token s)
  | VOptional =>
      mkParamState (ps_isAttribute s) (ps_isHost s) (ps_isSelf s) (ps_isSkipSelf s)
        true (ps_token s)
  | VAttribute attributeName =>
      mkParamState true (ps_isHost s) (ps_isSelf s) (ps_isSkipSelf s)
        (ps_isOptional s) (VStr attributeName)
  | VInject token =>
      mkParamState (ps_isAttribute s) (ps_isHost s) (ps_isSelf s) (ps_isSkipSelf s)
        (ps_isOptional s) token
  | _ =>
      if isValidType paramEntry && isBlank (ps_token s) then
        mkParamState (ps_isAttribute s) (ps_isHost s) (ps_isSelf s) (ps_isSkipSelf s)
          (ps_isOptional s) paramEntry
      else s
  end.

Definition scanParam (param : Value) : ParamState :=
  match param with
  | VArr entries => fold_left paramEntryStep entries paramStart
  | _ =>
      mkParamState false false false false false param
  end.

(** The callback of [params.map]: [None] is the [null] returned for a
    parameter without a token (which also sets [hasUnknownDeps]). *)
Definition paramDependency (param : Value) : option CompileDiDependencyMetadata :=
  let s := scanParam param in
  if isBlank (ps_token s) then None
  else Some (mkDep (ps_isAttribute s) (ps_isHost s) (ps_isSelf s) (ps_isSkipSelf s)
               (ps_isOptional s) (_getTokenMetadata (ps_token s))).

Definition hasUnknownDeps (deps : list (option CompileDiDependencyMetadata)) : bool :=
  existsb (fun dep => match dep with None => true | Some _ => false end) deps.

Definition knownDeps (deps : list (option CompileDiDependencyMetadata))
    : list CompileDiDependencyMetadata :=
  omap id deps.

(** [dependencies || this._reflector.parameters(typeOrFunc) || []]: the
    reflector is asked only without explicit dependencies. *)
Definition parametersOf (typeOrFunc : Value) (dependencies : option (list Value))
    : W (list Value) :=
  match dependencies with
  | Some deps => retW deps
  | None =>
      (reflected <- callW (CallReflectorParameters typeOrFunc)
                      (reflector_parameters E typeOrFunc) ;
       retW (default [] reflected))%W
  end.

Definition isAttributeMarker (paramEntry : Value) : bool :=
  match paramEntry with VAttribute _ => true | _ => false end.

Definition isInjectMarker (paramEntry : Value) : bool :=
  match paramEntry with VInject _ => true | _ => false end.

Definition _getDependenciesMetadata (typeOrFunc : Value) (dependencies : option (list Value))
    : W (list CompileDiDependencyMetadata) :=
  (params <- parametersOf typeOrFunc dependencies ;
   let dependenciesMetadata := map paramDependency params in
   if hasUnknownDeps dependenciesMetadata then
     throwW (UnresolvedDependency typeOrFunc dependenciesMetadata)
   else retW (knownDeps dependenciesMetadata))%W.

Definition lifecycleHooksOf (type : Value) : W (list string) :=
  (flags <- mapW (fun hook => callW (CallHasLifecycleHook hook type)
                                (hook, hasLifecycleHook E hook type))
                 (LIFECYCLE_HOOKS_VALUES E) ;
   retW (map fst (filter (fun hf => snd hf = true) flags)))%W.

Definition _getTypeMetadata (type : Value) (dependencies : option (list Value))
    : W CompileTypeMetadata :=
  (let identifier := _getIdentifierMetadata type in
   deps <- _getDependenciesMetadata (reference identifier) dependencies ;
   hooks <- lifecycleHooksOf (reference identifier) ;
   retW (mkTypeMeta (reference identifier) deps hooks))%W.

Definition _getFactoryMetadata (factory : Value) (dependencies : option (list Value))
    : W CompileFactoryMetadata :=
  (let factory := resolveForwardRef factory in
   deps <- _getDependenciesMetadata factory dependencies ;
   retW (mkFactoryMeta factory deps))%W.

(** *** [convertToCompileValue] *)

(** [_CompileValueConverter.visitOther]: the value becomes an identifier
    and is pushed on [targetIdentifiers]. *)
Definition visitOther (value : Value) : CompileValue * list CompileIdentifierMetadata :=
  let identifier := mkIdentifier value in
  (CVIdentifier identifier, [identifier]).

(** Modelled from the spec: [visitValue] and [ValueTransformer] of
    [util.ts] are not in the source file; the structural value converter
    traverses arrays and maps, passes primitives through and hands every
    other value to [visitOther].  The second component is what the visit
    pushes on [targetIdentifiers], in order. *)
Fixpoint visitValue (value : Value) : CompileValue * list CompileIdentifierMetadata :=
  match value with
  | VArr l =>
      let rs := map visitValue l in
      (CVArray (map fst rs), concat (map snd rs))
  | VObj _ fields =>
      let rs := map (fun kv => (fst kv, visitValue (snd kv))) fields in
      (CVMap (map (fun kr => (fst kr, fst (snd kr))) rs),
       concat (map (fun kr => snd (snd kr)) rs))
  | VNull | VBool _ | VNum _ | VStr _ => (CVPrimitive value, [])
  | _ => visitOther value
  end.

Definition convertToCompileValue (value : Value)
    : CompileValue * list CompileIdentifierMetadata :=
  visitValue value.

(** *** Providers *)

Definition getProviderMetadata (provider : ProviderMeta) : W CompileProviderMetadata :=
  ('(compileTypeMetadata, compileFactoryMetadata, compileDeps) <-
     (if truthy (pm_useClass provider) then
        t <- _getTypeMetadata (pm_useClass provider) (pm_dependencies provider) ;
        retW (Some t, None, Some (diDeps t))
      else if truthy (pm_useFactory provider) then
        f <- _getFactoryMetadata (pm_useFactory provider) (pm_dependencies provider) ;
        retW (None, Some f, Some (factory_diDeps f))
      else retW (None, None, None)) ;
   retW {| provider_token := _getTokenMetadata (pm_token provider);
           provider_useClass := compileTypeMetadata;
           provider_useValue := fst (convertToCompileValue (pm_useValue provider));
           provider_useFactory := compileFactoryMetadata;
           provider_useExisting :=
             if truthy (pm_useExisting provider)
             then Some (_getTokenMetadata (pm_useExisting provider)) else None;
           provider_deps := compileDeps;
           provider_multi := pm_multi provider |})%W.

(** [collectedIdentifiers.forEach]: the identifiers that are directives. *)
Fixpoint filterDirectives (collectedIdentifiers : list CompileIdentifierMetadata)
    : W (list CompileIdentifierMetadata) :=
  match collectedIdentifiers with
  | [] => retW []
  | identifier :: rest =>
      (isDir <- isDirective (reference identifier) ;
       components <- filterDirectives rest ;
       retW (if isDir then identifier :: components else components))%W
  end.

Definition _getEntryComponentsFromProvider (provider : ProviderMeta)
    : W (list CompileIdentifierMetadata) :=
  if truthy (pm_useFactory provider) || truthy (pm_useExisting provider)
     || truthy (pm_useClass provider) then
    throwW EntryComponentsOnlyUseValue
  else if negb (pm_multi provider) then
    throwW EntryComponentsOnlyMulti
  else
    let collectedIdentifiers := snd (convertToCompileValue (pm_useValue provider)) in
    filterDirectives collectedIdentifiers.

(** The [providers.reduce] that renders the list for the error message. *)
Fixpoint providersInfo (providers : list Value) (seenProviderIdx providerIdx : nat)
    : list string :=
  match providers with
  | [] => []
  | seenProvider :: rest =>
      let soFar :=
        if Nat.ltb seenProviderIdx providerIdx then [stringify E seenProvider]
        else if Nat.eqb seenProviderIdx providerIdx then
          ["?" +:+ stringify E seenProvider +:+ "?"]
        else if Nat.eqb seenProviderIdx (providerIdx + 1) then ["..."]
        else [] in
      soFar ++ providersInfo rest (S seenProviderIdx) providerIdx
  end.

(** The body of [providers.forEach] in [_getProvidersMetadata]: what it
    pushes on [compileProviders] (at most one element) and on
    [targetEntryComponents].  A nested array is converted by the
    recursive call, whose [providers] is the nested array. *)
Fixpoint providerEntry (debugInfo : option string) (providers : list Value)
    (providerIdx : nat) (provider : Value)
    : W (list CompileProvider * list CompileIdentifierMetadata) :=
  let each :=
    fix each (nested rest : list Value) (idx : nat)
        : W (list CompileProvider * list CompileIdentifierMetadata) :=
      match rest with
      | [] => retW ([], [])
      | p :: rest' =>
          ('(out1, sink1) <- providerEntry debugInfo nested idx p ;
           '(out2, sink2) <- each nested rest' (S idx) ;
           retW (out1 ++ out2, sink1 ++ sink2))%W
      end in
  let invalid : W (list CompileProvider * list CompileIdentifierMetadata) :=
    throwW (InvalidProvider debugInfo (providersInfo providers 0 providerIdx)) in
  let literal (provider : Value) :=
    let provider := newProviderMeta (getProperty provider "provide") provider in
    let tokenMeta := _getTokenMetadata (pm_token provider) in
    if decide (tokenReference tokenMeta = ANALYZE_FOR_ENTRY_COMPONENTS E) then
      (components <- _getEntryComponentsFromProvider provider ;
       retW ([], components))%W
    else
      (compileProvider <- getProviderMetadata provider ;
       retW ([CPProvider compileProvider], []))%W in
  let type (provider : Value) :=
    (compileProvider <- _getTypeMetadata provider None ;
     retW ([CPType compileProvider], []))%W in
  match provider with
  | VArr l =>
      ('(out, sink) <- each l l 0 ; retW ([CPArray out], sink))%W
  | VFwdRef (VArr l) =>
      ('(out, sink) <- each l l 0 ; retW ([CPArray out], sink))%W
  | VFwdRef provider =>
      if hasOwnProperty provider "provide" then literal provider
      else if isValidType provider then type provider
      else invalid
  | _ =>
      if hasOwnProperty provider "provide" then literal provider
      else if isValidType provider then type provider
      else invalid
  end.

Fixpoint providerEntries (debugInfo : option string) (providers rest : list Value)
    (providerIdx : nat) : W (list CompileProvider * list CompileIdentifierMetadata) :=
  match rest with
  | [] => retW ([], [])
  | provider :: rest' =>
      ('(out1, sink1) <- providerEntry debugInfo providers providerIdx provider ;
       '(out2, sink2) <- providerEntries debugInfo providers rest' (S providerIdx) ;
       retW (out1 ++ out2, sink1 ++ sink2))%W
  end.

(** [_getProvidersMetadata]: the returned [compileProviders] and what was
    pushed on [targetEntryComponents]. *)
Definition _getProvidersMetadata (providers : list Value) (debugInfo : option string)
    : W (list CompileProvider * list CompileIdentifierMetadata) :=
  providerEntries debugInfo providers providers 0.

End Collaborators.

(** ** The resolver state and the state/error monad with fuel *)

Record State := mkState {
  _directiveCache : JsMap.t CompileDirectiveMetadata;
  _directiveSummaryCache : JsMap.t CompileDirectiveSummary;
  _pipeCache : JsMap.t CompilePipeMetadata;
  _pipeSummaryCache : JsMap.t CompilePipeSummary;
  _ngModuleCache : JsMap.t CompileNgModuleMetadata;
  _ngModuleOfTypes : JsMap.t Value;
  callLog : list Call
}.

(** A fresh [CompileMetadataResolver]. *)
Definition newResolver : State := mkState [] [] [] [] [] [] [].

(** [None] is fuel exhaustion: the recursion on imported and exported
    modules did not return within the fuel given.  A thrown error keeps
    the state reached when it was thrown. *)
Definition R (A : Type) : Type := State -> option (Result A * State).

Definition retR {A} (a : A) : R A := fun st => Some (Ok a, st).
Definition throwR {A} (e : Error) : R A := fun st => Some (Err e, st).
Definition outOfFuel {A} : R A := fun _ => None.

Definition bindR {A B} (m : R A) (k : A -> R B) : R B :=
  fun st =>
    match m st with
    | Some (Ok a, st') => k a st'
    | Some (Err e, st') => Some (Err e, st')
    | None => None
    end.

Definition getState : R State := fun st => Some (Ok st, st).
Definition modifyState (f : State -> State) : R unit := fun st => Some (Ok tt, f st).

Definition logCalls (calls : list Call) (st : State) : State :=
  mkState (_directiveCache st) (_directiveSummaryCache st) (_pipeCache st)
    (_pipeSummaryCache st) (_ngModuleCache st) (_ngModuleOfTypes st)
    (callLog st ++ calls).

Definition liftW {A} (w : W A) : R A :=
  fun st => Some (snd w, logCalls (fst w) st).

Declare Scope R_scope.
Delimit Scope R_scope with R.
Notation "x <- m ; k" := (bindR m (fun x => k))
  (at level 20, m at level 100, k at level 200, only parsing) : R_scope.
Notation "' p <- m ; k" := (bindR m (fun x => let 'p := x in k))
  (at level 20, p pattern, m at level 100, k at level 200, only parsing) : R_scope.

Fixpoint mapR {A B} (f : A -> R B) (l : list A) : R (list B) :=
  match l with
  | [] => retR []
  | x :: r => (y <- f x ; ys <- mapR f r ; retR (y :: ys))%R
  end.

(** *** Updates of the caches *)

Definition set_directiveCaches (type : Value) (meta : CompileDirectiveMetadata) (st : State)
    : State :=
  mkState (JsMap.set type meta (_directiveCache st))
    (JsMap.set type (directive_toSummary meta) (_directiveSummaryCache st))
    (_pipeCache st) (_pipeSummaryCache st) (_ngModuleCache st) (_ngModuleOfTypes st)
    (callLog st).

Definition set_pipeCaches (type : Value) (meta : CompilePipeMetadata) (st : State) : State :=
  mkState (_directiveCache st) (_directiveSummaryCache st)
    (JsMap.set type meta (_pipeCache st))
    (JsMap.set type (pipe_toSummary meta) (_pipeSummaryCache st))
    (_ngModuleCache st) (_ngModuleOfTypes st) (callLog st).

Definition set_ngModuleCache (type : Value) (meta : CompileNgModuleMetadata) (st : State)
    : State :=
  mkState (_directiveCache st) (_directiveSummaryCache st) (_pipeCache st)
    (_pipeSummaryCache st) (JsMap.set type meta (_ngModuleCache st)) (_ngModuleOfTypes st)
    (callLog st).

Definition set_ngModuleOfTypes (type moduleType : Value) (st : State) : State :=
  mkState (_directiveCache st) (_directiveSummaryCache st) (_pipeCache st)
    (_pipeSummaryCache st) (_ngModuleCache st)
    (JsMap.set type moduleType (_ngModuleOfTypes st)) (callLog st).

Definition dq : string := String (ascii_of_nat 34) EmptyString.

Section Resolver.

Variable E : Env.

(** *** [clearCacheFor], [clearCache] *)

Definition clearCacheFor (type : Value) : R unit :=
  fun st =>
    let dirMeta := JsMap.get (_directiveCache st) type in
    Some (Ok tt,
          mkState (JsMap.delete type (_directiveCache st))
            (JsMap.delete type (_directiveSummaryCache st))
            (JsMap.delete type (_pipeCache st))
            (JsMap.delete type (_pipeSummaryCache st))
            (JsMap.clear (_ngModuleCache st))
            (JsMap.delete type (_ngModuleOfTypes st))
            (callLog st ++
               match dirMeta with
               | Some _ => [CallNormalizerClearCacheFor type]
               | None => []
               end)).

Definition clearCache : R unit :=
  fun st =>
    Some (Ok tt,
          mkState (JsMap.clear (_directiveCache st))
            (JsMap.clear (_directiveSummaryCache st))
            (JsMap.clear (_pipeCache st))
            (JsMap.clear (_pipeSummaryCache st))
            (JsMap.clear (_ngModuleCache st))
            (JsMap.clear (_ngModuleOfTypes st))
            (callLog st ++ [CallNormalizerClearCache])).

(** *** Queries *)

Definition _queryVarBindings (selector : string) : list string :=
  splitQuerySelector E selector.

Definition _getQueryMetadata (q : Query) (propertyName : string) (typeOrFunc : Value)
    : W CompileQueryMetadata :=
  (selectors <-
     match q_selector q with
     | VStr s => retW (map (fun varName => _getTokenMetadata (VStr varName))
                         (_queryVarBindings s))
     | selector =>
         if negb (truthy selector) then
           throwW (QuerySelectorUndefined propertyName typeOrFunc)
         else retW [_getTokenMetadata selector]
     end ;
   retW {| query_selectors := selectors;
           query_first := q_first q;
           query_descendants := q_descendants q;
           query_propertyName := propertyName;
           query_read := if truthy (q_read q) then Some (_getTokenMetadata (q_read q))
                         else None |})%W.

Fixpoint _getQueriesMetadata (queries : list (string * Query)) (isViewQuery : bool)
    (directiveType : Value) : W (list CompileQueryMetadata) :=
  match queries with
  | [] => retW []
  | (propertyName, query) :: rest =>
      (res1 <- (if Bool.eqb (q_isViewQuery query) isViewQuery then
                  m <- _getQueryMetadata query propertyName directiveType ; retW [m]
                else retW []) ;
       res2 <- _getQueriesMetadata rest isViewQuery directiveType ;
       retW (res1 ++ res2))%W
  end.

(** *** Directives *)

Definition assertW (check : option string) : W unit :=
  match check with
  | Some message => throwW (AssertionError message)
  | None => retW tt
  end.

Definition selectorMissing (selector : option string) : bool :=
  match selector with
  | None => true
  | Some s => negb (truthy (VStr s))
  end.

Definition getNonNormalizedDirectiveMetadata (directiveType : Value)
    : W (option (Directive * CompileDirectiveMetadata)) :=
  (let directiveType := resolveForwardRef directiveType in
   dirMeta <- directiveResolver_resolve_call E directiveType ;
   match dirMeta with
   | None => retW None
   | Some dirMeta =>
       nonNormalizedTemplateMetadata <-
         match d_component dirMeta with
         | Some cmp =>
             _ <- assertW (assertArrayOfStrings E "styles" (cmp_styles cmp)) ;
             _ <- assertW (assertArrayOfStrings E "styleUrls" (cmp_styleUrls cmp)) ;
             _ <- assertW (assertInterpolationSymbols E "interpolation"
                             (cmp_interpolation cmp)) ;
             let animations :=
               match cmp_animations cmp with
               | Some entries => Some (map getAnimationEntryMetadata entries)
               | None => None
               end in
             retW (Some {| tpl_encapsulation := cmp_encapsulation cmp;
                           tpl_template := cmp_template cmp;
                           tpl_templateUrl := cmp_templateUrl cmp;
                           tpl_styles := cmp_styles cmp;
                           tpl_styleUrls := cmp_styleUrls cmp;
                           tpl_animations := animations;
                           tpl_interpolation := cmp_interpolation cmp |})
         | None => retW None
         end ;
       '(changeDetectionStrategy, viewProviders, entryComponentMetadata, selector) <-
         match d_component dirMeta with
         | Some cmp =>
             '(viewProviders, sink) <-
               match cmp_viewProviders cmp with
               | Some vps =>
                   _getProvidersMetadata E vps
                     (Some ("viewProviders for " +:+ dq +:+ stringify E directiveType +:+ dq))
               | None => retW ([], [])
               end ;
             let entryComponentMetadata :=
               match cmp_entryComponents cmp with
               | Some ecs =>
                   map (fun type => _getIdentifierMetadata type) (flattenAndDedupeArray ecs)
                     ++ sink
               | None => sink
               end in
             selector <-
               (if selectorMissing (d_selector dirMeta) then
                  callW CallGetDefaultComponentElementName
                    (schemaRegistry_getDefaultComponentElementName E)
                else retW (default EmptyString (d_selector dirMeta))) ;
             retW (cmp_changeDetection cmp, viewProviders, entryComponentMetadata, selector)
         | None =>
             if selectorMissing (d_selector dirMeta) then
               throwW (MissingSelector directiveType)
             else retW (VNull, [], [], default EmptyString (d_selector dirMeta))
         end ;
       '(providers, sink) <-
         match d_providers dirMeta with
         | Some ps =>
             _getProvidersMetadata E ps
               (Some ("providers for " +:+ dq +:+ stringify E directiveType +:+ dq))
         | None => retW ([], [])
         end ;
       let entryComponentMetadata := entryComponentMetadata ++ sink in
       '(queries, viewQueries) <-
         match d_queries dirMeta with
         | Some qs =>
             queries <- _getQueriesMetadata qs false directiveType ;
             viewQueries <- _getQueriesMetadata qs true directiveType ;
             retW (queries, viewQueries)
         | None => retW ([], [])
         end ;
       type <- _getTypeMetadata E directiveType None ;
       (* CompileDirectiveMetadata.create *)
       let metadata :=
         {| dir_type := type;
            dir_isComponent :=
              match nonNormalizedTemplateMetadata with Some _ => true | None => false end;
            dir_selector := selector;
            dir_exportAs := d_exportAs dirMeta;
            dir_changeDetection := changeDetectionStrategy;
            dir_inputs := create_inputs E (d_inputs dirMeta);
            dir_outputs := create_outputs E (d_outputs dirMeta);
            dir_hostListeners := create_hostListeners E (d_host dirMeta);
            dir_hostProperties := create_hostProperties E (d_host dirMeta);
            dir_hostAttributes := create_hostAttributes E (d_host dirMeta);
            dir_providers := providers;
            dir_viewProviders := viewProviders;
            dir_queries := queries;
            dir_viewQueries := viewQueries;
            dir_entryComponents := entryComponentMetadata;
            dir_template := nonNormalizedTemplateMetadata |} in
       retW (Some (dirMeta, metadata))
   end)%W.

Definition componentModuleUrl (type : Value) (cmpMetadata : Directive) : W string :=
  match type with
  | VStatic _ filePath => retW filePath
  | _ =>
      let moduleId :=
        match d_component cmpMetadata with
        | Some cmp => cmp_moduleId cmp
        | None => VNull
        end in
      match moduleId with
      | VStr moduleId =>
          let scheme := getUrlScheme E moduleId in
          retW (if truthy (VStr scheme) then moduleId
                else "package:" +:+ moduleId +:+ MODULE_SUFFIX E)
      | VNull => callW (CallReflectorImportUri type) (reflector_importUri E type)
      | _ => throwW (ModuleIdNotString type)
      end
  end.

(** The closure [createDirectiveMetadata] of [_loadDirectiveMetadata]:
    it builds the normalized record from the non-normalized [metadata] and
    stores it and its summary under [directiveType]. *)
Definition createDirectiveMetadata (directiveType : Value)
    (metadata : CompileDirectiveMetadata) (templateMetadata : option CompileTemplateMetadata)
    : R CompileDirectiveMetadata :=
  let normalizedDirMeta :=
    {| dir_type := dir_type metadata;
       dir_isComponent := dir_isComponent metadata;
       dir_selector := dir_selector metadata;
       dir_exportAs := dir_exportAs metadata;
       dir_changeDetection := dir_changeDetection metadata;
       dir_inputs := dir_inputs metadata;
       dir_outputs := dir_outputs metadata;
       dir_hostListeners := dir_hostListeners metadata;
       dir_hostProperties := dir_hostProperties metadata;
       dir_hostAttributes := dir_hostAttributes metadata;
       dir_providers := dir_providers metadata;
       dir_viewProviders := dir_viewProviders metadata;
       dir_queries := dir_queries metadata;
       dir_viewQueries := dir_viewQueries metadata;
       dir_entryComponents := dir_entryComponents metadata;
       dir_template := templateMetadata |} in
  (_ <- modifyState (set_directiveCaches directiveType normalizedDirMeta) ;
   retR normalizedDirMeta)%R.

(** The promise [templateMeta.asyncResult.then(createDirectiveMetadata)]:
    the pending template promise and what the continuation captured. *)
Record PendingDirective := mkPending {
  pending_asyncResult : positive;
  pending_directiveType : Value;
  pending_metadata : CompileDirectiveMetadata
}.

(** What [_loadDirectiveMetadata] returns: [undefined] on a cache hit,
    [null] when the metadata was stored synchronously, a promise
    otherwise. *)
Inductive LoadResult :=
| LoadUndefined
| LoadNull
| LoadPromise (p : PendingDirective).

Definition _loadDirectiveMetadata (directiveType : Value) (isSync : bool) : R LoadResult :=
  (st <- getState ;
   if JsMap.has (_directiveCache st) directiveType then retR LoadUndefined
   else
     let directiveType := resolveForwardRef directiveType in
     nonNormalized <- liftW (getNonNormalizedDirectiveMetadata directiveType) ;
     match nonNormalized with
     | None => throwR TypeError
     | Some (annotation, metadata) =>
         if dir_isComponent metadata then
           match dir_template metadata with
           | None => throwR TypeError
           | Some template =>
               moduleUrl <- liftW (componentModuleUrl directiveType annotation) ;
               templateMeta <-
                 liftW (callW (CallNormalizeTemplate directiveType)
                          (directiveNormalizer_normalizeTemplate E
                             {| pre_componentType := directiveType;
                                pre_moduleUrl := moduleUrl;
                                pre_encapsulation := tpl_encapsulation template;
                                pre_template := tpl_template template;
                                pre_templateUrl := tpl_templateUrl template;
                                pre_styles := tpl_styles template;
                                pre_styleUrls := tpl_styleUrls template;
                                pre_animations := tpl_animations template;
                                pre_interpolation := tpl_interpolation template |})) ;
               match templateMeta with
               | SyncResult syncResult =>
                   _ <- createDirectiveMetadata directiveType metadata (Some syncResult) ;
                   retR LoadNull
               | AsyncResult asyncResult =>
                   if isSync then throwR (ComponentStillLoading directiveType)
                   else retR (LoadPromise (mkPending asyncResult directiveType metadata))
               end
           end
         else
           (* directive *)
           _ <- createDirectiveMetadata directiveType metadata None ;
           retR LoadNull
     end)%R.

(** The continuation of a pending directive, run when the template
    promise resolves to [templateMetadata]. *)
Definition resolvePending (p : PendingDirective) (templateMetadata : CompileTemplateMetadata)
    : R CompileDirectiveMetadata :=
  createDirectiveMetadata (pending_directiveType p) (pending_metadata p)
    (Some templateMetadata).

(** *** Accessors *)

Definition getDirectiveMetadata (directiveType : Value) : R CompileDirectiveMetadata :=
  (st <- getState ;
   match JsMap.get (_directiveCache st) directiveType with
   | Some dirMeta => retR dirMeta
   | None => throwR (IllegalState "getDirectiveMetadata" directiveType)
   end)%R.

Definition getDirectiveSummary (dirType : Value) : R CompileDirectiveSummary :=
  (st <- getState ;
   match JsMap.get (_directiveSummaryCache st) dirType with
   | Some dirSummary => retR dirSummary
   | None => throwR (IllegalState "getDirectiveSummary" dirType)
   end)%R.

Definition getNgModuleMetadata (moduleType : Value) : R CompileNgModuleMetadata :=
  (st <- getState ;
   match JsMap.get (_ngModuleCache st) moduleType with
   | Some modMeta => retR modMeta
   | None => throwR (IllegalState "getNgModuleMetadata" moduleType)
   end)%R.

Definition getPipeMetadata (pipeType : Value) : R CompilePipeMetadata :=
  (st <- getState ;
   match JsMap.get (_pipeCache st) pipeType with
   | Some pipeMeta => retR pipeMeta
   | None => throwR (IllegalState "getPipeMetadata" pipeType)
   end)%R.

Definition getPipeSummary (pipeType : Value) : R CompilePipeSummary :=
  (st <- getState ;
   match JsMap.get (_pipeSummaryCache st) pipeType with
   | Some pipeSummary => retR pipeSummary
   | None => throwR (IllegalState "getPipeSummary" pipeType)
   end)%R.

(** *** Pipes *)

Definition _loadPipeMetadata (pipeType : Value) : R CompilePipeMetadata :=
  (let pipeType := resolveForwardRef pipeType in
   pipeAnnotation <- liftW (pipeResolver_resolve_call E pipeType) ;
   type <- liftW (_getTypeMetadata E pipeType None) ;
   let pipeMeta :=
     {| pipe_type := type; pipe_name := p_name pipeAnnotation;
        pipe_pure := p_pure pipeAnnotation |} in
   _ <- modifyState (set_pipeCaches pipeType pipeMeta) ;
   retR pipeMeta)%R.

Definition getOrLoadPipeMetadata (pipeType : Value) : R CompilePipeMetadata :=
  (st <- getState ;
   match JsMap.get (_pipeCache st) pipeType with
   | Some pipeMeta => retR pipeMeta
   | None => _loadPipeMetadata pipeType
   end)%R.

(** *** Modules *)

Definition _getTypeDescriptor (type : Value) : W string :=
  (isDir <- isDirective E type ;
   if isDir then retW "directive"
   else
     isP <- isPipe E type ;
     if isP then retW "pipe"
     else
       isM <- isNgModule E type ;
       if isM then retW "module"
       else if truthy (getProperty type "provide") then retW "provider"
       else retW "value")%W.

Definition _addTypeToModule (type moduleType : Value) : R unit :=
  (st <- getState ;
   let oldModule := default VNull (JsMap.get (_ngModuleOfTypes st) type) in
   if truthy oldModule && negb (bool_decide (oldModule = moduleType)) then
     throwR (DirectiveInTwoModules type oldModule moduleType)
   else modifyState (set_ngModuleOfTypes type moduleType))%R.

(** [getTransitiveExportedModules] and [getTransitiveImportedModules]:
    the visit of one module, on the accumulated [targetModules] and
    [visitedModules]. *)
Fixpoint visitTransitiveExported (ngModule : CompileNgModuleSummary)
    (acc : list CompileNgModuleSummary * JsSet.t) : list CompileNgModuleSummary * JsSet.t :=
  if JsSet.has (snd acc) (type_reference (sum_type ngModule)) then acc
  else
    let acc1 := (fst acc, JsSet.add (type_reference (sum_type ngModule)) (snd acc)) in
    let acc2 := fold_left (fun a m => visitTransitiveExported m a)
                  (sum_exportedModules ngModule) acc1 in
    (* Add after recursing so imported/exported modules are before the module itself. *)
    (fst acc2 ++ [ngModule], snd acc2).

Definition getTransitiveExportedModulesFrom (modules : list CompileNgModuleSummary)
    (targetModules : list CompileNgModuleSummary) (visitedModules : JsSet.t)
    : list CompileNgModuleSummary * JsSet.t :=
  fold_left (fun a m => visitTransitiveExported m a) modules (targetModules, visitedModules).

Definition getTransitiveExportedModules (modules : list CompileNgModuleSummary)
    : list CompileNgModuleSummary :=
  fst (getTransitiveExportedModulesFrom modules [] []).

(** [nestedModules] is [importedModules.concat(exportedModules)]: the
    imported modules are visited first, then the exported ones. *)
Fixpoint visitTransitiveImported (ngModule : CompileNgModuleSummary)
    (acc : list CompileNgModuleSummary * JsSet.t) : list CompileNgModuleSummary * JsSet.t :=
  if JsSet.has (snd acc) (type_reference (sum_type ngModule)) then acc
  else
    let acc1 := (fst acc, JsSet.add (type_reference (sum_type ngModule)) (snd acc)) in
    let acc2 := fold_left (fun a m => visitTransitiveImported m a)
                  (sum_exportedModules ngModule)
                  (fold_left (fun a m => visitTransitiveImported m a)
                     (sum_importedModules ngModule) acc1) in
    (* Add after recursing so imported/exported modules are before the module itself. *)
    (fst acc2 ++ [ngModule], snd acc2).

Definition getTransitiveImportedModulesFrom (modules : list CompileNgModuleSummary)
    (targetModules : list CompileNgModuleSummary) (visitedModules : JsSet.t)
    : list CompileNgModuleSummary * JsSet.t :=
  fold_left (fun a m => visitTransitiveImported m a) modules (targetModules, visitedModules).

Definition getTransitiveImportedModules (modules : list CompileNgModuleSummary)
    : list CompileNgModuleSummary :=
  fst (getTransitiveImportedModulesFrom modules [] []).

(** [flattenArray] on the provider arrays of the transitive modules. *)
Fixpoint flattenProvider (p : CompileProvider) : list CompileProvider :=
  match p with
  | CPArray l => flat_map flattenProvider l
  | _ => [p]
  end.

Definition flattenProviders (tree : list CompileProvider) : list CompileProvider :=
  flat_map flattenProvider tree.

Definition _getTransitiveNgModuleMetadata
    (importedModules exportedModules : list CompileNgModuleSummary)
    : TransitiveCompileNgModuleMetadata :=
  (* collect `providers` / `entryComponents` from all imported and all exported modules *)
  let transitiveModules := getTransitiveImportedModules (importedModules ++ exportedModules) in
  let providers :=
    flat_map (fun ngModule => flattenProviders (sum_providers ngModule)) transitiveModules in
  let entryComponents :=
    flat_map (fun ngModule => sum_entryComponents ngModule) transitiveModules in
  let transitiveExportedModules := getTransitiveExportedModules importedModules in
  let directives :=
    flat_map (fun ngModule => sum_exportedDirectives ngModule) transitiveExportedModules in
  let pipes :=
    flat_map (fun ngModule => sum_exportedPipes ngModule) transitiveExportedModules in
  let directiveLoaders :=
    flat_map (fun ngModule => sum_directiveLoaders ngModule) transitiveExportedModules in
  newTransitiveCompileNgModuleMetadata
    transitiveModules providers entryComponents directives pipes directiveLoaders.

(** The first half of the callback of [meta.imports.forEach]: the module
    type of the entry, and what a module-with-providers pushes on
    [providers] and [entryComponents]. *)
Definition importedModuleTypeOf (importedType : Value)
    : W (option Value * list CompileProvider * list CompileIdentifierMetadata) :=
  if isValidType importedType then retW (Some importedType, [], [])
  else if truthy importedType && truthy (getProperty importedType "ngModule") then
    let importedModuleType := getProperty importedType "ngModule" in
    match getProperty importedType "providers" with
    | VArr providers =>
        ('(out, sink) <-
           _getProvidersMetadata E providers
             (Some ("provider for the NgModule '" +:+ stringify E importedModuleType +:+ "'")) ;
         retW (Some importedModuleType, out, sink))%W
    | providers =>
        if truthy providers then throwW TypeError
        else retW (Some importedModuleType, [], [])
    end
  else retW (None, [], []).

Section ModuleBody.

(** The recursive call, [this._loadNgModuleMetadata]. *)
Variable recur : Value -> bool -> bool -> R (option CompileNgModuleMetadata).

Definition _loadNgModuleSummary (moduleType : Value) (isSync : bool)
    : R (option CompileNgModuleSummary) :=
  (moduleMeta <- recur moduleType isSync false ;
   retR (match moduleMeta with Some m => Some (toSummary m) | None => None end))%R.

(** The callback of [flattenAndDedupeArray(meta.imports).forEach]. *)
Definition importEntry (moduleType : Value) (isSync : bool) (importedType : Value)
    : R (CompileNgModuleSummary * list CompileProvider * list CompileIdentifierMetadata) :=
  ('(importedModuleType, providers, entryComponents) <-
     liftW (importedModuleTypeOf importedType) ;
   match importedModuleType with
   | Some importedModuleType =>
       importedModuleSummary <- _loadNgModuleSummary importedModuleType isSync ;
       match importedModuleSummary with
       | None =>
           descriptor <- liftW (_getTypeDescriptor importedType) ;
           throwR (InvalidImportKind descriptor importedType moduleType)
       | Some importedModuleSummary =>
           retR (importedModuleSummary, providers, entryComponents)
       end
   | None => throwR (InvalidImport importedType moduleType)
   end)%R.

(** The callback of [flattenAndDedupeArray(meta.exports).forEach]: an
    exported module summary, or an exported non-module identifier. *)
Definition exportEntry (moduleType : Value) (isSync : bool) (exportedType : Value)
    : R (CompileNgModuleSummary + CompileIdentifierMetadata) :=
  if negb (isValidType exportedType) then throwR (InvalidExport exportedType moduleType)
  else
    (exportedModuleSummary <- _loadNgModuleSummary exportedType isSync ;
     match exportedModuleSummary with
     | Some exportedModuleSummary => retR (inl exportedModuleSummary)
     | None => retR (inr (_getIdentifierMetadata exportedType))
     end)%R.

End ModuleBody.

(** What the callback of [meta.declarations.forEach] adds for one
    declared type. *)
Inductive Declared :=
| DeclaredDirective (declaredType : Value) (declaredIdentifier : CompileIdentifierMetadata)
    (loader : DirectiveLoader)
| DeclaredPipe (declaredType : Value) (declaredIdentifier : CompileIdentifierMetadata).

Definition declarationEntry (moduleType : Value) (isSync : bool) (declaredType : Value)
    : R Declared :=
  if negb (isValidType declaredType) then throwR (InvalidDeclaration declaredType moduleType)
  else
    (let declaredIdentifier := _getIdentifierMetadata declaredType in
     isDir <- liftW (isDirective E declaredType) ;
     if isDir then
       _ <- _addTypeToModule declaredType moduleType ;
       retR (DeclaredDirective declaredType declaredIdentifier
               (mkLoader declaredType isSync))
     else
       isP <- liftW (isPipe E declaredType) ;
       if isP then
         _ <- _addTypeToModule declaredType moduleType ;
         _ <- _loadPipeMetadata declaredType ;
         retR (DeclaredPipe declaredType declaredIdentifier)
       else
         descriptor <- liftW (_getTypeDescriptor declaredType) ;
         throwR (InvalidDeclarationKind descriptor declaredType moduleType))%R.

(** The pushes of one declaration on the transitive module. *)
Definition declareIn (transitiveModule : TransitiveCompileNgModuleMetadata) (d : Declared)
    : TransitiveCompileNgModuleMetadata :=
  match d with
  | DeclaredDirective declaredType declaredIdentifier loader =>
      {| tm_modules := tm_modules transitiveModule;
         tm_providers := tm_providers transitiveModule;
         tm_entryComponents := tm_entryComponents transitiveModule;
         tm_directives := tm_directives transitiveModule ++ [declaredIdentifier];
         tm_pipes := tm_pipes transitiveModule;
         tm_directiveLoaders := tm_directiveLoaders transitiveModule ++ [loader];
         tm_directivesSet := JsSet.add declaredType (tm_directivesSet transitiveModule);
         tm_pipesSet := tm_pipesSet transitiveModule |}
  | DeclaredPipe declaredType declaredIdentifier =>
      {| tm_modules := tm_modules transitiveModule;
         tm_providers := tm_providers transitiveModule;
         tm_entryComponents := tm_entryComponents transitiveModule;
         tm_directives := tm_directives transitiveModule;
         tm_pipes := tm_pipes transitiveModule ++ [declaredIdentifier];
         tm_directiveLoaders := tm_directiveLoaders transitiveModule;
         tm_directivesSet := tm_directivesSet transitiveModule;
         tm_pipesSet := JsSet.add declaredType (tm_pipesSet transitiveModule) |}
  end.

Definition declaredDirectiveOf (d : Declared) : option CompileIdentifierMetadata :=
  match d with DeclaredDirective _ i _ => Some i | DeclaredPipe _ _ => None end.

Definition declaredPipeOf (d : Declared) : option CompileIdentifierMetadata :=
  match d with DeclaredPipe _ i => Some i | DeclaredDirective _ _ _ => None end.

(** [exportedNonModuleIdentifiers.forEach]: the exported directives and
    the exported pipes, or the error for the first identifier that is in
    neither set. *)
Fixpoint classifyExports (transitiveModule : TransitiveCompileNgModuleMetadata)
    (moduleType : Value) (exportedNonModuleIdentifiers : list CompileIdentifierMetadata)
    : W (list CompileIdentifierMetadata * list CompileIdentifierMetadata) :=
  match exportedNonModuleIdentifiers with
  | [] => retW ([], [])
  | exportedId :: rest =>
      if JsSet.has (tm_directivesSet transitiveModule) (reference exportedId) then
        ('(exportedDirectives, exportedPipes) <-
           classifyExports transitiveModule moduleType rest ;
         retW (exportedId :: exportedDirectives, exportedPipes))%W
      else if JsSet.has (tm_pipesSet transitiveModule) (reference exportedId) then
        ('(exportedDirectives, exportedPipes) <-
           classifyExports transitiveModule moduleType rest ;
         retW (exportedDirectives, exportedId :: exportedPipes))%W
      else
        (descriptor <- _getTypeDescriptor (reference exportedId) ;
         throwW (UndeclaredExport descriptor (reference exportedId) moduleType))%W
  end.

Definition bootstrapEntry (moduleType : Value) (type : Value) : W CompileTypeMetadata :=
  if negb (isValidType type) then throwW (InvalidBootstrap type moduleType)
  else _getTypeMetadata E type None.

Definition lefts {A B} (l : list (A + B)) : list A :=
  omap (fun x => match x with inl a => Some a | inr _ => None end) l.

Definition rights {A B} (l : list (A + B)) : list B :=
  omap (fun x => match x with inr b => Some b | inl _ => None end) l.

(** The part of [_loadNgModuleMetadata] after the declarations: the
    exports are classified, the providers of the module go last, and the
    record is built. *)
Definition finishNgModule (moduleType : Value) (meta : NgModule)
    (importedModules exportedModules : list CompileNgModuleSummary)
    (exportedNonModuleIdentifiers : list CompileIdentifierMetadata)
    (providers0 : list CompileProvider) (entryComponents0 : list CompileIdentifierMetadata)
    (declared : list Declared) (transitiveModule : TransitiveCompileNgModuleMetadata)
    : W CompileNgModuleMetadata :=
  ('(exportedDirectives, exportedPipes) <-
     classifyExports transitiveModule moduleType exportedNonModuleIdentifiers ;
   (* The providers of the module have to go last
      so that they overwrite any other provider we already added. *)
   '(providers1, sink1) <-
     match m_providers meta with
     | Some ps =>
         _getProvidersMetadata E ps
           (Some ("provider for the NgModule '" +:+ stringify E moduleType +:+ "'"))
     | None => retW ([], [])
     end ;
   let providers := providers0 ++ providers1 in
   entryTypes <-
     match m_entryComponents meta with
     | Some ecs => mapW (fun type => _getTypeMetadata E type None) (flattenAndDedupeArray ecs)
     | None => retW []
     end ;
   bootstrapComponents <-
     match m_bootstrap meta with
     | Some bs => mapW (bootstrapEntry moduleType) (flattenAndDedupeArray bs)
     | None => retW []
     end ;
   let entryComponents :=
     map EntryIdentifier (entryComponents0 ++ sink1) ++ map EntryType entryTypes
       ++ map EntryType bootstrapComponents in
   let schemas :=
     match m_schemas meta with
     | Some ss => flattenAndDedupeArray ss
     | None => []
     end in
   type <- _getTypeMetadata E moduleType None ;
   let compileMeta0 :=
     {| mod_type := type;
        mod_providers := providers;
        mod_entryComponents := entryComponents;
        mod_bootstrapComponents := bootstrapComponents;
        mod_schemas := schemas;
        mod_declaredDirectives := omap declaredDirectiveOf declared;
        mod_exportedDirectives := exportedDirectives;
        mod_declaredPipes := omap declaredPipeOf declared;
        mod_exportedPipes := exportedPipes;
        mod_importedModules := importedModules;
        mod_exportedModules := exportedModules;
        mod_transitiveModule := transitiveModule;
        mod_id := m_id meta |} in
   (* the transitive module is shared with the record and is pushed on
      until the record is stored *)
   let transitiveModule' :=
     {| tm_modules := tm_modules transitiveModule ++ [toInjectorSummary compileMeta0];
        tm_providers := tm_providers transitiveModule ++ providers;
        tm_entryComponents := tm_entryComponents transitiveModule ++ entryComponents;
        tm_directives := tm_directives transitiveModule;
        tm_pipes := tm_pipes transitiveModule;
        tm_directiveLoaders := tm_directiveLoaders transitiveModule;
        tm_directivesSet := tm_directivesSet transitiveModule;
        tm_pipesSet := tm_pipesSet transitiveModule |} in
   retW {| mod_type := type;
           mod_providers := providers;
           mod_entryComponents := entryComponents;
           mod_bootstrapComponents := bootstrapComponents;
           mod_schemas := schemas;
           mod_declaredDirectives := omap declaredDirectiveOf declared;
           mod_exportedDirectives := exportedDirectives;
           mod_declaredPipes := omap declaredPipeOf declared;
           mod_exportedPipes := exportedPipes;
           mod_importedModules := importedModules;
           mod_exportedModules := exportedModules;
           mod_transitiveModule := transitiveModule';
           mod_id := m_id meta |})%W.

(** The three loops of [_loadNgModuleMetadata], over [meta.imports],
    [meta.exports] and [meta.declarations]. *)
Definition importsPhase
    (recur : Value -> bool -> bool -> R (option CompileNgModuleMetadata))
    (moduleType : Value) (isSync : bool) (meta : NgModule)
    : R (list (CompileNgModuleSummary * list CompileProvider
               * list CompileIdentifierMetadata)) :=
  match m_imports meta with
  | Some l => mapR (importEntry recur moduleType isSync) (flattenAndDedupeArray l)
  | None => retR []
  end.

Definition exportsPhase
    (recur : Value -> bool -> bool -> R (option CompileNgModuleMetadata))
    (moduleType : Value) (isSync : bool) (meta : NgModule)
    : R (list (CompileNgModuleSummary + CompileIdentifierMetadata)) :=
  match m_exports meta with
  | Some l => mapR (exportEntry recur moduleType isSync) (flattenAndDedupeArray l)
  | None => retR []
  end.

Definition declarationsPhase (moduleType : Value) (isSync : bool) (meta : NgModule)
    : R (list Declared) :=
  match m_declarations meta with
  | Some l => mapR (declarationEntry moduleType isSync) (flattenAndDedupeArray l)
  | None => retR []
  end.

(** The transitive module after the declarations. *)
Definition transitiveModuleOf
    (imports : list (CompileNgModuleSummary * list CompileProvider
                     * list CompileIdentifierMetadata))
    (exports : list (CompileNgModuleSummary + CompileIdentifierMetadata))
    (declared : list Declared) : TransitiveCompileNgModuleMetadata :=
  (* Note: This will be modified later, so we rely on
     getting a new instance every time! *)
  fold_left declareIn declared
    (_getTransitiveNgModuleMetadata (map (fun i => fst (fst i)) imports) (lefts exports)).

(** The body of [_loadNgModuleMetadata], with the recursive call as a
    parameter. *)
Definition loadNgModuleBody
    (recur : Value -> bool -> bool -> R (option CompileNgModuleMetadata))
    (moduleType : Value) (isSync throwIfNotFound : bool)
    : R (option CompileNgModuleMetadata) :=
  (let moduleType := resolveForwardRef moduleType in
   st <- getState ;
   match JsMap.get (_ngModuleCache st) moduleType with
   | Some compileMeta => retR (Some compileMeta)
   | None =>
       meta <- liftW (ngModuleResolver_resolve_call E moduleType throwIfNotFound) ;
       match meta with
       | None => retR None
       | Some meta =>
           imports <- importsPhase recur moduleType isSync meta ;
           let importedModules := map (fun i => fst (fst i)) imports in
           let providers := flat_map (fun i => snd (fst i)) imports in
           let entryComponents := flat_map (fun i => snd i) imports in
           exports <- exportsPhase recur moduleType isSync meta ;
           let exportedModules := lefts exports in
           let exportedNonModuleIdentifiers := rights exports in
           declared <- declarationsPhase moduleType isSync meta ;
           let transitiveModule := transitiveModuleOf imports exports declared in
           compileMeta <-
             liftW (finishNgModule moduleType meta importedModules exportedModules
                      exportedNonModuleIdentifiers providers entryComponents declared
                      transitiveModule) ;
           _ <- modifyState (set_ngModuleCache moduleType compileMeta) ;
           retR (Some compileMeta)
       end
   end)%R.

(** [_loadNgModuleMetadata]; the fuel bounds the depth of the recursion
    through imported and exported modules. *)
Fixpoint _loadNgModuleMetadata (fuel : nat) (moduleType : Value) (isSync throwIfNotFound : bool)
    : R (option CompileNgModuleMetadata) :=
  match fuel with
  | O => outOfFuel
  | S fuel' => loadNgModuleBody (_loadNgModuleMetadata fuel') moduleType isSync throwIfNotFound
  end.

(** Get the NgModule metadata without loading the directives. *)
Definition getUnloadedNgModuleMetadata (fuel : nat) (moduleType : Value)
    (isSync throwIfNotFound : bool) : R (option CompileNgModuleMetadata) :=
  _loadNgModuleMetadata fuel moduleType isSync throwIfNotFound.

(** [loadNgModuleMetadata]: the module and, for [loading], what each
    directive loader returned. *)
Definition loadNgModuleMetadata (fuel : nat) (moduleType : Value)
    (isSync throwIfNotFound : bool)
    : R (option CompileNgModuleMetadata * list LoadResult) :=
  (ngModule <- _loadNgModuleMetadata fuel moduleType isSync throwIfNotFound ;
   match ngModule with
   | Some m =>
       loading <- mapR (fun loader =>
                          _loadDirectiveMetadata (loader_declaredType loader)
                            (loader_isSync loader))
                    (tm_directiveLoaders (mod_transitiveModule m)) ;
       retR (Some m, loading)
   | None => retR (None, [])
   end)%R.

End Resolver.

(** ** The messages of the errors thrown by the resolver *)

(** [Array.prototype.join]. *)
Fixpoint join (separator : string) (l : list string) : string :=
  match l with
  | [] => EmptyString
  | [x] => x
  | x :: r => x +:+ separator +:+ join separator r
  end.

(** [depsTokens] of [_getDependenciesMetadata]. *)
Definition depsTokens (E : Env) (deps : list (option CompileDiDependencyMetadata)) : string :=
  join ", " (map (fun dep => match dep with
                             | Some dep => stringifyToken E (token dep)
                             | None => "?"
                             end) deps).

Definition illegalStateMessage (accessor : string) : string * string :=
  if String.eqb accessor "getDirectiveMetadata" then
    (" for a module that declares it. Directive ", ".")
  else if String.eqb accessor "getDirectiveSummary" then
    (" for a module that imports it. Directive ", ".")
  else if String.eqb accessor "getPipeMetadata" then
    (" for a module that declares it. Pipe ", ".")
  else if String.eqb accessor "getPipeSummary" then
    (" for a module that imports it. Pipe ", ".")
  else (". Module ", ".").

Definition errorMessage (E : Env) (e : Error) : string :=
  match e with
  | NoNgModuleMetadata type => "No NgModule metadata found for '" +:+ stringify E type +:+ "'."
  | NoDirectiveMetadata type => "No Directive annotation found on " +:+ stringify E type
  | NoPipeMetadata type => "No Pipe decorator found on " +:+ stringify E type
  | TypeError => "TypeError"
  | AssertionError message => message
  | MissingSelector directiveType =>
      "Directive " +:+ stringify E directiveType +:+ " has no selector, please add it!"
  | ModuleIdNotString type =>
      "moduleId should be a string in " +:+ dq +:+ stringify E type +:+ dq +:+ "."
  | UnresolvedDependency typeOrFunc deps =>
      "Can't resolve all parameters for " +:+ stringify E typeOrFunc +:+ ": ("
        +:+ depsTokens E deps +:+ ")."
  | InvalidProvider debugInfo info =>
      "Invalid "
        +:+ match debugInfo with
            | Some d => if truthy (VStr d) then d else "provider"
            | None => "provider"
            end
        +:+ " - only instances of Provider and Type are allowed, got: ["
        +:+ join ", " info +:+ "]"
  | EntryComponentsOnlyUseValue =>
      "The ANALYZE_FOR_ENTRY_COMPONENTS token only supports useValue!"
  | EntryComponentsOnlyMulti =>
      "The ANALYZE_FOR_ENTRY_COMPONENTS token only supports 'multi = true'!"
  | QuerySelectorUndefined propertyName typeOrFunc =>
      "Can't construct a query for the property " +:+ dq +:+ propertyName +:+ dq +:+ " of "
        +:+ dq +:+ stringify E typeOrFunc +:+ dq
        +:+ " since the query selector wasn't defined."
  | InvalidImportKind descriptor importedType moduleType =>
      "Unexpected " +:+ descriptor +:+ " '" +:+ stringify E importedType
        +:+ "' imported by the module '" +:+ stringify E moduleType +:+ "'"
  | InvalidImport importedType moduleType =>
      "Unexpected value '" +:+ stringify E importedType
        +:+ "' imported by the module '" +:+ stringify E moduleType +:+ "'"
  | InvalidExport exportedType moduleType =>
      "Unexpected value '" +:+ stringify E exportedType
        +:+ "' exported by the module '" +:+ stringify E moduleType +:+ "'"
  | InvalidDeclaration declaredType moduleType =>
      "Unexpected value '" +:+ stringify E declaredType
        +:+ "' declared by the module '" +:+ stringify E moduleType +:+ "'"
  | InvalidDeclarationKind descriptor declaredType moduleType =>
      "Unexpected " +:+ descriptor +:+ " '" +:+ stringify E declaredType
        +:+ "' declared by the module '" +:+ stringify E moduleType +:+ "'"
  | UndeclaredExport descriptor exported moduleType =>
      "Can't export " +:+ descriptor +:+ " " +:+ stringify E exported +:+ " from "
        +:+ stringify E moduleType +:+ " as it was neither declared nor imported!"
  | InvalidBootstrap type moduleType =>
      "Unexpected value '" +:+ stringify E type
        +:+ "' used in the bootstrap property of module '" +:+ stringify E moduleType +:+ "'"
  | DirectiveInTwoModules type oldModule moduleType =>
      "Type " +:+ stringify E type +:+ " is part of the declarations of 2 modules: "
        +:+ stringify E oldModule +:+ " and " +:+ stringify E moduleType +:+ "! "
        +:+ "Please consider moving " +:+ stringify E type
        +:+ " to a higher module that imports " +:+ stringify E oldModule +:+ " and "
        +:+ stringify E moduleType +:+ ". "
        +:+ "You can also create a new NgModule that exports and includes "
        +:+ stringify E type +:+ " then import that NgModule in "
        +:+ stringify E oldModule +:+ " and " +:+ stringify E moduleType +:+ "."
  | ComponentStillLoading directiveType =>
      "Can't compile synchronously as " +:+ stringify E directiveType
        +:+ " is still being loaded!"
  | IllegalState accessor type =>
      "Illegal state: " +:+ accessor
        +:+ " can only be called after loadNgModuleMetadata"
        +:+ fst (illegalStateMessage accessor) +:+ stringify E type
        +:+ snd (illegalStateMessage accessor)
  end.

(** The collaborators with another template normaliser. *)
Definition withNormalizer (E : Env)
    (normalizeTemplate : PrenormalizedTemplateMetadata -> SyncAsyncResult) : Env :=
  {| ngModuleResolver_resolve := ngModuleResolver_resolve E;
     ngModuleResolver_isNgModule := ngModuleResolver_isNgModule E;
     directiveResolver_resolve := directiveResolver_resolve E;
     directiveResolver_isDirective := directiveResolver_isDirective E;
     pipeResolver_resolve := pipeResolver_resolve E;
     pipeResolver_isPipe := pipeResolver_isPipe E;
     reflector_parameters := reflector_parameters E;
     reflector_importUri := reflector_importUri E;
     directiveNormalizer_normalizeTemplate := normalizeTemplate;
     schemaRegistry_getDefaultComponentElementName :=
       schemaRegistry_getDefaultComponentElementName E;
     LIFECYCLE_HOOKS_VALUES := LIFECYCLE_HOOKS_VALUES E;
     hasLifecycleHook := hasLifecycleHook E;
     ANALYZE_FOR_ENTRY_COMPONENTS := ANALYZE_FOR_ENTRY_COMPONENTS E;
     stringify := stringify E;
     stringifyToken := stringifyToken E;
     getUrlScheme := getUrlScheme E;
     MODULE_SUFFIX := MODULE_SUFFIX E;
     assertArrayOfStrings := assertArrayOfStrings E;
     assertInterpolationSymbols := assertInterpolationSymbols E;
     splitQuerySelector := splitQuerySelector E;
     create_inputs := create_inputs E;
     create_outputs := create_outputs E;
     create_hostListeners := create_hostListeners E;
     create_hostProperties := create_hostProperties E;
     create_hostAttributes := create_hostAttributes E |}.

(** The argument [_loadDirectiveMetadata] passes to [normalizeTemplate]. *)
Definition prenormalized (directiveType : Value) (moduleUrl : string)
    (template : CompileTemplateMetadata) : PrenormalizedTemplateMetadata :=
  {| pre_componentType := directiveType;
     pre_moduleUrl := moduleUrl;
     pre_encapsulation := tpl_encapsulation template;
     pre_template := tpl_template template;
     pre_templateUrl := tpl_templateUrl template;
     pre_styles := tpl_styles template;
     pre_styleUrls := tpl_styleUrls template;
     pre_animations := tpl_animations template;
     pre_interpolation := tpl_interpolation template |}.

(** The six caches are the same; the call logs may differ. *)
Definition sameCaches (st st' : State) : Prop :=
  _directiveCache st' = _directiveCache st /\
  _directiveSummaryCache st' = _directiveSummaryCache st /\
  _pipeCache st' = _pipeCache st /\
  _pipeSummaryCache st' = _pipeSummaryCache st /\
  _ngModuleCache st' = _ngModuleCache st /\
  _ngModuleOfTypes st' = _ngModuleOfTypes st.

(** ** The effective provider of a token *)

#[global] Instance CompileIdentifierMetadata_eq_dec : EqDecision CompileIdentifierMetadata.
Proof. solve_decision. Defined.

#[global] Instance CompileTokenMetadata_eq_dec : EqDecision CompileTokenMetadata.
Proof. solve_decision. Defined.

(** Modelled from the spec: the provider resolution is not in the source
    file.  A provider record is registered under its token and a class
    provider under the class itself. *)
Definition providerToken (p : CompileProvider) : option CompileTokenMetadata :=
  match p with
  | CPProvider p => Some (provider_token p)
  | CPType t => Some (TokenIdentifier (mkIdentifier (type_reference t)))
  | CPArray _ => None
  end.

(** Modelled from the spec: in the last-writer-wins scheme the effective
    provider of a token is the last provider of the flattened list that
    is registered under it. *)
Definition effectiveProvider (token : CompileTokenMetadata) (providers : list CompileProvider)
    : option CompileProvider :=
  last (filter (fun p => providerToken p = Some token) (flattenProviders providers)).

(** ** Operations of a client, for statements about every sequence of
    calls *)

Inductive Operation :=
| OpLoadNgModuleMetadata (fuel : nat) (moduleType : Value) (isSync throwIfNotFound : bool)
| OpGetUnloadedNgModuleMetadata (fuel : nat) (moduleType : Value) (isSync throwIfNotFound : bool)
| OpLoadDirectiveMetadata (directiveType : Value) (isSync : bool)
| OpResolvePending (p : PendingDirective) (templateMetadata : CompileTemplateMetadata)
| OpGetOrLoadPipeMetadata (pipeType : Value)
| OpClearCacheFor (type : Value)
| OpClearCache.

Definition stateAfter {A} (m : R A) (st : State) : State :=
  match m st with
  | Some (_, st') => st'
  | None => st
  end.

(** The state after an operation; an operation that does not return
    within its fuel is not part of a run and leaves the state. *)
Definition runOperation (E : Env) (op : Operation) (st : State) : State :=
  match op with
  | OpLoadNgModuleMetadata fuel moduleType isSync throwIfNotFound =>
      stateAfter (loadNgModuleMetadata E fuel moduleType isSync throwIfNotFound) st
  | OpGetUnloadedNgModuleMetadata fuel moduleType isSync throwIfNotFound =>
      stateAfter (getUnloadedNgModuleMetadata E fuel moduleType isSync throwIfNotFound) st
  | OpLoadDirectiveMetadata directiveType isSync =>
      stateAfter (_loadDirectiveMetadata E directiveType isSync) st
  | OpResolvePending p templateMetadata =>
      stateAfter (resolvePending p templateMetadata) st
  | OpGetOrLoadPipeMetadata pipeType =>
      stateAfter (getOrLoadPipeMetadata E pipeType) st
  | OpClearCacheFor type => stateAfter (clearCacheFor type) st
  | OpClearCache => stateAfter clearCache st
  end.

Definition runOperations (E : Env) (ops : list Operation) (st : State) : State :=
  fold_left (fun st op => runOperation E op st) ops st.

(** The states a resolver can be in. *)
Definition reachable (E : Env) (st : State) : Prop :=
  exists ops, st = runOperations E ops newResolver.

(** * Properties *)

(** ** Maps and sets *)

Module JsMapFacts.
Import JsMap.

Lemma get_set_eq {V} (m : t V) k v : get (set k v m) k = Some v.
Proof.
  induction m as [|[k' v'] r IH]; simpl.
  - by rewrite decide_True.
  - destruct (decide (k' = k)) as [->|Hne]; simpl.
    + by rewrite decide_True.
    + by rewrite decide_False.
Qed.

Lemma get_set_ne {V} (m : t V) k k' v : k ≠ k' → get (set k v m) k' = get m k'.
Proof.
  intros Hne. induction m as [|[k0 v0] r IH]; simpl.
  - by rewrite decide_False.
  - destruct (decide (k0 = k)) as [->|Hne0]; simpl.
    + by rewrite !decide_False.
    + destruct (decide (k0 = k')); [done | exact IH].
Qed.

Lemma get_set {V} (m : t V) k k' v :
  get (set k v m) k' = if decide (k = k') then Some v else get m k'.
Proof.
  destruct (decide (k = k')) as [->|Hne];
    [apply get_set_eq | by apply get_set_ne].
Qed.

Lemma get_delete_eq {V} (m : t V) k : get (delete k m) k = None.
Proof.
  induction m as [|[k' v'] r IH]; simpl; [done|].
  destruct (decide (k' = k)) as [->|Hne]; simpl; [done|].
  by rewrite decide_False.
Qed.

Lemma get_delete_ne {V} (m : t V) k k' : k ≠ k' → get (delete k m) k' = get m k'.
Proof.
  intros Hne. induction m as [|[k0 v0] r IH]; simpl; [done|].
  destruct (decide (k0 = k)) as [->|Hne0]; simpl.
  - by rewrite decide_False.
  - destruct (decide (k0 = k')); [done | exact IH].
Qed.

Lemma keys_set_same {V W} (m : t V) (m' : t W) k v w :
  keys m = keys m' → keys (set k v m) = keys (set k w m').
Proof.
  revert m'. induction m as [|[k0 v0] r IH]; intros [|[k1 w1] r']; simpl;
    try discriminate; [done|].
  intros [= -> Hr]. destruct (decide (k1 = k)); simpl; [by f_equal|].
  f_equal. by apply IH.
Qed.

Lemma keys_delete_same {V W} (m : t V) (m' : t W) k :
  keys m = keys m' → keys (delete k m) = keys (delete k m').
Proof.
  revert m'. induction m as [|[k0 v0] r IH]; intros [|[k1 w1] r']; simpl;
    try discriminate; [done|].
  intros [= -> Hr]. destruct (decide (k1 = k)); simpl; [by apply IH|].
  f_equal. by apply IH.
Qed.

Lemma elem_of_keys {V} (m : t V) k : k ∈ keys m ↔ is_Some (get m k).
Proof.
  induction m as [|[k0 v0] r IH]; simpl.
  - split; [by intros ?%elem_of_nil | by intros [? ?]].
  - rewrite elem_of_cons, IH. destruct (decide (k0 = k)) as [->|Hne].
    + split; [by eauto | by left].
    + split; [by intros [?|?]; [congruence|] | by right].
Qed.


End JsMapFacts.

Module JsSetFacts.
Import JsSet.

Lemma has_add s x y : has (add x s) y = bool_decide (y = x) || has s y.
Proof.
  unfold add, has. destruct (bool_decide (x ∈ s)) eqn:Hx.
  - apply bool_decide_eq_true in Hx.
    destruct (decide (y = x)) as [->|Hne].
    + rewrite (bool_decide_eq_true_2 (x = x)) by done. simpl.
      by apply bool_decide_eq_true_2.
    + by rewrite (bool_decide_eq_false_2 (y = x)).
  - apply eq_true_iff_eq. rewrite orb_true_iff, !bool_decide_eq_true.
    rewrite elem_of_app, list_elem_of_singleton. tauto.
Qed.


End JsSetFacts.

(** ** An example program: three chained modules, a component with a
    deferred template, a pipe, and modules with faulty declarations *)

Module Example.

Definition provide (id : positive) (tokenName : string) (value : string) : Value :=
  VObj id [("provide", VStr tokenName); ("useValue", VStr value)].

Definition emptyNgModule : NgModule :=
  mkRawNgModule None None None None None None None VNull.

Definition moduleA : NgModule :=
  mkRawNgModule (Some [provide 101 "tok" "fromA"]) None (Some [VType 2]) None None None None
    VNull.

Definition moduleB : NgModule :=
  mkRawNgModule (Some [provide 102 "tok" "fromB"]) None (Some [VType 3]) None None None None
    VNull.

Definition moduleC : NgModule :=
  mkRawNgModule (Some [provide 103 "tok" "fromC"]) None None None None None None VNull.

(** Declares the pipe 20 and exports the undeclared type 30. *)
Definition module4 : NgModule :=
  mkRawNgModule None (Some [VType 20]) None (Some [VType 30]) None None None VNull.

(** Both declare the directive 10. *)
Definition module5 : NgModule :=
  mkRawNgModule None (Some [VType 10]) None None None None None VNull.

Definition module6 : NgModule :=
  mkRawNgModule None (Some [VType 20; VType 10]) None None None None None VNull.

(** Declares and exports a directive and a pipe. *)
Definition module7 : NgModule :=
  mkRawNgModule None (Some [VType 12; VType 20]) None (Some [VType 20; VType 12]) None None
    None VNull.

(** Declares the component 11, whose template is fetched. *)
Definition module8 : NgModule :=
  mkRawNgModule None (Some [VType 11]) None None None None None VNull.

(** Declares the directive 10 and imports a value that is no module. *)
Definition module9 : NgModule :=
  mkRawNgModule None (Some [VType 10]) (Some [VStr "not a module"]) None None None None VNull.

(** Imports the module C, declares the pipe 20 and exports the undeclared
    type 30. *)
Definition module10 : NgModule :=
  mkRawNgModule None (Some [VType 20]) (Some [VType 3]) (Some [VType 30]) None None None
    VNull.

Definition directive10 : Directive :=
  mkRawDirective (Some "[d]") VNull VNull VNull None VNull None None.

Definition component11 : Directive :=
  mkRawDirective (Some "cmp") VNull VNull VNull None VNull None
    (Some (mkComponent VNull None VNull (VStr "cmp.html") VNull VNull VNull None VNull VNull
             None)).

Definition stringifyValue (v : Value) : string :=
  match v with
  | VStr s => s
  | VType 1 => "A"
  | VType 2 => "B"
  | VType 3 => "C"
  | VType 41 => "Engine"
  | VType _ => "Type"
  | _ => "value"
  end.

Definition env : Env :=
  {| ngModuleResolver_resolve := fun type =>
       match type with
       | VType 1 => Some moduleA
       | VType 2 => Some moduleB
       | VType 3 => Some moduleC
       | VType 4 => Some module4
       | VType 5 => Some module5
       | VType 6 => Some module6
       | VType 7 => Some module7
       | VType 8 => Some module8
       | VType 9 => Some module9
       | VType 13 => Some module10
       | _ => None
       end;
     ngModuleResolver_isNgModule := fun type =>
       match type with
       | VType (1 | 2 | 3 | 4 | 5 | 6 | 7 | 8 | 9 | 13) => true
       | _ => false
       end;
     directiveResolver_resolve := fun type =>
       match type with
       | VType (10 | 12) => Some directive10
       | VType 11 => Some component11
       | _ => None
       end;
     directiveResolver_isDirective := fun type =>
       match type with
       | VType (10 | 11 | 12) => true
       | _ => false
       end;
     pipeResolver_resolve := fun type =>
       match type with
       | VType 20 => Some (mkRawPipe "p" true)
       | _ => None
       end;
     pipeResolver_isPipe := fun type =>
       match type with
       | VType 20 => true
       | _ => false
       end;
     reflector_parameters := fun _ => None;
     reflector_importUri := fun _ => "./cmp";
     directiveNormalizer_normalizeTemplate := fun pre =>
       match pre_templateUrl pre with
       | VNull => SyncResult (mkTemplate (pre_encapsulation pre) (pre_template pre) VNull
                                (pre_styles pre) (pre_styleUrls pre) (pre_animations pre)
                                (pre_interpolation pre))
       | _ => AsyncResult 1
       end;
     schemaRegistry_getDefaultComponentElementName := "ng-component";
     LIFECYCLE_HOOKS_VALUES := ["OnInit"; "OnDestroy"];
     hasLifecycleHook := fun _ _ => false;
     ANALYZE_FOR_ENTRY_COMPONENTS := VOther 99;
     stringify := stringifyValue;
     stringifyToken := fun token => stringifyValue (tokenReference token);
     getUrlScheme := fun _ => EmptyString;
     MODULE_SUFFIX := EmptyString;
     assertArrayOfStrings := fun _ _ => None;
     assertInterpolationSymbols := fun _ _ => None;
     splitQuerySelector := fun s => [s];
     create_inputs := fun v => v;
     create_outputs := fun v => v;
     create_hostListeners := fun v => v;
     create_hostProperties := fun v => v;
     create_hostAttributes := fun v => v |}.

(** The resolver after the module 5, which declares the directive 10, was
    resolved. *)
Definition afterModule5 : State :=
  runOperations env [OpGetUnloadedNgModuleMetadata 1 (VType 5) true true] newResolver.

End Example.

(** ** The writer monad *)

Section WriterFacts.

Context {A B : Type}.

Lemma bindW_ok (m : W A) (k : A -> W B) calls a :
  m = (calls, Ok a) -> bindW m k = (calls ++ fst (k a), snd (k a)).
Proof. intros ->. unfold bindW. by destruct (k a). Qed.

Lemma bindW_err (m : W A) (k : A -> W B) calls e :
  m = (calls, Err e) -> bindW m k = (calls, Err e).
Proof. by intros ->. Qed.

Lemma snd_bindW (m : W A) (k : A -> W B) :
  snd (bindW m k) = match snd m with Ok a => snd (k a) | Err e => Err e end.
Proof. destruct m as [calls [a|e]]; simpl; [by destruct (k a) | done]. Qed.

Lemma bindW_ok_inv (m : W A) (k : A -> W B) calls b :
  bindW m k = (calls, Ok b) ->
  exists a calls1 calls2,
    m = (calls1, Ok a) /\ k a = (calls2, Ok b) /\ calls = calls1 ++ calls2.
Proof.
  destruct m as [calls1 [a|e]]; simpl; [|discriminate].
  destruct (k a) as [calls2 r] eqn:Hk. intros [= <- ->]. by exists a, calls1, calls2.
Qed.

Lemma snd_bindW_ok_inv (m : W A) (k : A -> W B) b :
  snd (bindW m k) = Ok b -> exists a, snd m = Ok a /\ snd (k a) = Ok b.
Proof. rewrite snd_bindW. destruct (snd m) as [a|e]; [by exists a | discriminate]. Qed.

End WriterFacts.

(** ** Dependencies of a constructor or factory *)

Section Dependencies.

Variable E : Env.

Lemma snd_parametersOf typeOrFunc dependencies :
  exists params, snd (parametersOf E typeOrFunc dependencies) = Ok params.
Proof. destruct dependencies; simpl; eauto. Qed.

(** The parameters scanned by [_getDependenciesMetadata]. *)
Definition parameters (typeOrFunc : Value) (dependencies : option (list Value)) : list Value :=
  match dependencies with
  | Some deps => deps
  | None => default [] (reflector_parameters E typeOrFunc)
  end.

Lemma snd_parametersOf_parameters typeOrFunc dependencies :
  snd (parametersOf E typeOrFunc dependencies) = Ok (parameters typeOrFunc dependencies).
Proof. by destruct dependencies. Qed.

Lemma getDependenciesMetadata_result typeOrFunc dependencies :
  snd (_getDependenciesMetadata E typeOrFunc dependencies) =
    let deps := map paramDependency (parameters typeOrFunc dependencies) in
    if hasUnknownDeps deps then Err (UnresolvedDependency typeOrFunc deps)
    else Ok (knownDeps deps).
Proof.
  unfold _getDependenciesMetadata. rewrite snd_bindW, snd_parametersOf_parameters.
  simpl. by destruct (hasUnknownDeps _).
Qed.

Lemma hasUnknownDeps_true deps : hasUnknownDeps deps = true <-> None ∈ deps.
Proof.
  unfold hasUnknownDeps. rewrite existsb_exists. split.
  - intros ([d|] & Hin & Hd); [discriminate|]. by apply list_elem_of_In.
  - intros Hin. exists None. split; [by apply list_elem_of_In | done].
Qed.

Lemma elem_of_knownDeps deps d : d ∈ knownDeps deps <-> Some d ∈ deps.
Proof.
  unfold knownDeps. rewrite list_elem_of_omap. split.
  - intros (x & Hx & Hd). simpl in Hd. by subst.
  - intros Hin. by exists (Some d).
Qed.

(** A scan that leaves [isAttribute] set went through an [Attribute]
    marker; the token is that marker's name unless an [Inject] marker
    follows it. *)
Lemma scan_isAttribute entries :
  ps_isAttribute (fold_left paramEntryStep entries paramStart) = true ->
  exists pre attributeName post,
    entries = pre ++ VAttribute attributeName :: post /\
    Forall (fun e => isAttributeMarker e = false) post /\
    (Forall (fun e => isInjectMarker e = false) post ->
     ps_token (fold_left paramEntryStep entries paramStart) = VStr attributeName).
Proof.
  induction entries as [|e entries IH] using rev_ind; [discriminate|].
  rewrite fold_left_app. simpl.
  set (s := fold_left paramEntryStep entries paramStart) in *.
  assert (Hkeep : ps_isAttribute (paramEntryStep s e) = true ->
                  isAttributeMarker e = false ->
                  exists pre attributeName post,
                    entries ++ [e] = pre ++ VAttribute attributeName :: post /\
                    Forall (fun e => isAttributeMarker e = false) post /\
                    (Forall (fun e => isInjectMarker e = false) post ->
                     ps_token (paramEntryStep s e) = VStr attributeName)).
  { intros Hattr He.
    assert (Hs : ps_isAttribute s = true).
    { destruct e; simpl in *; try done;
        destruct (isBlank (ps_token s)); simpl in *; done. }
    destruct (IH Hs) as (pre & name & post & -> & Hpost & Htok).
    exists pre, name, (post ++ [e]). split; [by rewrite <- app_assoc|].
    split; [apply Forall_app; split; [done | by constructor]|].
    intros [Hp He']%Forall_app. specialize (Htok Hp).
    apply Forall_cons in He' as [He' _].
    destruct e; simpl in *; try done; rewrite Htok; simpl; try done. }
  destruct e; try (intros H; apply Hkeep; [exact H | reflexivity]).
  intros _. exists entries, attributeName, []. repeat split; by try constructor.
Qed.

(** C3, as amended: a resulting dependency with [isAttribute = true]
    comes from a composite parameter with an [Attribute] marker, and its
    token is the plain string attribute name whenever no [Inject] marker
    follows the last [Attribute] marker of the composite. *)
Theorem attribute_dependency_token typeOrFunc dependencies deps d :
  snd (_getDependenciesMetadata E typeOrFunc dependencies) = Ok deps ->
  d ∈ deps ->
  isAttribute d = true ->
  exists pre attributeName post,
    VArr (pre ++ VAttribute attributeName :: post) ∈ parameters typeOrFunc dependencies /\
    paramDependency (VArr (pre ++ VAttribute attributeName :: post)) = Some d /\
    Forall (fun e => isAttributeMarker e = false) post /\
    (Forall (fun e => isInjectMarker e = false) post -> token d = TokenValue attributeName).
Proof.
  rewrite getDependenciesMetadata_result. simpl.
  destruct (hasUnknownDeps _); [discriminate|]. intros [= <-].
  rewrite elem_of_knownDeps, list_elem_of_fmap. intros (param & Hd & Hparam) Hattr.
  symmetry in Hd. pose proof Hd as Hd'. unfold paramDependency in Hd.
  destruct (isBlank (ps_token (scanParam param))) eqn:Hblank; [discriminate|].
  injection Hd as <-. simpl in Hattr.
  destruct param; simpl in Hattr; try discriminate.
  destruct (scan_isAttribute _ Hattr) as (pre & name & post & -> & Hpost & Htok).
  exists pre, name, post. repeat split; try done.
  intros Hinj. simpl. simpl in Htok. by rewrite (Htok Hinj).
Qed.

(** C9: when the token of a parameter cannot be determined, every
    parameter is still scanned and the extraction fails with the
    unresolved-dependency error, whose message lists, joined by commas,
    one entry per parameter: [?] for a parameter without a token, the
    stringified token otherwise. *)
Theorem unresolved_dependency_error typeOrFunc dependencies param :
  param ∈ parameters typeOrFunc dependencies ->
  isBlank (ps_token (scanParam param)) = true ->
  snd (_getDependenciesMetadata E typeOrFunc dependencies) =
    Err (UnresolvedDependency typeOrFunc
           (map paramDependency (parameters typeOrFunc dependencies))) /\
  errorMessage E (UnresolvedDependency typeOrFunc
                    (map paramDependency (parameters typeOrFunc dependencies))) =
    "Can't resolve all parameters for " +:+ stringify E typeOrFunc +:+ ": ("
      +:+ join ", "
            (map (fun param =>
                    if isBlank (ps_token (scanParam param)) then "?"
                    else stringifyToken E (_getTokenMetadata (ps_token (scanParam param))))
               (parameters typeOrFunc dependencies))
      +:+ ")." /\
  length (map paramDependency (parameters typeOrFunc dependencies)) =
    length (parameters typeOrFunc dependencies).
Proof.
  intros Hin Hblank. split; [|split].
  - rewrite getDependenciesMetadata_result. simpl.
    assert (H : hasUnknownDeps (map paramDependency (parameters typeOrFunc dependencies))
                = true).
    { apply hasUnknownDeps_true. apply list_elem_of_fmap. exists param. split; [|done].
      unfold paramDependency. by rewrite Hblank. }
    by rewrite H.
  - simpl. unfold depsTokens. do 5 f_equal. rewrite map_map. apply map_ext.
    intros p. unfold paramDependency.
    by destruct (isBlank (ps_token (scanParam p))).
  - apply length_map.
Qed.

End Dependencies.

(** C3, witness: [Optional, Attribute('title'), Host]. *)
Lemma attribute_dependency_token_witness :
  exists pre attributeName post,
    VArr (pre ++ VAttribute attributeName :: post)
      ∈ parameters Example.env (VType 40)
          (Some [VArr [VOptional; VAttribute "title"; VHost]]) /\
    paramDependency (VArr (pre ++ VAttribute attributeName :: post))
      = Some (mkDep true true false false true (TokenValue "title")) /\
    Forall (fun e => isAttributeMarker e = false) post /\
    (Forall (fun e => isInjectMarker e = false) post ->
     token (mkDep true true false false true (TokenValue "title"))
       = TokenValue attributeName).
Proof.
  apply (attribute_dependency_token Example.env (VType 40)
           (Some [VArr [VOptional; VAttribute "title"; VHost]])
           [mkDep true true false false true (TokenValue "title")]).
  - vm_compute. reflexivity.
  - constructor.
  - reflexivity.
Defined.

(** C3, counterexample: for [Attribute('title'), Inject(Engine)] the
    extraction succeeds with a dependency that has [isAttribute = true]
    and an identifier token. *)
Lemma attribute_token_replaced_by_inject :
  exists deps d,
    snd (_getDependenciesMetadata Example.env (VType 40)
           (Some [VArr [VAttribute "title"; VInject (VType 41)]])) = Ok deps /\
    d ∈ deps /\
    isAttribute d = true /\
    token d = TokenIdentifier (mkIdentifier (VType 41)) /\
    forall s, token d <> TokenValue s.
Proof.
  exists [mkDep true false false false false (TokenIdentifier (mkIdentifier (VType 41)))],
    (mkDep true false false false false (TokenIdentifier (mkIdentifier (VType 41)))).
  split; [vm_compute; reflexivity|]. split; [constructor|]. by repeat split.
Qed.

(** C9, witness: the parameters [Engine], [[Optional]] and [null]. *)
Lemma unresolved_dependency_error_witness :
  snd (_getDependenciesMetadata Example.env (VType 40)
         (Some [VType 41; VArr [VOptional]; VNull])) =
    Err (UnresolvedDependency (VType 40)
           [Some (mkDep false false false false false
                    (TokenIdentifier (mkIdentifier (VType 41)))); None; None]) /\
  errorMessage Example.env
    (UnresolvedDependency (VType 40)
       [Some (mkDep false false false false false
                (TokenIdentifier (mkIdentifier (VType 41)))); None; None]) =
    "Can't resolve all parameters for Type: (Engine, ?, ?).".
Proof.
  destruct (unresolved_dependency_error Example.env (VType 40)
              (Some [VType 41; VArr [VOptional]; VNull]) (VArr [VOptional]))
    as (Herr & Hmsg & _).
  - apply list_elem_of_In. simpl. tauto.
  - reflexivity.
  - split; [exact Herr | exact Hmsg].
Defined.

(** ** Providers for the entry-components token *)

Section EntryComponents.

Variable E : Env.

Lemma snd_filterDirectives collectedIdentifiers :
  snd (filterDirectives E collectedIdentifiers) =
    Ok (List.filter (fun identifier => directiveResolver_isDirective E (reference identifier))
          collectedIdentifiers).
Proof.
  induction collectedIdentifiers as [|identifier rest IH]; [done|].
  simpl. destruct (filterDirectives E rest) as [calls [components|e]]; simpl in *;
    [|discriminate].
  injection IH as ->.
  by destruct (directiveResolver_isDirective E (reference identifier)).
Qed.

(** The outcome of [_getEntryComponentsFromProvider]. *)
Definition entryComponentsOutcome (provider : ProviderMeta)
    : Result (list CompileIdentifierMetadata) :=
  if truthy (pm_useFactory provider) || truthy (pm_useExisting provider)
     || truthy (pm_useClass provider) then Err EntryComponentsOnlyUseValue
  else if negb (pm_multi provider) then Err EntryComponentsOnlyMulti
  else Ok (List.filter
             (fun identifier => directiveResolver_isDirective E (reference identifier))
             (snd (convertToCompileValue (pm_useValue provider)))).

Lemma snd_getEntryComponentsFromProvider provider :
  snd (_getEntryComponentsFromProvider E provider) = entryComponentsOutcome provider.
Proof.
  unfold _getEntryComponentsFromProvider, entryComponentsOutcome.
  destruct (_ || _ || _); [done|]. destruct (negb _); [done|].
  apply snd_filterDirectives.
Qed.

Lemma providerEntry_resolved debugInfo providers providerIdx provider id fields :
  resolveForwardRef provider = VObj id fields ->
  providerEntry E debugInfo providers providerIdx provider =
    providerEntry E debugInfo providers providerIdx (VObj id fields).
Proof.
  intros Hr. destruct provider; simpl in Hr; try discriminate.
  - by subst.
  - by injection Hr as -> ->.
Qed.

(** C8: a provider whose token is the entry-components token fails with
    the "only supports useValue" error when it carries [useClass],
    [useFactory] or [useExisting], and with the "only supports
    'multi = true'" error when [multi] is not set; otherwise the
    identifiers found by the structural scan of its [useValue] that are
    directives go to the entry-component sink, and nothing goes to the
    list of converted providers. *)
Theorem entry_components_provider debugInfo providers providerIdx provider id fields :
  resolveForwardRef provider = VObj id fields ->
  hasOwnProperty (VObj id fields) "provide" = true ->
  tokenReference (_getTokenMetadata (getProperty (VObj id fields) "provide"))
    = ANALYZE_FOR_ENTRY_COMPONENTS E ->
  let meta := newProviderMeta (getProperty (VObj id fields) "provide") (VObj id fields) in
  snd (providerEntry E debugInfo providers providerIdx provider) =
    (if truthy (pm_useFactory meta) || truthy (pm_useExisting meta)
        || truthy (pm_useClass meta) then Err EntryComponentsOnlyUseValue
     else if negb (pm_multi meta) then Err EntryComponentsOnlyMulti
     else Ok ([], List.filter
                    (fun identifier =>
                       directiveResolver_isDirective E (reference identifier))
                    (snd (convertToCompileValue (pm_useValue meta))))) /\
  errorMessage E EntryComponentsOnlyUseValue =
    "The ANALYZE_FOR_ENTRY_COMPONENTS token only supports useValue!" /\
  errorMessage E EntryComponentsOnlyMulti =
    "The ANALYZE_FOR_ENTRY_COMPONENTS token only supports 'multi = true'!" /\
  (forall rest out sink,
     truthy (pm_useFactory meta) || truthy (pm_useExisting meta)
       || truthy (pm_useClass meta) = false ->
     pm_multi meta = true ->
     snd (providerEntries E debugInfo providers rest (S providerIdx)) = Ok (out, sink) ->
     snd (providerEntries E debugInfo providers (provider :: rest) providerIdx) =
       Ok (out,
           List.filter
             (fun identifier => directiveResolver_isDirective E (reference identifier))
             (snd (convertToCompileValue (pm_useValue meta))) ++ sink)).
Proof.
  intros Hr Hown Htok meta.
  assert (Hentry :
    snd (providerEntry E debugInfo providers providerIdx provider) =
      match entryComponentsOutcome meta with
      | Ok components => Ok ([], components)
      | Err e => Err e
      end).
  { rewrite (providerEntry_resolved _ _ _ _ _ _ Hr).
    cbn [providerEntry]. rewrite Hown.
    destruct (decide _) as [_|Hne]; [|by destruct Hne].
    rewrite snd_bindW, snd_getEntryComponentsFromProvider. fold meta.
    by destruct (entryComponentsOutcome meta). }
  split; [|split; [done|split; [done|]]].
  - rewrite Hentry. unfold entryComponentsOutcome.
    destruct (_ || _ || _); [done|]. by destruct (negb _).
  - intros rest out sink Huse Hmulti Hrest.
    cbn [providerEntries]. rewrite snd_bindW, Hentry.
    unfold entryComponentsOutcome. rewrite Huse, Hmulti. simpl.
    rewrite snd_bindW, Hrest. done.
Qed.

End EntryComponents.

(** C8, witness: [useValue: [Cmp11, {nested: Dir10}, Engine]] with
    [multi: true]; the two directives are collected, the class that is no
    directive is not. *)
Lemma entry_components_provider_witness :
  snd (providerEntry Example.env None [] 0
         (VObj 7 [("provide", VOther 99);
                  ("useValue", VArr [VType 11; VObj 8 [("nested", VType 10)]; VType 41]);
                  ("multi", VBool true)])) =
    Ok ([], [mkIdentifier (VType 11); mkIdentifier (VType 10)]).
Proof.
  destruct (entry_components_provider Example.env None [] 0
              (VObj 7 [("provide", VOther 99);
                       ("useValue",
                        VArr [VType 11; VObj 8 [("nested", VType 10)]; VType 41]);
                       ("multi", VBool true)])
              7 [("provide", VOther 99);
                 ("useValue", VArr [VType 11; VObj 8 [("nested", VType 10)]; VType 41]);
                 ("multi", VBool true)])
    as (H & _).
  - reflexivity.
  - reflexivity.
  - reflexivity.
  - exact H.
Defined.

(** ** The state monad: what a computation does to the state *)

Section StateFacts.

Lemma bindR_inv {A B} (m : R A) (k : A -> R B) st r st' :
  bindR m k st = Some (r, st') ->
  (exists a st1, m st = Some (Ok a, st1) /\ k a st1 = Some (r, st')) \/
  (exists e, m st = Some (Err e, st') /\ r = Err e).
Proof.
  unfold bindR. destruct (m st) as [[[a|e] st1]|]; [| |discriminate].
  - intros H. left. by exists a, st1.
  - intros [= <- <-]. right. by exists e.
Qed.

Lemma bindR_ok_inv {A B} (m : R A) (k : A -> R B) st b st' :
  bindR m k st = Some (Ok b, st') ->
  exists a st1, m st = Some (Ok a, st1) /\ k a st1 = Some (Ok b, st').
Proof.
  intros [H|(e & _ & He)]%bindR_inv; [done | discriminate].
Qed.

Lemma liftW_inv {A} (w : W A) st r st' :
  liftW w st = Some (r, st') -> r = snd w /\ st' = logCalls (fst w) st.
Proof. by intros [= <- <-]. Qed.

(** [steps Rel m]: every terminating run of [m] relates the state before
    to the state after, whether it returns or throws. *)
Definition steps (Rel : State -> State -> Prop) {A} (m : R A) : Prop :=
  forall st r st', m st = Some (r, st') -> Rel st st'.

Context (Rel : State -> State -> Prop) `{!PreOrder Rel}.

Lemma steps_retR {A} (a : A) : steps Rel (retR a).
Proof. intros st r st' [= <- <-]. reflexivity. Qed.

Lemma steps_throwR {A} e : steps Rel (@throwR A e).
Proof. intros st r st' [= <- <-]. reflexivity. Qed.

Lemma steps_outOfFuel {A} : steps Rel (@outOfFuel A).
Proof. intros st r st' [=]. Qed.

Lemma steps_getState : steps Rel getState.
Proof. intros st r st' [= <- <-]. reflexivity. Qed.

Lemma steps_bindR {A B} (m : R A) (k : A -> R B) :
  steps Rel m -> (forall a, steps Rel (k a)) -> steps Rel (bindR m k).
Proof.
  intros Hm Hk st r st' [(a & st1 & H1 & H2)|(e & H1 & _)]%bindR_inv.
  - etransitivity; [by eapply Hm | by eapply Hk].
  - by eapply Hm.
Qed.

Lemma steps_mapR {A B} (f : A -> R B) l :
  (forall x, steps Rel (f x)) -> steps Rel (mapR f l).
Proof.
  intros Hf. induction l as [|x l IH]; simpl; [apply steps_retR|].
  apply steps_bindR; [apply Hf|]. intros y.
  apply steps_bindR; [apply IH|]. intros ys. apply steps_retR.
Qed.

Lemma steps_liftW {A} (w : W A) :
  (forall calls st, Rel st (logCalls calls st)) -> steps Rel (liftW w).
Proof. intros Hlog st r st' [_ ->]%liftW_inv. apply Hlog. Qed.

Lemma steps_modifyState f :
  (forall st, Rel st (f st)) -> steps Rel (modifyState f).
Proof. intros Hf st r st' [= <- <-]. apply Hf. Qed.

End StateFacts.

(** A relation that every step of the module resolution respects. *)
Record ModuleFrame (Rel : State -> State -> Prop) : Prop := {
  mf_preorder : PreOrder Rel;
  mf_logCalls : forall calls st, Rel st (logCalls calls st);
  mf_pipeCaches : forall type meta st, Rel st (set_pipeCaches type meta st);
  mf_ngModuleOfTypes : forall type moduleType st,
    (let oldModule := default VNull (JsMap.get (_ngModuleOfTypes st) type) in
     truthy oldModule && negb (bool_decide (oldModule = moduleType)) = false) ->
    Rel st (set_ngModuleOfTypes type moduleType st);
  mf_ngModuleCache : forall type meta st, Rel st (set_ngModuleCache type meta st)
}.

(** A relation that every step of the directive resolution respects. *)
Record DirectiveFrame (Rel : State -> State -> Prop) : Prop := {
  df_preorder : PreOrder Rel;
  df_logCalls : forall calls st, Rel st (logCalls calls st);
  df_directiveCaches : forall type meta st, Rel st (set_directiveCaches type meta st)
}.

Lemma steps_mapR_in {A B} (Rel : State -> State -> Prop) `{!PreOrder Rel}
    (f : A -> R B) l :
  (forall x, x ∈ l -> steps Rel (f x)) -> steps Rel (mapR f l).
Proof.
  induction l as [|x l IH]; intros Hf; simpl; [apply steps_retR; done|].
  apply steps_bindR; [done | apply Hf; by left |]. intros y.
  apply steps_bindR; [done | apply IH; intros; apply Hf; by right |].
  intros ys. by apply steps_retR.
Qed.

Section Frames.

Variable E : Env.

(** The loops over imports and exports only log calls and recur. *)
Section RecurSteps.

Context (Rel : State -> State -> Prop) (Hpre : PreOrder Rel)
  (Hlog : forall calls st, Rel st (logCalls calls st)).

Variable recur : Value -> bool -> bool -> R (option CompileNgModuleMetadata).

Lemma steps_loadNgModuleSummary moduleType isSync :
  steps Rel (recur moduleType isSync false) ->
  steps Rel (_loadNgModuleSummary recur moduleType isSync).
Proof.
  intros Hrecur. unfold _loadNgModuleSummary.
  apply steps_bindR; [done | apply Hrecur |]. intros m. by apply steps_retR.
Qed.

Lemma steps_importEntry moduleType isSync importedType :
  (forall t, steps Rel (recur t isSync false)) ->
  steps Rel (importEntry E recur moduleType isSync importedType).
Proof.
  intros Hrecur. unfold importEntry.
  apply steps_bindR; [done | by apply steps_liftW |].
  intros [[[importedModuleType|] providers] entryComponents]; [|by apply steps_throwR].
  apply steps_bindR; [done | by apply steps_loadNgModuleSummary |].
  intros [s|]; [by apply steps_retR|].
  apply steps_bindR; [done | by apply steps_liftW |]. intros d. by apply steps_throwR.
Qed.

Lemma steps_exportEntry moduleType isSync exportedType :
  steps Rel (recur exportedType isSync false) ->
  steps Rel (exportEntry recur moduleType isSync exportedType).
Proof.
  intros Hrecur. unfold exportEntry. destruct (negb _); [by apply steps_throwR|].
  apply steps_bindR; [done | by apply steps_loadNgModuleSummary |].
  intros [s|]; by apply steps_retR.
Qed.

Lemma steps_importsPhase moduleType isSync meta :
  (forall t, steps Rel (recur t isSync false)) ->
  steps Rel (importsPhase E recur moduleType isSync meta).
Proof.
  intros Hrecur. unfold importsPhase. destruct (m_imports meta); [|by apply steps_retR].
  apply steps_mapR; [done|]. intros x. by apply steps_importEntry.
Qed.

Lemma steps_exportsPhase moduleType isSync meta :
  (forall t, steps Rel (recur t isSync false)) ->
  steps Rel (exportsPhase recur moduleType isSync meta).
Proof.
  intros Hrecur. unfold exportsPhase. destruct (m_exports meta); [|by apply steps_retR].
  apply steps_mapR; [done|]. intros x. by apply steps_exportEntry.
Qed.

End RecurSteps.

(** The loop over declarations writes the pipe caches and the map from
    types to modules. *)
Section DeclarationSteps.

Context (Rel : State -> State -> Prop) (Hpre : PreOrder Rel)
  (Hlog : forall calls st, Rel st (logCalls calls st))
  (Hpipe : forall type meta st, Rel st (set_pipeCaches type meta st))
  (Hof : forall type moduleType st,
     (let oldModule := default VNull (JsMap.get (_ngModuleOfTypes st) type) in
      truthy oldModule && negb (bool_decide (oldModule = moduleType)) = false) ->
     Rel st (set_ngModuleOfTypes type moduleType st)).

Lemma steps_loadPipeMetadata pipeType : steps Rel (_loadPipeMetadata E pipeType).
Proof.
  unfold _loadPipeMetadata.
  apply steps_bindR; [done | by apply steps_liftW |]. intros a.
  apply steps_bindR; [done | by apply steps_liftW |]. intros b.
  apply steps_bindR; [done | apply steps_modifyState; intros; apply Hpipe |].
  intros _. by apply steps_retR.
Qed.

Lemma steps_getOrLoadPipeMetadata pipeType : steps Rel (getOrLoadPipeMetadata E pipeType).
Proof.
  unfold getOrLoadPipeMetadata.
  apply steps_bindR; [done | by apply steps_getState |]. intros st.
  destruct (JsMap.get _ _); [by apply steps_retR | apply steps_loadPipeMetadata].
Qed.

Lemma steps_addTypeToModule type moduleType : steps Rel (_addTypeToModule type moduleType).
Proof.
  intros st r st'. unfold _addTypeToModule, bindR, getState. simpl.
  destruct (truthy _ && _) eqn:Hguard.
  - intros [= <- <-]. reflexivity.
  - intros [= <- <-]. by apply Hof.
Qed.

Lemma steps_declarationEntry moduleType isSync declaredType :
  steps Rel (declarationEntry E moduleType isSync declaredType).
Proof.
  unfold declarationEntry. destruct (negb _); [by apply steps_throwR|].
  apply steps_bindR; [done | by apply steps_liftW |]. intros isDir.
  destruct isDir.
  - apply steps_bindR; [done | apply steps_addTypeToModule |]. intros _.
    by apply steps_retR.
  - apply steps_bindR; [done | by apply steps_liftW |]. intros isP.
    destruct isP.
    + apply steps_bindR; [done | apply steps_addTypeToModule |]. intros _.
      apply steps_bindR; [done | apply steps_loadPipeMetadata |]. intros _.
      by apply steps_retR.
    + apply steps_bindR; [done | by apply steps_liftW |]. intros d.
      by apply steps_throwR.
Qed.

Lemma steps_declarationsPhase moduleType isSync meta :
  steps Rel (declarationsPhase E moduleType isSync meta).
Proof.
  unfold declarationsPhase. destruct (m_declarations meta); [|by apply steps_retR].
  apply steps_mapR; [done|]. intros x. apply steps_declarationEntry.
Qed.

End DeclarationSteps.

Section ModuleSteps.

Context (Rel : State -> State -> Prop) (F : ModuleFrame Rel).

Lemma steps_loadNgModuleBody recur moduleType isSync throwIfNotFound :
  (forall t isSync' throwIfNotFound', steps Rel (recur t isSync' throwIfNotFound')) ->
  steps Rel (loadNgModuleBody E recur moduleType isSync throwIfNotFound).
Proof.
  intros Hrecur. destruct F as [Hpre Hlog Hpipe Hof Hcache].
  unfold loadNgModuleBody.
  apply steps_bindR; [done | by apply steps_getState |]. intros st.
  destruct (JsMap.get _ _); [by apply steps_retR|].
  apply steps_bindR; [done | by apply steps_liftW |].
  intros [meta|]; [|by apply steps_retR].
  apply steps_bindR; [done | by apply steps_importsPhase |]. intros imports.
  apply steps_bindR; [done | by apply steps_exportsPhase |]. intros exports.
  apply steps_bindR; [done | by apply steps_declarationsPhase |]. intros declared.
  apply steps_bindR; [done | by apply steps_liftW |]. intros compileMeta.
  apply steps_bindR; [done | apply steps_modifyState; intros; apply Hcache |].
  intros _. by apply steps_retR.
Qed.

Lemma steps_loadNgModuleMetadata' fuel moduleType isSync throwIfNotFound :
  steps Rel (_loadNgModuleMetadata E fuel moduleType isSync throwIfNotFound).
Proof.
  pose proof (mf_preorder _ F) as Hpre.
  revert moduleType isSync throwIfNotFound.
  induction fuel as [|fuel IH]; intros; simpl.
  - by apply steps_outOfFuel.
  - by apply steps_loadNgModuleBody.
Qed.

End ModuleSteps.

Section DirectiveSteps.

Context (Rel : State -> State -> Prop) (F : DirectiveFrame Rel).

Lemma steps_createDirectiveMetadata directiveType metadata templateMetadata :
  steps Rel (createDirectiveMetadata directiveType metadata templateMetadata).
Proof.
  destruct F as [Hpre Hlog Hdir]. unfold createDirectiveMetadata.
  apply steps_bindR; [done | apply steps_modifyState; intros; apply Hdir |].
  intros _. by apply steps_retR.
Qed.

Lemma steps_loadDirectiveMetadata directiveType isSync :
  steps Rel (_loadDirectiveMetadata E directiveType isSync).
Proof.
  pose proof steps_createDirectiveMetadata as Hcreate.
  destruct F as [Hpre Hlog Hdir]. unfold _loadDirectiveMetadata.
  apply steps_bindR; [done | by apply steps_getState |]. intros st.
  destruct (JsMap.has _ _); [by apply steps_retR|].
  apply steps_bindR; [done | by apply steps_liftW |].
  intros [[annotation metadata]|]; [|by apply steps_throwR].
  destruct (dir_isComponent metadata).
  - destruct (dir_template metadata); [|by apply steps_throwR].
    apply steps_bindR; [done | by apply steps_liftW |]. intros moduleUrl.
    apply steps_bindR; [done | by apply steps_liftW |].
    intros [syncResult|asyncResult].
    + apply steps_bindR; [done | apply Hcreate |]. intros _. by apply steps_retR.
    + destruct isSync; [by apply steps_throwR | by apply steps_retR].
  - apply steps_bindR; [done | apply Hcreate |]. intros _. by apply steps_retR.
Qed.

Lemma steps_loaders loaders :
  steps Rel (mapR (fun loader =>
                     _loadDirectiveMetadata E (loader_declaredType loader)
                       (loader_isSync loader)) loaders).
Proof.
  pose proof (df_preorder _ F).
  apply steps_mapR; [done|]. intros x. apply steps_loadDirectiveMetadata.
Qed.

End DirectiveSteps.

End Frames.

(** ** The metadata caches and the summary caches go together *)

Definition cachesPaired (st : State) : Prop :=
  JsMap.keys (_directiveCache st) = JsMap.keys (_directiveSummaryCache st) /\
  JsMap.keys (_pipeCache st) = JsMap.keys (_pipeSummaryCache st).

Definition keepsPaired (st st' : State) : Prop := cachesPaired st -> cachesPaired st'.

Lemma keepsPaired_preorder : PreOrder keepsPaired.
Proof.
  split; [intros st H; exact H | intros a b c Hab Hbc H; apply Hbc, Hab, H].
Qed.

Lemma keepsPaired_moduleFrame : ModuleFrame keepsPaired.
Proof.
  split; [apply keepsPaired_preorder | | | |]; try (unfold keepsPaired; intros; assumption).
  intros type meta st [Hd Hp]. split; [done|]. simpl.
  by apply JsMapFacts.keys_set_same.
Qed.

Lemma keepsPaired_directiveFrame : DirectiveFrame keepsPaired.
Proof.
  split; [apply keepsPaired_preorder | |]; try (unfold keepsPaired; intros; assumption).
  intros type meta st [Hd Hp]. split; [|done]. simpl.
  by apply JsMapFacts.keys_set_same.
Qed.

Lemma steps_loadNgModuleMetadata E Rel fuel moduleType isSync throwIfNotFound :
  ModuleFrame Rel -> DirectiveFrame Rel ->
  steps Rel (loadNgModuleMetadata E fuel moduleType isSync throwIfNotFound).
Proof.
  intros FM FD. pose proof (mf_preorder Rel FM) as Hpre.
  unfold loadNgModuleMetadata. apply steps_bindR; [done | |].
  - by apply steps_loadNgModuleMetadata'.
  - intros [m|]; [|by apply steps_retR].
    apply steps_bindR; [done | by apply steps_loaders |].
    intros loading. by apply steps_retR.
Qed.

Lemma runOperation_paired E op st : cachesPaired st -> cachesPaired (runOperation E op st).
Proof.
  intros Hst. destruct op; simpl; unfold stateAfter.
  - destruct (loadNgModuleMetadata _ _ _ _ _ _) as [[r st']|] eqn:Hrun; [|done].
    eapply (steps_loadNgModuleMetadata E keepsPaired); eauto using
      keepsPaired_moduleFrame, keepsPaired_directiveFrame.
  - unfold getUnloadedNgModuleMetadata.
    destruct (_loadNgModuleMetadata _ _ _ _ _ _) as [[r st']|] eqn:Hrun; [|done].
    eapply (steps_loadNgModuleMetadata' E keepsPaired); eauto using keepsPaired_moduleFrame.
  - destruct (_loadDirectiveMetadata _ _ _ _) as [[r st']|] eqn:Hrun; [|done].
    eapply (steps_loadDirectiveMetadata E keepsPaired);
      eauto using keepsPaired_directiveFrame.
  - destruct (resolvePending _ _ _) as [[r st']|] eqn:Hrun; [|done].
    eapply (steps_createDirectiveMetadata keepsPaired);
      eauto using keepsPaired_directiveFrame.
  - destruct (getOrLoadPipeMetadata _ _ _) as [[r st']|] eqn:Hrun; [|done].
    destruct keepsPaired_moduleFrame as [Hpre Hlog Hpipe Hof Hcache].
    by eapply (steps_getOrLoadPipeMetadata E keepsPaired).
  - destruct Hst as [Hd Hp]. split; simpl; by apply JsMapFacts.keys_delete_same.
  - by split.
Qed.

Lemma runOperations_paired E ops st :
  cachesPaired st -> cachesPaired (runOperations E ops st).
Proof.
  revert st. induction ops as [|op ops IH]; intros st Hst; [done|].
  simpl. apply IH. by apply runOperation_paired.
Qed.

(** C10: after every sequence of operations the directive metadata cache
    and the directive summary cache have entries for the same types, and
    so have the pipe metadata cache and the pipe summary cache; a
    metadata accessor succeeds for a type exactly when the summary
    accessor does. *)
Theorem summary_caches_paired E ops :
  let st := runOperations E ops newResolver in
  JsMap.keys (_directiveCache st) = JsMap.keys (_directiveSummaryCache st) /\
  JsMap.keys (_pipeCache st) = JsMap.keys (_pipeSummaryCache st) /\
  (forall type,
     (exists dirMeta, getDirectiveMetadata type st = Some (Ok dirMeta, st)) <->
     (exists dirSummary, getDirectiveSummary type st = Some (Ok dirSummary, st))) /\
  (forall type,
     (exists pipeMeta, getPipeMetadata type st = Some (Ok pipeMeta, st)) <->
     (exists pipeSummary, getPipeSummary type st = Some (Ok pipeSummary, st))).
Proof.
  intros st.
  assert (H : cachesPaired st) by (by apply runOperations_paired).
  destruct H as [Hd Hp]. split; [done|]. split; [done|].
  assert (Hacc : forall V W (m : JsMap.t V) (m' : JsMap.t W) type,
            JsMap.keys m = JsMap.keys m' ->
            is_Some (JsMap.get m type) <-> is_Some (JsMap.get m' type)).
  { intros V W m m' type Hk. by rewrite <- !JsMapFacts.elem_of_keys, Hk. }
  split; intros type.
  - unfold getDirectiveMetadata, getDirectiveSummary, bindR, getState. simpl.
    specialize (Hacc _ _ _ _ type Hd).
    destruct (JsMap.get (_directiveCache st) type) as [m|],
             (JsMap.get (_directiveSummaryCache st) type) as [s|]; simpl.
    + split; eauto.
    + destruct Hacc as [Hacc _]. by destruct Hacc as [? ?].
    + destruct Hacc as [_ Hacc]. by destruct Hacc as [? ?].
    + split; intros [? [=]].
  - unfold getPipeMetadata, getPipeSummary, bindR, getState. simpl.
    specialize (Hacc _ _ _ _ type Hp).
    destruct (JsMap.get (_pipeCache st) type) as [m|],
             (JsMap.get (_pipeSummaryCache st) type) as [s|]; simpl.
    + split; eauto.
    + destruct Hacc as [Hacc _]. by destruct Hacc as [? ?].
    + destruct Hacc as [_ Hacc]. by destruct Hacc as [? ?].
    + split; intros [? [=]].
Qed.

(** ** Loading a directive *)

Section StateSteps.

Lemma bindR_getState {B} (k : State -> R B) st : bindR getState k st = k st st.
Proof. reflexivity. Qed.

Lemma bindR_liftW_ok {A B} (w : W A) (k : A -> R B) calls a st :
  w = (calls, Ok a) -> bindR (liftW w) k st = k a (logCalls calls st).
Proof. by intros ->. Qed.

Lemma bindR_liftW_err {A B} (w : W A) (k : A -> R B) calls e st :
  w = (calls, Err e) -> bindR (liftW w) k st = Some (Err e, logCalls calls st).
Proof. by intros ->. Qed.

Lemma sameCaches_logCalls calls st : sameCaches st (logCalls calls st).
Proof. by repeat split. Qed.

Lemma sameCaches_refl st : sameCaches st st.
Proof. by repeat split. Qed.

Lemma sameCaches_trans st1 st2 st3 :
  sameCaches st1 st2 -> sameCaches st2 st3 -> sameCaches st1 st3.
Proof.
  intros (?&?&?&?&?&?) (?&?&?&?&?&?). repeat split; congruence.
Qed.

Lemma has_get_false {V} (m : JsMap.t V) k : JsMap.has m k = false <-> JsMap.get m k = None.
Proof. unfold JsMap.has. destruct (JsMap.get m k); split; congruence. Qed.

Lemma has_get_true {V} (m : JsMap.t V) k :
  JsMap.has m k = true <-> is_Some (JsMap.get m k).
Proof.
  unfold JsMap.has. destruct (JsMap.get m k); split; try done.
Qed.

End StateSteps.

Section DirectiveLoading.

Variable E : Env.

Lemma loadDirectiveMetadata_hit directiveType isSync st :
  JsMap.has (_directiveCache st) directiveType = true ->
  _loadDirectiveMetadata E directiveType isSync st = Some (Ok LoadUndefined, st).
Proof. intros H. unfold _loadDirectiveMetadata. rewrite bindR_getState. by rewrite H. Qed.

(** The record [createDirectiveMetadata] stores. *)
Definition normalizedDirMeta (metadata : CompileDirectiveMetadata)
    (templateMetadata : option CompileTemplateMetadata) : CompileDirectiveMetadata :=
  {| dir_type := dir_type metadata;
     dir_isComponent := dir_isComponent metadata;
     dir_selector := dir_selector metadata;
     dir_exportAs := dir_exportAs metadata;
     dir_changeDetection := dir_changeDetection metadata;
     dir_inputs := dir_inputs metadata;
     dir_outputs := dir_outputs metadata;
     dir_hostListeners := dir_hostListeners metadata;
     dir_hostProperties := dir_hostProperties metadata;
     dir_hostAttributes := dir_hostAttributes metadata;
     dir_providers := dir_providers metadata;
     dir_viewProviders := dir_viewProviders metadata;
     dir_queries := dir_queries metadata;
     dir_viewQueries := dir_viewQueries metadata;
     dir_entryComponents := dir_entryComponents metadata;
     dir_template := templateMetadata |}.

Lemma createDirectiveMetadata_run directiveType metadata templateMetadata st :
  createDirectiveMetadata directiveType metadata templateMetadata st =
    Some (Ok (normalizedDirMeta metadata templateMetadata),
          set_directiveCaches directiveType (normalizedDirMeta metadata templateMetadata) st).
Proof. reflexivity. Qed.

Lemma get_set_directiveCaches directiveType meta st :
  JsMap.get (_directiveCache (set_directiveCaches directiveType meta st)) directiveType
    = Some meta.
Proof. apply JsMapFacts.get_set_eq. Qed.

End DirectiveLoading.

Lemma getNonNormalizedDirectiveMetadata_withNormalizer E normalizeTemplate directiveType :
  getNonNormalizedDirectiveMetadata (withNormalizer E normalizeTemplate) directiveType =
    getNonNormalizedDirectiveMetadata E directiveType.
Proof. reflexivity. Qed.

Lemma componentModuleUrl_withNormalizer E normalizeTemplate type annotation :
  componentModuleUrl (withNormalizer E normalizeTemplate) type annotation =
    componentModuleUrl E type annotation.
Proof. reflexivity. Qed.

(** C7: for a component whose template normalisation returns a deferred
    result, the forced-synchronous resolution fails with
    [ComponentStillLoading] and leaves every cache as it was; the
    asynchronous-tolerant resolution returns a pending promise, caches
    nothing yet, and its continuation, run with the resolved template,
    stores the record (and summary) that the synchronous path stores when
    the normaliser returns that template at once. *)
Theorem deferred_template E st directiveType annotation metadata calls template
    moduleUrl calls' asyncResult :
  JsMap.has (_directiveCache st) directiveType = false ->
  getNonNormalizedDirectiveMetadata E (resolveForwardRef directiveType)
    = (calls, Ok (Some (annotation, metadata))) ->
  dir_isComponent metadata = true ->
  dir_template metadata = Some template ->
  componentModuleUrl E (resolveForwardRef directiveType) annotation = (calls', Ok moduleUrl) ->
  directiveNormalizer_normalizeTemplate E
    (prenormalized (resolveForwardRef directiveType) moduleUrl template)
    = AsyncResult asyncResult ->
  let pending := mkPending asyncResult (resolveForwardRef directiveType) metadata in
  (exists st',
     _loadDirectiveMetadata E directiveType true st =
       Some (Err (ComponentStillLoading (resolveForwardRef directiveType)), st') /\
     sameCaches st st') /\
  (exists st',
     _loadDirectiveMetadata E directiveType false st = Some (Ok (LoadPromise pending), st') /\
     sameCaches st st' /\
     forall templateMetadata normalizeTemplate isSync,
       normalizeTemplate
         (prenormalized (resolveForwardRef directiveType) moduleUrl template)
         = SyncResult templateMetadata ->
       exists dirMeta st'',
         resolvePending pending templateMetadata st' = Some (Ok dirMeta, st'') /\
         _loadDirectiveMetadata (withNormalizer E normalizeTemplate) directiveType isSync st
           = Some (Ok LoadNull, st'') /\
         JsMap.get (_directiveCache st'') (resolveForwardRef directiveType) = Some dirMeta /\
         JsMap.get (_directiveSummaryCache st'') (resolveForwardRef directiveType)
           = Some (directive_toSummary dirMeta) /\
         dir_template dirMeta = Some templateMetadata).
Proof.
  intros Hmiss Hnn Hcmp Htpl Hurl Hnorm pending.
  set (st1 := logCalls [CallNormalizeTemplate (resolveForwardRef directiveType)]
                (logCalls calls' (logCalls calls st))).
  assert (Hsame : sameCaches st st1) by (by repeat split).
  split.
  - exists st1. split; [|done].
    unfold _loadDirectiveMetadata. rewrite bindR_getState, Hmiss.
    rewrite (bindR_liftW_ok _ _ _ _ _ Hnn), Hcmp, Htpl.
    rewrite (bindR_liftW_ok _ _ _ _ _ Hurl).
    unfold callW. erewrite bindR_liftW_ok by reflexivity.
    fold (prenormalized (resolveForwardRef directiveType) moduleUrl template).
    by rewrite Hnorm.
  - exists st1. split; [|split; [done|]].
    + unfold _loadDirectiveMetadata. rewrite bindR_getState, Hmiss.
      rewrite (bindR_liftW_ok _ _ _ _ _ Hnn), Hcmp, Htpl.
      rewrite (bindR_liftW_ok _ _ _ _ _ Hurl).
      unfold callW. erewrite bindR_liftW_ok by reflexivity.
      fold (prenormalized (resolveForwardRef directiveType) moduleUrl template).
      by rewrite Hnorm.
    + intros templateMetadata normalizeTemplate isSync Hsync.
      exists (normalizedDirMeta metadata (Some templateMetadata)),
        (set_directiveCaches (resolveForwardRef directiveType)
           (normalizedDirMeta metadata (Some templateMetadata)) st1).
      split; [reflexivity|]. split; [|split; [|split]].
      * unfold _loadDirectiveMetadata. rewrite bindR_getState, Hmiss.
        rewrite getNonNormalizedDirectiveMetadata_withNormalizer.
        rewrite (bindR_liftW_ok _ _ _ _ _ Hnn), Hcmp, Htpl.
        rewrite componentModuleUrl_withNormalizer.
        rewrite (bindR_liftW_ok _ _ _ _ _ Hurl).
        unfold callW. erewrite bindR_liftW_ok by reflexivity.
        fold (prenormalized (resolveForwardRef directiveType) moduleUrl template).
        change (directiveNormalizer_normalizeTemplate (withNormalizer E normalizeTemplate))
          with normalizeTemplate.
        by rewrite Hsync.
      * apply JsMapFacts.get_set_eq.
      * simpl. apply JsMapFacts.get_set_eq.
      * reflexivity.
Qed.

(** C7, witness: the component 11 of the example has a template URL, so
    its normalisation is deferred. *)
Lemma deferred_template_witness :
  (exists st',
     _loadDirectiveMetadata Example.env (VType 11) true newResolver =
       Some (Err (ComponentStillLoading (VType 11)), st') /\
     sameCaches newResolver st') /\
  (exists st',
     _loadDirectiveMetadata Example.env (VType 11) false newResolver =
       Some (Ok (LoadPromise
                   (mkPending 1 (VType 11)
                      (mkDirective (mkTypeMeta (VType 11) [] []) true "cmp" VNull VNull VNull
                         VNull VNull VNull VNull [] [] [] [] []
                         (Some (mkTemplate VNull VNull (VStr "cmp.html") VNull VNull None
                                  VNull))))), st') /\
     sameCaches newResolver st').
Proof.
  destruct (deferred_template Example.env newResolver (VType 11) Example.component11
              (mkDirective (mkTypeMeta (VType 11) [] []) true "cmp" VNull VNull VNull
                 VNull VNull VNull VNull [] [] [] [] []
                 (Some (mkTemplate VNull VNull (VStr "cmp.html") VNull VNull None VNull)))
              [CallDirectiveResolve (VType 11); CallReflectorParameters (VType 11);
               CallHasLifecycleHook "OnInit" (VType 11);
               CallHasLifecycleHook "OnDestroy" (VType 11)]
              (mkTemplate VNull VNull (VStr "cmp.html") VNull VNull None VNull)
              "./cmp" [CallReflectorImportUri (VType 11)] 1)
    as [Hsync (st' & Hasync & Hsame & _)].
  - reflexivity.
  - vm_compute. reflexivity.
  - reflexivity.
  - reflexivity.
  - reflexivity.
  - reflexivity.
  - split; [exact Hsync|]. exists st'. by split.
Defined.

(** ** Resolving twice *)

Section Idempotence.

Variable E : Env.

Lemma retR_inv {A} (a b : A) st st' : retR a st = Some (Ok b, st') -> a = b /\ st = st'.
Proof. by intros [= <- <-]. Qed.

Lemma loadNgModuleBody_cached recur moduleType isSync throwIfNotFound st meta st1 :
  loadNgModuleBody E recur moduleType isSync throwIfNotFound st = Some (Ok (Some meta), st1) ->
  JsMap.get (_ngModuleCache st1) (resolveForwardRef moduleType) = Some meta.
Proof.
  unfold loadNgModuleBody. rewrite bindR_getState.
  destruct (JsMap.get (_ngModuleCache st) _) as [cached|] eqn:Hget.
  - by intros [= <- <-].
  - intros H. apply bindR_ok_inv in H as ([raw|] & s1 & _ & H); [|by apply retR_inv in H as [? _]].
    apply bindR_ok_inv in H as (imports & s2 & _ & H).
    apply bindR_ok_inv in H as (exports & s3 & _ & H).
    apply bindR_ok_inv in H as (declared & s4 & _ & H).
    apply bindR_ok_inv in H as (compileMeta & s5 & _ & H).
    apply bindR_ok_inv in H as ([] & s6 & Hset & H).
    apply retR_inv in H as [[= ->] <-]. injection Hset as <-.
    apply JsMapFacts.get_set_eq.
Qed.

Lemma loadNgModuleMetadata_cached fuel moduleType isSync throwIfNotFound st meta st1 :
  _loadNgModuleMetadata E fuel moduleType isSync throwIfNotFound st
    = Some (Ok (Some meta), st1) ->
  JsMap.get (_ngModuleCache st1) (resolveForwardRef moduleType) = Some meta.
Proof.
  destruct fuel as [|fuel]; [discriminate|]. apply loadNgModuleBody_cached.
Qed.

Lemma loadNgModuleMetadata_hit fuel moduleType isSync throwIfNotFound st meta :
  JsMap.get (_ngModuleCache st) (resolveForwardRef moduleType) = Some meta ->
  _loadNgModuleMetadata E (S fuel) moduleType isSync throwIfNotFound st
    = Some (Ok (Some meta), st).
Proof.
  intros H. simpl. unfold loadNgModuleBody. rewrite bindR_getState. by rewrite H.
Qed.

Lemma loadDirectiveMetadata_stored directiveType isSync st st1 :
  _loadDirectiveMetadata E directiveType isSync st = Some (Ok LoadNull, st1) ->
  exists dirMeta,
    JsMap.get (_directiveCache st1) (resolveForwardRef directiveType) = Some dirMeta /\
    JsMap.get (_directiveSummaryCache st1) (resolveForwardRef directiveType)
      = Some (directive_toSummary dirMeta).
Proof.
  unfold _loadDirectiveMetadata. rewrite bindR_getState.
  destruct (JsMap.has _ _); [discriminate|].
  intros H. apply bindR_ok_inv in H as ([[annotation metadata]|] & s1 & _ & H);
    [|discriminate].
  assert (Hcreate : forall templateMetadata s s',
            bindR (createDirectiveMetadata (resolveForwardRef directiveType) metadata
                     templateMetadata) (fun _ => retR LoadNull) s
              = Some (Ok LoadNull, s') ->
            exists dirMeta,
              JsMap.get (_directiveCache s') (resolveForwardRef directiveType)
                = Some dirMeta /\
              JsMap.get (_directiveSummaryCache s') (resolveForwardRef directiveType)
                = Some (directive_toSummary dirMeta)).
  { intros templateMetadata s s' [= <-]. eexists. split; apply JsMapFacts.get_set_eq. }
  destruct (dir_isComponent metadata).
  - destruct (dir_template metadata); [|discriminate].
    apply bindR_ok_inv in H as (moduleUrl & s2 & _ & H).
    apply bindR_ok_inv in H as ([syncResult|asyncResult] & s3 & _ & H).
    + by eapply Hcreate.
    + destruct isSync; discriminate.
  - by eapply Hcreate.
Qed.

Lemma loadPipeMetadata_stored pipeType st pipeMeta st1 :
  _loadPipeMetadata E pipeType st = Some (Ok pipeMeta, st1) ->
  JsMap.get (_pipeCache st1) (resolveForwardRef pipeType) = Some pipeMeta.
Proof.
  unfold _loadPipeMetadata. intros H.
  apply bindR_ok_inv in H as (annotation & s1 & _ & H).
  apply bindR_ok_inv in H as (type & s2 & _ & H).
  apply bindR_ok_inv in H as ([] & s3 & Hset & H).
  apply retR_inv in H as [<- <-]. injection Hset as <-.
  apply JsMapFacts.get_set_eq.
Qed.

(** C4: a module, directive or pipe type that was resolved is found in
    its cache by the next resolution, which returns the cached record
    and leaves the state, call log included, as it is: no collaborator is
    called again. *)
Theorem resolving_twice :
  (forall fuel moduleType isSync throwIfNotFound st meta st1,
     _loadNgModuleMetadata E fuel moduleType isSync throwIfNotFound st
       = Some (Ok (Some meta), st1) ->
     forall fuel' isSync' throwIfNotFound',
       _loadNgModuleMetadata E (S fuel') moduleType isSync' throwIfNotFound' st1
         = Some (Ok (Some meta), st1)) /\
  (forall directiveType isSync st st1,
     resolveForwardRef directiveType = directiveType ->
     _loadDirectiveMetadata E directiveType isSync st = Some (Ok LoadNull, st1) ->
     exists dirMeta,
       getDirectiveMetadata directiveType st1 = Some (Ok dirMeta, st1) /\
       forall isSync',
         _loadDirectiveMetadata E directiveType isSync' st1 = Some (Ok LoadUndefined, st1)) /\
  (forall pending templateMetadata st dirMeta st1,
     resolvePending pending templateMetadata st = Some (Ok dirMeta, st1) ->
     getDirectiveMetadata (pending_directiveType pending) st1 = Some (Ok dirMeta, st1) /\
     forall isSync',
       _loadDirectiveMetadata E (pending_directiveType pending) isSync' st1
         = Some (Ok LoadUndefined, st1)) /\
  (forall pipeType st pipeMeta st1,
     resolveForwardRef pipeType = pipeType ->
     getOrLoadPipeMetadata E pipeType st = Some (Ok pipeMeta, st1) ->
     getOrLoadPipeMetadata E pipeType st1 = Some (Ok pipeMeta, st1)).
Proof.
  split; [|split; [|split]].
  - intros fuel moduleType isSync throwIfNotFound st meta st1 H fuel' isSync' throwIfNotFound'.
    apply loadNgModuleMetadata_hit. by eapply loadNgModuleMetadata_cached.
  - intros directiveType isSync st st1 Hr H.
    destruct (loadDirectiveMetadata_stored _ _ _ _ H) as (dirMeta & Hget & _).
    rewrite Hr in Hget. exists dirMeta. split.
    + unfold getDirectiveMetadata. rewrite bindR_getState. by rewrite Hget.
    + intros isSync'. apply loadDirectiveMetadata_hit. apply has_get_true. by rewrite Hget.
  - intros pending templateMetadata st dirMeta st1 H.
    unfold resolvePending in H. rewrite createDirectiveMetadata_run in H.
    injection H as <- <-.
    assert (Hget : JsMap.get
                     (_directiveCache
                        (set_directiveCaches (pending_directiveType pending)
                           (normalizedDirMeta (pending_metadata pending)
                              (Some templateMetadata)) st))
                     (pending_directiveType pending)
                   = Some (normalizedDirMeta (pending_metadata pending)
                             (Some templateMetadata)))
      by apply JsMapFacts.get_set_eq.
    split.
    + unfold getDirectiveMetadata. rewrite bindR_getState. by rewrite Hget.
    + intros isSync'. apply loadDirectiveMetadata_hit. apply has_get_true. by rewrite Hget.
  - intros pipeType st pipeMeta st1 Hr. unfold getOrLoadPipeMetadata.
    rewrite !bindR_getState.
    destruct (JsMap.get (_pipeCache st) pipeType) as [cached|] eqn:Hget.
    + intros [= <- <-]. by rewrite Hget.
    + intros H. apply loadPipeMetadata_stored in H. rewrite Hr in H. by rewrite H.
Qed.

End Idempotence.

(** C4, witness: the module A, the directive 10 and the pipe 20 of the
    example, each resolved from a fresh resolver and then once more. *)
Lemma resolving_twice_witness :
  (exists meta st1,
     _loadNgModuleMetadata Example.env 3 (VType 1) true true newResolver
       = Some (Ok (Some meta), st1) /\
     _loadNgModuleMetadata Example.env 1 (VType 1) false false st1
       = Some (Ok (Some meta), st1)) /\
  (exists st1,
     _loadDirectiveMetadata Example.env (VType 10) true newResolver = Some (Ok LoadNull, st1) /\
     _loadDirectiveMetadata Example.env (VType 10) true st1 = Some (Ok LoadUndefined, st1)) /\
  (exists pipeMeta st1,
     getOrLoadPipeMetadata Example.env (VType 20) newResolver = Some (Ok pipeMeta, st1) /\
     getOrLoadPipeMetadata Example.env (VType 20) st1 = Some (Ok pipeMeta, st1)).
Proof.
  destruct (resolving_twice Example.env) as (Hmodule & Hdirective & _ & Hpipe).
  split; [|split].
  - destruct (_loadNgModuleMetadata Example.env 3 (VType 1) true true newResolver)
      as [[[[meta|]|e] st1]|] eqn:Hrun; try (vm_compute in Hrun; discriminate).
    exists meta, st1. split; [reflexivity|]. by eapply Hmodule.
  - destruct (_loadDirectiveMetadata Example.env (VType 10) true newResolver)
      as [[[[| |p]|e] st1]|] eqn:Hrun; try (vm_compute in Hrun; discriminate).
    exists st1. split; [reflexivity|].
    destruct (Hdirective (VType 10) true newResolver st1 eq_refl Hrun) as (dirMeta & _ & H).
    apply H.
  - destruct (getOrLoadPipeMetadata Example.env (VType 20) newResolver)
      as [[[pipeMeta|e] st1]|] eqn:Hrun; try (vm_compute in Hrun; discriminate).
    exists pipeMeta, st1. split; [reflexivity|]. by eapply Hpipe.
Defined.

(** ** Running the module resolution step by step *)

Section Running.

Lemma bindR_run_ok {A B} (m : R A) (k : A -> R B) st a st1 :
  m st = Some (Ok a, st1) -> bindR m k st = k a st1.
Proof. unfold bindR. by intros ->. Qed.

Lemma bindR_run_err {A B} (m : R A) (k : A -> R B) st e st1 :
  m st = Some (Err e, st1) -> bindR m k st = Some (Err e, st1).
Proof. unfold bindR. by intros ->. Qed.

Lemma mapR_app {A B} (f : A -> R B) l1 l2 st :
  mapR f (l1 ++ l2) st =
    bindR (mapR f l1) (fun ys1 => bindR (mapR f l2) (fun ys2 => retR (ys1 ++ ys2))) st.
Proof.
  revert st. induction l1 as [|x l1 IH]; intros st; simpl.
  - unfold bindR at 1. simpl. unfold bindR.
    by destruct (mapR f l2 st) as [[[ys|e] st']|].
  - unfold bindR. destruct (f x st) as [[[y|e] st1]|]; [|done|done].
    rewrite IH. unfold bindR. destruct (mapR f l1 st1) as [[[ys1|e] st2]|]; [|done|done].
    simpl. by destruct (mapR f l2 st2) as [[[ys2|e] st3]|].
Qed.

Lemma mapR_ok_inv {A B} (f : A -> R B) l st ys st' (P : State -> Prop) (Q : A -> B -> Prop) :
  (forall x s y s', x ∈ l -> P s -> f x s = Some (Ok y, s') -> P s' /\ Q x y) ->
  P st ->
  mapR f l st = Some (Ok ys, st') ->
  P st' /\ Forall2 Q l ys.
Proof.
  revert st ys. induction l as [|x l IH]; intros st ys Hf HP; simpl.
  - intros [= <- <-]. by split.
  - intros H. apply bindR_ok_inv in H as (y & s1 & Hx & H).
    apply bindR_ok_inv in H as (ys' & s2 & Hl & H). apply retR_inv in H as [<- <-].
    destruct (Hf x st y s1) as [HP1 HQ]; [by left | done | done |].
    destruct (IH s1 ys') as [HP2 HQs]; [|done|done|].
    + intros x' s y' s' Hin. apply Hf. by right.
    + split; [done | by constructor].
Qed.

End Running.

Section ModuleRuns.

Variable E : Env.

Lemma ngModuleResolver_resolve_call_found type throwIfNotFound meta :
  ngModuleResolver_resolve E type = Some meta ->
  ngModuleResolver_resolve_call E type throwIfNotFound =
    ([CallNgModuleResolve type throwIfNotFound], Ok (Some meta)).
Proof. intros H. unfold ngModuleResolver_resolve_call. simpl. by rewrite H. Qed.

(** A module that is not cached and has an annotation runs the three
    loops. *)
Lemma loadNgModuleBody_miss recur moduleType isSync throwIfNotFound st meta :
  JsMap.get (_ngModuleCache st) (resolveForwardRef moduleType) = None ->
  ngModuleResolver_resolve E (resolveForwardRef moduleType) = Some meta ->
  loadNgModuleBody E recur moduleType isSync throwIfNotFound st =
    bindR (importsPhase E recur (resolveForwardRef moduleType) isSync meta)
      (fun imports =>
         bindR (exportsPhase recur (resolveForwardRef moduleType) isSync meta)
           (fun exports =>
              bindR (declarationsPhase E (resolveForwardRef moduleType) isSync meta)
                (fun declared =>
                   bindR
                     (liftW (finishNgModule E (resolveForwardRef moduleType) meta
                               (map (fun i => fst (fst i)) imports) (lefts exports)
                               (rights exports) (flat_map (fun i => snd (fst i)) imports)
                               (flat_map (fun i => snd i) imports) declared
                               (transitiveModuleOf imports exports declared)))
                     (fun compileMeta =>
                        bindR (modifyState
                                 (set_ngModuleCache (resolveForwardRef moduleType)
                                    compileMeta))
                          (fun _ => retR (Some compileMeta))))))
      (logCalls [CallNgModuleResolve (resolveForwardRef moduleType) throwIfNotFound] st).
Proof.
  intros Hmiss Hmeta. unfold loadNgModuleBody. rewrite bindR_getState, Hmiss.
  by rewrite (bindR_liftW_ok _ _ _ _ _
                (ngModuleResolver_resolve_call_found _ throwIfNotFound _ Hmeta)).
Qed.

(** *** A type registered for a module stays registered for it *)

Definition keepsRegistered (type oldModule : Value) (st st' : State) : Prop :=
  JsMap.get (_ngModuleOfTypes st) type = Some oldModule ->
  JsMap.get (_ngModuleOfTypes st') type = Some oldModule.

Lemma keepsRegistered_moduleFrame type oldModule :
  truthy oldModule = true -> ModuleFrame (keepsRegistered type oldModule).
Proof.
  intros Htruthy. split.
  - split; [intros st H; exact H | intros a b c Hab Hbc H; apply Hbc, Hab, H].
  - intros calls st H. exact H.
  - intros t meta st H. exact H.
  - intros t moduleType st Hguard H. simpl.
    destruct (decide (t = type)) as [->|Hne].
    + simpl in Hguard. rewrite H in Hguard. simpl in Hguard. rewrite Htruthy in Hguard.
      simpl in Hguard. apply negb_false_iff, bool_decide_eq_true in Hguard. subst.
      apply JsMapFacts.get_set_eq.
    + by rewrite JsMapFacts.get_set_ne.
  - intros t meta st H. exact H.
Qed.

Lemma addTypeToModule_registered type oldModule moduleType st :
  JsMap.get (_ngModuleOfTypes st) type = Some oldModule ->
  truthy oldModule = true ->
  oldModule <> moduleType ->
  _addTypeToModule type moduleType st =
    Some (Err (DirectiveInTwoModules type oldModule moduleType), st).
Proof.
  intros Hget Htruthy Hne. unfold _addTypeToModule. rewrite bindR_getState, Hget. simpl.
  rewrite Htruthy. simpl. by rewrite bool_decide_eq_false_2.
Qed.

Lemma declarationEntry_registered type oldModule moduleType isSync st :
  JsMap.get (_ngModuleOfTypes st) type = Some oldModule ->
  truthy oldModule = true ->
  oldModule <> moduleType ->
  isValidType type = true ->
  directiveResolver_isDirective E type || pipeResolver_isPipe E type = true ->
  exists st',
    declarationEntry E moduleType isSync type st =
      Some (Err (DirectiveInTwoModules type oldModule moduleType), st') /\
    sameCaches st st'.
Proof.
  intros Hget Htruthy Hne Hvalid Hkind. unfold declarationEntry. rewrite Hvalid. simpl.
  unfold isDirective, isPipe, callW.
  erewrite bindR_liftW_ok by reflexivity.
  destruct (directiveResolver_isDirective E type) eqn:HisDir.
  - eexists. split.
    + erewrite bindR_run_err; [reflexivity|]. by apply addTypeToModule_registered.
    + apply sameCaches_logCalls.
  - simpl in Hkind. erewrite bindR_liftW_ok by reflexivity. rewrite Hkind.
    eexists. split.
    + erewrite bindR_run_err; [reflexivity|]. by apply addTypeToModule_registered.
    + eapply sameCaches_trans; apply sameCaches_logCalls.
Qed.

(** C5: a type that is registered as declared by one module cannot be
    declared by another: resolving a second, different module whose
    declarations contain the type never returns a record, and when the
    imports, the exports and the declarations before the type raise no
    error of their own the resolution fails with the
    declared-in-two-modules error for that type. *)
Theorem declared_in_two_modules fuel moduleType isSync throwIfNotFound st meta declarations
    pre type post oldModule :
  JsMap.get (_ngModuleCache st) (resolveForwardRef moduleType) = None ->
  ngModuleResolver_resolve E (resolveForwardRef moduleType) = Some meta ->
  m_declarations meta = Some declarations ->
  flattenAndDedupeArray declarations = pre ++ type :: post ->
  isValidType type = true ->
  directiveResolver_isDirective E type || pipeResolver_isPipe E type = true ->
  JsMap.get (_ngModuleOfTypes st) type = Some oldModule ->
  truthy oldModule = true ->
  oldModule <> resolveForwardRef moduleType ->
  (forall r st',
     _loadNgModuleMetadata E fuel moduleType isSync throwIfNotFound st = Some (r, st') ->
     exists e, r = Err e) /\
  (forall imports st1 exports st2 declared st3,
     importsPhase E (_loadNgModuleMetadata E fuel) (resolveForwardRef moduleType) isSync meta
       (logCalls [CallNgModuleResolve (resolveForwardRef moduleType) throwIfNotFound] st)
       = Some (Ok imports, st1) ->
     exportsPhase (_loadNgModuleMetadata E fuel) (resolveForwardRef moduleType) isSync meta st1
       = Some (Ok exports, st2) ->
     mapR (declarationEntry E (resolveForwardRef moduleType) isSync) pre st2
       = Some (Ok declared, st3) ->
     exists st',
       _loadNgModuleMetadata E (S fuel) moduleType isSync throwIfNotFound st =
         Some (Err (DirectiveInTwoModules type oldModule (resolveForwardRef moduleType)), st')
       /\ sameCaches st3 st').
Proof.
  intros Hmiss Hmeta Hdecl Hflat Hvalid Hkind Hreg Htruthy Hne.
  pose proof (keepsRegistered_moduleFrame type oldModule Htruthy) as F.
  pose proof (mf_preorder _ F) as Hpre.
  assert (Hload : forall fuel moduleType isSync throwIfNotFound,
            steps (keepsRegistered type oldModule)
              (_loadNgModuleMetadata E fuel moduleType isSync throwIfNotFound)).
  { intros. by apply steps_loadNgModuleMetadata'. }
  assert (Hentries : forall l,
            steps (keepsRegistered type oldModule)
              (mapR (declarationEntry E (resolveForwardRef moduleType) isSync) l)).
  { intros l. apply steps_mapR; [done|]. intros x.
    destruct F. by apply steps_declarationEntry. }
  assert (Himp : forall fuel,
            steps (keepsRegistered type oldModule)
              (importsPhase E (_loadNgModuleMetadata E fuel) (resolveForwardRef moduleType)
                 isSync meta)).
  { intros fuel'. destruct F. by apply steps_importsPhase. }
  assert (Hexp : forall fuel,
            steps (keepsRegistered type oldModule)
              (exportsPhase (_loadNgModuleMetadata E fuel) (resolveForwardRef moduleType)
                 isSync meta)).
  { intros fuel'. destruct F. by apply steps_exportsPhase. }
  assert (Hdeclarations : forall s r s',
            JsMap.get (_ngModuleOfTypes s) type = Some oldModule ->
            declarationsPhase E (resolveForwardRef moduleType) isSync meta s = Some (r, s') ->
            exists e, r = Err e).
  { intros s r s' Hs. unfold declarationsPhase. rewrite Hdecl, Hflat, mapR_app.
    intros [(declared & s3 & Hrun & H)|(e & _ & ->)]%bindR_inv; [|by eauto].
    pose proof (Hentries _ _ _ _ Hrun Hs) as Hs3.
    destruct (declarationEntry_registered type oldModule (resolveForwardRef moduleType)
                isSync s3 Hs3 Htruthy Hne Hvalid Hkind) as (s4 & Hentry & _).
    simpl in H. rewrite (bindR_run_err _ _ _ _ _ (bindR_run_err _ _ _ _ _ Hentry)) in H.
    injection H as <- _. by eauto. }
  split.
  - intros r st'. destruct fuel as [|fuel]; [discriminate|]. simpl.
    rewrite (loadNgModuleBody_miss _ _ _ _ _ _ Hmiss Hmeta).
    intros [(imports & s1 & Himports & H)|(e & _ & ->)]%bindR_inv; [|by eauto].
    apply bindR_inv in H as [(exports & s2 & Hexports & H)|(e & _ & ->)]; [|by eauto].
    apply bindR_inv in H as [(declared & s3 & Hdeclared & _)|(e & _ & ->)]; [|by eauto].
    exfalso. destruct (Hdeclarations s2 (Ok declared) s3) as [e He];
      [|exact Hdeclared|discriminate].
    apply (Hexp _ _ _ _ Hexports), (Himp _ _ _ _ Himports), Hreg.
  - intros imports st1 exports st2 declared st3 Himports Hexports Hrun.
    assert (Hs3 : JsMap.get (_ngModuleOfTypes st3) type = Some oldModule).
    { apply (Hentries _ _ _ _ Hrun).
      apply (Hexp _ _ _ _ Hexports), (Himp _ _ _ _ Himports), Hreg. }
    destruct (declarationEntry_registered type oldModule (resolveForwardRef moduleType)
                isSync st3 Hs3 Htruthy Hne Hvalid Hkind) as (st' & Hentry & Hsame).
    exists st'. split; [|done]. simpl.
    rewrite (loadNgModuleBody_miss _ _ _ _ _ _ Hmiss Hmeta).
    rewrite (bindR_run_ok _ _ _ _ _ Himports), (bindR_run_ok _ _ _ _ _ Hexports).
    apply bindR_run_err. unfold declarationsPhase. rewrite Hdecl, Hflat, mapR_app.
    rewrite (bindR_run_ok _ _ _ _ _ Hrun). apply bindR_run_err. simpl.
    by apply bindR_run_err.
Qed.

End ModuleRuns.

(** C5, witness: the module 5 of the example declares the directive 10;
    the module 6 declares the pipe 20 and then the directive 10. *)
Lemma declared_in_two_modules_witness :
  exists st',
    _loadNgModuleMetadata Example.env 1 (VType 6) true true Example.afterModule5 =
      Some (Err (DirectiveInTwoModules (VType 10) (VType 5) (VType 6)), st').
Proof.
  destruct (declared_in_two_modules Example.env 0 (VType 6) true true Example.afterModule5
              Example.module6 [VType 20; VType 10] [VType 20] (VType 10) [] (VType 5))
    as [_ H]; try reflexivity.
  - discriminate.
  - edestruct H as (st' & Hrun & _).
    + reflexivity.
    + reflexivity.
    + vm_compute. reflexivity.
    + exists st'. exact Hrun.
Defined.

(** ** Exports *)

Section Exports.

Variable E : Env.

Definition inDirectivesSet (transitiveModule : TransitiveCompileNgModuleMetadata)
    (exportedId : CompileIdentifierMetadata) : bool :=
  JsSet.has (tm_directivesSet transitiveModule) (reference exportedId).

Definition inPipesSet (transitiveModule : TransitiveCompileNgModuleMetadata)
    (exportedId : CompileIdentifierMetadata) : bool :=
  JsSet.has (tm_pipesSet transitiveModule) (reference exportedId).

Lemma getTypeDescriptor_ok type :
  exists calls descriptor, _getTypeDescriptor E type = (calls, Ok descriptor).
Proof.
  unfold _getTypeDescriptor, isDirective, isPipe, isNgModule, callW. simpl.
  destruct (directiveResolver_isDirective E type); [by eauto|].
  destruct (pipeResolver_isPipe E type); [by eauto|].
  destruct (ngModuleResolver_isNgModule E type); [by eauto|].
  destruct (truthy _); by eauto.
Qed.

Lemma classifyExports_declared transitiveModule moduleType ids :
  Forall (fun id => inDirectivesSet transitiveModule id
                    || inPipesSet transitiveModule id = true) ids ->
  classifyExports E transitiveModule moduleType ids =
    ([], Ok (List.filter (inDirectivesSet transitiveModule) ids,
             List.filter (fun id => negb (inDirectivesSet transitiveModule id)
                                    && inPipesSet transitiveModule id) ids)).
Proof.
  induction 1 as [|id ids Hid _ IH]; [done|].
  simpl. fold (inDirectivesSet transitiveModule id) (inPipesSet transitiveModule id).
  rewrite IH. destruct (inDirectivesSet transitiveModule id); [done|].
  simpl in Hid. by rewrite Hid.
Qed.

Lemma classifyExports_undeclared transitiveModule moduleType pre exportedId post :
  Forall (fun id => inDirectivesSet transitiveModule id
                    || inPipesSet transitiveModule id = true) pre ->
  inDirectivesSet transitiveModule exportedId = false ->
  inPipesSet transitiveModule exportedId = false ->
  exists calls descriptor,
    classifyExports E transitiveModule moduleType (pre ++ exportedId :: post) =
      (calls, Err (UndeclaredExport descriptor (reference exportedId) moduleType)).
Proof.
  intros Hpre Hdir Hpipe.
  destruct (getTypeDescriptor_ok (reference exportedId)) as (calls & descriptor & Hdesc).
  exists calls, descriptor.
  induction Hpre as [|id ids Hid _ IH]; simpl.
  - fold (inDirectivesSet transitiveModule exportedId)
         (inPipesSet transitiveModule exportedId).
    rewrite Hdir, Hpipe, Hdesc. simpl. by rewrite app_nil_r.
  - fold (inDirectivesSet transitiveModule id) (inPipesSet transitiveModule id).
    rewrite IH. destruct (inDirectivesSet transitiveModule id); [done|].
    simpl in Hid. by rewrite Hid.
Qed.

Lemma classifyExports_ok_inv transitiveModule moduleType ids exportedDirectives exportedPipes :
  snd (classifyExports E transitiveModule moduleType ids)
    = Ok (exportedDirectives, exportedPipes) ->
  Forall (fun id => inDirectivesSet transitiveModule id
                    || inPipesSet transitiveModule id = true) ids /\
  exportedDirectives = List.filter (inDirectivesSet transitiveModule) ids /\
  exportedPipes = List.filter (fun id => negb (inDirectivesSet transitiveModule id)
                                         && inPipesSet transitiveModule id) ids.
Proof.
  revert exportedDirectives exportedPipes.
  induction ids as [|id ids IH]; intros ds ps; simpl.
  - by intros [= <- <-].
  - fold (inDirectivesSet transitiveModule id) (inPipesSet transitiveModule id).
    destruct (inDirectivesSet transitiveModule id) eqn:Hd; simpl.
    + rewrite snd_bindW.
      destruct (snd (classifyExports E transitiveModule moduleType ids))
        as [[ds' ps']|e]; [|discriminate].
      simpl. intros [= <- <-]. destruct (IH ds' ps' eq_refl) as (HF & -> & ->).
      repeat split; [|done..]. constructor; [by rewrite Hd | done].
    + destruct (inPipesSet transitiveModule id) eqn:Hp; simpl.
      * rewrite snd_bindW.
        destruct (snd (classifyExports E transitiveModule moduleType ids))
          as [[ds' ps']|e]; [|discriminate].
        simpl. intros [= <- <-]. destruct (IH ds' ps' eq_refl) as (HF & -> & ->).
        repeat split; [|done..]. constructor; [by rewrite Hd, Hp | done].
      * rewrite snd_bindW. destruct (snd (_getTypeDescriptor E (reference id))); discriminate.
Qed.

Lemma finishNgModule_exports moduleType meta importedModules exportedModules ids providers
    entryComponents declared transitiveModule compileMeta :
  snd (finishNgModule E moduleType meta importedModules exportedModules ids providers
         entryComponents declared transitiveModule) = Ok compileMeta ->
  exists exportedDirectives exportedPipes,
    snd (classifyExports E transitiveModule moduleType ids)
      = Ok (exportedDirectives, exportedPipes) /\
    mod_exportedDirectives compileMeta = exportedDirectives /\
    mod_exportedPipes compileMeta = exportedPipes.
Proof.
  unfold finishNgModule. intros H.
  apply snd_bindW_ok_inv in H as ([ds ps] & Hclassify & H).
  apply snd_bindW_ok_inv in H as ([providers1 sink1] & _ & H).
  apply snd_bindW_ok_inv in H as (entryTypes & _ & H).
  apply snd_bindW_ok_inv in H as (bootstrapComponents & _ & H).
  apply snd_bindW_ok_inv in H as (type & _ & H).
  simpl in H. injection H as <-. by exists ds, ps.
Qed.

Lemma exportsPhase_entries recur moduleType isSync meta st exports st' l :
  m_exports meta = Some l ->
  exportsPhase recur moduleType isSync meta st = Some (Ok exports, st') ->
  Forall2 (fun exportedType result =>
             isValidType exportedType = true /\
             forall exportedId, result = inr exportedId ->
                                exportedId = _getIdentifierMetadata exportedType)
    (flattenAndDedupeArray l) exports.
Proof.
  intros Hl. unfold exportsPhase. rewrite Hl. intros H.
  eapply (mapR_ok_inv _ _ _ _ _ (fun _ => True)); [|done|exact H].
  intros x s y s' _ _. unfold exportEntry.
  destruct (isValidType x); simpl; [|discriminate].
  intros Hx. apply bindR_ok_inv in Hx as ([summary|] & s1 & _ & Hx);
    apply retR_inv in Hx as [<- _]; repeat split; try done.
  by intros id [= <-].
Qed.

(** C6: when a module exports a type that is no module and that is
    neither in the transitive directive set nor in the transitive pipe
    set, the resolution fails with the undeclared-export error for the
    first such type, and the message names it; a resolution that
    succeeds has classified the exports found in the directive set as
    exported directives and those found in the pipe set as exported
    pipes. *)
Theorem undeclared_export fuel moduleType isSync throwIfNotFound st meta
    imports st1 exports st2 declared st3 :
  JsMap.get (_ngModuleCache st) (resolveForwardRef moduleType) = None ->
  ngModuleResolver_resolve E (resolveForwardRef moduleType) = Some meta ->
  importsPhase E (_loadNgModuleMetadata E fuel) (resolveForwardRef moduleType) isSync meta
    (logCalls [CallNgModuleResolve (resolveForwardRef moduleType) throwIfNotFound] st)
    = Some (Ok imports, st1) ->
  exportsPhase (_loadNgModuleMetadata E fuel) (resolveForwardRef moduleType) isSync meta st1
    = Some (Ok exports, st2) ->
  declarationsPhase E (resolveForwardRef moduleType) isSync meta st2
    = Some (Ok declared, st3) ->
  let transitiveModule := transitiveModuleOf imports exports declared in
  let exportedNonModuleIdentifiers := rights exports in
  (forall l, m_exports meta = Some l ->
     Forall2 (fun exportedType result =>
                isValidType exportedType = true /\
                forall exportedId, result = inr exportedId ->
                                   exportedId = _getIdentifierMetadata exportedType)
       (flattenAndDedupeArray l) exports) /\
  (forall pre exportedId post,
     exportedNonModuleIdentifiers = pre ++ exportedId :: post ->
     Forall (fun id => inDirectivesSet transitiveModule id
                       || inPipesSet transitiveModule id = true) pre ->
     inDirectivesSet transitiveModule exportedId = false ->
     inPipesSet transitiveModule exportedId = false ->
     exists descriptor st',
       _loadNgModuleMetadata E (S fuel) moduleType isSync throwIfNotFound st =
         Some (Err (UndeclaredExport descriptor (reference exportedId)
                      (resolveForwardRef moduleType)), st') /\
       sameCaches st3 st' /\
       errorMessage E (UndeclaredExport descriptor (reference exportedId)
                         (resolveForwardRef moduleType)) =
         "Can't export " +:+ descriptor +:+ " " +:+ stringify E (reference exportedId)
           +:+ " from " +:+ stringify E (resolveForwardRef moduleType)
           +:+ " as it was neither declared nor imported!") /\
  (forall compileMeta st',
     _loadNgModuleMetadata E (S fuel) moduleType isSync throwIfNotFound st =
       Some (Ok (Some compileMeta), st') ->
     Forall (fun id => inDirectivesSet transitiveModule id
                       || inPipesSet transitiveModule id = true)
       exportedNonModuleIdentifiers /\
     mod_exportedDirectives compileMeta =
       List.filter (inDirectivesSet transitiveModule) exportedNonModuleIdentifiers /\
     mod_exportedPipes compileMeta =
       List.filter (fun id => negb (inDirectivesSet transitiveModule id)
                              && inPipesSet transitiveModule id)
         exportedNonModuleIdentifiers).
Proof.
  intros Hmiss Hmeta Himports Hexports Hdeclared transitiveModule ids.
  assert (Hrun : _loadNgModuleMetadata E (S fuel) moduleType isSync throwIfNotFound st =
            bindR
              (liftW (finishNgModule E (resolveForwardRef moduleType) meta
                        (map (fun i => fst (fst i)) imports) (lefts exports) ids
                        (flat_map (fun i => snd (fst i)) imports)
                        (flat_map (fun i => snd i) imports) declared transitiveModule))
              (fun compileMeta =>
                 bindR (modifyState
                          (set_ngModuleCache (resolveForwardRef moduleType) compileMeta))
                   (fun _ => retR (Some compileMeta))) st3).
  { simpl. rewrite (loadNgModuleBody_miss _ _ _ _ _ _ _ Hmiss Hmeta).
    by rewrite (bindR_run_ok _ _ _ _ _ Himports), (bindR_run_ok _ _ _ _ _ Hexports),
      (bindR_run_ok _ _ _ _ _ Hdeclared). }
  split; [|split].
  - intros l Hl. by eapply exportsPhase_entries.
  - intros pre exportedId post Hids Hpre Hdir Hpipe.
    destruct (classifyExports_undeclared transitiveModule (resolveForwardRef moduleType)
                pre exportedId post Hpre Hdir Hpipe) as (calls & descriptor & Hclassify).
    exists descriptor, (logCalls calls st3). split; [|split; [|done]].
    + rewrite Hrun. eapply bindR_liftW_err. unfold finishNgModule.
      rewrite Hids. by erewrite bindW_err.
    + apply sameCaches_logCalls.
  - intros compileMeta st'. rewrite Hrun. intros H.
    apply bindR_ok_inv in H as (compileMeta' & s4 & Hfinish & H).
    apply liftW_inv in Hfinish as [Hfinish _].
    apply bindR_ok_inv in H as ([] & s5 & _ & H). apply retR_inv in H as [[= ->] _].
    symmetry in Hfinish.
    apply finishNgModule_exports in Hfinish as (ds & ps & Hclassify & -> & ->).
    by apply classifyExports_ok_inv in Hclassify.
Qed.

End Exports.

(** C6, witness: the module 4 of the example declares the pipe 20 and
    exports the type 30, which is declared nowhere. *)
Lemma undeclared_export_witness :
  exists st',
    _loadNgModuleMetadata Example.env 2 (VType 4) true true newResolver =
      Some (Err (UndeclaredExport "value" (VType 30) (VType 4)), st') /\
  errorMessage Example.env (UndeclaredExport "value" (VType 30) (VType 4)) =
    "Can't export value Type from Type as it was neither declared nor imported!".
Proof.
  edestruct (undeclared_export Example.env 1 (VType 4) true true newResolver Example.module4)
    as (_ & H & _).
  - reflexivity.
  - reflexivity.
  - reflexivity.
  - vm_compute. reflexivity.
  - vm_compute. reflexivity.
  - edestruct (H [] (mkIdentifier (VType 30)) []) as (descriptor & st' & Hrun & _ & Hmsg).
    + reflexivity.
    + constructor.
    + reflexivity.
    + reflexivity.
    + assert (Hc : option_map fst
                     (_loadNgModuleMetadata Example.env 2 (VType 4) true true newResolver)
                   = Some (Err (UndeclaredExport "value" (VType 30) (VType 4))))
        by (vm_compute; reflexivity).
      rewrite Hrun in Hc. injection Hc as ->.
      exists st'. split; [exact Hrun | reflexivity].
Defined.

(** ** The module graph of the annotations and the module cache *)

Definition uncached (st : State) (moduleType : Value) : Prop :=
  JsMap.get (_ngModuleCache st) moduleType = None.

(** The module type of an entry of [imports]: the entry, or the
    [ngModule] of a module with providers. *)
Definition importedTypeOf (importedType : Value) : option Value :=
  if isValidType importedType then Some importedType
  else if truthy importedType && truthy (getProperty importedType "ngModule") then
    Some (getProperty importedType "ngModule")
  else None.

(** The annotation of [moduleType] imports the module type [imported]. *)
Definition importsType (E : Env) (moduleType imported : Value) : Prop :=
  exists meta l entry t,
    ngModuleResolver_resolve E moduleType = Some meta /\
    m_imports meta = Some l /\
    entry ∈ flattenAndDedupeArray l /\
    importedTypeOf entry = Some t /\
    resolveForwardRef t = imported.

(** The annotation of [moduleType] exports the type [exported]. *)
Definition exportsType (E : Env) (moduleType exported : Value) : Prop :=
  exists meta l entry,
    ngModuleResolver_resolve E moduleType = Some meta /\
    m_exports meta = Some l /\
    entry ∈ flattenAndDedupeArray l /\
    isValidType entry = true /\
    resolveForwardRef entry = exported.

Definition moduleChild (E : Env) (moduleType child : Value) : Prop :=
  importsType E moduleType child \/ exportsType E moduleType child.

(** The module cache only grows. *)
Definition grows (st st' : State) : Prop :=
  forall moduleType, uncached st' moduleType -> uncached st moduleType.

Lemma grows_preorder : PreOrder grows.
Proof. split; [by intros st K | intros a b c Hab Hbc K H; by apply Hab, Hbc]. Qed.

Lemma grows_moduleFrame : ModuleFrame grows.
Proof.
  split; [apply grows_preorder | | | |].
  - intros calls st K H. exact H.
  - intros type meta st K H. exact H.
  - intros type moduleType st _ K H. exact H.
  - intros type meta st K. unfold uncached. simpl.
    rewrite JsMapFacts.get_set. by destruct (decide (type = K)).
Qed.

Lemma Forall2_elem_l {A B} (Q : A -> B -> Prop) l k x :
  Forall2 Q l k -> x ∈ l -> exists y, y ∈ k /\ Q x y.
Proof.
  induction 1 as [|a b l k Hab _ IH]; [by intros ?%elem_of_nil|].
  intros [->|Hin]%elem_of_cons.
  - exists b. split; [by left | done].
  - destruct (IH Hin) as (y & Hy & HQ). exists y. split; [by right | done].
Qed.

Section EntryRuns.

Variable E : Env.
Variable recur : Value -> bool -> bool -> R (option CompileNgModuleMetadata).

Lemma importedModuleTypeOf_type importedType t providers entryComponents :
  snd (importedModuleTypeOf E importedType) = Ok (t, providers, entryComponents) ->
  t = importedTypeOf importedType.
Proof.
  unfold importedModuleTypeOf, importedTypeOf.
  destruct (isValidType importedType); [by intros [= <- _ _]|].
  destruct (truthy importedType && _); [|by intros [= <- _ _]].
  destruct (getProperty importedType "providers") as [| | | | | | |l| | | | | | | |];
    try (destruct (truthy _); [discriminate | by intros [= <- _ _]]).
  rewrite snd_bindW. destruct (snd _) as [[out sink]|e]; [|discriminate].
  by intros [= <- _ _].
Qed.

(** What a run of the callback of [imports.forEach] consists of. *)
Lemma importEntry_inv moduleType isSync importedType st r st' :
  importEntry E recur moduleType isSync importedType st = Some (r, st') ->
  (_ngModuleCache st' = _ngModuleCache st /\ exists e, r = Err e) \/
  (exists t calls r0 st1,
     importedTypeOf importedType = Some t /\
     recur t isSync false (logCalls calls st) = Some (r0, st1) /\
     _ngModuleCache st' = _ngModuleCache st1 /\
     ((exists e, r = Err e /\ (r0 = Err e \/ r0 = Ok None)) \/
      (exists m providers entryComponents,
         r0 = Ok (Some m) /\ r = Ok (toSummary m, providers, entryComponents) /\
         st' = st1))).
Proof.
  unfold importEntry. intros H.
  apply bindR_inv in H as [([[t0 providers] entryComponents] & s1 & Hw & H)|(e & Hw & ->)].
  - apply liftW_inv in Hw as [Hw ->]. symmetry in Hw.
    apply importedModuleTypeOf_type in Hw. subst t0.
    destruct (importedTypeOf importedType) as [t|] eqn:Ht.
    + right. exists t, (fst (importedModuleTypeOf E importedType)).
      unfold _loadNgModuleSummary in H.
      apply bindR_inv in H as [(summary & s2 & Hsum & H)|(e & Hsum & ->)].
      * apply bindR_inv in Hsum as [(m & s3 & Hrec & Hret)|(e & Hrec & [=])].
        apply retR_inv in Hret as [<- <-].
        exists (Ok m), s3. split; [done|]. split; [done|].
        destruct m as [m|].
        -- injection H as <- <-. split; [done|]. right. by exists m, providers, entryComponents.
        -- apply bindR_inv in H as [(d & s4 & Hd & H)|(e & Hd & ->)].
           ++ apply liftW_inv in Hd as [_ ->]. injection H as <- <-.
              split; [done|]. left. eexists. split; [done | by right].
           ++ apply liftW_inv in Hd as [_ ->]. split; [done|]. left.
              eexists. split; [done | by right].
      * apply bindR_inv in Hsum as [(m & s3 & Hrec & [=])|(e' & Hrec & [= <-])].
        exists (Err e), st'. split; [done|]. split; [done|]. split; [done|].
        left. exists e. split; [done | by left].
    + injection H as <- <-. left. split; [done | by eauto].
  - apply liftW_inv in Hw as [_ ->]. left. split; [done | by eauto].
Qed.

(** What a run of the callback of [exports.forEach] consists of. *)
Lemma exportEntry_inv moduleType isSync exportedType st r st' :
  exportEntry recur moduleType isSync exportedType st = Some (r, st') ->
  (st' = st /\ exists e, r = Err e) \/
  (isValidType exportedType = true /\
   exists r0,
     recur exportedType isSync false st = Some (r0, st') /\
     ((exists e, r0 = Err e /\ r = Err e) \/
      (r0 = Ok None /\ r = Ok (inr (_getIdentifierMetadata exportedType))) \/
      (exists m, r0 = Ok (Some m) /\ r = Ok (inl (toSummary m))))).
Proof.
  unfold exportEntry. destruct (isValidType exportedType); simpl.
  - intros H. right. split; [done|]. unfold _loadNgModuleSummary in H.
    apply bindR_inv in H as [(summary & s2 & Hsum & H)|(e & Hsum & ->)].
    + apply bindR_inv in Hsum as [(m & s3 & Hrec & Hret)|(e & Hrec & [=])].
      apply retR_inv in Hret as [<- <-]. exists (Ok m).
      destruct m as [m|]; injection H as <- <-; (split; [done|]).
      * right. right. by exists m.
      * right. by left.
    + apply bindR_inv in Hsum as [(m & s3 & Hrec & [=])|(e' & Hrec & [= <-])].
      exists (Err e). split; [done|]. left. by exists e.
  - intros [= <- <-]. left. split; [done | by eauto].
Qed.

End EntryRuns.

(** ** Modules on an import cycle are never cached *)

Section Blocked.

Variable E : Env.

(** A set of module types each of which has a child in the set: every
    member is on, or leads into, a cycle of imports and exports. *)
Variable S : Value -> Prop.
Hypothesis S_blocked : forall Y, S Y -> exists Z, S Z /\ moduleChild E Y Z.

Definition allUncached (st : State) : Prop := forall Y, S Y -> uncached st Y.

Definition keepsUncached (st st' : State) : Prop := allUncached st -> allUncached st'.

Lemma keepsUncached_preorder : PreOrder keepsUncached.
Proof.
  split; [intros st H; exact H | intros a b c Hab Hbc H; apply Hbc, Hab, H].
Qed.

Lemma keepsUncached_same st st' :
  _ngModuleCache st' = _ngModuleCache st -> keepsUncached st st'.
Proof. intros Heq H Y HY. unfold uncached. rewrite Heq. by apply H. Qed.

(** A run that keeps the set uncached and fails on a member. *)
Definition blockedRun (m : R (option CompileNgModuleMetadata)) (moduleType : Value) : Prop :=
  forall st r st',
    m st = Some (r, st') ->
    allUncached st ->
    allUncached st' /\ (S (resolveForwardRef moduleType) -> exists e, r = Err e).

Section Body.

Variable recur : Value -> bool -> bool -> R (option CompileNgModuleMetadata).
Hypothesis recur_blocked : forall t isSync throwIfNotFound,
  blockedRun (recur t isSync throwIfNotFound) t.

Lemma recur_keepsUncached t isSync throwIfNotFound :
  steps keepsUncached (recur t isSync throwIfNotFound).
Proof. intros st r st' Hrun H. by apply (recur_blocked _ _ _ _ _ _ Hrun). Qed.

Lemma blocked_importsPhase moduleType isSync meta st imports st' :
  importsPhase E recur moduleType isSync meta st = Some (Ok imports, st') ->
  allUncached st ->
  allUncached st' /\
  forall l entry t,
    m_imports meta = Some l -> entry ∈ flattenAndDedupeArray l ->
    importedTypeOf entry = Some t -> ~ S (resolveForwardRef t).
Proof.
  unfold importsPhase. destruct (m_imports meta) as [l|].
  - intros Hrun HP.
    destruct (mapR_ok_inv _ _ _ _ _ allUncached
                (fun entry _ => forall t, importedTypeOf entry = Some t ->
                                          ~ S (resolveForwardRef t))
                ltac:(clear Hrun HP; intros entry s y s' _ HP Hentry;
                      apply importEntry_inv in Hentry
                        as [[_ [e [=]]]|(t & calls & r0 & s1 & Ht & Hrec & Hc & Hr)];
                      destruct Hr as [(e & [=] & _)|(m & ps & cs & -> & _ & ->)];
                      destruct (recur_blocked _ _ _ _ _ _ Hrec) as [HP1 Hfail];
                      [by apply (keepsUncached_same s) |];
                      split; [done|]; intros t' Ht' HS; rewrite Ht in Ht';
                      injection Ht' as <-; by destruct (Hfail HS))
                HP Hrun) as [HP' HQ].
    split; [done|]. intros l' entry t [= <-] Hin Ht.
    destruct (Forall2_elem_l _ _ _ _ HQ Hin) as (y & _ & Hy). by apply Hy.
  - intros [= <- <-] HP. split; [done|]. by intros l entry t [=].
Qed.

Lemma blocked_exportsPhase moduleType isSync meta st exports st' :
  exportsPhase recur moduleType isSync meta st = Some (Ok exports, st') ->
  allUncached st ->
  allUncached st' /\
  forall l entry,
    m_exports meta = Some l -> entry ∈ flattenAndDedupeArray l ->
    isValidType entry = true -> ~ S (resolveForwardRef entry).
Proof.
  unfold exportsPhase. destruct (m_exports meta) as [l|].
  - intros Hrun HP.
    destruct (mapR_ok_inv _ _ _ _ _ allUncached
                (fun entry _ => ~ S (resolveForwardRef entry))
                ltac:(clear Hrun HP; intros entry s y s' _ HP Hentry;
                      apply exportEntry_inv in Hentry
                        as [[_ [e [=]]]|(Hvalid & r0 & Hrec & Hr)];
                      destruct (recur_blocked _ _ _ _ _ _ Hrec HP) as [HP1 Hfail];
                      split; [done|]; intros HS; destruct (Hfail HS) as [e ->];
                      destruct Hr as [(e' & _ & [=])|[[[=] _]|(m & [=] & _)]])
                HP Hrun) as [HP' HQ].
    split; [done|]. intros l' entry [= <-] Hin _.
    destruct (Forall2_elem_l _ _ _ _ HQ Hin) as (y & _ & Hy). exact Hy.
  - intros [= <- <-] HP. split; [done|]. by intros l entry [=].
Qed.

Lemma blocked_body moduleType isSync throwIfNotFound :
  blockedRun (loadNgModuleBody E recur moduleType isSync throwIfNotFound) moduleType.
Proof.
  intros st r st' Hrun HP.
  pose proof keepsUncached_preorder as Hpre.
  assert (Hlog : forall calls s, keepsUncached s (logCalls calls s))
    by (intros; by apply keepsUncached_same).
  destruct (JsMap.get (_ngModuleCache st) (resolveForwardRef moduleType))
    as [cached|] eqn:Hget.
  { unfold loadNgModuleBody in Hrun. rewrite bindR_getState, Hget in Hrun.
    injection Hrun as <- <-. split; [done|]. intros HS.
    specialize (HP _ HS). unfold uncached in HP. congruence. }
  destruct (ngModuleResolver_resolve E (resolveForwardRef moduleType))
    as [meta|] eqn:Hmeta.
  2: { assert (Hno : ~ S (resolveForwardRef moduleType)).
       { intros HS. destruct (S_blocked _ HS) as (Z & _ & [Hc|Hc]).
         - destruct Hc as (meta' & l & entry & t & Hres & _). congruence.
         - destruct Hc as (meta' & l & entry & Hres & _). congruence. }
       unfold loadNgModuleBody in Hrun. rewrite bindR_getState, Hget in Hrun.
       unfold ngModuleResolver_resolve_call in Hrun. simpl in Hrun.
       rewrite Hmeta in Hrun. unfold bindR, liftW in Hrun. simpl in Hrun.
       destruct throwIfNotFound; simpl in Hrun; injection Hrun as <- <-;
         (split; [by apply Hlog | done]). }
  rewrite (loadNgModuleBody_miss _ _ _ _ _ _ _ Hget Hmeta) in Hrun.
  assert (HP0 := Hlog [CallNgModuleResolve (resolveForwardRef moduleType) throwIfNotFound]
                   st HP).
  apply bindR_inv in Hrun as [(imports & s1 & Himports & Hrun)|(e & Himports & ->)].
  2: { split; [|by eauto].
       eapply (steps_importsPhase E keepsUncached); eauto using recur_keepsUncached. }
  destruct (blocked_importsPhase _ _ _ _ _ _ Himports HP0) as [HP1 Himp].
  apply bindR_inv in Hrun as [(exports & s2 & Hexports & Hrun)|(e & Hexports & ->)].
  2: { split; [|by eauto].
       eapply (steps_exportsPhase keepsUncached); eauto using recur_keepsUncached. }
  destruct (blocked_exportsPhase _ _ _ _ _ _ Hexports HP1) as [HP2 Hexp].
  assert (Hno : ~ S (resolveForwardRef moduleType)).
  { intros HS. destruct (S_blocked _ HS) as (Z & HZ & [Hc|Hc]).
    - destruct Hc as (meta' & l & entry & t & Hres & Hl & Hin & Ht & <-).
      rewrite Hmeta in Hres. injection Hres as <-. by eapply Himp.
    - destruct Hc as (meta' & l & entry & Hres & Hl & Hin & Hvalid & <-).
      rewrite Hmeta in Hres. injection Hres as <-. by eapply Hexp. }
  split; [|done].
  assert (Hdecl : steps keepsUncached
                    (declarationsPhase E (resolveForwardRef moduleType) isSync meta)).
  { apply steps_declarationsPhase; try done; intros; by apply keepsUncached_same. }
  apply bindR_inv in Hrun as [(declared & s3 & Hdeclared & Hrun)|(e & Hdeclared & ->)].
  2: { by apply (Hdecl _ _ _ Hdeclared). }
  pose proof (Hdecl _ _ _ Hdeclared HP2) as HP3.
  apply bindR_inv in Hrun as [(compileMeta & s4 & Hfinish & Hrun)|(e & Hfinish & ->)].
  2: { apply liftW_inv in Hfinish as [_ ->]. by apply Hlog. }
  apply liftW_inv in Hfinish as [_ ->].
  injection Hrun as <- <-.
  intros Y HY. unfold uncached. simpl. rewrite JsMapFacts.get_set_ne.
  - by apply HP3.
  - intros <-. by apply Hno.
Qed.

End Body.

Lemma blocked_load fuel moduleType isSync throwIfNotFound :
  blockedRun (_loadNgModuleMetadata E fuel moduleType isSync throwIfNotFound) moduleType.
Proof.
  revert moduleType isSync throwIfNotFound. induction fuel as [|fuel IH]; intros; simpl.
  - intros st r st' [=].
  - by apply blocked_body.
Qed.

End Blocked.

(** ** A module cached by a run is reached from the module resolved *)

(** A path of imports and exports through module types that are not
    cached. *)
Inductive upath (E : Env) (st : State) : Value -> Value -> Prop :=
| upath_here X : uncached st X -> upath E st X X
| upath_step X Z Y :
    uncached st X -> moduleChild E X Z -> upath E st Z Y -> upath E st X Y.

Lemma upath_grows E st s X Y : grows st s -> upath E s X Y -> upath E st X Y.
Proof.
  intros Hg. induction 1 as [X HX|X Z Y HX Hc _ IH].
  - apply upath_here. by apply Hg.
  - eapply upath_step; [by apply Hg | done | done].
Qed.

Lemma upath_uncached E st X Y : upath E st X Y -> uncached st X.
Proof. by destruct 1. Qed.

Section Reach.

Variable E : Env.

Definition reachRun (m : R (option CompileNgModuleMetadata)) (moduleType : Value) : Prop :=
  forall st r st' Y,
    m st = Some (r, st') ->
    uncached st Y -> ~ uncached st' Y ->
    upath E st (resolveForwardRef moduleType) Y.

Section Body.

Variable recur : Value -> bool -> bool -> R (option CompileNgModuleMetadata).
Hypothesis recur_reach : forall t isSync throwIfNotFound,
  reachRun (recur t isSync throwIfNotFound) t.
Hypothesis recur_grows : forall t isSync throwIfNotFound,
  steps grows (recur t isSync throwIfNotFound).

Variables (moduleType : Value) (isSync : bool) (meta : NgModule) (st : State) (Y : Value).
Hypothesis Hmiss : uncached st (resolveForwardRef moduleType).
Hypothesis Hmeta : ngModuleResolver_resolve E (resolveForwardRef moduleType) = Some meta.

(** Either [Y] is still not cached, or it is reached. *)
Definition pending (s : State) : Prop :=
  grows st s /\ (uncached s Y \/ upath E st (resolveForwardRef moduleType) Y).

Definition keepsPending (s s' : State) : Prop := pending s -> pending s'.

Lemma keepsPending_preorder : PreOrder keepsPending.
Proof.
  split; [intros s H; exact H | intros a b c Hab Hbc H; apply Hbc, Hab, H].
Qed.

Lemma keepsPending_same s s' :
  _ngModuleCache s' = _ngModuleCache s -> keepsPending s s'.
Proof.
  intros Heq [Hg H]. split.
  - intros K. unfold uncached. rewrite Heq. apply Hg.
  - destruct H as [H|H]; [left | by right]. unfold uncached. by rewrite Heq.
Qed.

Lemma keepsPending_recur s s0 t r0 s1 :
  moduleChild E (resolveForwardRef moduleType) (resolveForwardRef t) ->
  _ngModuleCache s0 = _ngModuleCache s ->
  recur t isSync false s0 = Some (r0, s1) ->
  keepsPending s s1.
Proof.
  intros Hchild Heq Hrec HP. apply (keepsPending_same s s0 Heq) in HP as [Hg H].
  assert (Hg1 : grows st s1).
  { intros K HK. apply Hg. by apply (recur_grows _ _ _ _ _ _ Hrec). }
  split; [done|]. destruct H as [H|H]; [|by right].
  destruct (JsMap.get (_ngModuleCache s1) Y) as [m|] eqn:HY; [|by left].
  right. eapply upath_step; [done | done |].
  eapply upath_grows; [|eapply (recur_reach _ _ _ _ _ _ _ Hrec)].
  - done.
  - done.
  - unfold uncached. by rewrite HY.
Qed.

Lemma keepsPending_importsPhase :
  steps keepsPending (importsPhase E recur (resolveForwardRef moduleType) isSync meta).
Proof.
  pose proof keepsPending_preorder. unfold importsPhase.
  destruct (m_imports meta) as [l|] eqn:Hl; [|by apply steps_retR].
  apply steps_mapR_in; [done|]. intros entry Hin s r s' Hentry.
  apply importEntry_inv in Hentry as [[Hc _]|(t & calls & r0 & s1 & Ht & Hrec & Hc & _)].
  - by apply keepsPending_same.
  - transitivity s1; [|by apply keepsPending_same].
    eapply keepsPending_recur; [| |exact Hrec]; [|done].
    left. by exists meta, l, entry, t.
Qed.

Lemma keepsPending_exportsPhase :
  steps keepsPending (exportsPhase recur (resolveForwardRef moduleType) isSync meta).
Proof.
  pose proof keepsPending_preorder. unfold exportsPhase.
  destruct (m_exports meta) as [l|] eqn:Hl; [|by apply steps_retR].
  apply steps_mapR_in; [done|]. intros entry Hin s r s' Hentry.
  apply exportEntry_inv in Hentry as [[-> _]|(Hvalid & r0 & Hrec & _)]; [done|].
  eapply keepsPending_recur; [| |exact Hrec]; [|done]. right. by exists meta, l, entry.
Qed.

Lemma reach_miss throwIfNotFound r st' :
  loadNgModuleBody E recur moduleType isSync throwIfNotFound st = Some (r, st') ->
  uncached st Y -> ~ uncached st' Y ->
  upath E st (resolveForwardRef moduleType) Y.
Proof.
  intros Hrun HY HnY.
  pose proof keepsPending_preorder as Hpre.
  assert (Hend : forall s, pending s -> _ngModuleCache st' = _ngModuleCache s ->
                           upath E st (resolveForwardRef moduleType) Y).
  { intros s [_ [H|H]] Heq; [|done]. destruct HnY. unfold uncached. by rewrite Heq. }
  rewrite (loadNgModuleBody_miss _ _ _ _ _ _ _ Hmiss Hmeta) in Hrun.
  assert (HP0 : pending (logCalls [CallNgModuleResolve (resolveForwardRef moduleType)
                                     throwIfNotFound] st)).
  { split; [by intros K HK | by left]. }
  apply bindR_inv in Hrun as [(imports & s1 & Himports & Hrun)|(e & Himports & ->)].
  2: { eapply Hend; [|reflexivity]. by apply (keepsPending_importsPhase _ _ _ Himports). }
  pose proof (keepsPending_importsPhase _ _ _ Himports HP0) as HP1.
  apply bindR_inv in Hrun as [(exports & s2 & Hexports & Hrun)|(e & Hexports & ->)].
  2: { eapply Hend; [|reflexivity]. by apply (keepsPending_exportsPhase _ _ _ Hexports). }
  pose proof (keepsPending_exportsPhase _ _ _ Hexports HP1) as HP2.
  assert (Hdecl : steps keepsPending
                    (declarationsPhase E (resolveForwardRef moduleType) isSync meta)).
  { apply steps_declarationsPhase; try done; intros; by apply keepsPending_same. }
  apply bindR_inv in Hrun as [(declared & s3 & Hdeclared & Hrun)|(e & Hdeclared & ->)].
  2: { eapply Hend; [|reflexivity]. by apply (Hdecl _ _ _ Hdeclared). }
  pose proof (Hdecl _ _ _ Hdeclared HP2) as HP3.
  apply bindR_inv in Hrun as [(compileMeta & s4 & Hfinish & Hrun)|(e & Hfinish & ->)].
  2: { apply liftW_inv in Hfinish as [_ ->]. by eapply Hend. }
  apply liftW_inv in Hfinish as [_ ->]. injection Hrun as <- <-.
  destruct (decide (resolveForwardRef moduleType = Y)) as [<-|Hne].
  - by apply upath_here.
  - destruct HP3 as [_ [H|H]]; [|done]. destruct HnY. unfold uncached. simpl.
    by rewrite JsMapFacts.get_set_ne.
Qed.

End Body.

Lemma reach_load fuel moduleType isSync throwIfNotFound :
  reachRun (_loadNgModuleMetadata E fuel moduleType isSync throwIfNotFound) moduleType.
Proof.
  revert moduleType isSync throwIfNotFound. induction fuel as [|fuel IH]; intros; simpl.
  { intros st r st' Y [=]. }
  intros st r st' Y Hrun HY HnY.
  destruct (JsMap.get (_ngModuleCache st) (resolveForwardRef moduleType))
    as [cached|] eqn:Hget.
  { unfold loadNgModuleBody in Hrun. rewrite bindR_getState, Hget in Hrun.
    injection Hrun as <- <-. done. }
  destruct (ngModuleResolver_resolve E (resolveForwardRef moduleType))
    as [meta|] eqn:Hmeta.
  - eapply reach_miss; eauto.
    intros. apply steps_loadNgModuleMetadata'. apply grows_moduleFrame.
  - unfold loadNgModuleBody in Hrun. rewrite bindR_getState, Hget in Hrun.
    unfold ngModuleResolver_resolve_call in Hrun. simpl in Hrun.
    rewrite Hmeta in Hrun. unfold bindR, liftW in Hrun. simpl in Hrun.
    destruct throwIfNotFound; simpl in Hrun; injection Hrun as <- <-; done.
Qed.

(** Resolving a child of a module that is not cached does not cache
    that module: the child would have to resolve the module first. *)
Lemma child_run_keeps_uncached fuel parent t isSync throwIfNotFound st r st' :
  moduleChild E parent (resolveForwardRef t) ->
  _loadNgModuleMetadata E fuel t isSync throwIfNotFound st = Some (r, st') ->
  uncached st parent -> uncached st' parent.
Proof.
  intros Hchild Hrun Hparent.
  destruct (JsMap.get (_ngModuleCache st') parent) as [m|] eqn:Hget; [|done].
  exfalso.
  assert (Hpath : upath E st (resolveForwardRef t) parent).
  { eapply reach_load; [exact Hrun | done |]. unfold uncached. by rewrite Hget. }
  destruct (blocked_load E (fun V => upath E st V parent)) with
    (fuel := fuel) (moduleType := t) (isSync := isSync) (throwIfNotFound := throwIfNotFound)
    (st := st) (r := r) (st' := st') as [Hun _].
  - intros V HV. inversion HV as [X HX|X Z Y' HX Hc Hp]; subst.
    + by exists (resolveForwardRef t).
    + by exists Z.
  - exact Hrun.
  - intros V HV. by eapply upath_uncached.
  - specialize (Hun parent (upath_here _ _ _ Hparent)). unfold uncached in Hun. congruence.
Qed.

End Reach.

(** ** Cached records are never replaced while modules are resolved *)

Definition stable (st st' : State) : Prop :=
  forall moduleType m,
    JsMap.get (_ngModuleCache st) moduleType = Some m ->
    JsMap.get (_ngModuleCache st') moduleType = Some m.

(** [stable], and the module type [K] stays out of the cache. *)
Definition keepsOut (K : Value) (st st' : State) : Prop :=
  stable st st' /\ (uncached st K -> uncached st' K).

Lemma keepsOut_preorder K : PreOrder (keepsOut K).
Proof.
  split.
  - intros st. split; [by intros k m | done].
  - intros a b c [Hab Hab'] [Hbc Hbc']. split; [|by auto].
    intros k m H. by apply Hbc, Hab.
Qed.

Lemma keepsOut_same K st st' :
  _ngModuleCache st' = _ngModuleCache st -> keepsOut K st st'.
Proof.
  intros Heq. split; [intros k m | ]; unfold uncached; by rewrite Heq.
Qed.

Section Stable.

Variable E : Env.

Section Step.

Variable fuel : nat.
Hypothesis load_stable : forall t isSync throwIfNotFound,
  steps stable (_loadNgModuleMetadata E fuel t isSync throwIfNotFound).

Variables (moduleType : Value) (isSync : bool) (meta : NgModule).
Hypothesis Hmeta : ngModuleResolver_resolve E (resolveForwardRef moduleType) = Some meta.

Lemma keepsOut_importsPhase :
  steps (keepsOut (resolveForwardRef moduleType))
    (importsPhase E (_loadNgModuleMetadata E fuel) (resolveForwardRef moduleType) isSync meta).
Proof.
  pose proof (keepsOut_preorder (resolveForwardRef moduleType)). unfold importsPhase.
  destruct (m_imports meta) as [l|] eqn:Hl; [|by apply steps_retR].
  apply steps_mapR_in; [done|]. intros entry Hin s r s' Hentry.
  apply importEntry_inv in Hentry as [[Hc _]|(t & calls & r0 & s1 & Ht & Hrec & Hc & _)].
  - by apply keepsOut_same.
  - transitivity (logCalls calls s); [by apply keepsOut_same|].
    transitivity s1; [|by apply keepsOut_same].
    split; [by apply (load_stable _ _ _ _ _ _ Hrec)|].
    eapply child_run_keeps_uncached; [|exact Hrec].
    left. by exists meta, l, entry, t.
Qed.

Lemma keepsOut_exportsPhase :
  steps (keepsOut (resolveForwardRef moduleType))
    (exportsPhase (_loadNgModuleMetadata E fuel) (resolveForwardRef moduleType) isSync meta).
Proof.
  pose proof (keepsOut_preorder (resolveForwardRef moduleType)). unfold exportsPhase.
  destruct (m_exports meta) as [l|] eqn:Hl; [|by apply steps_retR].
  apply steps_mapR_in; [done|]. intros entry Hin s r s' Hentry.
  apply exportEntry_inv in Hentry as [[-> _]|(Hvalid & r0 & Hrec & _)]; [done|].
  split; [by apply (load_stable _ _ _ _ _ _ Hrec)|].
  eapply child_run_keeps_uncached; [|exact Hrec].
  right. by exists meta, l, entry.
Qed.

Lemma keepsOut_declarationsPhase :
  steps (keepsOut (resolveForwardRef moduleType))
    (declarationsPhase E (resolveForwardRef moduleType) isSync meta).
Proof.
  apply steps_declarationsPhase; [apply keepsOut_preorder | ..];
    intros; by apply keepsOut_same.
Qed.

(** A run of a module that is not cached: the state [s] before the
    record is stored still has no record for it, and an error leaves the
    module cache as it is in [s]. *)
Lemma miss_run throwIfNotFound st r st' :
  uncached st (resolveForwardRef moduleType) ->
  _loadNgModuleMetadata E (S fuel) moduleType isSync throwIfNotFound st = Some (r, st') ->
  exists s,
    stable st s /\ uncached s (resolveForwardRef moduleType) /\
    ((exists e, r = Err e /\ _ngModuleCache st' = _ngModuleCache s) \/
     (exists compileMeta,
        r = Ok (Some compileMeta) /\
        _ngModuleCache st' =
          JsMap.set (resolveForwardRef moduleType) compileMeta (_ngModuleCache s))).
Proof.
  intros Hmiss Hrun. simpl in Hrun.
  pose proof (keepsOut_preorder (resolveForwardRef moduleType)) as Hpre.
  rewrite (loadNgModuleBody_miss _ _ _ _ _ _ _ Hmiss Hmeta) in Hrun.
  set (st0 := logCalls [CallNgModuleResolve (resolveForwardRef moduleType) throwIfNotFound]
                st) in *.
  assert (H0 : keepsOut (resolveForwardRef moduleType) st st0) by (by apply keepsOut_same).
  assert (Hfail : forall s e, keepsOut (resolveForwardRef moduleType) st s ->
            exists s', stable st s' /\ uncached s' (resolveForwardRef moduleType) /\
              ((exists e', @Err (option CompileNgModuleMetadata) e = Err e' /\
                           _ngModuleCache s = _ngModuleCache s') \/
               (exists compileMeta : CompileNgModuleMetadata,
                  @Err (option CompileNgModuleMetadata) e = Ok (Some compileMeta) /\
                  _ngModuleCache s =
                    JsMap.set (resolveForwardRef moduleType) compileMeta
                      (_ngModuleCache s')))).
  { intros s e [Hs Hu]. exists s. split; [done|]. split; [by apply Hu|]. left. by exists e. }
  apply bindR_inv in Hrun as [(imports & s1 & Himports & Hrun)|(e & Himports & ->)].
  2: { apply Hfail. transitivity st0; [done|]. by apply (keepsOut_importsPhase _ _ _ Himports). }
  pose proof (keepsOut_importsPhase _ _ _ Himports) as H1.
  apply bindR_inv in Hrun as [(exports & s2 & Hexports & Hrun)|(e & Hexports & ->)].
  2: { apply Hfail. transitivity st0; [done|]. transitivity s1; [done|].
       by apply (keepsOut_exportsPhase _ _ _ Hexports). }
  pose proof (keepsOut_exportsPhase _ _ _ Hexports) as H2.
  apply bindR_inv in Hrun as [(declared & s3 & Hdeclared & Hrun)|(e & Hdeclared & ->)].
  2: { apply Hfail. transitivity st0; [done|]. transitivity s1; [done|].
       transitivity s2; [done|]. by apply (keepsOut_declarationsPhase _ _ _ Hdeclared). }
  pose proof (keepsOut_declarationsPhase _ _ _ Hdeclared) as H3.
  assert (H03 : keepsOut (resolveForwardRef moduleType) st s3).
  { transitivity st0; [done|]. transitivity s1; [done|]. by transitivity s2. }
  apply bindR_inv in Hrun as [(compileMeta & s4 & Hfinish & Hrun)|(e & Hfinish & ->)].
  2: { apply liftW_inv in Hfinish as [_ ->]. apply Hfail.
       transitivity s3; [done|]. by apply keepsOut_same. }
  apply liftW_inv in Hfinish as [_ ->]. injection Hrun as <- <-.
  destruct H03 as [Hs Hu]. exists s3. split; [done|]. split; [by apply Hu|].
  right. by exists compileMeta.
Qed.

End Step.

Lemma stable_load fuel moduleType isSync throwIfNotFound :
  steps stable (_loadNgModuleMetadata E fuel moduleType isSync throwIfNotFound).
Proof.
  revert moduleType isSync throwIfNotFound. induction fuel as [|fuel IH]; intros.
  { intros st r st' [=]. }
  intros st r st' Hrun.
  destruct (JsMap.get (_ngModuleCache st) (resolveForwardRef moduleType))
    as [cached|] eqn:Hget.
  { simpl in Hrun. unfold loadNgModuleBody in Hrun. rewrite bindR_getState, Hget in Hrun.
    injection Hrun as <- <-. by intros k m. }
  destruct (ngModuleResolver_resolve E (resolveForwardRef moduleType))
    as [meta|] eqn:Hmeta.
  - destruct (miss_run fuel IH moduleType isSync meta Hmeta throwIfNotFound st r st'
                Hget Hrun) as (s & Hs & Hu & [(e & _ & Heq)|(cm & _ & Heq)]).
    + intros k m Hk. rewrite Heq. by apply Hs.
    + intros k m Hk. rewrite Heq. rewrite JsMapFacts.get_set_ne; [by apply Hs|].
      intros <-. apply Hs in Hk. unfold uncached in Hu. congruence.
  - simpl in Hrun. unfold loadNgModuleBody in Hrun. rewrite bindR_getState, Hget in Hrun.
    unfold ngModuleResolver_resolve_call in Hrun. simpl in Hrun.
    rewrite Hmeta in Hrun. unfold bindR, liftW in Hrun. simpl in Hrun.
    destruct throwIfNotFound; simpl in Hrun; injection Hrun as <- <-; by intros k m.
Qed.

End Stable.

(** ** A resolution that fails *)

(** The module resolution never writes the directive caches. *)
Definition sameDirectiveCaches (st st' : State) : Prop :=
  _directiveCache st' = _directiveCache st /\
  _directiveSummaryCache st' = _directiveSummaryCache st.

Lemma sameDirectiveCaches_moduleFrame : ModuleFrame sameDirectiveCaches.
Proof.
  split; [split | | | |].
  - by intros st.
  - intros a b c [H1 H2] [H3 H4]. split; congruence.
  - by intros calls st.
  - by intros type meta st.
  - by intros type moduleType st _.
  - by intros type meta st.
Qed.

(** No cache loses an entry. *)
Definition keepsEntries (st st' : State) : Prop :=
  (forall k, is_Some (JsMap.get (_pipeCache st) k) ->
             is_Some (JsMap.get (_pipeCache st') k)) /\
  (forall k, is_Some (JsMap.get (_pipeSummaryCache st) k) ->
             is_Some (JsMap.get (_pipeSummaryCache st') k)) /\
  (forall k, is_Some (JsMap.get (_ngModuleOfTypes st) k) ->
             is_Some (JsMap.get (_ngModuleOfTypes st') k)).

Lemma is_Some_get_set {V} (m : JsMap.t V) k v k' :
  is_Some (JsMap.get m k') -> is_Some (JsMap.get (JsMap.set k v m) k').
Proof.
  rewrite JsMapFacts.get_set. by destruct (decide (k = k')).
Qed.

Lemma keepsEntries_moduleFrame : ModuleFrame keepsEntries.
Proof.
  split; [split | | | |].
  - by intros st.
  - intros a b c (H1 & H2 & H3) (H4 & H5 & H6). repeat split; intros k Hk; auto.
  - by intros calls st.
  - intros type meta st. repeat split; try done; intros k; apply is_Some_get_set.
  - intros type moduleType st _. repeat split; try done. intros k; apply is_Some_get_set.
  - by intros type meta st.
Qed.

(** C2, as amended: a resolution that fails with an error caches no
    record for the failing module, leaves the directive metadata and
    summary caches exactly as they were, keeps every module record that
    was cached, and removes no entry from the pipe caches or from the map
    from types to modules. *)
Theorem failed_resolution E fuel moduleType isSync throwIfNotFound st e st' :
  _loadNgModuleMetadata E fuel moduleType isSync throwIfNotFound st = Some (Err e, st') ->
  uncached st' (resolveForwardRef moduleType) /\
  _directiveCache st' = _directiveCache st /\
  _directiveSummaryCache st' = _directiveSummaryCache st /\
  stable st st' /\
  keepsEntries st st'.
Proof.
  intros Hrun.
  split; [|split; [|split; [|split]]].
  - destruct fuel as [|fuel]; [discriminate|].
    destruct (JsMap.get (_ngModuleCache st) (resolveForwardRef moduleType))
      as [cached|] eqn:Hget.
    { simpl in Hrun. unfold loadNgModuleBody in Hrun.
      rewrite bindR_getState, Hget in Hrun. discriminate. }
    destruct (ngModuleResolver_resolve E (resolveForwardRef moduleType))
      as [meta|] eqn:Hmeta.
    + destruct (miss_run E fuel (stable_load E fuel) moduleType isSync meta Hmeta
                  throwIfNotFound st (Err e) st' Hget Hrun)
        as (s & _ & Hu & [(e' & _ & Heq)|(cm & [=] & _)]).
      unfold uncached. by rewrite Heq.
    + simpl in Hrun. unfold loadNgModuleBody in Hrun.
      rewrite bindR_getState, Hget in Hrun.
      unfold ngModuleResolver_resolve_call in Hrun. simpl in Hrun.
      rewrite Hmeta in Hrun. unfold bindR, liftW in Hrun. simpl in Hrun.
      destruct throwIfNotFound; simpl in Hrun; [|discriminate].
      injection Hrun as _ <-. done.
  - by apply (steps_loadNgModuleMetadata' E _ sameDirectiveCaches_moduleFrame _ _ _ _
                _ _ _ Hrun).
  - by apply (steps_loadNgModuleMetadata' E _ sameDirectiveCaches_moduleFrame _ _ _ _
                _ _ _ Hrun).
  - by apply (stable_load E _ _ _ _ _ _ _ Hrun).
  - by apply (steps_loadNgModuleMetadata' E _ keepsEntries_moduleFrame _ _ _ _
                _ _ _ Hrun).
Qed.

(** C2, witness: the module 13 of the example imports the module C,
    declares the pipe 20 and exports an undeclared type. *)
Lemma failed_resolution_witness :
  exists st',
    _loadNgModuleMetadata Example.env 2 (VType 13) true true newResolver
      = Some (Err (UndeclaredExport "value" (VType 30) (VType 13)), st') /\
    uncached st' (VType 13) /\
    _directiveCache st' = [] /\
    _directiveSummaryCache st' = [].
Proof.
  destruct (_loadNgModuleMetadata Example.env 2 (VType 13) true true newResolver)
    as [[[r|e] st']|] eqn:Hrun; try (vm_compute in Hrun; discriminate).
  assert (He : e = UndeclaredExport "value" (VType 30) (VType 13)).
  { vm_compute in Hrun. by injection Hrun as <- _. }
  subst e. exists st'. split; [reflexivity|].
  destruct (failed_resolution Example.env 2 (VType 13) true true newResolver _ st' Hrun)
    as (Hu & Hd & Hs & _).
  by repeat split.
Defined.

(** C2, counterexample: that failing resolution has written the module
    cache (for the imported module C), both pipe caches and the map from
    types to modules. *)
Lemma failed_resolution_writes_caches :
  exists e st',
    _loadNgModuleMetadata Example.env 2 (VType 13) true true newResolver
      = Some (Err e, st') /\
    JsMap.keys (_ngModuleCache st') = [VType 3] /\
    JsMap.keys (_pipeCache st') = [VType 20] /\
    JsMap.keys (_pipeSummaryCache st') = [VType 20] /\
    _ngModuleOfTypes st' = [(VType 20, VType 13)] /\
    ~ sameCaches newResolver st'.
Proof.
  destruct (_loadNgModuleMetadata Example.env 2 (VType 13) true true newResolver)
    as [[[r|e] st']|] eqn:Hrun; try (vm_compute in Hrun; discriminate).
  exists e, st'. split; [reflexivity|].
  vm_compute in Hrun. injection Hrun as _ <-.
  repeat split; try reflexivity.
  intros (_ & _ & _ & _ & _ & [=]).
Qed.

(** ** The order of the transitive modules *)

Definition sref (s : CompileNgModuleSummary) : Value := type_reference (sum_type s).

(** [importedModules.concat(exportedModules)] of a summary. *)
Definition childrenOf (s : CompileNgModuleSummary) : list CompileNgModuleSummary :=
  sum_importedModules s ++ sum_exportedModules s.

Fixpoint sheight (s : CompileNgModuleSummary) : nat :=
  match s with
  | mkSummary _ _ _ importedModules exportedModules _ _ _ =>
      S (Nat.max (list_max (map sheight importedModules))
           (list_max (map sheight exportedModules)))
  end.

Lemma list_max_elem (f : CompileNgModuleSummary -> nat) l x :
  x ∈ l -> f x <= list_max (map f l).
Proof.
  induction l as [|y l IH]; [by intros ?%elem_of_nil|].
  intros [->|Hin]%elem_of_cons; simpl; [lia|]. specialize (IH Hin). lia.
Qed.

Lemma sheight_child s c : c ∈ childrenOf s -> sheight c < sheight s.
Proof.
  destruct s as [ty ec pr imp exp ed ep dl]. unfold childrenOf. simpl.
  intros [Hin|Hin]%elem_of_app; apply (list_max_elem sheight) in Hin; lia.
Qed.

Lemma visitTransitiveImported_unfold s acc :
  visitTransitiveImported s acc =
    if JsSet.has (snd acc) (sref s) then acc
    else
      let acc2 := fold_left (fun a m => visitTransitiveImported m a) (childrenOf s)
                    (fst acc, JsSet.add (sref s) (snd acc)) in
      (fst acc2 ++ [s], snd acc2).
Proof.
  destruct s as [ty ec pr imp exp ed ep dl]. unfold childrenOf, sref. simpl.
  by rewrite fold_left_app.
Qed.

Lemma JsSet_has_true s x : JsSet.has s x = true <-> x ∈ s.
Proof. unfold JsSet.has. apply bool_decide_eq_true. Qed.

Lemma JsSet_elem_of_add s x y : y ∈ JsSet.add x s <-> y = x \/ y ∈ s.
Proof.
  unfold JsSet.add. destruct (JsSet.has s x) eqn:Hx.
  - apply JsSet_has_true in Hx. split; [by right | by intros [->|?]].
  - rewrite elem_of_app, list_elem_of_singleton. tauto.
Qed.

(** Every module of the list comes after its children. *)
Fixpoint orderedFrom (seen l : list CompileNgModuleSummary) : Prop :=
  match l with
  | [] => True
  | x :: l' => (forall c, c ∈ childrenOf x -> c ∈ seen) /\ orderedFrom (seen ++ [x]) l'
  end.

Lemma orderedFrom_snoc seen l x :
  orderedFrom seen (l ++ [x]) <->
  orderedFrom seen l /\ (forall c, c ∈ childrenOf x -> c ∈ seen ++ l).
Proof.
  revert seen. induction l as [|y l IH]; intros seen; simpl.
  - rewrite app_nil_r. tauto.
  - rewrite IH, <- app_assoc. simpl. tauto.
Qed.

Lemma orderedFrom_split seen l x :
  orderedFrom seen l -> x ∈ l ->
  exists l1 l2, l = l1 ++ x :: l2 /\ forall c, c ∈ childrenOf x -> c ∈ seen ++ l1.
Proof.
  revert seen. induction l as [|y l IH]; intros seen; [by intros _ ?%elem_of_nil|].
  simpl. intros [Hy Hl] [->|Hin]%elem_of_cons.
  - exists [], l. split; [done|]. intros c Hc. rewrite app_nil_r. by apply Hy.
  - destruct (IH _ Hl Hin) as (l1 & l2 & -> & Hc). exists (y :: l1), l2.
    split; [done|]. intros c Hcx. specialize (Hc c Hcx).
    by rewrite <- app_assoc in Hc.
Qed.

Section TransitiveOrder.

(** The summaries at hand: closed under children, and determined by
    their module type. *)
Variable WF : CompileNgModuleSummary -> Prop.
Hypothesis WF_children : forall s c, WF s -> c ∈ childrenOf s -> WF c.
Hypothesis WF_unique : forall s1 s2, WF s1 -> WF s2 -> sref s1 = sref s2 -> s1 = s2.

(** The visited set holds the types of the modules already pushed and of
    the modules being visited, [stack]. *)
Definition visitInv (stack : list CompileNgModuleSummary)
    (acc : list CompileNgModuleSummary * JsSet.t) : Prop :=
  (forall v, v ∈ snd acc <->
             (exists x, x ∈ fst acc /\ sref x = v) \/ (exists a, a ∈ stack /\ sref a = v)) /\
  Forall WF (fst acc) /\
  orderedFrom [] (fst acc).

Definition visitPost (stack : list CompileNgModuleSummary)
    (acc acc' : list CompileNgModuleSummary * JsSet.t) : Prop :=
  (exists new, fst acc' = fst acc ++ new) /\ visitInv stack acc'.

Lemma visit_spec n s stack acc :
  sheight s < n -> WF s -> Forall WF stack ->
  (forall a, a ∈ stack -> sheight s < sheight a) ->
  visitInv stack acc ->
  visitPost stack acc (visitTransitiveImported s acc) /\
  s ∈ fst (visitTransitiveImported s acc).
Proof.
  revert s stack acc. induction n as [|n IH]; intros s stack acc Hn Hs Hstack Hh Hinv;
    [lia|].
  rewrite visitTransitiveImported_unfold.
  destruct (JsSet.has (snd acc) (sref s)) eqn:Hhas.
  - split; [split; [exists []; by rewrite app_nil_r | done]|].
    destruct Hinv as (Hvis & Hwf & _).
    apply JsSet_has_true, Hvis in Hhas as [(x & Hx & Href)|(a & Ha & Href)].
    + rewrite Forall_forall in Hwf. by rewrite <- (WF_unique x s (Hwf _ Hx) Hs Href).
    + rewrite Forall_forall in Hstack.
      rewrite (WF_unique a s (Hstack _ Ha) Hs Href) in Ha. specialize (Hh _ Ha). lia.
  - assert (Hnot : ~ sref s ∈ snd acc).
    { intros H%JsSet_has_true. congruence. }
    set (acc1 := (fst acc, JsSet.add (sref s) (snd acc))).
    assert (Hinv1 : visitInv (s :: stack) acc1).
    { destruct Hinv as (Hvis & Hwf & Hord). split; [|done]. intros v. simpl.
      rewrite JsSet_elem_of_add, Hvis. split.
      - intros [->|[H|(a & Ha & Href)]]; [right | by left | right].
        + exists s. split; [by left | done].
        + exists a. split; [by right | done].
      - intros [H|(a & [->|Ha]%elem_of_cons & Href)]; [by right; left | by left |].
        right. right. by exists a. }
    assert (Hfold : forall cs acc0,
              (forall c, c ∈ cs -> c ∈ childrenOf s) ->
              visitInv (s :: stack) acc0 ->
              let acc2 := fold_left (fun a m => visitTransitiveImported m a) cs acc0 in
              visitPost (s :: stack) acc0 acc2 /\ forall c, c ∈ cs -> c ∈ fst acc2).
    { induction cs as [|c cs IHcs]; intros acc0 Hcs Hinv0; simpl.
      - split; [split; [exists []; by rewrite app_nil_r | done]|].
        by intros c ?%elem_of_nil.
      - assert (Hc : c ∈ childrenOf s) by (apply Hcs; by left).
        destruct (IH c (s :: stack) acc0) as [[(new1 & Hnew1) Hinv1'] Hin1].
        + apply sheight_child in Hc. lia.
        + by eapply WF_children.
        + by constructor.
        + intros a [->|Ha]%elem_of_cons; [by apply sheight_child|].
          apply sheight_child in Hc. specialize (Hh _ Ha). lia.
        + done.
        + destruct (IHcs (visitTransitiveImported c acc0)) as [[(new2 & Hnew2) Hinv2] Hin2].
          * intros c' Hc'. apply Hcs. by right.
          * done.
          * split; [split; [|done]|].
            -- exists (new1 ++ new2). by rewrite Hnew2, Hnew1, <- app_assoc.
            -- intros c' [->|Hc']%elem_of_cons; [|by apply Hin2].
               rewrite Hnew2. apply elem_of_app. by left. }
    destruct (Hfold (childrenOf s) acc1 ltac:(done) Hinv1) as [[(new & Hnew) Hinv2] Hin2].
    set (acc2 := fold_left (fun a m => visitTransitiveImported m a) (childrenOf s) acc1)
      in *.
    simpl. split; [split|].
    + exists (new ++ [s]). simpl. rewrite Hnew. simpl. by rewrite <- app_assoc.
    + destruct Hinv2 as (Hvis & Hwf & Hord). split; [|split]; simpl.
      * intros v. rewrite Hvis. split.
        -- intros [(x & Hx & Href)|(a & [->|Ha]%elem_of_cons & Href)].
           ++ left. exists x. split; [apply elem_of_app; by left | done].
           ++ left. exists s. split; [apply elem_of_app; right; by left | done].
           ++ right. by exists a.
        -- intros [(x & [Hx|Hx%list_elem_of_singleton]%elem_of_app & Href)|(a & Ha & Href)].
           ++ left. by exists x.
           ++ subst x. right. exists s. split; [by left | done].
           ++ right. exists a. split; [by right | done].
      * apply Forall_app. split; [done | by constructor].
      * apply orderedFrom_snoc. split; [done|]. intros c Hc. by apply Hin2.
    + apply elem_of_app. right. by left.
Qed.

(** In the list of transitive modules every module comes after the
    modules it imports or exports. *)
Lemma getTransitiveImportedModules_ordered modules :
  Forall WF modules ->
  orderedFrom [] (getTransitiveImportedModules modules) /\
  forall s, s ∈ modules -> s ∈ getTransitiveImportedModules modules.
Proof.
  intros Hwf. unfold getTransitiveImportedModules, getTransitiveImportedModulesFrom.
  assert (Hfold : forall cs acc0,
            Forall WF cs -> visitInv [] acc0 ->
            let acc2 := fold_left (fun a m => visitTransitiveImported m a) cs acc0 in
            visitPost [] acc0 acc2 /\ forall c, c ∈ cs -> c ∈ fst acc2).
  { induction cs as [|c cs IHcs]; intros acc0 Hcs Hinv0; simpl.
    - split; [split; [exists []; by rewrite app_nil_r | done]|].
      by intros c ?%elem_of_nil.
    - apply Forall_cons in Hcs as [Hc Hcs].
      destruct (visit_spec (S (sheight c)) c [] acc0) as [[(new1 & Hnew1) Hinv1] Hin1];
        [lia | done | done | by intros a ?%elem_of_nil | done |].
      destruct (IHcs (visitTransitiveImported c acc0) Hcs Hinv1)
        as [[(new2 & Hnew2) Hinv2] Hin2].
      split; [split; [|done]|].
      + exists (new1 ++ new2). by rewrite Hnew2, Hnew1, <- app_assoc.
      + intros c' [->|Hc']%elem_of_cons; [|by apply Hin2].
        rewrite Hnew2. apply elem_of_app. by left. }
  destruct (Hfold modules ([], []) Hwf) as [[_ (_ & _ & Hord)] Hin].
  - split; [|done]. intros v. simpl. split.
    + by intros ?%elem_of_nil.
    + intros [(x & ?%elem_of_nil & _)|(a & ?%elem_of_nil & _)]; done.
  - done.
Qed.

(** A module that is imported by one of the given modules comes before
    it among the transitive modules. *)
Lemma getTransitiveImportedModules_child_first modules parent child :
  Forall WF modules -> parent ∈ modules -> child ∈ childrenOf parent ->
  exists l1 l2 l3,
    getTransitiveImportedModules modules = l1 ++ child :: l2 ++ parent :: l3.
Proof.
  intros Hwf Hparent Hchild.
  destruct (getTransitiveImportedModules_ordered modules Hwf) as [Hord Hin].
  destruct (orderedFrom_split _ _ _ Hord (Hin _ Hparent)) as (l & l3 & Heq & Hc).
  specialize (Hc _ Hchild). simpl in Hc.
  apply list_elem_of_split in Hc as (l1 & l2 & ->).
  exists l1, l2, l3. by rewrite Heq, <- app_assoc.
Qed.

End TransitiveOrder.

(** ** The module cache is coherent *)

(** The annotated module types are classes, not forward references. *)
Definition modulesAreClasses (E : Env) : Prop :=
  forall type meta,
    ngModuleResolver_resolve E type = Some meta -> resolveForwardRef type = type.

(** The summary is the summary of the record cached for its type. *)
Definition cachedSummary (st : State) (s : CompileNgModuleSummary) : Prop :=
  exists m, JsMap.get (_ngModuleCache st) (sref s) = Some m /\ s = toSummary m.

(** The providers of the transitive modules of the imports and exports,
    then the providers of the module. *)
Definition transitiveProvidersOf (m : CompileNgModuleMetadata) : list CompileProvider :=
  flat_map (fun ngModule => flattenProviders (sum_providers ngModule))
    (getTransitiveImportedModules (mod_importedModules m ++ mod_exportedModules m))
  ++ mod_providers m.

Definition coherentRecord (E : Env) (st : State) (K : Value) (m : CompileNgModuleMetadata)
    : Prop :=
  type_reference (mod_type m) = K /\
  Forall (cachedSummary st) (mod_importedModules m ++ mod_exportedModules m) /\
  (forall Z, importsType E K Z -> exists s, s ∈ mod_importedModules m /\ sref s = Z) /\
  tm_providers (mod_transitiveModule m) = transitiveProvidersOf m.

(** Every cached record is stored under its type, holds the summaries of
    cached records, one for each import of its annotation, and has the
    transitive providers in the order of the traversal. *)
Definition coherent (E : Env) (st : State) : Prop :=
  forall K m, JsMap.get (_ngModuleCache st) K = Some m -> coherentRecord E st K m.

Definition keepsCoherent (E : Env) (st st' : State) : Prop := coherent E st -> coherent E st'.

Lemma keepsCoherent_preorder E : PreOrder (keepsCoherent E).
Proof.
  split; [intros st H; exact H | intros a b c Hab Hbc H; apply Hbc, Hab, H].
Qed.

Lemma cachedSummary_same st st' s :
  _ngModuleCache st' = _ngModuleCache st -> cachedSummary st s -> cachedSummary st' s.
Proof. intros Heq (m & Hm & ->). exists m. by rewrite Heq. Qed.

Lemma cachedSummary_stable st st' s :
  stable st st' -> cachedSummary st s -> cachedSummary st' s.
Proof. intros Hst (m & Hm & ->). exists m. split; [by apply Hst | done]. Qed.

Lemma cachedSummary_set st st' K compileMeta s :
  uncached st K ->
  _ngModuleCache st' = JsMap.set K compileMeta (_ngModuleCache st) ->
  cachedSummary st s -> cachedSummary st' s.
Proof.
  intros Hu Heq (m & Hm & ->). exists m. split; [|done].
  rewrite Heq, JsMapFacts.get_set_ne; [done|].
  intros HK. unfold uncached in Hu. congruence.
Qed.

Lemma coherent_same E st st' :
  _ngModuleCache st' = _ngModuleCache st -> coherent E st -> coherent E st'.
Proof.
  intros Heq H K m Hget. rewrite Heq in Hget.
  destruct (H K m Hget) as (Href & Hsum & Hlink & Hprov).
  split; [done|]. split; [|done].
  eapply Forall_impl; [exact Hsum|]. intros s. by apply cachedSummary_same.
Qed.

Lemma coherent_newResolver E : coherent E newResolver.
Proof. intros K m [=]. Qed.

Lemma keepsCoherent_moduleFrame_steps E :
  (forall calls st, keepsCoherent E st (logCalls calls st)) /\
  (forall type meta st, keepsCoherent E st (set_pipeCaches type meta st)) /\
  (forall type moduleType st, keepsCoherent E st (set_ngModuleOfTypes type moduleType st)) /\
  (forall type meta st, keepsCoherent E st (set_directiveCaches type meta st)).
Proof.
  split; [|split; [|split]]; intros; intros H; by apply (coherent_same E st).
Qed.

Lemma keepsCoherent_directiveFrame E : DirectiveFrame (keepsCoherent E).
Proof.
  destruct (keepsCoherent_moduleFrame_steps E) as (Hlog & _ & _ & Hdir).
  split; [apply keepsCoherent_preorder | done | done].
Qed.

Lemma tm_providers_declared declared transitiveModule :
  tm_providers (fold_left declareIn declared transitiveModule) = tm_providers transitiveModule.
Proof.
  revert transitiveModule. induction declared as [|d declared IH]; intros tm; [done|].
  simpl. rewrite IH. by destruct d.
Qed.

Lemma mapR_ok_rel {A B} (Rel : State -> State -> Prop) `{!PreOrder Rel}
    (f : A -> R B) l st ys st' (P : State -> Prop) (Q : A -> B -> State -> Prop) :
  (forall x y s s', Q x y s -> Rel s s' -> Q x y s') ->
  (forall x s y s', x ∈ l -> P s -> f x s = Some (Ok y, s') -> P s' /\ Rel s s' /\ Q x y s') ->
  P st ->
  mapR f l st = Some (Ok ys, st') ->
  P st' /\ Rel st st' /\ Forall2 (fun x y => Q x y st') l ys.
Proof.
  intros Hmono. revert st ys. induction l as [|x l IH]; intros st ys Hf HP; simpl.
  - intros [= <- <-]. by repeat split.
  - intros H. apply bindR_ok_inv in H as (y & s1 & Hx & H).
    apply bindR_ok_inv in H as (ys' & s2 & Hl & H). apply retR_inv in H as [<- <-].
    destruct (Hf x st y s1) as (HP1 & HR1 & HQ); [by left | done | done |].
    destruct (IH s1 ys') as (HP2 & HR2 & HQs); [|done|done|].
    + intros x' s y' s' Hin. apply Hf. by right.
    + split; [done|]. split; [by transitivity s1|].
      constructor; [by eapply Hmono | done].
Qed.

Section Coherent.

Variable E : Env.
Hypothesis HE : modulesAreClasses E.

Lemma finishNgModule_record moduleType meta importedModules exportedModules ids providers
    entryComponents declared transitiveModule compileMeta :
  snd (finishNgModule E moduleType meta importedModules exportedModules ids providers
         entryComponents declared transitiveModule) = Ok compileMeta ->
  type_reference (mod_type compileMeta) = resolveForwardRef moduleType /\
  mod_importedModules compileMeta = importedModules /\
  mod_exportedModules compileMeta = exportedModules /\
  tm_providers (mod_transitiveModule compileMeta) =
    tm_providers transitiveModule ++ mod_providers compileMeta.
Proof.
  unfold finishNgModule. intros H.
  apply snd_bindW_ok_inv in H as ([ds ps] & _ & H).
  apply snd_bindW_ok_inv in H as ([providers1 sink1] & _ & H).
  apply snd_bindW_ok_inv in H as (entryTypes & _ & H).
  apply snd_bindW_ok_inv in H as (bootstrapComponents & _ & H).
  apply snd_bindW_ok_inv in H as (type & Htype & H).
  simpl in H. injection H as <-. simpl. repeat split.
  unfold _getTypeMetadata in Htype.
  apply snd_bindW_ok_inv in Htype as (deps & _ & Htype).
  apply snd_bindW_ok_inv in Htype as (hooks & _ & Htype).
  simpl in Htype. by injection Htype as <-.
Qed.

Section Step.

Variable fuel : nat.
Hypothesis load_coherent : forall t isSync throwIfNotFound,
  steps (keepsCoherent E) (_loadNgModuleMetadata E fuel t isSync throwIfNotFound).

Lemma recur_coherent t isSync throwIfNotFound s0 s m s1 :
  _ngModuleCache s0 = _ngModuleCache s ->
  coherent E s ->
  _loadNgModuleMetadata E fuel t isSync throwIfNotFound s0 = Some (Ok (Some m), s1) ->
  coherent E s1 /\ stable s s1 /\
  cachedSummary s1 (toSummary m) /\ sref (toSummary m) = resolveForwardRef t.
Proof.
  intros Heq Hs Hrec.
  assert (Hs1 : coherent E s1).
  { apply (load_coherent _ _ _ _ _ _ Hrec). by apply (coherent_same E s). }
  pose proof (loadNgModuleMetadata_cached _ _ _ _ _ _ _ _ Hrec) as Hget.
  destruct (Hs1 _ _ Hget) as (Href & _).
  split; [done|]. split; [|split].
  - intros K m' HK. apply (stable_load E _ _ _ _ _ _ _ Hrec). by rewrite Heq.
  - exists m. unfold sref. simpl. by rewrite Href.
  - done.
Qed.

Definition importLinked (entry : Value)
    (y : CompileNgModuleSummary * list CompileProvider * list CompileIdentifierMetadata)
    (s : State) : Prop :=
  cachedSummary s (fst (fst y)) /\
  forall t, importedTypeOf entry = Some t -> sref (fst (fst y)) = resolveForwardRef t.

Definition exportLinked (entry : Value)
    (y : CompileNgModuleSummary + CompileIdentifierMetadata) (s : State) : Prop :=
  match y with
  | inl summary => cachedSummary s summary
  | inr _ => True
  end.

Lemma importEntry_coherent moduleType isSync entry s y s' :
  coherent E s ->
  importEntry E (_loadNgModuleMetadata E fuel) moduleType isSync entry s = Some (Ok y, s') ->
  coherent E s' /\ stable s s' /\ importLinked entry y s'.
Proof.
  intros Hs Hrun.
  apply importEntry_inv in Hrun
    as [[_ (e & [=])]|(t & calls & r0 & s1 & Ht & Hrec & Hc &
                       [(e & [=] & _)|(m & ps & ec & -> & [= ->] & ->)])].
  destruct (recur_coherent _ _ _ (logCalls calls s) s _ _ eq_refl Hs Hrec)
    as (Hs1 & Hst & Hsum & Href).
  split; [done|]. split; [done|]. split; [done|].
  intros t' Ht'. rewrite Ht in Ht'. by injection Ht' as <-.
Qed.

Lemma exportEntry_coherent moduleType isSync entry s y s' :
  coherent E s ->
  exportEntry (_loadNgModuleMetadata E fuel) moduleType isSync entry s = Some (Ok y, s') ->
  coherent E s' /\ stable s s' /\ exportLinked entry y s'.
Proof.
  intros Hs Hrun.
  apply exportEntry_inv in Hrun as [[_ (e & [=])]|(Hvalid & r0 & Hrec & Hr)].
  destruct Hr as [(e & _ & [=])|[[-> [= ->]]|(m & -> & [= ->])]].
  - split; [by apply (load_coherent _ _ _ _ _ _ Hrec)|].
    split; [by apply (stable_load E _ _ _ _ _ _ _ Hrec) | done].
  - destruct (recur_coherent _ _ _ s s _ _ eq_refl Hs Hrec) as (Hs1 & Hst & Hsum & Href).
    split; [done|]. split; [done|]. exact Hsum.
Qed.

Lemma Forall2_elem_r {A B} (Q : A -> B -> Prop) l k y :
  Forall2 Q l k -> y ∈ k -> exists x, x ∈ l /\ Q x y.
Proof.
  induction 1 as [|a b l k Hab _ IH]; [by intros ?%elem_of_nil|].
  intros [->|Hin]%elem_of_cons.
  - exists a. split; [by left | done].
  - destruct (IH Hin) as (x & Hx & HQ). exists x. split; [by right | done].
Qed.

(** One level of the resolution keeps the module cache coherent. *)
Lemma coherent_step moduleType isSync throwIfNotFound :
  steps (keepsCoherent E)
    (_loadNgModuleMetadata E (S fuel) moduleType isSync throwIfNotFound).
Proof.
  intros st r st' Hrun Hst.
  destruct (JsMap.get (_ngModuleCache st) (resolveForwardRef moduleType))
    as [cached|] eqn:Hget.
  { simpl in Hrun. unfold loadNgModuleBody in Hrun. rewrite bindR_getState, Hget in Hrun.
    by injection Hrun as <- <-. }
  destruct (ngModuleResolver_resolve E (resolveForwardRef moduleType))
    as [meta|] eqn:Hmeta.
  2: { simpl in Hrun. unfold loadNgModuleBody in Hrun. rewrite bindR_getState, Hget in Hrun.
       unfold ngModuleResolver_resolve_call in Hrun. simpl in Hrun.
       rewrite Hmeta in Hrun. unfold bindR, liftW in Hrun. simpl in Hrun.
       destruct throwIfNotFound; simpl in Hrun; injection Hrun as <- <-;
         by apply (coherent_same E st). }
  simpl in Hrun. rewrite (loadNgModuleBody_miss _ _ _ _ _ _ _ Hget Hmeta) in Hrun.
  pose proof (keepsCoherent_preorder E) as Hpre.
  destruct (keepsCoherent_moduleFrame_steps E) as (Hlog & Hpipe & Hof & _).
  pose proof (fun t i th => stable_load E fuel t i th) as Hstable.
  pose proof (HE _ _ Hmeta) as HK.
  set (K := resolveForwardRef moduleType) in *.
  set (st0 := logCalls [CallNgModuleResolve K throwIfNotFound] st) in *.
  assert (Hst0 : coherent E st0) by (by apply (coherent_same E st)).
  assert (Si : steps (keepsCoherent E)
                 (importsPhase E (_loadNgModuleMetadata E fuel) K isSync meta))
    by (apply steps_importsPhase; [done | done | intros; apply load_coherent]).
  assert (Se : steps (keepsCoherent E)
                 (exportsPhase (_loadNgModuleMetadata E fuel) K isSync meta))
    by (apply steps_exportsPhase; [done | intros; apply load_coherent]).
  assert (Sd : steps (keepsCoherent E) (declarationsPhase E K isSync meta))
    by (apply steps_declarationsPhase; [done | done | done | intros; apply Hof]).
  assert (Hmono : forall x y s s', importLinked x y s -> stable s s' -> importLinked x y s').
  { intros x y s s' [Hc Hl] Hss. split; [by eapply cachedSummary_stable | done]. }
  assert (Hmono' : forall x y s s', exportLinked x y s -> stable s s' -> exportLinked x y s').
  { intros x [c|i] s s' Hc Hss; [by eapply cachedSummary_stable | done]. }
  assert (Hstable_pre : PreOrder stable).
  { split; [by intros s k m | intros a b c Hab Hbc k m H; by apply Hbc, Hab]. }
  (* imports *)
  apply bindR_inv in Hrun as [(imports & s1 & Himports & Hrun)|(e & Himports & ->)].
  2: exact (Si _ _ _ Himports Hst0).
  pose proof (keepsOut_importsPhase E fuel Hstable moduleType isSync meta Hmeta
                _ _ _ Himports) as [_ Hu1].
  assert (H1 : coherent E s1 /\ stable st0 s1 /\
               forall l, m_imports meta = Some l ->
                 Forall2 (fun x y => importLinked x y s1) (flattenAndDedupeArray l) imports).
  { unfold importsPhase in Himports. destruct (m_imports meta) as [l|].
    - destruct (mapR_ok_rel stable _ _ _ _ _ (coherent E) importLinked Hmono
                  ltac:(intros x s y s' _ Hs Hx; by eapply importEntry_coherent)
                  Hst0 Himports) as (? & ? & ?).
      split; [done|]. split; [done|]. by intros l' [= <-].
    - apply retR_inv in Himports as [<- <-]. split; [done|]. split; [done|]. by intros l' [=]. }
  destruct H1 as (Hs1 & Hst1 & Hl1).
  (* exports *)
  apply bindR_inv in Hrun as [(exports & s2 & Hexports & Hrun)|(e & Hexports & ->)].
  2: exact (Se _ _ _ Hexports Hs1).
  pose proof (keepsOut_exportsPhase E fuel Hstable moduleType isSync meta Hmeta
                _ _ _ Hexports) as [_ Hu2].
  assert (H2 : coherent E s2 /\ stable s1 s2 /\
               Forall (fun y => exportLinked VNull y s2) exports).
  { unfold exportsPhase in Hexports. destruct (m_exports meta) as [l|].
    - destruct (mapR_ok_rel stable _ _ _ _ _ (coherent E) exportLinked Hmono'
                  ltac:(intros x s y s' _ Hs Hx; by eapply exportEntry_coherent)
                  Hs1 Hexports) as (? & ? & Hall).
      split; [done|]. split; [done|]. apply Forall_forall. intros y Hy.
      destruct (Forall2_elem_r _ _ _ _ Hall Hy) as (x & _ & Hx). by destruct y.
    - apply retR_inv in Hexports as [<- <-]. split; [done|]. split; [done | constructor]. }
  destruct H2 as (Hs2 & Hst2 & Hl2).
  (* declarations *)
  apply bindR_inv in Hrun as [(declared & s3 & Hdeclared & Hrun)|(e & Hdeclared & ->)].
  2: exact (Sd _ _ _ Hdeclared Hs2).
  pose proof (Sd _ _ _ Hdeclared Hs2) as Hs3.
  pose proof (keepsOut_declarationsPhase E moduleType isSync meta _ _ _ Hdeclared)
    as [Hst3 Hu3].
  assert (Hu : uncached s3 K) by (by apply Hu3, Hu2, Hu1).
  (* the record *)
  apply bindR_inv in Hrun as [(compileMeta & s4 & Hfinish & Hrun)|(e & Hfinish & ->)].
  2: { apply liftW_inv in Hfinish as [_ ->]. by apply (coherent_same E s3). }
  apply liftW_inv in Hfinish as [Hfinish ->]. injection Hrun as <- <-.
  symmetry in Hfinish. apply finishNgModule_record in Hfinish as (Href & Himp & Hexp & Hprov).
  match goal with |- coherent E ?s => set (st' := s) end.
  assert (Hcache : _ngModuleCache st' = JsMap.set K compileMeta (_ngModuleCache s3)) by done.
  intros K' m Hget'. rewrite Hcache, JsMapFacts.get_set in Hget'.
  destruct (decide (K = K')) as [<-|Hne].
  - injection Hget' as <-. split; [|split; [|split]].
    + by rewrite Href.
    + rewrite Himp, Hexp. apply Forall_app. split; apply Forall_forall; intros c Hc.
      * apply list_elem_of_fmap in Hc as (y & -> & Hy).
        destruct (m_imports meta) as [l|] eqn:Hl.
        -- destruct (Forall2_elem_r _ _ _ _ (Hl1 l eq_refl) Hy) as (x & _ & [Hx _]).
           apply (cachedSummary_set s3 st' K compileMeta); [done | done |].
           by apply (cachedSummary_stable s1); [intros k m' Hk; apply Hst3, Hst2, Hk|].
        -- unfold importsPhase in Himports. rewrite Hl in Himports.
           apply retR_inv in Himports as [<- _]. by apply elem_of_nil in Hy.
      * apply list_elem_of_omap in Hc as (y & Hy & Hleft). destruct y as [c'|i]; [|done].
        injection Hleft as ->. rewrite Forall_forall in Hl2. specialize (Hl2 _ Hy).
        apply (cachedSummary_set s3 st' K compileMeta); [done | done |].
        by apply (cachedSummary_stable s2).
    + intros Z (meta' & l & entry & t & Hm' & Hl & Hentry & Ht & <-).
      rewrite Hmeta in Hm'. injection Hm' as <-.
      destruct (Forall2_elem_l _ _ _ _ (Hl1 l Hl) Hentry) as (y & Hy & [_ Hlink]).
      exists (fst (fst y)). split; [|by apply Hlink].
      rewrite Himp. apply list_elem_of_fmap. by exists y.
    + rewrite Hprov. unfold transitiveProvidersOf. rewrite Himp, Hexp. f_equal.
      unfold transitiveModuleOf. by rewrite tm_providers_declared.
  - destruct (Hs3 K' m Hget') as (a & b & c & d). split; [done|]. split; [|done].
    eapply Forall_impl; [exact b|]. intros c'.
    by apply (cachedSummary_set s3 st' K compileMeta).
Qed.

End Step.

(** Resolving a module keeps the module cache coherent. *)
Lemma coherent_load fuel moduleType isSync throwIfNotFound :
  steps (keepsCoherent E) (_loadNgModuleMetadata E fuel moduleType isSync throwIfNotFound).
Proof.
  revert moduleType isSync throwIfNotFound. induction fuel as [|fuel IH]; intros.
  - intros st r st' [=].
  - by apply coherent_step.
Qed.

Lemma coherent_runOperation op st : coherent E st -> coherent E (runOperation E op st).
Proof.
  intros Hst. pose proof (keepsCoherent_preorder E) as Hpre.
  pose proof (keepsCoherent_directiveFrame E) as FD.
  destruct (keepsCoherent_moduleFrame_steps E) as (Hlog & Hpipe & Hof & Hdir).
  destruct op; simpl; unfold stateAfter.
  - destruct (loadNgModuleMetadata _ _ _ _ _ _) as [[r st']|] eqn:Hrun; [|done].
    revert Hst. eapply (steps_bindR (keepsCoherent E)); [apply coherent_load | | exact Hrun].
    intros [m|]; [|by apply steps_retR].
    apply steps_bindR; [done | by apply steps_loaders |].
    intros loading. by apply steps_retR.
  - unfold getUnloadedNgModuleMetadata.
    destruct (_loadNgModuleMetadata _ _ _ _ _ _) as [[r st']|] eqn:Hrun; [|done].
    by apply (coherent_load _ _ _ _ _ _ _ Hrun).
  - destruct (_loadDirectiveMetadata _ _ _ _) as [[r st']|] eqn:Hrun; [|done].
    by apply (steps_loadDirectiveMetadata E (keepsCoherent E) FD _ _ _ _ _ Hrun).
  - destruct (resolvePending _ _ _) as [[r st']|] eqn:Hrun; [|done].
    by apply (steps_createDirectiveMetadata (keepsCoherent E) FD _ _ _ _ _ _ Hrun).
  - destruct (getOrLoadPipeMetadata _ _ _) as [[r st']|] eqn:Hrun; [|done].
    exact (steps_getOrLoadPipeMetadata E (keepsCoherent E) Hpre Hlog Hpipe _ _ _ _ Hrun Hst).
  - intros K m [=].
  - intros K m [=].
Qed.

Lemma coherent_runOperations ops st : coherent E st -> coherent E (runOperations E ops st).
Proof.
  revert st. induction ops as [|op ops IH]; intros st Hst; [done|].
  simpl. apply IH. by apply coherent_runOperation.
Qed.

End Coherent.

(** ** The order of the transitive providers *)

Lemma flattenProviders_app l1 l2 :
  flattenProviders (l1 ++ l2) = flattenProviders l1 ++ flattenProviders l2.
Proof. unfold flattenProviders. apply flat_map_app. Qed.

(** A provider among the last providers of the list hides the providers
    before them. *)
Lemma effectiveProvider_own token others own p :
  p ∈ flattenProviders own -> providerToken p = Some token ->
  exists q, effectiveProvider token (others ++ own) = Some q /\
            q ∈ flattenProviders own /\ providerToken q = Some token.
Proof.
  intros Hp Htoken. unfold effectiveProvider.
  rewrite flattenProviders_app, filter_app, last_app.
  destruct (last (filter _ (flattenProviders own))) as [q|] eqn:Hlast.
  - exists q. split; [done|]. apply last_Some_elem_of in Hlast.
    by apply list_elem_of_filter in Hlast as [? ?].
  - apply last_None in Hlast.
    assert (Hin : p ∈ filter (fun p => providerToken p = Some token) (flattenProviders own))
      by (by apply list_elem_of_filter).
    rewrite Hlast in Hin. by apply elem_of_nil in Hin.
Qed.

Section ProviderOrder.

Variable E : Env.
Hypothesis HE : modulesAreClasses E.

Lemma cachedSummary_children st s c :
  coherent E st -> cachedSummary st s -> c ∈ childrenOf s -> cachedSummary st c.
Proof.
  intros Hst (m & Hm & ->) Hc. destruct (Hst _ _ Hm) as (_ & Hsum & _).
  rewrite Forall_forall in Hsum. by apply Hsum.
Qed.

Lemma cachedSummary_unique st s1 s2 :
  cachedSummary st s1 -> cachedSummary st s2 -> sref s1 = sref s2 -> s1 = s2.
Proof. intros (m1 & Hm1 & ->) (m2 & Hm2 & ->) Href. congruence. Qed.

(** In a coherent cache the transitive providers of a record have the
    providers of an imported module after the providers of the modules
    that module imports, and the providers of the record last. *)
Lemma coherent_transitive_providers st A metaA B C :
  coherent E st ->
  JsMap.get (_ngModuleCache st) A = Some metaA ->
  importsType E A B -> importsType E B C ->
  exists metaB metaC before between after,
    JsMap.get (_ngModuleCache st) B = Some metaB /\
    JsMap.get (_ngModuleCache st) C = Some metaC /\
    tm_providers (mod_transitiveModule metaA) =
      before ++ flattenProviders (mod_providers metaC) ++ between
        ++ flattenProviders (mod_providers metaB) ++ after ++ mod_providers metaA.
Proof.
  intros Hst HgetA HAB HBC.
  destruct (Hst _ _ HgetA) as (_ & HsumA & HlinkA & HprovA).
  destruct (HlinkA B HAB) as (sB & HsB & HrefB).
  assert (HcB : cachedSummary st sB).
  { rewrite Forall_forall in HsumA. apply HsumA, elem_of_app. by left. }
  destruct HcB as (metaB & HgetB & ->). rewrite HrefB in HgetB.
  destruct (Hst _ _ HgetB) as (_ & HsumB & HlinkB & _).
  destruct (HlinkB C HBC) as (sC & HsC & HrefC).
  assert (HcC : cachedSummary st sC).
  { rewrite Forall_forall in HsumB. apply HsumB, elem_of_app. by left. }
  destruct HcC as (metaC & HgetC & ->). rewrite HrefC in HgetC.
  destruct (getTransitiveImportedModules_child_first (cachedSummary st)
              (fun s c => cachedSummary_children st s c Hst) (cachedSummary_unique st)
              (mod_importedModules metaA ++ mod_exportedModules metaA)
              (toSummary metaB) (toSummary metaC))
    as (l1 & l2 & l3 & Heq).
  - done.
  - apply elem_of_app. by left.
  - apply elem_of_app. by left.
  - set (f := fun ngModule => flattenProviders (sum_providers ngModule)).
    exists metaB, metaC, (flat_map f l1), (flat_map f l2), (flat_map f l3).
    split; [done|]. split; [done|].
    rewrite HprovA. unfold transitiveProvidersOf. fold f. rewrite Heq.
    rewrite flat_map_app. simpl. rewrite flat_map_app. simpl.
    by rewrite <- !app_assoc.
Qed.

End ProviderOrder.

(** C1: whatever was resolved before, when the module A is resolved and
    its annotation imports B, whose annotation imports C, the records of
    B and C are cached and the transitive providers of the record of A
    hold the providers of C, later the providers of B, and the providers
    of A at the very end; so a provider of A for a token is never hidden:
    the last provider for that token in the list is one of A. *)
Theorem provider_order E ops fuel A isSync throwIfNotFound metaA st' B C :
  modulesAreClasses E ->
  _loadNgModuleMetadata E fuel A isSync throwIfNotFound (runOperations E ops newResolver)
    = Some (Ok (Some metaA), st') ->
  importsType E (resolveForwardRef A) B ->
  importsType E B C ->
  exists metaB metaC before between after,
    JsMap.get (_ngModuleCache st') B = Some metaB /\
    JsMap.get (_ngModuleCache st') C = Some metaC /\
    tm_providers (mod_transitiveModule metaA) =
      before ++ flattenProviders (mod_providers metaC) ++ between
        ++ flattenProviders (mod_providers metaB) ++ after ++ mod_providers metaA /\
    forall token p,
      p ∈ flattenProviders (mod_providers metaA) -> providerToken p = Some token ->
      exists q,
        effectiveProvider token (tm_providers (mod_transitiveModule metaA)) = Some q /\
        q ∈ flattenProviders (mod_providers metaA) /\ providerToken q = Some token.
Proof.
  intros HE Hrun HAB HBC.
  assert (Hst' : coherent E st').
  { apply (coherent_load E HE _ _ _ _ _ _ _ Hrun).
    apply coherent_runOperations; [done | apply coherent_newResolver]. }
  pose proof (loadNgModuleMetadata_cached _ _ _ _ _ _ _ _ Hrun) as HgetA.
  destruct (coherent_transitive_providers E st' _ metaA B C Hst' HgetA HAB HBC)
    as (metaB & metaC & before & between & after & HgetB & HgetC & Heq).
  exists metaB, metaC, before, between, after.
  split; [done|]. split; [done|]. split; [done|].
  intros token p Hp Htoken. rewrite Heq, !app_assoc.
  by apply (effectiveProvider_own _ _ _ p).
Qed.

Lemma modulesAreClasses_example : modulesAreClasses Example.env.
Proof. intros type meta H. by destruct type. Qed.

Lemma provider_order_witness :
  exists metaA st' q,
    _loadNgModuleMetadata Example.env 3 (VType 1) true true newResolver
      = Some (Ok (Some metaA), st') /\
    effectiveProvider (TokenValue "tok") (tm_providers (mod_transitiveModule metaA)) = Some q /\
    q ∈ flattenProviders (mod_providers metaA).
Proof.
  destruct (_loadNgModuleMetadata Example.env 3 (VType 1) true true newResolver)
    as [[[[metaA|]|e] st']|] eqn:Hrun; try (vm_compute in Hrun; discriminate).
  assert (Hown : match flattenProviders (mod_providers metaA) with
                 | p :: _ => providerToken p = Some (TokenValue "tok")
                 | [] => False
                 end).
  { pose proof Hrun as Hc. vm_compute in Hc. injection Hc as <- _. reflexivity. }
  destruct (provider_order Example.env [] 3 (VType 1) true true metaA st' (VType 2) (VType 3)
              modulesAreClasses_example Hrun)
    as (metaB & metaC & before & between & after & _ & _ & _ & Hlast).
  - exists Example.moduleA, [VType 2], (VType 2), (VType 2). by repeat split; try left.
  - exists Example.moduleB, [VType 3], (VType 3), (VType 3). by repeat split; try left.
  - destruct (flattenProviders (mod_providers metaA)) as [|p l] eqn:Hf; [done|].
    destruct (Hlast (TokenValue "tok") p ltac:(left) Hown) as (q & Hq & Hin & _).
    exists metaA, st', q. rewrite Hf. by repeat split.
Defined.

(** * Further properties *)

(** ** [dedupeArray] and [flattenArray] *)

Lemma dedupeFrom_elem_of seen array :
  NoDup (dedupeFrom seen array) /\
  forall x, x ∈ dedupeFrom seen array <-> x ∈ array /\ x ∉ seen.
Proof.
  revert seen. induction array as [|y r IH]; intros seen; simpl.
  - split; [constructor|]. intros x. rewrite elem_of_nil. tauto.
  - destruct (JsSet.has seen y) eqn:Hy.
    + apply JsSet_has_true in Hy. destruct (IH seen) as [Hnd Hel]. split; [done|].
      intros x. rewrite Hel, elem_of_cons. split; [tauto|].
      intros [[->|?] ?]; [done | tauto].
    + assert (Hn : y ∉ seen) by (intros H%JsSet_has_true; congruence).
      destruct (IH (JsSet.add y seen)) as [Hnd Hel]. split.
      * constructor; [|done]. rewrite Hel. intros [_ Hadd]. apply Hadd, JsSet_elem_of_add.
        by left.
      * intros x. rewrite elem_of_cons, Hel, JsSet_elem_of_add. split.
        -- intros [->|[? ?]]; [split; [by left | done] | split; [by right | tauto]].
        -- intros [[->|?]%elem_of_cons ?]; [by left|].
           destruct (decide (x = y)); [by left | right]. split; [done | tauto].
Qed.

Lemma dedupeFrom_sublist seen array : sublist (dedupeFrom seen array) array.
Proof.
  revert seen. induction array as [|y r IH]; intros seen; simpl; [constructor|].
  destruct (JsSet.has seen y); [apply sublist_cons | apply sublist_skip]; apply IH.
Qed.

Lemma dedupeFrom_filter array (s t u : JsSet.t) :
  (forall x, x ∈ t <-> x ∈ s \/ x ∈ u) ->
  dedupeFrom t array = filter (fun y => y ∉ s) (dedupeFrom u array).
Proof.
  revert s t u. induction array as [|y r IH]; intros s t u Htsu; simpl; [done|].
  destruct (JsSet.has u y) eqn:Hu.
  - apply JsSet_has_true in Hu.
    assert (Ht : JsSet.has t y = true) by (apply JsSet_has_true, Htsu; by right).
    rewrite Ht. by apply IH.
  - assert (Hnu : y ∉ u) by (intros H%JsSet_has_true; congruence).
    destruct (decide (y ∈ s)) as [Hs|Hs].
    + assert (Ht : JsSet.has t y = true) by (apply JsSet_has_true, Htsu; by left).
      rewrite Ht, filter_cons_False by (intros H; by apply H).
      apply IH. intros x. rewrite Htsu, JsSet_elem_of_add. split; [tauto|].
      intros [?|[->|?]]; tauto.
    + assert (Ht : JsSet.has t y = false).
      { apply not_true_is_false. intros H%JsSet_has_true%Htsu. tauto. }
      rewrite Ht, filter_cons_True by done. f_equal.
      apply IH. intros x. rewrite !JsSet_elem_of_add, Htsu. tauto.
Qed.

Lemma filter_Forall {A} (P : A -> Prop) `{!forall x, Decision (P x)} (l : list A) :
  Forall P l -> filter P l = l.
Proof.
  induction 1 as [|x l Hx _ IH]; [done|]. by rewrite filter_cons_True, IH.
Qed.

(** X1: [dedupeArray] keeps the first occurrence of every element, in
    the order of the array: the result has no duplicates and the elements
    of the array, it is the head followed by the deduplicated tail
    without the head, and an array without duplicates is returned as it
    is. *)
Theorem dedupeArray_first_occurrences array :
  NoDup (dedupeArray array) /\
  (forall x, x ∈ dedupeArray array <-> x ∈ array) /\
  sublist (dedupeArray array) array /\
  (forall x r, array = x :: r ->
     dedupeArray array = x :: filter (fun y => y <> x) (dedupeArray r)) /\
  (NoDup array -> dedupeArray array = array) /\
  dedupeArray (dedupeArray array) = dedupeArray array.
Proof.
  assert (Hcons : forall x r,
            dedupeArray (x :: r) = x :: filter (fun y => y <> x) (dedupeArray r)).
  { intros x r. unfold dedupeArray. simpl. f_equal.
    rewrite (dedupeFrom_filter r [x] (JsSet.add x []) []).
    - apply list_filter_iff. intros y. by rewrite list_elem_of_singleton.
    - intros y. simpl. rewrite elem_of_nil. tauto. }
  assert (Hid : forall l, NoDup l -> dedupeArray l = l).
  { induction l as [|x r IH]; intros Hnd; [done|]. apply NoDup_cons in Hnd as [Hx Hr].
    rewrite Hcons, IH by done. f_equal. apply filter_Forall.
    apply Forall_forall. intros y Hy ->. done. }
  destruct (dedupeFrom_elem_of [] array) as [Hnd Hel].
  split; [done|]. split; [|split; [|split; [|split]]].
  - intros x. unfold dedupeArray. rewrite Hel, elem_of_nil. tauto.
  - apply dedupeFrom_sublist.
  - by intros x r ->.
  - apply Hid.
  - by apply Hid.
Qed.

Definition isArray (v : Value) : bool :=
  match v with VArr _ => true | _ => false end.

Fixpoint flattenItem_no_array (v : Value) : Forall (fun x => isArray x = false) (flattenItem v).
Proof.
  destruct v as [| | | | | |w|l|i fs| | | | | |w|]; simpl;
    try (by repeat constructor).
  - destruct w as [| | | | | |w'|l|i fs| | | | | |w'|]; try (by repeat constructor).
    induction l as [|x l IH]; simpl; [constructor|].
    apply Forall_app. split; [apply flattenItem_no_array | exact IH].
  - induction l as [|x l IH]; simpl; [constructor|].
    apply Forall_app. split; [apply flattenItem_no_array | exact IH].
Qed.

(** X2: [flattenArray] returns no array, whatever the nesting: an array
    in the tree, forward-referenced or not, counts as its elements in
    its place, and a tree in which no entry resolves to an array is
    returned with its forward references resolved. *)
Theorem flattenArray_flat tree :
  Forall (fun x => isArray x = false) (flattenArray tree) /\
  (forall pre inner post,
     tree = pre ++ VArr inner :: post ->
     flattenArray tree = flattenArray (pre ++ inner ++ post)) /\
  (forall pre inner post,
     tree = pre ++ VFwdRef (VArr inner) :: post ->
     flattenArray tree = flattenArray (pre ++ inner ++ post)) /\
  (Forall (fun x => isArray (resolveForwardRef x) = false) tree ->
   flattenArray tree = map resolveForwardRef tree).
Proof.
  unfold flattenArray. split; [|split; [|split]].
  - induction tree as [|x tree IH]; simpl; [constructor|].
    apply Forall_app. split; [apply flattenItem_no_array | exact IH].
  - intros pre inner post ->. by rewrite !flat_map_app.
  - intros pre inner post ->. by rewrite !flat_map_app.
  - induction 1 as [|x tree Hx _ IH]; simpl; [done|]. rewrite IH. f_equal.
    destruct x as [| | | | | |w|l|i fs| | | | | |w|]; try done.
    by destruct w.
Qed.

(** ** Clearing the caches *)

(** X3: [clearCacheFor] forgets the type in the directive caches, the
    pipe caches and the map from types to modules, leaves the entries of
    every other type there, empties the whole module cache, and tells the
    normalizer exactly when directive metadata was cached for the type. *)
Theorem clearCacheFor_forgets type st :
  exists st',
    clearCacheFor type st = Some (Ok tt, st') /\
    (JsMap.get (_directiveCache st') type = None /\
     JsMap.get (_directiveSummaryCache st') type = None /\
     JsMap.get (_pipeCache st') type = None /\
     JsMap.get (_pipeSummaryCache st') type = None /\
     JsMap.get (_ngModuleOfTypes st') type = None) /\
    (forall other, other <> type ->
       JsMap.get (_directiveCache st') other = JsMap.get (_directiveCache st) other /\
       JsMap.get (_directiveSummaryCache st') other
         = JsMap.get (_directiveSummaryCache st) other /\
       JsMap.get (_pipeCache st') other = JsMap.get (_pipeCache st) other /\
       JsMap.get (_pipeSummaryCache st') other = JsMap.get (_pipeSummaryCache st) other /\
       JsMap.get (_ngModuleOfTypes st') other = JsMap.get (_ngModuleOfTypes st) other) /\
    (forall moduleType, uncached st' moduleType) /\
    callLog st' =
      callLog st ++
        if JsMap.has (_directiveCache st) type then [CallNormalizerClearCacheFor type] else [].
Proof.
  eexists. split; [reflexivity|]. simpl. split; [|split; [|split]].
  - by rewrite !JsMapFacts.get_delete_eq.
  - intros other Hne. by rewrite !JsMapFacts.get_delete_ne.
  - done.
  - unfold JsMap.has. by destruct (JsMap.get (_directiveCache st) type).
Qed.

(** ** The summary caches hold the summaries of the metadata caches *)

Definition summariesAgree (st : State) : Prop :=
  (forall type,
     JsMap.get (_directiveSummaryCache st) type
       = option_map directive_toSummary (JsMap.get (_directiveCache st) type)) /\
  (forall type,
     JsMap.get (_pipeSummaryCache st) type
       = option_map pipe_toSummary (JsMap.get (_pipeCache st) type)).

Definition keepsAgree (st st' : State) : Prop := summariesAgree st -> summariesAgree st'.

Lemma keepsAgree_preorder : PreOrder keepsAgree.
Proof.
  split; [intros st H; exact H | intros a b c Hab Hbc H; apply Hbc, Hab, H].
Qed.

Lemma get_set_map {V W} (f : V -> W) (m : JsMap.t V) (m' : JsMap.t W) k v :
  (forall type, JsMap.get m' type = option_map f (JsMap.get m type)) ->
  forall type,
    JsMap.get (JsMap.set k (f v) m') type = option_map f (JsMap.get (JsMap.set k v m) type).
Proof.
  intros H type. rewrite !JsMapFacts.get_set. by destruct (decide (k = type)).
Qed.

Lemma get_delete_map {V W} (f : V -> W) (m : JsMap.t V) (m' : JsMap.t W) k :
  (forall type, JsMap.get m' type = option_map f (JsMap.get m type)) ->
  forall type,
    JsMap.get (JsMap.delete k m') type = option_map f (JsMap.get (JsMap.delete k m) type).
Proof.
  intros H type. destruct (decide (k = type)) as [->|Hne].
  - by rewrite !JsMapFacts.get_delete_eq.
  - by rewrite !JsMapFacts.get_delete_ne.
Qed.

Lemma keepsAgree_moduleFrame : ModuleFrame keepsAgree.
Proof.
  split; [apply keepsAgree_preorder | | | |]; try (unfold keepsAgree; intros; assumption).
  intros type meta st [Hd Hp]. split; [done|]. simpl. by apply get_set_map.
Qed.

Lemma keepsAgree_directiveFrame : DirectiveFrame keepsAgree.
Proof.
  split; [apply keepsAgree_preorder | |]; try (unfold keepsAgree; intros; assumption).
  intros type meta st [Hd Hp]. split; [|done]. simpl. by apply get_set_map.
Qed.

Lemma runOperation_agree E op st : summariesAgree st -> summariesAgree (runOperation E op st).
Proof.
  intros Hst. destruct op; simpl; unfold stateAfter.
  - destruct (loadNgModuleMetadata _ _ _ _ _ _) as [[r st']|] eqn:Hrun; [|done].
    eapply (steps_loadNgModuleMetadata E keepsAgree); eauto using
      keepsAgree_moduleFrame, keepsAgree_directiveFrame.
  - unfold getUnloadedNgModuleMetadata.
    destruct (_loadNgModuleMetadata _ _ _ _ _ _) as [[r st']|] eqn:Hrun; [|done].
    eapply (steps_loadNgModuleMetadata' E keepsAgree); eauto using keepsAgree_moduleFrame.
  - destruct (_loadDirectiveMetadata _ _ _ _) as [[r st']|] eqn:Hrun; [|done].
    eapply (steps_loadDirectiveMetadata E keepsAgree);
      eauto using keepsAgree_directiveFrame.
  - destruct (resolvePending _ _ _) as [[r st']|] eqn:Hrun; [|done].
    eapply (steps_createDirectiveMetadata keepsAgree);
      eauto using keepsAgree_directiveFrame.
  - destruct (getOrLoadPipeMetadata _ _ _) as [[r st']|] eqn:Hrun; [|done].
    destruct keepsAgree_moduleFrame as [Hpre Hlog Hpipe Hof Hcache].
    by eapply (steps_getOrLoadPipeMetadata E keepsAgree).
  - destruct Hst as [Hd Hp]. split; simpl; by apply get_delete_map.
  - by split.
Qed.

Lemma runOperations_agree E ops st :
  summariesAgree st -> summariesAgree (runOperations E ops st).
Proof.
  revert st. induction ops as [|op ops IH]; intros st Hst; [done|].
  simpl. apply IH. by apply runOperation_agree.
Qed.

(** X4: after every sequence of operations the summary accessors return
    the summaries of what the metadata accessors return: for a type with
    cached directive metadata [getDirectiveSummary] returns the summary
    of that record, and likewise for pipes. *)
Theorem summaries_of_cached_metadata E ops :
  let st := runOperations E ops newResolver in
  (forall type dirMeta,
     getDirectiveMetadata type st = Some (Ok dirMeta, st) ->
     getDirectiveSummary type st = Some (Ok (directive_toSummary dirMeta), st)) /\
  (forall type pipeMeta,
     getPipeMetadata type st = Some (Ok pipeMeta, st) ->
     getPipeSummary type st = Some (Ok (pipe_toSummary pipeMeta), st)).
Proof.
  intros st.
  assert (H : summariesAgree st) by (by apply runOperations_agree).
  destruct H as [Hd Hp]. split; intros type m.
  - unfold getDirectiveMetadata, getDirectiveSummary. rewrite !bindR_getState, Hd.
    destruct (JsMap.get (_directiveCache st) type); [|discriminate].
    by intros [= ->].
  - unfold getPipeMetadata, getPipeSummary. rewrite !bindR_getState, Hp.
    destruct (JsMap.get (_pipeCache st) type); [|discriminate].
    by intros [= ->].
Qed.

(** ** What was loaded is found by the accessors *)

(** X5: a module, directive or pipe that was loaded is returned by its
    accessor under the resolved type: the module accessor returns the
    record the resolution returned, the directive accessors the stored
    record and its summary, the pipe accessors the record the load
    returned and its summary.  A directive load that found the type
    cached changes nothing. *)
Theorem loaded_then_accessible E :
  (forall fuel moduleType isSync throwIfNotFound st compileMeta st',
     _loadNgModuleMetadata E fuel moduleType isSync throwIfNotFound st
       = Some (Ok (Some compileMeta), st') ->
     getNgModuleMetadata (resolveForwardRef moduleType) st' = Some (Ok compileMeta, st')) /\
  (forall directiveType isSync st st',
     _loadDirectiveMetadata E directiveType isSync st = Some (Ok LoadNull, st') ->
     exists dirMeta,
       getDirectiveMetadata (resolveForwardRef directiveType) st' = Some (Ok dirMeta, st') /\
       getDirectiveSummary (resolveForwardRef directiveType) st'
         = Some (Ok (directive_toSummary dirMeta), st')) /\
  (forall directiveType isSync st st',
     _loadDirectiveMetadata E directiveType isSync st = Some (Ok LoadUndefined, st') ->
     st' = st /\
     exists dirMeta, getDirectiveMetadata directiveType st = Some (Ok dirMeta, st)) /\
  (forall pipeType st pipeMeta st',
     _loadPipeMetadata E pipeType st = Some (Ok pipeMeta, st') ->
     getPipeMetadata (resolveForwardRef pipeType) st' = Some (Ok pipeMeta, st') /\
     getPipeSummary (resolveForwardRef pipeType) st'
       = Some (Ok (pipe_toSummary pipeMeta), st')).
Proof.
  split; [|split; [|split]].
  - intros fuel moduleType isSync throwIfNotFound st compileMeta st' Hrun.
    unfold getNgModuleMetadata. rewrite bindR_getState.
    by rewrite (loadNgModuleMetadata_cached _ _ _ _ _ _ _ _ Hrun).
  - intros directiveType isSync st st' Hrun.
    destruct (loadDirectiveMetadata_stored _ _ _ _ _ Hrun) as (dirMeta & Hm & Hs).
    exists dirMeta. unfold getDirectiveMetadata, getDirectiveSummary.
    by rewrite !bindR_getState, Hm, Hs.
  - intros directiveType isSync st st'. unfold _loadDirectiveMetadata, getDirectiveMetadata.
    rewrite !bindR_getState. unfold JsMap.has.
    destruct (JsMap.get (_directiveCache st) directiveType) as [dirMeta|] eqn:Hget.
    + intros [= <-]. split; [done|]. by exists dirMeta.
    + intros H. apply bindR_ok_inv in H as ([[annotation metadata]|] & s1 & _ & H);
        [|discriminate].
      destruct (dir_isComponent metadata).
      * destruct (dir_template metadata); [|discriminate].
        apply bindR_ok_inv in H as (moduleUrl & s2 & _ & H).
        apply bindR_ok_inv in H as ([syncResult|asyncResult] & s3 & _ & H).
        -- apply bindR_ok_inv in H as (m & s4 & _ & H). discriminate.
        -- destruct isSync; discriminate.
      * apply bindR_ok_inv in H as (m & s4 & _ & H). discriminate.
  - intros pipeType st pipeMeta st' H. unfold _loadPipeMetadata in H.
    apply bindR_ok_inv in H as (annotation & s1 & _ & H).
    apply bindR_ok_inv in H as (type & s2 & _ & H).
    apply bindR_ok_inv in H as ([] & s3 & Hset & H).
    apply retR_inv in H as [<- <-]. injection Hset as <-.
    unfold getPipeMetadata, getPipeSummary. rewrite !bindR_getState. simpl.
    by rewrite !JsMapFacts.get_set_eq.
Qed.

Lemma loaded_then_accessible_witness :
  (exists compileMeta st',
     _loadNgModuleMetadata Example.env 3 (VType 1) true true newResolver
       = Some (Ok (Some compileMeta), st') /\
     getNgModuleMetadata (VType 1) st' = Some (Ok compileMeta, st')) /\
  (exists dirMeta st',
     _loadDirectiveMetadata Example.env (VFwdRef (VType 10)) true newResolver
       = Some (Ok LoadNull, st') /\
     getDirectiveMetadata (VType 10) st' = Some (Ok dirMeta, st')) /\
  (exists pipeMeta st',
     _loadPipeMetadata Example.env (VType 20) newResolver = Some (Ok pipeMeta, st') /\
     getPipeSummary (VType 20) st' = Some (Ok (pipe_toSummary pipeMeta), st')).
Proof.
  destruct (loaded_then_accessible Example.env) as (Hmodule & Hdirective & _ & Hpipe).
  split; [|split].
  - destruct (_loadNgModuleMetadata Example.env 3 (VType 1) true true newResolver)
      as [[[[meta|]|e] st1]|] eqn:Hrun; try (vm_compute in Hrun; discriminate).
    exists meta, st1. split; [reflexivity|]. by apply (Hmodule _ _ _ _ _ _ _ Hrun).
  - destruct (_loadDirectiveMetadata Example.env (VFwdRef (VType 10)) true newResolver)
      as [[[[| |p]|e] st1]|] eqn:Hrun; try (vm_compute in Hrun; discriminate).
    destruct (Hdirective _ _ _ _ Hrun) as (dirMeta & Hm & _).
    by exists dirMeta, st1.
  - destruct (_loadPipeMetadata Example.env (VType 20) newResolver)
      as [[[pipeMeta|e] st1]|] eqn:Hrun; try (vm_compute in Hrun; discriminate).
    exists pipeMeta, st1. split; [reflexivity|]. by apply (Hpipe _ _ _ _ Hrun).
Defined.

(** ** Loading the directives of a module *)

(** Directive metadata that is cached stays cached. *)
Definition keepsDirectives (st st' : State) : Prop :=
  forall type, is_Some (JsMap.get (_directiveCache st) type) ->
               is_Some (JsMap.get (_directiveCache st') type).

Lemma keepsDirectives_preorder : PreOrder keepsDirectives.
Proof. split; [by intros st k | intros a b c Hab Hbc k H; by apply Hbc, Hab]. Qed.

Lemma keepsDirectives_directiveFrame : DirectiveFrame keepsDirectives.
Proof.
  split; [apply keepsDirectives_preorder | by intros calls st k |].
  intros type meta st k. simpl. apply is_Some_get_set.
Qed.

(** What the result of a directive loader says about the state. *)
Definition loaderOutcome (loader : DirectiveLoader) (r : LoadResult) (st : State) : Prop :=
  match r with
  | LoadUndefined => is_Some (JsMap.get (_directiveCache st) (loader_declaredType loader))
  | LoadNull =>
      is_Some (JsMap.get (_directiveCache st)
                 (resolveForwardRef (loader_declaredType loader)))
  | LoadPromise p =>
      loader_isSync loader = false /\
      pending_directiveType p = resolveForwardRef (loader_declaredType loader)
  end.

Lemma loadDirectiveMetadata_outcome E directiveType isSync st r st' :
  _loadDirectiveMetadata E directiveType isSync st = Some (Ok r, st') ->
  loaderOutcome (mkLoader directiveType isSync) r st'.
Proof.
  intros Hrun. destruct r as [| |p]; simpl.
  - revert Hrun. unfold _loadDirectiveMetadata. rewrite bindR_getState. unfold JsMap.has.
    destruct (JsMap.get (_directiveCache st) directiveType) as [dirMeta|] eqn:Hget.
    + intros [= <-]. by rewrite Hget.
    + intros H. apply bindR_ok_inv in H as ([[annotation metadata]|] & s1 & _ & H);
        [|discriminate].
      destruct (dir_isComponent metadata).
      * destruct (dir_template metadata); [|discriminate].
        apply bindR_ok_inv in H as (moduleUrl & s2 & _ & H).
        apply bindR_ok_inv in H as ([syncResult|asyncResult] & s3 & _ & H).
        -- apply bindR_ok_inv in H as (m & s4 & _ & H). discriminate.
        -- destruct isSync; discriminate.
      * apply bindR_ok_inv in H as (m & s4 & _ & H). discriminate.
  - destruct (loadDirectiveMetadata_stored _ _ _ _ _ Hrun) as (dirMeta & Hm & _).
    by rewrite Hm.
  - revert Hrun. unfold _loadDirectiveMetadata. rewrite bindR_getState.
    destruct (JsMap.has _ _); [discriminate|].
    intros H. apply bindR_ok_inv in H as ([[annotation metadata]|] & s1 & _ & H);
      [|discriminate].
    destruct (dir_isComponent metadata).
    + destruct (dir_template metadata); [|discriminate].
      apply bindR_ok_inv in H as (moduleUrl & s2 & _ & H).
      apply bindR_ok_inv in H as ([syncResult|asyncResult] & s3 & _ & H).
      * apply bindR_ok_inv in H as (m & s4 & _ & H). discriminate.
      * destruct isSync; [discriminate|]. by injection H as <- _.
    + apply bindR_ok_inv in H as (m & s4 & _ & H). discriminate.
Qed.

Definition sameModuleCache (st st' : State) : Prop :=
  _ngModuleCache st' = _ngModuleCache st.

Lemma sameModuleCache_directiveFrame : DirectiveFrame sameModuleCache.
Proof.
  split; [|done|done]. split; [done|]. unfold sameModuleCache. by intros a b c -> ->.
Qed.

Lemma loaders_outcome E loaders st results st' :
  mapR (fun loader =>
          _loadDirectiveMetadata E (loader_declaredType loader) (loader_isSync loader))
    loaders st = Some (Ok results, st') ->
  _ngModuleCache st' = _ngModuleCache st /\
  Forall2 (fun loader r => loaderOutcome loader r st') loaders results.
Proof.
  intros Hrun.
  pose proof keepsDirectives_preorder as Hpre.
  assert (Hmono : forall (loader : DirectiveLoader) (r : LoadResult) s s',
            loaderOutcome loader r s -> keepsDirectives s s' -> loaderOutcome loader r s').
  { intros loader [| |p] s s' Hq Hss; simpl in *; by auto. }
  assert (Hstep : forall (loader : DirectiveLoader) s (r : LoadResult) s',
            loader ∈ loaders ->
            _ngModuleCache s = _ngModuleCache st ->
            _loadDirectiveMetadata E (loader_declaredType loader) (loader_isSync loader) s
              = Some (Ok r, s') ->
            _ngModuleCache s' = _ngModuleCache st /\ keepsDirectives s s' /\
            loaderOutcome loader r s').
  { intros loader s r s' _ Hs Hx. split; [|split].
    - rewrite <- Hs.
      apply (steps_loadDirectiveMetadata E sameModuleCache sameModuleCache_directiveFrame
               _ _ _ _ _ Hx).
    - apply (steps_loadDirectiveMetadata E keepsDirectives keepsDirectives_directiveFrame
               _ _ _ _ _ Hx).
    - destruct loader as [declaredType sync]. by apply (loadDirectiveMetadata_outcome E _ _ s). }
  destruct (mapR_ok_rel keepsDirectives _ _ _ _ _
              (fun s => _ngModuleCache s = _ngModuleCache st)
              (fun loader r s => loaderOutcome loader r s) Hmono Hstep eq_refl Hrun)
    as (Hcache & _ & Hall).
  by split.
Qed.

(** X6: [loadNgModuleMetadata] runs every directive loader of the
    transitive module, in order, and returns one result per loader;
    without a module there is nothing to load.  When it returns, the
    module is cached, every directive whose loader returned no promise
    has its metadata cached, and a promise comes only from a loader
    created by an asynchronous resolution. *)
Theorem directives_loaded E fuel moduleType isSync throwIfNotFound st ngModule loading st' :
  loadNgModuleMetadata E fuel moduleType isSync throwIfNotFound st
    = Some (Ok (ngModule, loading), st') ->
  match ngModule with
  | Some compileMeta =>
      JsMap.get (_ngModuleCache st') (resolveForwardRef moduleType) = Some compileMeta /\
      Forall2 (fun loader r => loaderOutcome loader r st')
        (tm_directiveLoaders (mod_transitiveModule compileMeta)) loading
  | None => loading = []
  end.
Proof.
  unfold loadNgModuleMetadata. intros H.
  apply bindR_ok_inv in H as ([compileMeta|] & s1 & Hload & H).
  2: { by apply retR_inv in H as [[= <- <-] _]. }
  apply bindR_ok_inv in H as (results & s2 & Hloaders & H).
  apply retR_inv in H as [[= <- <-] <-].
  destruct (loaders_outcome _ _ _ _ _ Hloaders) as [Hcache Hall].
  split; [|done].
  rewrite Hcache. by apply (loadNgModuleMetadata_cached _ _ _ _ _ _ _ _ Hload).
Qed.

Lemma directives_loaded_witness :
  exists compileMeta st',
    loadNgModuleMetadata Example.env 1 (VType 5) true true newResolver
      = Some (Ok (Some compileMeta, [LoadNull]), st') /\
    tm_directiveLoaders (mod_transitiveModule compileMeta) = [mkLoader (VType 10) true] /\
    is_Some (JsMap.get (_directiveCache st') (VType 10)).
Proof.
  destruct (loadNgModuleMetadata Example.env 1 (VType 5) true true newResolver)
    as [[[[[compileMeta|] loading]|e] st']|] eqn:Hrun; try (vm_compute in Hrun; discriminate).
  pose proof (directives_loaded _ _ _ _ _ _ _ _ _ Hrun) as [_ Hall].
  assert (Hc : loading = [LoadNull] /\
               tm_directiveLoaders (mod_transitiveModule compileMeta)
                 = [mkLoader (VType 10) true]).
  { pose proof Hrun as Hc. vm_compute in Hc. by injection Hc as <- <- _. }
  destruct Hc as [-> Hl]. rewrite Hl in Hall.
  apply Forall2_cons_1 in Hall as [Hout _].
  by exists compileMeta, st'.
Defined.

(** ** Modules without an annotation, and invalid entries *)

Lemma mapR_err_at {A B} (f : A -> R B) pre x post st ys s1 e s2 :
  mapR f pre st = Some (Ok ys, s1) ->
  f x s1 = Some (Err e, s2) ->
  mapR f (pre ++ x :: post) st = Some (Err e, s2).
Proof.
  intros Hpre Hx. rewrite mapR_app, (bindR_run_ok _ _ _ _ _ Hpre). apply bindR_run_err.
  simpl. by apply bindR_run_err.
Qed.

Section Validation.

Variable E : Env.

(** The descriptor [_getTypeDescriptor] returns. *)
Definition typeDescriptor (type : Value) : string :=
  if directiveResolver_isDirective E type then "directive"
  else if pipeResolver_isPipe E type then "pipe"
  else if ngModuleResolver_isNgModule E type then "module"
  else if truthy (getProperty type "provide") then "provider"
  else "value".

Lemma snd_getTypeDescriptor type : snd (_getTypeDescriptor E type) = Ok (typeDescriptor type).
Proof.
  unfold _getTypeDescriptor, typeDescriptor, isDirective, isPipe, isNgModule, callW. simpl.
  destruct (directiveResolver_isDirective E type); [done|].
  destruct (pipeResolver_isPipe E type); [done|].
  destruct (ngModuleResolver_isNgModule E type); [done|].
  by destruct (truthy _).
Qed.

Lemma loadNgModuleMetadata_unannotated fuel moduleType isSync throwIfNotFound st :
  uncached st (resolveForwardRef moduleType) ->
  ngModuleResolver_resolve E (resolveForwardRef moduleType) = None ->
  _loadNgModuleMetadata E (S fuel) moduleType isSync throwIfNotFound st =
    Some (if throwIfNotFound then Err (NoNgModuleMetadata (resolveForwardRef moduleType))
          else Ok None,
          logCalls [CallNgModuleResolve (resolveForwardRef moduleType) throwIfNotFound] st).
Proof.
  intros Hmiss Hmeta. simpl. unfold loadNgModuleBody. rewrite bindR_getState, Hmiss.
  unfold ngModuleResolver_resolve_call. simpl. rewrite Hmeta.
  by destruct throwIfNotFound.
Qed.

(** X7: for a type that has no module annotation and is not cached,
    the resolution asks the module resolver once and writes no cache; it
    returns [null] when [throwIfNotFound] is off, and the accessor still
    throws afterwards. *)
Theorem unannotated_module fuel moduleType isSync st :
  uncached st (resolveForwardRef moduleType) ->
  ngModuleResolver_resolve E (resolveForwardRef moduleType) = None ->
  exists st',
    _loadNgModuleMetadata E (S fuel) moduleType isSync false st = Some (Ok None, st') /\
    sameCaches st st' /\
    callLog st' = callLog st ++ [CallNgModuleResolve (resolveForwardRef moduleType) false] /\
    loadNgModuleMetadata E (S fuel) moduleType isSync false st = Some (Ok (None, []), st') /\
    getNgModuleMetadata (resolveForwardRef moduleType) st'
      = Some (Err (IllegalState "getNgModuleMetadata" (resolveForwardRef moduleType)), st').
Proof.
  intros Hmiss Hmeta.
  pose proof (loadNgModuleMetadata_unannotated fuel moduleType isSync false st Hmiss Hmeta)
    as Hrun.
  eexists. split; [exact Hrun|]. split; [apply sameCaches_logCalls|]. split; [done|]. split.
  - unfold loadNgModuleMetadata. by rewrite (bindR_run_ok _ _ _ _ _ Hrun).
  - unfold getNgModuleMetadata. rewrite bindR_getState. simpl.
    unfold uncached in Hmiss. by rewrite Hmiss.
Qed.

Section Module.

Variables (fuel : nat) (moduleType : Value) (isSync throwIfNotFound : bool).
Variables (st : State) (meta : NgModule).

Let K := resolveForwardRef moduleType.
Let st0 := logCalls [CallNgModuleResolve K throwIfNotFound] st.

Hypothesis Hmiss : uncached st K.
Hypothesis Hmeta : ngModuleResolver_resolve E K = Some meta.

(** X8: an entry of [imports] that is neither a type nor an object with
    an [ngModule] makes the resolution fail with the invalid-import
    error, and an imported type that has no module annotation makes it
    fail with the error that names what the type is; the caches are left
    as the imports before that entry left them. *)
Theorem invalid_import imports pre entry post results st1 :
  m_imports meta = Some imports ->
  flattenAndDedupeArray imports = pre ++ entry :: post ->
  mapR (importEntry E (_loadNgModuleMetadata E fuel) K isSync) pre st0
    = Some (Ok results, st1) ->
  (importedTypeOf entry = None ->
   exists st',
     _loadNgModuleMetadata E (S fuel) moduleType isSync throwIfNotFound st
       = Some (Err (InvalidImport entry K), st') /\
     sameCaches st1 st') /\
  (isValidType entry = true ->
   uncached st1 (resolveForwardRef entry) ->
   ngModuleResolver_resolve E (resolveForwardRef entry) = None ->
   fuel <> 0 ->
   exists st',
     _loadNgModuleMetadata E (S fuel) moduleType isSync throwIfNotFound st
       = Some (Err (InvalidImportKind (typeDescriptor entry) entry K), st') /\
     sameCaches st1 st').
Proof.
  intros Himports Hflat Hpre.
  assert (Hfail : forall e s,
            importEntry E (_loadNgModuleMetadata E fuel) K isSync entry st1 = Some (Err e, s) ->
            _loadNgModuleMetadata E (S fuel) moduleType isSync throwIfNotFound st
              = Some (Err e, s)).
  { intros e s Hentry. simpl. rewrite (loadNgModuleBody_miss _ _ _ _ _ _ _ Hmiss Hmeta).
    apply bindR_run_err. unfold importsPhase. rewrite Himports, Hflat.
    by apply (mapR_err_at _ _ _ _ _ _ _ _ _ Hpre). }
  split.
  - intros Hnone. eexists. split.
    + apply Hfail. unfold importEntry, importedModuleTypeOf.
      unfold importedTypeOf in Hnone.
      destruct (isValidType entry); [discriminate|].
      destruct (truthy entry && truthy (getProperty entry "ngModule")); [discriminate|].
      reflexivity.
    + apply sameCaches_logCalls.
  - intros Hvalid Hu Hnone Hfuel. destruct fuel as [|fuel']; [done|].
    pose proof (snd_getTypeDescriptor entry) as Hd.
    destruct (_getTypeDescriptor E entry) as [calls r] eqn:Hdesc. simpl in Hd. subst r.
    eexists. split.
    + apply Hfail. unfold importEntry, importedModuleTypeOf. rewrite Hvalid.
      erewrite bindR_liftW_ok by reflexivity.
      assert (Hsum : _loadNgModuleSummary (_loadNgModuleMetadata E (S fuel')) entry isSync
                       (logCalls [] st1)
                     = Some (Ok None,
                             logCalls [CallNgModuleResolve (resolveForwardRef entry) false]
                               (logCalls [] st1))).
      { unfold _loadNgModuleSummary.
        by rewrite (bindR_run_ok _ _ _ _ _
                      (loadNgModuleMetadata_unannotated fuel' entry isSync false
                         (logCalls [] st1) Hu Hnone)). }
      cbv iota beta. rewrite (bindR_run_ok _ _ _ _ _ Hsum).
      rewrite Hdesc. erewrite bindR_liftW_ok by reflexivity. reflexivity.
    + eapply sameCaches_trans; [apply sameCaches_logCalls|].
      eapply sameCaches_trans; apply sameCaches_logCalls.
Qed.

(** X9: an entry of [exports] that is not a type makes the resolution
    fail with the invalid-export error, in the state the exports before
    it left. *)
Theorem invalid_export exports pre entry post imports st1 results st2 :
  m_exports meta = Some exports ->
  flattenAndDedupeArray exports = pre ++ entry :: post ->
  importsPhase E (_loadNgModuleMetadata E fuel) K isSync meta st0 = Some (Ok imports, st1) ->
  mapR (exportEntry (_loadNgModuleMetadata E fuel) K isSync) pre st1
    = Some (Ok results, st2) ->
  isValidType entry = false ->
  _loadNgModuleMetadata E (S fuel) moduleType isSync throwIfNotFound st
    = Some (Err (InvalidExport entry K), st2).
Proof.
  intros Hexports Hflat Himports Hpre Hinvalid. simpl.
  rewrite (loadNgModuleBody_miss _ _ _ _ _ _ _ Hmiss Hmeta).
  rewrite (bindR_run_ok _ _ _ _ _ Himports). apply bindR_run_err.
  unfold exportsPhase. rewrite Hexports, Hflat.
  apply (mapR_err_at _ _ _ _ _ _ _ _ _ Hpre). unfold exportEntry. by rewrite Hinvalid.
Qed.

(** X10: an entry of [declarations] that is not a type makes the
    resolution fail with the invalid-declaration error, and a declared
    type that is neither a directive nor a pipe makes it fail with the
    error that says whether it is a module, a provider or another
    value. *)
Theorem invalid_declaration declarations pre entry post imports st1 exports st2 declared st3 :
  m_declarations meta = Some declarations ->
  flattenAndDedupeArray declarations = pre ++ entry :: post ->
  importsPhase E (_loadNgModuleMetadata E fuel) K isSync meta st0 = Some (Ok imports, st1) ->
  exportsPhase (_loadNgModuleMetadata E fuel) K isSync meta st1 = Some (Ok exports, st2) ->
  mapR (declarationEntry E K isSync) pre st2 = Some (Ok declared, st3) ->
  (isValidType entry = false ->
   _loadNgModuleMetadata E (S fuel) moduleType isSync throwIfNotFound st
     = Some (Err (InvalidDeclaration entry K), st3)) /\
  (isValidType entry = true ->
   directiveResolver_isDirective E entry = false ->
   pipeResolver_isPipe E entry = false ->
   exists st',
     _loadNgModuleMetadata E (S fuel) moduleType isSync throwIfNotFound st
       = Some (Err (InvalidDeclarationKind
                      (if ngModuleResolver_isNgModule E entry then "module"
                       else if truthy (getProperty entry "provide") then "provider"
                       else "value") entry K), st') /\
     sameCaches st3 st').
Proof.
  intros Hdecl Hflat Himports Hexports Hpre.
  assert (Hfail : forall e s,
            declarationEntry E K isSync entry st3 = Some (Err e, s) ->
            _loadNgModuleMetadata E (S fuel) moduleType isSync throwIfNotFound st
              = Some (Err e, s)).
  { intros e s Hentry. simpl. rewrite (loadNgModuleBody_miss _ _ _ _ _ _ _ Hmiss Hmeta).
    rewrite (bindR_run_ok _ _ _ _ _ Himports), (bindR_run_ok _ _ _ _ _ Hexports).
    apply bindR_run_err. unfold declarationsPhase. rewrite Hdecl, Hflat.
    by apply (mapR_err_at _ _ _ _ _ _ _ _ _ Hpre). }
  split.
  - intros Hinvalid. apply Hfail. unfold declarationEntry. by rewrite Hinvalid.
  - intros Hvalid HisDir HisPipe.
    pose proof (snd_getTypeDescriptor entry) as Hd.
    unfold typeDescriptor in Hd. rewrite HisDir, HisPipe in Hd.
    destruct (_getTypeDescriptor E entry) as [calls r] eqn:Hdesc. simpl in Hd. subst r.
    eexists. split.
    + apply Hfail. unfold declarationEntry. rewrite Hvalid. simpl.
      unfold isDirective, isPipe, callW.
      erewrite bindR_liftW_ok by reflexivity. rewrite HisDir.
      erewrite bindR_liftW_ok by reflexivity. rewrite HisPipe.
      rewrite Hdesc. erewrite bindR_liftW_ok by reflexivity. reflexivity.
    + eapply sameCaches_trans; [apply sameCaches_logCalls|].
      eapply sameCaches_trans; apply sameCaches_logCalls.
Qed.

End Module.

End Validation.

(** ** More example modules *)

Module Example2.

(** Exports a value that is no type. *)
Definition module50 : NgModule :=
  mkRawNgModule None None None (Some [VStr "not a type"]) None None None VNull.

(** Declares the module C. *)
Definition module51 : NgModule :=
  mkRawNgModule None (Some [VType 10; VType 3]) None None None None None VNull.

(** Imports the directive 10. *)
Definition module52 : NgModule :=
  mkRawNgModule None None (Some [VType 3; VType 10]) None None None None VNull.

(** Two modules that import each other. *)
Definition module54 : NgModule :=
  mkRawNgModule None None (Some [VType 55]) None None None None VNull.

Definition module55 : NgModule :=
  mkRawNgModule None None (Some [VType 54]) None None None None VNull.

(** Imports the module C with providers, and has a provider of its own. *)
Definition module56 : NgModule :=
  mkRawNgModule (Some [Example.provide 105 "tok" "own"]) (Some [VType 20; VType 10])
    (Some [VObj 300 [("ngModule", VType 3);
                     ("providers", VArr [Example.provide 104 "tok" "fromImport"])]])
    None None (Some [VType 11; VType 11]) None VNull.

(** The second provider is no provider. *)
Definition module57 : NgModule :=
  mkRawNgModule (Some [VType 41; VNum 7; VType 42; VType 43]) None None None None None None
    VNull.

Definition env : Env :=
  {| ngModuleResolver_resolve := fun type =>
       match type with
       | VType 50 => Some module50
       | VType 51 => Some module51
       | VType 52 => Some module52
       | VType 54 => Some module54
       | VType 55 => Some module55
       | VType 56 => Some module56
       | VType 57 => Some module57
       | _ => ngModuleResolver_resolve Example.env type
       end;
     ngModuleResolver_isNgModule := fun type =>
       match type with
       | VType (50 | 51 | 52 | 54 | 55 | 56 | 57) => true
       | _ => ngModuleResolver_isNgModule Example.env type
       end;
     directiveResolver_resolve := directiveResolver_resolve Example.env;
     directiveResolver_isDirective := directiveResolver_isDirective Example.env;
     pipeResolver_resolve := pipeResolver_resolve Example.env;
     pipeResolver_isPipe := pipeResolver_isPipe Example.env;
     reflector_parameters := reflector_parameters Example.env;
     reflector_importUri := reflector_importUri Example.env;
     directiveNormalizer_normalizeTemplate :=
       directiveNormalizer_normalizeTemplate Example.env;
     schemaRegistry_getDefaultComponentElementName :=
       schemaRegistry_getDefaultComponentElementName Example.env;
     LIFECYCLE_HOOKS_VALUES := LIFECYCLE_HOOKS_VALUES Example.env;
     hasLifecycleHook := hasLifecycleHook Example.env;
     ANALYZE_FOR_ENTRY_COMPONENTS := ANALYZE_FOR_ENTRY_COMPONENTS Example.env;
     stringify := stringify Example.env;
     stringifyToken := stringifyToken Example.env;
     getUrlScheme := getUrlScheme Example.env;
     MODULE_SUFFIX := MODULE_SUFFIX Example.env;
     assertArrayOfStrings := assertArrayOfStrings Example.env;
     assertInterpolationSymbols := assertInterpolationSymbols Example.env;
     splitQuerySelector := splitQuerySelector Example.env;
     create_inputs := create_inputs Example.env;
     create_outputs := create_outputs Example.env;
     create_hostListeners := create_hostListeners Example.env;
     create_hostProperties := create_hostProperties Example.env;
     create_hostAttributes := create_hostAttributes Example.env |}.

End Example2.

Lemma unannotated_module_witness :
  exists st',
    _loadNgModuleMetadata Example.env 1 (VType 99) true false newResolver
      = Some (Ok None, st') /\
    sameCaches newResolver st' /\
    callLog st' = [CallNgModuleResolve (VType 99) false].
Proof.
  destruct (unannotated_module Example.env 0 (VType 99) true newResolver eq_refl eq_refl)
    as (st' & Hrun & Hsame & Hlog & _).
  by exists st'.
Defined.

Lemma invalid_import_witness :
  (exists st',
     _loadNgModuleMetadata Example.env 1 (VType 9) true true newResolver
       = Some (Err (InvalidImport (VStr "not a module") (VType 9)), st')) /\
  (exists st',
     _loadNgModuleMetadata Example2.env 2 (VType 52) true true newResolver
       = Some (Err (InvalidImportKind "directive" (VType 10) (VType 52)), st')).
Proof.
  split.
  - destruct (invalid_import Example.env 0 (VType 9) true true newResolver Example.module9
                eq_refl eq_refl [VStr "not a module"] [] (VStr "not a module") [] [] _
                eq_refl eq_refl eq_refl) as [H _].
    destruct (H eq_refl) as (st' & Hrun & _). by exists st'.
  - destruct (mapR (importEntry Example2.env (_loadNgModuleMetadata Example2.env 1) (VType 52)
                      true) [VType 3]
                (logCalls [CallNgModuleResolve (VType 52) true] newResolver))
      as [[[results|e] st1]|] eqn:Hpre; try (vm_compute in Hpre; discriminate).
    destruct (invalid_import Example2.env 1 (VType 52) true true newResolver Example2.module52
                eq_refl eq_refl [VType 3; VType 10] [VType 3] (VType 10) [] results st1
                eq_refl eq_refl Hpre) as [_ H].
    destruct H as (st' & Hrun & _); [done | | done | done |].
    + vm_compute in Hpre. injection Hpre as _ <-. reflexivity.
    + by exists st'.
Defined.

Lemma invalid_export_witness :
  exists st',
    _loadNgModuleMetadata Example2.env 1 (VType 50) true true newResolver
      = Some (Err (InvalidExport (VStr "not a type") (VType 50)), st').
Proof.
  eexists.
  by apply (invalid_export Example2.env 0 (VType 50) true true newResolver Example2.module50
              eq_refl eq_refl [VStr "not a type"] [] (VStr "not a type") [] [] _ [] _
              eq_refl eq_refl eq_refl eq_refl eq_refl).
Defined.

Lemma invalid_declaration_witness :
  exists st',
    _loadNgModuleMetadata Example2.env 1 (VType 51) true true newResolver
      = Some (Err (InvalidDeclarationKind "module" (VType 3) (VType 51)), st').
Proof.
  destruct (mapR (declarationEntry Example2.env (VType 51) true) [VType 10]
              (logCalls [CallNgModuleResolve (VType 51) true] newResolver))
    as [[[declared|e] st3]|] eqn:Hpre; try (vm_compute in Hpre; discriminate).
  destruct (invalid_declaration Example2.env 0 (VType 51) true true newResolver
              Example2.module51 eq_refl eq_refl [VType 10; VType 3] [VType 10] (VType 3) []
              [] _ [] _ declared st3 eq_refl eq_refl eq_refl eq_refl Hpre) as [_ H].
  destruct (H eq_refl eq_refl eq_refl) as (st' & Hrun & _). by exists st'.
Defined.

(** ** The record of a resolved module *)

Definition importsOf (meta : NgModule) : list Value :=
  match m_imports meta with Some l => flattenAndDedupeArray l | None => [] end.

Definition exportsOf (meta : NgModule) : list Value :=
  match m_exports meta with Some l => flattenAndDedupeArray l | None => [] end.

Definition declarationsOf (meta : NgModule) : list Value :=
  match m_declarations meta with Some l => flattenAndDedupeArray l | None => [] end.

Definition bootstrapOf (meta : NgModule) : list Value :=
  match m_bootstrap meta with Some l => flattenAndDedupeArray l | None => [] end.

Definition schemasOf (meta : NgModule) : list Value :=
  match m_schemas meta with Some l => flattenAndDedupeArray l | None => [] end.

Definition declaredLoaderOf (d : Declared) : option DirectiveLoader :=
  match d with DeclaredDirective _ _ loader => Some loader | DeclaredPipe _ _ => None end.

Lemma mapW_ok_inv {A B} (f : A -> W B) l ys :
  snd (mapW f l) = Ok ys -> Forall2 (fun x y => snd (f x) = Ok y) l ys.
Proof.
  revert ys. induction l as [|x l IH]; intros ys; simpl.
  - intros [= <-]. constructor.
  - intros H. apply snd_bindW_ok_inv in H as (y & Hy & H).
    apply snd_bindW_ok_inv in H as (ys' & Hys & H). injection H as <-.
    constructor; [done | by apply IH].
Qed.

Lemma tm_directiveLoaders_declared declared transitiveModule :
  tm_directiveLoaders (fold_left declareIn declared transitiveModule) =
    tm_directiveLoaders transitiveModule ++ omap declaredLoaderOf declared.
Proof.
  revert transitiveModule. induction declared as [|d declared IH]; intros tm; simpl.
  - by rewrite app_nil_r.
  - rewrite IH. destruct d; simpl; [by rewrite <- app_assoc | done].
Qed.

Section Record.

Variable E : Env.

(** A successful run for a module that was not cached went through the
    three loops and stored the record built after them. *)
Lemma fresh_run_inv fuel moduleType isSync throwIfNotFound st meta compileMeta st' :
  uncached st (resolveForwardRef moduleType) ->
  ngModuleResolver_resolve E (resolveForwardRef moduleType) = Some meta ->
  _loadNgModuleMetadata E (S fuel) moduleType isSync throwIfNotFound st
    = Some (Ok (Some compileMeta), st') ->
  exists imports s1 exports s2 declared s3,
    importsPhase E (_loadNgModuleMetadata E fuel) (resolveForwardRef moduleType) isSync meta
      (logCalls [CallNgModuleResolve (resolveForwardRef moduleType) throwIfNotFound] st)
      = Some (Ok imports, s1) /\
    exportsPhase (_loadNgModuleMetadata E fuel) (resolveForwardRef moduleType) isSync meta s1
      = Some (Ok exports, s2) /\
    declarationsPhase E (resolveForwardRef moduleType) isSync meta s2
      = Some (Ok declared, s3) /\
    snd (finishNgModule E (resolveForwardRef moduleType) meta
           (map (fun i => fst (fst i)) imports) (lefts exports) (rights exports)
           (flat_map (fun i => snd (fst i)) imports) (flat_map (fun i => snd i) imports)
           declared (transitiveModuleOf imports exports declared)) = Ok compileMeta /\
    sameCaches (set_ngModuleCache (resolveForwardRef moduleType) compileMeta s3) st'.
Proof.
  intros Hmiss Hmeta Hrun. simpl in Hrun.
  rewrite (loadNgModuleBody_miss _ _ _ _ _ _ _ Hmiss Hmeta) in Hrun.
  apply bindR_ok_inv in Hrun as (imports & s1 & Himports & Hrun).
  apply bindR_ok_inv in Hrun as (exports & s2 & Hexports & Hrun).
  apply bindR_ok_inv in Hrun as (declared & s3 & Hdeclared & Hrun).
  apply bindR_ok_inv in Hrun as (cm & s4 & Hfinish & Hrun).
  apply liftW_inv in Hfinish as [Hfinish ->].
  apply bindR_ok_inv in Hrun as ([] & s5 & Hset & Hrun).
  apply retR_inv in Hrun as [[= ->] <-]. injection Hset as <-.
  exists imports, s1, exports, s2, declared, s3. by repeat split.
Qed.

Lemma declarationEntry_ok_inv moduleType isSync declaredType st d st' :
  declarationEntry E moduleType isSync declaredType st = Some (Ok d, st') ->
  isValidType declaredType = true /\
  ((directiveResolver_isDirective E declaredType = true /\
    d = DeclaredDirective declaredType (_getIdentifierMetadata declaredType)
          (mkLoader declaredType isSync)) \/
   (directiveResolver_isDirective E declaredType = false /\
    pipeResolver_isPipe E declaredType = true /\
    d = DeclaredPipe declaredType (_getIdentifierMetadata declaredType))).
Proof.
  unfold declarationEntry. destruct (isValidType declaredType); simpl; [|discriminate].
  unfold isDirective, isPipe, callW. erewrite bindR_liftW_ok by reflexivity.
  destruct (directiveResolver_isDirective E declaredType).
  - intros H. apply bindR_ok_inv in H as ([] & s1 & _ & H).
    apply retR_inv in H as [<- _]. split; [done|]. by left.
  - erewrite bindR_liftW_ok by reflexivity.
    destruct (pipeResolver_isPipe E declaredType).
    + intros H. apply bindR_ok_inv in H as ([] & s1 & _ & H).
      apply bindR_ok_inv in H as (pipeMeta & s2 & _ & H).
      apply retR_inv in H as [<- _]. split; [done|]. by right.
    + intros H. apply bindR_ok_inv in H as (descriptor & s1 & _ & H). discriminate.
Qed.

Definition declaredFrom (isSync : bool) (declaredType : Value) (d : Declared) : Prop :=
  isValidType declaredType = true /\
  ((directiveResolver_isDirective E declaredType = true /\
    d = DeclaredDirective declaredType (_getIdentifierMetadata declaredType)
          (mkLoader declaredType isSync)) \/
   (directiveResolver_isDirective E declaredType = false /\
    pipeResolver_isPipe E declaredType = true /\
    d = DeclaredPipe declaredType (_getIdentifierMetadata declaredType))).

Lemma declarationsPhase_entries moduleType isSync meta st declared st' :
  declarationsPhase E moduleType isSync meta st = Some (Ok declared, st') ->
  Forall2 (declaredFrom isSync) (declarationsOf meta) declared.
Proof.
  unfold declarationsPhase, declarationsOf. destruct (m_declarations meta) as [l|].
  - intros H. eapply (mapR_ok_inv _ _ _ _ _ (fun _ => True)); [|done|exact H].
    intros x s y s' _ _ Hx. split; [done|]. by eapply declarationEntry_ok_inv.
  - intros H. apply retR_inv in H as [<- _]. constructor.
Qed.

Lemma declared_partition isSync declarations declared :
  Forall2 (declaredFrom isSync) declarations declared ->
  omap declaredDirectiveOf declared =
    map _getIdentifierMetadata
      (filter (fun t => directiveResolver_isDirective E t = true) declarations) /\
  omap declaredPipeOf declared =
    map _getIdentifierMetadata
      (filter (fun t => directiveResolver_isDirective E t = false) declarations) /\
  omap declaredLoaderOf declared =
    map (fun t => mkLoader t isSync)
      (filter (fun t => directiveResolver_isDirective E t = true) declarations).
Proof.
  induction 1 as [|t d ts ds [_ Hd] _ (IH1 & IH2 & IH3)]; [done|].
  unfold omap in *.
  destruct Hd as [[HisDir ->]|(HisDir & _ & ->)]; simpl.
  - rewrite filter_cons_True, (filter_cons_False _ t) by (done || congruence).
    simpl. by rewrite IH1, IH2, IH3.
  - rewrite filter_cons_False, (filter_cons_True _ t) by (done || congruence).
    simpl. by rewrite IH1, IH2, IH3.
Qed.

Lemma importsPhase_entries recur moduleType isSync meta st imports st' :
  importsPhase E recur moduleType isSync meta st = Some (Ok imports, st') ->
  Forall2 (fun entry (y : CompileNgModuleSummary * list CompileProvider
                          * list CompileIdentifierMetadata) =>
             is_Some (importedTypeOf entry))
    (importsOf meta) imports.
Proof.
  unfold importsPhase, importsOf. destruct (m_imports meta) as [l|].
  - intros H. eapply (mapR_ok_inv _ _ _ _ _ (fun _ => True)); [|done|exact H].
    intros x s y s' _ _ Hx. split; [done|].
    apply importEntry_inv in Hx as [[_ (e & [=])]|(t & _ & _ & _ & -> & _)]. by eexists.
  - intros H. apply retR_inv in H as [<- _]. constructor.
Qed.

Lemma Forall2_Forall_left {A B} (P : A -> Prop) (l : list A) (k : list B) :
  Forall2 (fun x _ => P x) l k -> Forall P l.
Proof. induction 1; by constructor. Qed.

(** The fields of the record [finishNgModule] builds. *)
Lemma finishNgModule_fields moduleType meta importedModules exportedModules ids providers
    entryComponents declared transitiveModule compileMeta :
  snd (finishNgModule E moduleType meta importedModules exportedModules ids providers
         entryComponents declared transitiveModule) = Ok compileMeta ->
  mod_declaredDirectives compileMeta = omap declaredDirectiveOf declared /\
  mod_declaredPipes compileMeta = omap declaredPipeOf declared /\
  Forall2 (fun type bootstrapComponent =>
             isValidType type = true /\
             type_reference bootstrapComponent = resolveForwardRef type)
    (bootstrapOf meta) (mod_bootstrapComponents compileMeta) /\
  (exists others,
     mod_entryComponents compileMeta
       = others ++ map EntryType (mod_bootstrapComponents compileMeta)) /\
  mod_schemas compileMeta = schemasOf meta /\
  mod_id compileMeta = m_id meta /\
  (exists own, mod_providers compileMeta = providers ++ own) /\
  tm_entryComponents (mod_transitiveModule compileMeta)
    = tm_entryComponents transitiveModule ++ mod_entryComponents compileMeta /\
  tm_directiveLoaders (mod_transitiveModule compileMeta)
    = tm_directiveLoaders transitiveModule /\
  last (tm_modules (mod_transitiveModule compileMeta))
    = Some (toInjectorSummary compileMeta).
Proof.
  unfold finishNgModule. intros H.
  apply snd_bindW_ok_inv in H as ([ds ps] & _ & H).
  apply snd_bindW_ok_inv in H as ([providers1 sink1] & _ & H).
  apply snd_bindW_ok_inv in H as (entryTypes & _ & H).
  apply snd_bindW_ok_inv in H as (bootstrapComponents & Hbootstrap & H).
  apply snd_bindW_ok_inv in H as (type & _ & H).
  simpl in H. injection H as <-. simpl.
  split; [done|]. split; [done|]. split.
  { unfold bootstrapOf. destruct (m_bootstrap meta) as [bs|].
    - apply mapW_ok_inv in Hbootstrap. eapply Forall2_impl; [exact Hbootstrap|].
      intros t c. unfold bootstrapEntry. destruct (isValidType t); simpl; [|discriminate].
      intros Hc. split; [done|]. unfold _getTypeMetadata in Hc.
      apply snd_bindW_ok_inv in Hc as (deps & _ & Hc).
      apply snd_bindW_ok_inv in Hc as (hooks & _ & Hc). by injection Hc as <-.
    - injection Hbootstrap as <-. constructor. }
  split. { eexists. by rewrite app_assoc. }
  split; [done|]. split; [done|]. split; [by eexists|]. split; [done|]. split; [done|].
  by rewrite last_snoc.
Qed.

(** X11: a module resolves only when its annotation is valid: every
    entry of [imports] is a type or an object with an [ngModule], every
    entry of [exports] and of [bootstrap] is a type, and every entry of
    [declarations] is a type that is a directive or a pipe. *)
Theorem resolved_module_valid fuel moduleType isSync throwIfNotFound st meta compileMeta st' :
  uncached st (resolveForwardRef moduleType) ->
  ngModuleResolver_resolve E (resolveForwardRef moduleType) = Some meta ->
  _loadNgModuleMetadata E fuel moduleType isSync throwIfNotFound st
    = Some (Ok (Some compileMeta), st') ->
  Forall (fun entry => is_Some (importedTypeOf entry)) (importsOf meta) /\
  Forall (fun entry => isValidType entry = true) (exportsOf meta) /\
  Forall (fun entry =>
            isValidType entry = true /\
            (directiveResolver_isDirective E entry = true \/
             pipeResolver_isPipe E entry = true))
    (declarationsOf meta) /\
  Forall (fun entry => isValidType entry = true) (bootstrapOf meta).
Proof.
  intros Hmiss Hmeta Hrun. destruct fuel as [|fuel]; [discriminate|].
  destruct (fresh_run_inv _ _ _ _ _ _ _ _ Hmiss Hmeta Hrun)
    as (imports & s1 & exports & s2 & declared & s3 & Hi & He & Hd & Hfinish & _).
  split; [|split; [|split]].
  - apply importsPhase_entries in Hi. by eapply Forall2_Forall_left.
  - unfold exportsOf. destruct (m_exports meta) as [l|] eqn:Hl; [|constructor].
    pose proof (exportsPhase_entries _ _ _ _ _ _ _ _ Hl He) as Hall.
    eapply (Forall2_Forall_left (fun entry => isValidType entry = true)).
    eapply Forall2_impl; [exact Hall|]. by intros x y [? _].
  - apply declarationsPhase_entries in Hd.
    eapply (Forall2_Forall_left
              (fun entry => isValidType entry = true /\
                            (directiveResolver_isDirective E entry = true \/
                             pipeResolver_isPipe E entry = true))).
    eapply Forall2_impl; [exact Hd|].
    intros x y [Hv [[? _]|(_ & ? & _)]]; split; auto.
  - apply finishNgModule_fields in Hfinish as (_ & _ & Hb & _).
    eapply (Forall2_Forall_left (fun entry => isValidType entry = true)).
    eapply Forall2_impl; [exact Hb|]. by intros x y [? _].
Qed.

(** X12: the record of a resolved module follows its annotation: the
    declared directives are the declarations that are directives and the
    declared pipes the other declarations, in the order of the
    annotation; the bootstrap components are the bootstrap types and
    come last among the entry components; the schemas and the id are
    those of the annotation; and the transitive module ends with a
    loader for each declared directive, with the entry components of the
    module, and with the injector summary of the module. *)
Theorem resolved_module_record fuel moduleType isSync throwIfNotFound st meta compileMeta st' :
  uncached st (resolveForwardRef moduleType) ->
  ngModuleResolver_resolve E (resolveForwardRef moduleType) = Some meta ->
  _loadNgModuleMetadata E fuel moduleType isSync throwIfNotFound st
    = Some (Ok (Some compileMeta), st') ->
  let declaredDirectiveTypes :=
    filter (fun t => directiveResolver_isDirective E t = true) (declarationsOf meta) in
  let declaredPipeTypes :=
    filter (fun t => directiveResolver_isDirective E t = false) (declarationsOf meta) in
  mod_declaredDirectives compileMeta = map _getIdentifierMetadata declaredDirectiveTypes /\
  mod_declaredPipes compileMeta = map _getIdentifierMetadata declaredPipeTypes /\
  map type_reference (mod_bootstrapComponents compileMeta)
    = map resolveForwardRef (bootstrapOf meta) /\
  (exists others,
     mod_entryComponents compileMeta
       = others ++ map EntryType (mod_bootstrapComponents compileMeta)) /\
  mod_schemas compileMeta = schemasOf meta /\
  mod_id compileMeta = m_id meta /\
  (exists inherited,
     tm_directiveLoaders (mod_transitiveModule compileMeta)
       = inherited ++ map (fun t => mkLoader t isSync) declaredDirectiveTypes) /\
  (exists inherited,
     tm_entryComponents (mod_transitiveModule compileMeta)
       = inherited ++ mod_entryComponents compileMeta) /\
  last (tm_modules (mod_transitiveModule compileMeta)) = Some (toInjectorSummary compileMeta).
Proof.
  intros Hmiss Hmeta Hrun. destruct fuel as [|fuel]; [discriminate|].
  destruct (fresh_run_inv _ _ _ _ _ _ _ _ Hmiss Hmeta Hrun)
    as (imports & s1 & exports & s2 & declared & s3 & Hi & He & Hd & Hfinish & _).
  apply declarationsPhase_entries in Hd.
  destruct (declared_partition _ _ _ Hd) as (Hdirs & Hpipes & Hloaders).
  apply finishNgModule_fields in Hfinish
    as (Hdd & Hdp & Hb & Hec & Hs & Hid & _ & Htec & Htl & Hlast).
  simpl. rewrite Hdd, Hdp, Hdirs, Hpipes.
  split; [done|]. split; [done|]. split; [|split; [done|]].
  - clear -Hb. induction Hb as [|t c ts cs [_ Hc] _ IH]; [done|]. simpl. by rewrite Hc, IH.
  - split; [done|]. split; [done|]. split; [|split; [by eexists | done]].
    eexists. rewrite Htl. unfold transitiveModuleOf.
    by rewrite tm_directiveLoaders_declared, Hloaders.
Qed.

End Record.

(** ** The state after a module was resolved *)

Section Declared.

Variable E : Env.

Lemma addTypeToModule_ok_inv type moduleType st u st' :
  _addTypeToModule type moduleType st = Some (Ok u, st') ->
  st' = set_ngModuleOfTypes type moduleType st.
Proof.
  unfold _addTypeToModule. rewrite bindR_getState.
  destruct (truthy _ && _); [discriminate|]. by intros [= <-].
Qed.

Lemma loadPipeMetadata_ofTypes pipeType st r st' :
  _loadPipeMetadata E pipeType st = Some (r, st') ->
  _ngModuleOfTypes st' = _ngModuleOfTypes st.
Proof.
  apply (steps_loadPipeMetadata E (fun a b => _ngModuleOfTypes b = _ngModuleOfTypes a)).
  - split; [done | by intros a b c -> ->].
  - done.
  - done.
Qed.

(** The owner [moduleType] of a type stays its owner. *)
Definition keepsOwned (moduleType : Value) (st st' : State) : Prop :=
  forall type,
    JsMap.get (_ngModuleOfTypes st) type = Some moduleType ->
    JsMap.get (_ngModuleOfTypes st') type = Some moduleType.

Definition keepsPipes (st st' : State) : Prop :=
  forall type,
    is_Some (JsMap.get (_pipeCache st) type) -> is_Some (JsMap.get (_pipeCache st') type).

(** What a declaration leaves in the state. *)
Definition declaredIn (moduleType declaredType : Value) (st : State) : Prop :=
  JsMap.get (_ngModuleOfTypes st) declaredType = Some moduleType /\
  (directiveResolver_isDirective E declaredType = false ->
   is_Some (JsMap.get (_pipeCache st) (resolveForwardRef declaredType))).

Lemma declarationEntry_run moduleType isSync declaredType st d st' :
  declarationEntry E moduleType isSync declaredType st = Some (Ok d, st') ->
  (keepsOwned moduleType st st' /\ keepsPipes st st') /\
  declaredIn moduleType declaredType st'.
Proof.
  unfold declarationEntry. destruct (isValidType declaredType); simpl; [|discriminate].
  unfold isDirective, isPipe, callW. erewrite bindR_liftW_ok by reflexivity.
  assert (Howned : forall s s0,
            _ngModuleOfTypes s0 = _ngModuleOfTypes s ->
            keepsOwned moduleType s (set_ngModuleOfTypes declaredType moduleType s0)).
  { intros s s0 Heq type Hget. simpl. rewrite Heq, JsMapFacts.get_set.
    by destruct (decide (declaredType = type)). }
  destruct (directiveResolver_isDirective E declaredType) eqn:HisDir.
  - intros H. apply bindR_ok_inv in H as ([] & s1 & Hadd & H).
    apply retR_inv in H as [_ <-]. apply addTypeToModule_ok_inv in Hadd as ->.
    split; [split|split].
    + by apply Howned.
    + by intros type.
    + simpl. apply JsMapFacts.get_set_eq.
    + intros ?. congruence.
  - erewrite bindR_liftW_ok by reflexivity.
    destruct (pipeResolver_isPipe E declaredType).
    + intros H. apply bindR_ok_inv in H as ([] & s1 & Hadd & H).
      apply bindR_ok_inv in H as (pipeMeta & s2 & Hpipe & H).
      apply retR_inv in H as [_ <-]. apply addTypeToModule_ok_inv in Hadd as ->.
      pose proof (loadPipeMetadata_ofTypes _ _ _ _ Hpipe) as Hof.
      split; [split|split].
      * intros type Hget. rewrite Hof. by apply (Howned st).
      * intros type Hsome.
        apply (steps_loadPipeMetadata E keepsPipes
                 ltac:(split; [by intros s k | intros a b c Hab Hbc k Hk; by apply Hbc, Hab])
                 ltac:(by intros calls s k)
                 ltac:(intros t meta s k; simpl; apply is_Some_get_set)
                 _ _ _ _ Hpipe).
        exact Hsome.
      * rewrite Hof. simpl. apply JsMapFacts.get_set_eq.
      * intros _. by rewrite (loadPipeMetadata_stored _ _ _ _ _ Hpipe).
    + intros H. apply bindR_ok_inv in H as (descriptor & s1 & _ & H). discriminate.
Qed.

(** X13: when a module was resolved, every type of its declarations is
    registered as declared by the module and every declared pipe has its
    metadata cached under the resolved type, while the directive cache
    is as before: the metadata of the declared directives is left to
    the loaders. *)
Theorem declarations_registered fuel moduleType isSync throwIfNotFound st meta compileMeta st' :
  uncached st (resolveForwardRef moduleType) ->
  ngModuleResolver_resolve E (resolveForwardRef moduleType) = Some meta ->
  _loadNgModuleMetadata E fuel moduleType isSync throwIfNotFound st
    = Some (Ok (Some compileMeta), st') ->
  _directiveCache st' = _directiveCache st /\
  Forall (fun declaredType =>
            JsMap.get (_ngModuleOfTypes st') declaredType
              = Some (resolveForwardRef moduleType) /\
            (directiveResolver_isDirective E declaredType = false ->
             exists pipeMeta,
               getPipeMetadata (resolveForwardRef declaredType) st'
                 = Some (Ok pipeMeta, st')))
    (declarationsOf meta).
Proof.
  intros Hmiss Hmeta Hrun. split.
  { by apply (steps_loadNgModuleMetadata' E sameDirectiveCaches
                sameDirectiveCaches_moduleFrame _ _ _ _ _ _ _ Hrun). }
  destruct fuel as [|fuel]; [discriminate|].
  destruct (fresh_run_inv _ _ _ _ _ _ _ _ _ Hmiss Hmeta Hrun)
    as (imports & s1 & exports & s2 & declared & s3 & _ & _ & Hd & _ & Hsame).
  destruct Hsame as (_ & _ & Hpipe & _ & _ & Hof). simpl in Hpipe, Hof.
  assert (Hall : Forall (fun t => declaredIn (resolveForwardRef moduleType) t s3)
                   (declarationsOf meta)).
  { unfold declarationsPhase in Hd. unfold declarationsOf.
    destruct (m_declarations meta) as [l|]; [|constructor].
    assert (Hpre : PreOrder (fun a b => keepsOwned (resolveForwardRef moduleType) a b /\
                                        keepsPipes a b)).
    { split; [by split; intros k | ].
      intros a b c [H1 H2] [H3 H4]. split; intros k Hk; [by apply H3, H1 | by apply H4, H2]. }
    assert (Hmono : forall t (d : Declared) s s',
              declaredIn (resolveForwardRef moduleType) t s ->
              keepsOwned (resolveForwardRef moduleType) s s' /\ keepsPipes s s' ->
              declaredIn (resolveForwardRef moduleType) t s').
    { intros t d s s' [Ho Hp] [Hko Hkp]. split; [by apply Hko | by auto]. }
    assert (Hstep : forall t s (d : Declared) s',
              t ∈ flattenAndDedupeArray l -> True ->
              declarationEntry E (resolveForwardRef moduleType) isSync t s = Some (Ok d, s') ->
              True /\
              (keepsOwned (resolveForwardRef moduleType) s s' /\ keepsPipes s s') /\
              declaredIn (resolveForwardRef moduleType) t s').
    { intros t s d s' _ _ Hx. split; [done|]. by apply (declarationEntry_run _ _ _ _ _ _ Hx). }
    destruct (mapR_ok_rel
                (fun a b => keepsOwned (resolveForwardRef moduleType) a b /\ keepsPipes a b)
                _ _ _ _ _ (fun _ => True)
                (fun t (_ : Declared) s => declaredIn (resolveForwardRef moduleType) t s)
                Hmono Hstep I Hd) as (_ & _ & Hall).
    by eapply (Forall2_Forall_left
                 (fun t => declaredIn (resolveForwardRef moduleType) t s3)). }
  eapply Forall_impl; [exact Hall|]. intros t [Ho Hp]. split; [by rewrite Hof|].
  intros HisDir. specialize (Hp HisDir) as [pipeMeta Hget]. exists pipeMeta.
  unfold getPipeMetadata. rewrite bindR_getState. rewrite Hpipe. simpl in Hget.
  by rewrite Hget.
Qed.

End Declared.

(** ** The providers of a module *)

(** The providers an entry of [imports] brings: those of a module with
    providers. *)
Definition importedProvidersOf (E : Env) (importedType : Value) : list CompileProvider :=
  match snd (importedModuleTypeOf E importedType) with
  | Ok (_, providers, _) => providers
  | Err _ => []
  end.

(** The providers of the annotation itself. *)
Definition ownProvidersOf (E : Env) (moduleType : Value) (meta : NgModule)
    : list CompileProvider :=
  match m_providers meta with
  | Some ps =>
      match snd (_getProvidersMetadata E ps
                   (Some ("provider for the NgModule '" +:+ stringify E moduleType +:+ "'")))
      with
      | Ok (out, _) => out
      | Err _ => []
      end
  | None => []
  end.

Section Providers.

Variable E : Env.

Lemma importEntry_providers recur moduleType isSync importedType st y st' :
  importEntry E recur moduleType isSync importedType st = Some (Ok y, st') ->
  snd (fst y) = importedProvidersOf E importedType.
Proof.
  unfold importEntry. intros H.
  apply bindR_ok_inv in H as ([[t0 providers] entryComponents] & s1 & Hw & H).
  apply liftW_inv in Hw as [Hw _]. unfold importedProvidersOf. rewrite <- Hw.
  destruct t0 as [t|]; [|discriminate].
  apply bindR_ok_inv in H as ([summary|] & s2 & _ & H).
  - by apply retR_inv in H as [<- _].
  - apply bindR_ok_inv in H as (d & s3 & _ & H). discriminate.
Qed.

Lemma importsPhase_providers recur moduleType isSync meta st imports st' :
  importsPhase E recur moduleType isSync meta st = Some (Ok imports, st') ->
  flat_map (fun i => snd (fst i)) imports = flat_map (importedProvidersOf E) (importsOf meta).
Proof.
  unfold importsPhase, importsOf. destruct (m_imports meta) as [l|].
  - intros H.
    assert (Hall : Forall2 (fun entry (y : CompileNgModuleSummary * list CompileProvider
                                          * list CompileIdentifierMetadata) =>
                              snd (fst y) = importedProvidersOf E entry)
                     (flattenAndDedupeArray l) imports).
    { eapply (mapR_ok_inv _ _ _ _ _ (fun _ => True)); [|done|exact H].
      intros x s y s' _ _ Hx. split; [done|]. by eapply importEntry_providers. }
    clear H. induction Hall as [|x y xs ys Hxy _ IH]; [done|]. simpl. by rewrite Hxy, IH.
  - intros H. by apply retR_inv in H as [<- _].
Qed.

Lemma finishNgModule_providers moduleType meta importedModules exportedModules ids providers
    entryComponents declared transitiveModule compileMeta :
  snd (finishNgModule E moduleType meta importedModules exportedModules ids providers
         entryComponents declared transitiveModule) = Ok compileMeta ->
  mod_providers compileMeta = providers ++ ownProvidersOf E moduleType meta.
Proof.
  unfold finishNgModule, ownProvidersOf. intros H.
  apply snd_bindW_ok_inv in H as ([ds ps] & _ & H).
  apply snd_bindW_ok_inv in H as ([providers1 sink1] & Hown & H).
  apply snd_bindW_ok_inv in H as (entryTypes & _ & H).
  apply snd_bindW_ok_inv in H as (bootstrapComponents & _ & H).
  apply snd_bindW_ok_inv in H as (type & _ & H).
  simpl in H. injection H as <-. simpl.
  destruct (m_providers meta) as [own|]; [by rewrite Hown|]. by injection Hown as <- _.
Qed.

(** X14: the providers of a resolved module are the providers that its
    imports with providers bring, in the order of [imports], followed by
    the providers of its own annotation; they end the transitive
    providers. *)
Theorem module_providers fuel moduleType isSync throwIfNotFound st meta compileMeta st' :
  uncached st (resolveForwardRef moduleType) ->
  ngModuleResolver_resolve E (resolveForwardRef moduleType) = Some meta ->
  _loadNgModuleMetadata E fuel moduleType isSync throwIfNotFound st
    = Some (Ok (Some compileMeta), st') ->
  mod_providers compileMeta =
    flat_map (importedProvidersOf E) (importsOf meta)
      ++ ownProvidersOf E (resolveForwardRef moduleType) meta /\
  exists inherited,
    tm_providers (mod_transitiveModule compileMeta) = inherited ++ mod_providers compileMeta.
Proof.
  intros Hmiss Hmeta Hrun. destruct fuel as [|fuel]; [discriminate|].
  destruct (fresh_run_inv _ _ _ _ _ _ _ _ _ Hmiss Hmeta Hrun)
    as (imports & s1 & exports & s2 & declared & s3 & Hi & _ & _ & Hfinish & _).
  split.
  - rewrite (finishNgModule_providers _ _ _ _ _ _ _ _ _ _ Hfinish).
    by rewrite (importsPhase_providers _ _ _ _ _ _ _ Hi).
  - unfold finishNgModule in Hfinish.
    apply snd_bindW_ok_inv in Hfinish as ([ds ps] & _ & H).
    apply snd_bindW_ok_inv in H as ([providers1 sink1] & _ & H).
    apply snd_bindW_ok_inv in H as (entryTypes & _ & H).
    apply snd_bindW_ok_inv in H as (bootstrapComponents & _ & H).
    apply snd_bindW_ok_inv in H as (type & _ & H).
    simpl in H. injection H as <-. simpl. by eexists.
Qed.

End Providers.

Lemma resolved_module_valid_witness :
  exists compileMeta st',
    _loadNgModuleMetadata Example2.env 2 (VType 56) true true newResolver
      = Some (Ok (Some compileMeta), st') /\
    Forall (fun entry => isValidType entry = true) [VType 11].
Proof.
  destruct (_loadNgModuleMetadata Example2.env 2 (VType 56) true true newResolver)
    as [[[[compileMeta|]|e] st']|] eqn:Hrun; try (vm_compute in Hrun; discriminate).
  destruct (resolved_module_valid Example2.env 2 (VType 56) true true newResolver
              Example2.module56 compileMeta st' eq_refl eq_refl Hrun) as (_ & _ & _ & Hb).
  by exists compileMeta, st'.
Defined.

Lemma resolved_module_record_witness :
  exists compileMeta st',
    _loadNgModuleMetadata Example2.env 2 (VType 56) true true newResolver
      = Some (Ok (Some compileMeta), st') /\
    mod_declaredDirectives compileMeta = [mkIdentifier (VType 10)] /\
    mod_declaredPipes compileMeta = [mkIdentifier (VType 20)] /\
    map type_reference (mod_bootstrapComponents compileMeta) = [VType 11].
Proof.
  destruct (_loadNgModuleMetadata Example2.env 2 (VType 56) true true newResolver)
    as [[[[compileMeta|]|e] st']|] eqn:Hrun; try (vm_compute in Hrun; discriminate).
  destruct (resolved_module_record Example2.env 2 (VType 56) true true newResolver
              Example2.module56 compileMeta st' eq_refl eq_refl Hrun)
    as (Hd & Hp & Hb & _).
  by exists compileMeta, st'.
Defined.

Lemma declarations_registered_witness :
  exists compileMeta st',
    _loadNgModuleMetadata Example2.env 2 (VType 56) true true newResolver
      = Some (Ok (Some compileMeta), st') /\
    JsMap.get (_ngModuleOfTypes st') (VType 10) = Some (VType 56) /\
    exists pipeMeta, getPipeMetadata (VType 20) st' = Some (Ok pipeMeta, st').
Proof.
  destruct (_loadNgModuleMetadata Example2.env 2 (VType 56) true true newResolver)
    as [[[[compileMeta|]|e] st']|] eqn:Hrun; try (vm_compute in Hrun; discriminate).
  destruct (declarations_registered Example2.env 2 (VType 56) true true newResolver
              Example2.module56 compileMeta st' eq_refl eq_refl Hrun) as [_ Hall].
  apply Forall_cons in Hall as [[_ Hpipe] Hall].
  apply Forall_cons in Hall as [[Hdir _] _].
  exists compileMeta, st'. split; [reflexivity|]. split; [exact Hdir|]. by apply Hpipe.
Defined.

Lemma module_providers_witness :
  exists compileMeta st',
    _loadNgModuleMetadata Example2.env 2 (VType 56) true true newResolver
      = Some (Ok (Some compileMeta), st') /\
    map providerToken (mod_providers compileMeta)
      = [Some (TokenValue "tok"); Some (TokenValue "tok")] /\
    length (flat_map (importedProvidersOf Example2.env) (importsOf Example2.module56)) = 1.
Proof.
  destruct (_loadNgModuleMetadata Example2.env 2 (VType 56) true true newResolver)
    as [[[[compileMeta|]|e] st']|] eqn:Hrun; try (vm_compute in Hrun; discriminate).
  destruct (module_providers Example2.env 2 (VType 56) true true newResolver
              Example2.module56 compileMeta st' eq_refl eq_refl Hrun) as [Hp _].
  exists compileMeta, st'. split; [reflexivity|]. rewrite Hp. by vm_compute.
Defined.

(** ** The transitive modules *)

(** The modules reached from [roots] through [children]. *)
Inductive reach (children : CompileNgModuleSummary -> list CompileNgModuleSummary)
    (roots : list CompileNgModuleSummary) : CompileNgModuleSummary -> Prop :=
| reach_root s : s ∈ roots -> reach children roots s
| reach_child s c : reach children roots s -> c ∈ children s -> reach children roots c.

Section Visit.

(** A visit in the shape of [getTransitiveImportedModules] and
    [getTransitiveExportedModules]. *)
Variable children : CompileNgModuleSummary -> list CompileNgModuleSummary.
Variable visit : CompileNgModuleSummary -> list CompileNgModuleSummary * JsSet.t ->
                 list CompileNgModuleSummary * JsSet.t.
Hypothesis visit_unfold : forall s acc,
  visit s acc =
    if JsSet.has (snd acc) (sref s) then acc
    else
      let acc2 := fold_left (fun a m => visit m a) (children s)
                    (fst acc, JsSet.add (sref s) (snd acc)) in
      (fst acc2 ++ [s], snd acc2).
Hypothesis children_height : forall s c, c ∈ children s -> sheight c < sheight s.

Variable roots : list CompileNgModuleSummary.

Definition onceInv (stack : list CompileNgModuleSummary)
    (acc : list CompileNgModuleSummary * JsSet.t) : Prop :=
  (forall v, v ∈ snd acc <-> v ∈ map sref (fst acc) \/ v ∈ map sref stack) /\
  NoDup (map sref (fst acc) ++ map sref stack) /\
  Forall (reach children roots) (fst acc).

Lemma visit_once n s stack acc :
  sheight s < n -> reach children roots s -> onceInv stack acc ->
  onceInv stack (visit s acc) /\ sref s ∈ snd (visit s acc) /\
  (forall v, v ∈ snd acc -> v ∈ snd (visit s acc)).
Proof.
  revert s stack acc. induction n as [|n IH]; intros s stack acc Hn Hs Hinv; [lia|].
  rewrite visit_unfold.
  destruct (JsSet.has (snd acc) (sref s)) eqn:Hhas.
  { split; [done|]. split; [by apply JsSet_has_true | done]. }
  assert (Hnot : sref s ∉ snd acc) by (intros H%JsSet_has_true; congruence).
  destruct Hinv as (Hvis & Hnd & Hreach).
  set (acc1 := (fst acc, JsSet.add (sref s) (snd acc))).
  assert (Hinv1 : onceInv (s :: stack) acc1).
  { split; [|split; [|done]].
    - intros v. simpl. rewrite JsSet_elem_of_add, Hvis, elem_of_cons. tauto.
    - simpl. apply NoDup_app in Hnd as (Hnd1 & Hdisj & Hnd2).
      apply NoDup_app. split; [done|]. split.
      + intros v Hv [->|Hv']%elem_of_cons; [apply Hnot, Hvis; by left | by eapply Hdisj].
      + constructor; [|done]. intros Hin. apply Hnot, Hvis. by right. }
  assert (Hfold : forall cs acc0,
            (forall c, c ∈ cs -> c ∈ children s) ->
            onceInv (s :: stack) acc0 ->
            onceInv (s :: stack) (fold_left (fun a m => visit m a) cs acc0) /\
            forall v, v ∈ snd acc0 -> v ∈ snd (fold_left (fun a m => visit m a) cs acc0)).
  { induction cs as [|c cs IHcs]; intros acc0 Hcs Hinv0; simpl; [done|].
    destruct (IH c (s :: stack) acc0) as (Hinv' & _ & Hmono'); [| |done|].
    - assert (sheight c < sheight s) by (apply children_height, Hcs; by left). lia.
    - eapply reach_child; [exact Hs | apply Hcs; by left].
    - destruct (IHcs (visit c acc0)) as [Hinv'' Hmono''];
        [intros c' Hc'; apply Hcs; by right | done |].
      split; [done|]. intros v Hv. by apply Hmono'', Hmono'. }
  destruct (Hfold (children s) acc1 ltac:(done) Hinv1) as [(Hvis2 & Hnd2 & Hreach2) Hmono2].
  set (acc2 := fold_left (fun a m => visit m a) (children s) acc1) in *.
  cbn [fst snd]. split; [split; [|split]|split].
  - intros v. rewrite Hvis2. cbn [fst snd]. rewrite map_app, elem_of_app.
    simpl. rewrite elem_of_cons, list_elem_of_singleton. tauto.
  - cbn [fst snd]. rewrite map_app. simpl. rewrite <- app_assoc. exact Hnd2.
  - cbn [fst snd]. apply Forall_app. split; [done | by constructor].
  - apply Hvis2. right. by left.
  - intros v Hv. apply Hmono2. simpl. apply JsSet_elem_of_add. by right.
Qed.

Lemma fold_visit_once modules :
  (forall s, s ∈ modules -> s ∈ roots) ->
  let out := fst (fold_left (fun a m => visit m a) modules ([], [])) in
  NoDup (map sref out) /\
  (forall s, s ∈ modules -> sref s ∈ map sref out) /\
  Forall (reach children roots) out.
Proof.
  intros Hroots.
  assert (Hfold : forall cs acc0,
            (forall c, c ∈ cs -> c ∈ roots) ->
            onceInv [] acc0 ->
            onceInv [] (fold_left (fun a m => visit m a) cs acc0) /\
            (forall v, v ∈ snd acc0 ->
                       v ∈ snd (fold_left (fun a m => visit m a) cs acc0)) /\
            forall c, c ∈ cs -> sref c ∈ snd (fold_left (fun a m => visit m a) cs acc0)).
  { induction cs as [|c cs IHcs]; intros acc0 Hcs Hinv0; simpl.
    - split; [done|]. split; [done|]. by intros c ?%elem_of_nil.
    - destruct (visit_once (S (sheight c)) c [] acc0) as (Hinv1 & Hc & Hmono1);
        [lia | apply reach_root, Hcs; by left | done |].
      destruct (IHcs (visit c acc0)) as (Hinv2 & Hmono2 & Hin2);
        [intros c' Hc'; apply Hcs; by right | done |].
      split; [done|]. split; [intros v Hv; by apply Hmono2, Hmono1|].
      intros c' [->|Hc']%elem_of_cons; [by apply Hmono2 | by apply Hin2]. }
  destruct (Hfold modules ([], []) Hroots) as ((Hvis & Hnd & Hreach) & _ & Hin).
  - split; [|split; [constructor | constructor]]. intros v. simpl.
    split; [by intros ?%elem_of_nil | by intros [?%elem_of_nil|?%elem_of_nil]].
  - simpl. split; [by rewrite app_nil_r in Hnd|]. split; [|done].
    intros s Hs. apply Hin, Hvis in Hs as [Hs|Hs%elem_of_nil]; done.
Qed.

End Visit.

Lemma visitTransitiveExported_unfold s acc :
  visitTransitiveExported s acc =
    if JsSet.has (snd acc) (sref s) then acc
    else
      let acc2 := fold_left (fun a m => visitTransitiveExported m a) (sum_exportedModules s)
                    (fst acc, JsSet.add (sref s) (snd acc)) in
      (fst acc2 ++ [s], snd acc2).
Proof. by destruct s. Qed.

(** X15: the transitive modules, imported or exported, hold every module
    type at most once, hold the type of every module given, and hold
    only modules that are given or reached from them, through imports
    and exports for the imported ones and through exports for the
    exported ones. *)
Theorem transitive_modules_once modules :
  let imported := getTransitiveImportedModules modules in
  let exported := getTransitiveExportedModules modules in
  (NoDup (map sref imported) /\
   (forall s, s ∈ modules -> sref s ∈ map sref imported) /\
   Forall (reach childrenOf modules) imported) /\
  (NoDup (map sref exported) /\
   (forall s, s ∈ modules -> sref s ∈ map sref exported) /\
   Forall (reach sum_exportedModules modules) exported).
Proof.
  split.
  - apply (fold_visit_once childrenOf visitTransitiveImported
             visitTransitiveImported_unfold sheight_child modules modules).
    by intros s.
  - apply (fold_visit_once sum_exportedModules visitTransitiveExported
             visitTransitiveExported_unfold
             ltac:(intros s c Hc; apply sheight_child, elem_of_app; by right)
             modules modules).
    by intros s.
Qed.

(** ** Modules that import each other *)

Lemma keepsUncached_directiveFrame S : DirectiveFrame (keepsUncached S).
Proof.
  split; [apply keepsUncached_preorder | |]; intros; by apply keepsUncached_same.
Qed.

Lemma runOperation_allUncached E S op st :
  (forall Y, S Y -> exists Z, S Z /\ moduleChild E Y Z) ->
  allUncached S st -> allUncached S (runOperation E op st).
Proof.
  intros HS Hst. pose proof (keepsUncached_preorder S) as Hpre.
  pose proof (keepsUncached_directiveFrame S) as FD.
  destruct op; simpl; unfold stateAfter.
  - destruct (loadNgModuleMetadata _ _ _ _ _ _) as [[r st']|] eqn:Hrun; [|done].
    unfold loadNgModuleMetadata in Hrun.
    apply bindR_inv in Hrun as [(m & s1 & Hload & Hrun)|(e & Hload & _)].
    + destruct (blocked_load E S HS _ _ _ _ _ _ _ Hload Hst) as [Hs1 _].
      destruct m as [m|]; [|by injection Hrun as _ <-].
      revert Hs1. eapply (steps_bindR (keepsUncached S)); [| |exact Hrun].
      * by apply steps_loaders.
      * intros loading. by apply steps_retR.
    + by destruct (blocked_load E S HS _ _ _ _ _ _ _ Hload Hst) as [Hs1 _].
  - unfold getUnloadedNgModuleMetadata.
    destruct (_loadNgModuleMetadata _ _ _ _ _ _) as [[r st']|] eqn:Hrun; [|done].
    by destruct (blocked_load E S HS _ _ _ _ _ _ _ Hrun Hst) as [Hs1 _].
  - destruct (_loadDirectiveMetadata _ _ _ _) as [[r st']|] eqn:Hrun; [|done].
    by apply (steps_loadDirectiveMetadata E (keepsUncached S) FD _ _ _ _ _ Hrun).
  - destruct (resolvePending _ _ _) as [[r st']|] eqn:Hrun; [|done].
    by apply (steps_createDirectiveMetadata (keepsUncached S) FD _ _ _ _ _ _ Hrun).
  - destruct (getOrLoadPipeMetadata _ _ _) as [[r st']|] eqn:Hrun; [|done].
    apply (steps_getOrLoadPipeMetadata E (keepsUncached S) Hpre
             ltac:(intros; by apply keepsUncached_same)
             ltac:(intros; by apply keepsUncached_same) _ _ _ _ Hrun Hst).
  - by intros Y HY.
  - by intros Y HY.
Qed.

(** X16: a module on a cycle of imports and exports never resolves,
    whatever was resolved before: every run that returns for a module of
    a set in which each module imports or exports a module of the set
    ends in an error, and no module of the set is ever cached. *)
Theorem cyclic_modules_never_resolve E (S : Value -> Prop) ops fuel moduleType isSync
    throwIfNotFound :
  (forall Y, S Y -> exists Z, S Z /\ moduleChild E Y Z) ->
  S (resolveForwardRef moduleType) ->
  let st := runOperations E ops newResolver in
  (forall Y, S Y -> uncached st Y) /\
  forall r st',
    _loadNgModuleMetadata E fuel moduleType isSync throwIfNotFound st = Some (r, st') ->
    exists e, r = Err e.
Proof.
  intros HS HM st.
  assert (Hst : allUncached S st).
  { unfold st. generalize newResolver, (fun Y (_ : S Y) => eq_refl : uncached newResolver Y).
    induction ops as [|op ops IH]; intros s Hs; [done|].
    simpl. apply IH. by apply runOperation_allUncached. }
  split; [done|]. intros r st' Hrun.
  destruct (blocked_load E S HS _ _ _ _ _ _ _ Hrun Hst) as [_ He]. by apply He.
Qed.

Lemma cyclic_modules_never_resolve_witness :
  _loadNgModuleMetadata Example2.env 6 (VType 54) true true newResolver = None /\
  forall fuel r st',
    _loadNgModuleMetadata Example2.env fuel (VType 54) true true newResolver = Some (r, st') ->
    exists e, r = Err e.
Proof.
  split; [by vm_compute|]. intros fuel.
  apply (cyclic_modules_never_resolve Example2.env
           (fun Y => Y = VType 54 \/ Y = VType 55) [] fuel (VType 54) true true).
  - intros Y [-> | ->].
    + exists (VType 55). split; [by right|]. left.
      exists Example2.module54, [VType 55], (VType 55), (VType 55). by repeat split; try left.
    + exists (VType 54). split; [by left|]. left.
      exists Example2.module55, [VType 54], (VType 54), (VType 54). by repeat split; try left.
  - by left.
Defined.

(** ** The flags of a dependency *)

Section DependencyFlags.

Variable E : Env.

Definition isHostMarker (v : Value) : bool := match v with VHost => true | _ => false end.
Definition isSelfMarker (v : Value) : bool := match v with VSelf => true | _ => false end.
Definition isSkipSelfMarker (v : Value) : bool :=
  match v with VSkipSelf => true | _ => false end.
Definition isOptionalMarker (v : Value) : bool :=
  match v with VOptional => true | _ => false end.

Lemma scan_flags entries s :
  let s' := fold_left paramEntryStep entries s in
  ps_isHost s' = ps_isHost s || existsb isHostMarker entries /\
  ps_isSelf s' = ps_isSelf s || existsb isSelfMarker entries /\
  ps_isSkipSelf s' = ps_isSkipSelf s || existsb isSkipSelfMarker entries /\
  ps_isOptional s' = ps_isOptional s || existsb isOptionalMarker entries /\
  ps_isAttribute s' = ps_isAttribute s || existsb isAttributeMarker entries.
Proof.
  revert s. induction entries as [|e entries IH]; intros s; simpl.
  - by rewrite !orb_false_r.
  - destruct (IH (paramEntryStep s e)) as (H1 & H2 & H3 & H4 & H5).
    rewrite H1, H2, H3, H4, H5. clear.
    destruct e; simpl; rewrite ?orb_false_r, ?orb_true_r, ?orb_assoc; try done;
      destruct (isBlank (ps_token s)); simpl; by rewrite ?orb_false_r.
Qed.

Lemma knownDeps_Forall2 deps :
  hasUnknownDeps deps = false ->
  Forall2 (fun o d => o = Some d) deps (knownDeps deps).
Proof.
  induction deps as [|[d|] deps IH]; simpl; [constructor | | discriminate].
  intros H. constructor; [done | by apply IH].
Qed.

(** X17: in the dependencies of a type, the dependency of a composite
    parameter has a flag set exactly when the composite holds the marker
    of that flag, wherever it stands, and the dependency of a plain
    parameter has no flag and the parameter as its token; the reflector
    is asked for the parameters exactly when no dependencies are
    given. *)
Theorem dependency_flags typeOrFunc dependencies :
  fst (_getDependenciesMetadata E typeOrFunc dependencies)
    = match dependencies with
      | Some _ => []
      | None => [CallReflectorParameters typeOrFunc]
      end /\
  forall deps,
    snd (_getDependenciesMetadata E typeOrFunc dependencies) = Ok deps ->
    Forall2 (fun param d =>
               match param with
               | VArr entries =>
                   isHost d = existsb isHostMarker entries /\
                   isSelf d = existsb isSelfMarker entries /\
                   isSkipSelf d = existsb isSkipSelfMarker entries /\
                   isOptional d = existsb isOptionalMarker entries /\
                   isAttribute d = existsb isAttributeMarker entries
               | _ => d = mkDep false false false false false (_getTokenMetadata param)
               end)
      (parameters E typeOrFunc dependencies) deps.
Proof.
  split.
  - unfold _getDependenciesMetadata. destruct dependencies as [deps|]; simpl.
    + by destruct (hasUnknownDeps _).
    + by destruct (hasUnknownDeps _).
  - intros deps. rewrite getDependenciesMetadata_result. simpl.
    destruct (hasUnknownDeps _) eqn:Hunknown; [discriminate|]. intros [= <-].
    apply knownDeps_Forall2 in Hunknown. revert Hunknown.
    generalize (knownDeps (map paramDependency (parameters E typeOrFunc dependencies))).
    induction (parameters E typeOrFunc dependencies) as [|param params IH];
      intros ds Hall; simpl in Hall.
    + apply Forall2_nil_inv_l in Hall as ->. constructor.
    + apply Forall2_cons_inv_l in Hall as (d & ds' & Hd & Hall & ->).
      constructor; [|by apply IH].
      unfold paramDependency in Hd. destruct (isBlank _); [discriminate|].
      injection Hd as <-. destruct param; try reflexivity. simpl.
      destruct (scan_flags l paramStart) as (H1 & H2 & H3 & H4 & H5). by repeat split.
Qed.

End DependencyFlags.

Lemma dependency_flags_witness :
  exists d,
    snd (_getDependenciesMetadata Example.env (VType 40)
           (Some [VArr [VOptional; VType 41; VHost]])) = Ok [d] /\
    isOptional d = true /\ isHost d = true /\ isSelf d = false.
Proof.
  destruct (snd (_getDependenciesMetadata Example.env (VType 40)
                   (Some [VArr [VOptional; VType 41; VHost]]))) as [deps|e] eqn:Hrun;
    [|vm_compute in Hrun; discriminate].
  destruct (dependency_flags Example.env (VType 40)
              (Some [VArr [VOptional; VType 41; VHost]])) as [_ Hall].
  specialize (Hall deps Hrun). simpl in Hall.
  apply Forall2_cons_inv_l in Hall as (d & ds & (Hh & Hs & _ & Ho & _) & Hnil & ->).
  apply Forall2_nil_inv_l in Hnil as ->. by exists d.
Defined.

(** ** Providers that are no providers *)

Section InvalidProvider.

Variable E : Env.

Lemma providersInfo_cons p rest seenProviderIdx providerIdx :
  providersInfo E (p :: rest) seenProviderIdx providerIdx =
    (if Nat.ltb seenProviderIdx providerIdx then [stringify E p]
     else if Nat.eqb seenProviderIdx providerIdx then ["?" +:+ stringify E p +:+ "?"]
     else if Nat.eqb seenProviderIdx (providerIdx + 1) then ["..."]
     else [])
    ++ providersInfo E rest (S seenProviderIdx) providerIdx.
Proof. reflexivity. Qed.

Lemma providersInfo_after providers seenProviderIdx providerIdx :
  providerIdx + 1 < seenProviderIdx ->
  providersInfo E providers seenProviderIdx providerIdx = [].
Proof.
  revert seenProviderIdx. induction providers as [|p providers IH]; intros i Hi; [done|].
  rewrite providersInfo_cons, IH by lia.
  rewrite (proj2 (Nat.ltb_ge i providerIdx)) by lia.
  rewrite (proj2 (Nat.eqb_neq i providerIdx)) by lia.
  by rewrite (proj2 (Nat.eqb_neq i (providerIdx + 1))) by lia.
Qed.

Lemma providersInfo_at pre bad post seenProviderIdx :
  providersInfo E (pre ++ bad :: post) seenProviderIdx (seenProviderIdx + length pre) =
    map (stringify E) pre ++ ["?" +:+ stringify E bad +:+ "?"]
      ++ match post with [] => [] | _ => ["..."] end.
Proof.
  revert seenProviderIdx. induction pre as [|p pre IH]; intros i.
  - cbn [app length map]. rewrite Nat.add_0_r, providersInfo_cons.
    rewrite Nat.ltb_irrefl, Nat.eqb_refl. cbn [app]. f_equal.
    destruct post as [|p post]; [done|]. rewrite providersInfo_cons.
    rewrite (proj2 (Nat.ltb_ge (S i) i)) by lia.
    rewrite (proj2 (Nat.eqb_neq (S i) i)) by lia.
    rewrite (proj2 (Nat.eqb_eq (S i) (i + 1))) by lia.
    cbn [app]. f_equal. apply providersInfo_after. lia.
  - cbn [app length map]. rewrite providersInfo_cons.
    rewrite (proj2 (Nat.ltb_lt i (i + S (length pre)))) by lia. cbn [app]. f_equal.
    replace (i + S (length pre)) with (S i + length pre) by lia. apply IH.
Qed.

Lemma providerEntries_err_at debugInfo providers pre bad post providerIdx x e :
  snd (providerEntries E debugInfo providers pre providerIdx) = Ok x ->
  snd (providerEntry E debugInfo providers (providerIdx + length pre) bad) = Err e ->
  snd (providerEntries E debugInfo providers (pre ++ bad :: post) providerIdx) = Err e.
Proof.
  revert providerIdx x. induction pre as [|p pre IH]; intros i x Hpre Hbad; simpl.
  - rewrite snd_bindW. rewrite Nat.add_0_r in Hbad. by rewrite Hbad.
  - simpl in Hpre. apply snd_bindW_ok_inv in Hpre as ([out1 sink1] & Hp & Hpre).
    apply snd_bindW_ok_inv in Hpre as ([out2 sink2] & Hrest & _).
    rewrite snd_bindW, Hp. rewrite snd_bindW.
    rewrite (IH (S i) _ Hrest); [done|].
    by replace (S i + length pre) with (i + length (p :: pre)) by (simpl; lia).
Qed.

(** X18: when the providers before it convert, a provider that is
    neither an array, nor an object with [provide], nor a type makes
    [_getProvidersMetadata] fail with the invalid-provider error, whose
    list shows the providers before it, the provider itself between
    question marks, and dots when more providers follow. *)
Theorem invalid_provider debugInfo pre bad post x :
  let providers := pre ++ bad :: post in
  snd (providerEntries E debugInfo providers pre 0) = Ok x ->
  isArray (resolveForwardRef bad) = false ->
  hasOwnProperty (resolveForwardRef bad) "provide" = false ->
  isValidType (resolveForwardRef bad) = false ->
  snd (_getProvidersMetadata E providers debugInfo) =
    Err (InvalidProvider debugInfo
           (map (stringify E) pre ++ ["?" +:+ stringify E bad +:+ "?"]
              ++ match post with [] => [] | _ => ["..."] end)).
Proof.
  intros providers Hpre Harr Hprov Hvalid. unfold _getProvidersMetadata.
  apply (providerEntries_err_at _ _ _ _ _ _ _ _ Hpre).
  rewrite <- (providersInfo_at pre bad post 0). fold providers.
  generalize (0 + length pre). intros idx. clear Hpre.
  destruct bad as [| | | | | |w|l|i fs| | | | | |w|]; try done;
    try (cbn in Hprov, Hvalid |- *; rewrite ?Hprov, ?Hvalid; reflexivity).
  destruct w as [| | | | | |w'|l|i fs| | | | | |w'|]; try done;
    try (cbn in Hprov, Hvalid |- *; rewrite ?Hprov, ?Hvalid; reflexivity).
Qed.

End InvalidProvider.

Lemma invalid_provider_witness :
  snd (_getProvidersMetadata Example.env [VType 41; VNum 7; VType 42; VType 43] None) =
    Err (InvalidProvider None ["Engine"; "?value?"; "..."]).
Proof.
  destruct (snd (providerEntries Example.env None [VType 41; VNum 7; VType 42; VType 43]
                   [VType 41] 0)) as [x|e] eqn:Hpre; [|vm_compute in Hpre; discriminate].
  by apply (invalid_provider Example.env None [VType 41] (VNum 7) [VType 42; VType 43] x Hpre).
Defined.

(** ** Queries and selectors *)

Section Queries.

Variable E : Env.

(** A string selector, the empty string included, or a truthy value. *)
Definition selectorDefined (q : Query) : bool :=
  match q_selector q with
  | VStr _ => true
  | selector => truthy selector
  end.

Definition ofKind (isViewQuery : bool) (pq : string * Query) : bool :=
  Bool.eqb (q_isViewQuery (snd pq)) isViewQuery.

Lemma snd_getQueryMetadata q propertyName typeOrFunc :
  match snd (_getQueryMetadata E q propertyName typeOrFunc) with
  | Ok m =>
      selectorDefined q = true /\
      query_propertyName m = propertyName /\
      query_first m = q_first q /\
      query_descendants m = q_descendants q /\
      (forall s, q_selector q = VStr s ->
                 query_selectors m = map TokenValue (splitQuerySelector E s))
  | Err e => selectorDefined q = false /\ e = QuerySelectorUndefined propertyName typeOrFunc
  end.
Proof.
  unfold _getQueryMetadata, selectorDefined. rewrite snd_bindW.
  destruct (q_selector q) as [| | |s| | | | | | | | | | | |] eqn:Hsel; simpl;
    try (by repeat split);
    try (destruct (truthy _); simpl; by repeat split).
  - destruct b; simpl; by repeat split.
  - destruct (negb _) eqn:Hn; simpl.
    + apply negb_true_iff in Hn. by rewrite Hn.
    + apply negb_false_iff in Hn. rewrite Hn. by repeat split.
  - repeat split; try done. intros s' [= <-]. unfold _queryVarBindings.
    by induction (splitQuerySelector E s) as [|x l IH]; simpl; [|rewrite <- IH].
Qed.

(** X19: [_getQueriesMetadata] returns the queries of the kind asked
    for, view queries or content queries, one for each such property in
    the order of the properties, when each of them has a selector; the
    first of them without a selector makes it fail with the error that
    names the property.  The queries of the other kind are not looked
    at. *)
Theorem queries_by_kind queries isViewQuery directiveType :
  let matching := filter (fun pq => ofKind isViewQuery pq = true) queries in
  (Forall (fun pq => selectorDefined (snd pq) = true) matching ->
   exists res,
     snd (_getQueriesMetadata E queries isViewQuery directiveType) = Ok res /\
     map query_propertyName res = map fst matching) /\
  (forall pre propertyName q post,
     matching = pre ++ (propertyName, q) :: post ->
     Forall (fun pq => selectorDefined (snd pq) = true) pre ->
     selectorDefined q = false ->
     snd (_getQueriesMetadata E queries isViewQuery directiveType)
       = Err (QuerySelectorUndefined propertyName directiveType)).
Proof.
  induction queries as [|[name query] queries [IHok IHerr]]; simpl.
  - split; [intros _; by exists []|]. intros pre propertyName q post Heq.
    by destruct pre.
  - pose proof (snd_getQueryMetadata query name directiveType) as Hq.
    unfold ofKind at 1 3. simpl.
    destruct (decide (Bool.eqb (q_isViewQuery query) isViewQuery = true)) as [Hk|Hk].
    + rewrite !filter_cons_True by done. rewrite Hk. split.
      * intros [Hdef Hall]%Forall_cons. destruct (IHok Hall) as (res & Hres & Hnames).
        rewrite !snd_bindW.
        destruct (snd (_getQueryMetadata E query name directiveType)) as [m|e];
          [|destruct Hq as [Hq _]; simpl in Hdef; congruence].
        simpl. rewrite snd_bindW, Hres. simpl. eexists. split; [done|].
        simpl. destruct Hq as (_ & -> & _). by rewrite Hnames.
      * intros pre propertyName q post Heq Hpre Hundef.
        rewrite !snd_bindW.
        destruct pre as [|[name' query'] pre].
        -- injection Heq as <- <- _.
           destruct (snd (_getQueryMetadata E query name directiveType)) as [m|e];
             [destruct Hq as [Hq _]; congruence | by destruct Hq as [_ ->]].
        -- injection Heq as <- <- Heq. apply Forall_cons in Hpre as [Hdef Hpre].
           destruct (snd (_getQueryMetadata E query name directiveType)) as [m|e];
             [|destruct Hq as [Hq _]; simpl in Hdef; congruence].
           simpl. rewrite snd_bindW. by rewrite (IHerr _ _ _ _ Heq Hpre Hundef).
    + rewrite !filter_cons_False by done.
      apply not_true_is_false in Hk. rewrite Hk. split.
      * intros Hall. destruct (IHok Hall) as (res & Hres & Hnames).
        rewrite !snd_bindW. simpl. rewrite snd_bindW, Hres. simpl. by eexists.
      * intros pre propertyName q post Heq Hpre Hundef.
        rewrite !snd_bindW. simpl. rewrite snd_bindW.
        by rewrite (IHerr _ _ _ _ Heq Hpre Hundef).
Qed.

(** X20: [getNonNormalizedDirectiveMetadata] returns nothing, and
    throws nothing, for a type without a directive annotation; a
    directive that is no component and has no selector, or an empty
    one, always fails with the missing-selector error; a component
    without a selector gets the default element name of the schema
    registry; and the result is a component exactly when the annotation
    is one. *)
Theorem directive_selector directiveType :
  let type := resolveForwardRef directiveType in
  (directiveResolver_resolve E type = None ->
   getNonNormalizedDirectiveMetadata E directiveType = ([CallDirectiveResolve type], Ok None)) /\
  (forall dirMeta,
     directiveResolver_resolve E type = Some dirMeta ->
     d_component dirMeta = None ->
     selectorMissing (d_selector dirMeta) = true ->
     getNonNormalizedDirectiveMetadata E directiveType
       = ([CallDirectiveResolve type], Err (MissingSelector type))) /\
  (forall annotation metadata,
     snd (getNonNormalizedDirectiveMetadata E directiveType) = Ok (Some (annotation, metadata)) ->
     directiveResolver_resolve E type = Some annotation /\
     dir_isComponent metadata = bool_decide (is_Some (d_component annotation)) /\
     (is_Some (dir_template metadata) <-> is_Some (d_component annotation)) /\
     dir_selector metadata =
       (if selectorMissing (d_selector annotation)
        then schemaRegistry_getDefaultComponentElementName E
        else default EmptyString (d_selector annotation)) /\
     (d_component annotation = None -> selectorMissing (d_selector annotation) = false)).
Proof.
  intros type. unfold getNonNormalizedDirectiveMetadata, directiveResolver_resolve_call, callW.
  fold type. split; [|split].
  - intros Hnone. simpl. by rewrite Hnone.
  - intros dirMeta Hsome Hcmp Hmissing. simpl. rewrite Hsome, Hcmp. simpl.
    by rewrite Hmissing.
  - intros annotation metadata. rewrite snd_bindW. simpl.
    destruct (directiveResolver_resolve E type) as [dirMeta|]; [|discriminate].
    intros H.
    apply snd_bindW_ok_inv in H as (tpl & Htpl & H).
    apply snd_bindW_ok_inv in H as ([[[cd vps] ecs] selector] & Hsel & H).
    apply snd_bindW_ok_inv in H as ([providers sink] & _ & H).
    apply snd_bindW_ok_inv in H as ([queries viewQueries] & _ & H).
    apply snd_bindW_ok_inv in H as (ty & _ & H).
    simpl in H. injection H as <- <-. simpl. split; [done|].
    destruct (d_component dirMeta) as [cmp|].
    + apply snd_bindW_ok_inv in Htpl as ([] & _ & Htpl).
      apply snd_bindW_ok_inv in Htpl as ([] & _ & Htpl).
      apply snd_bindW_ok_inv in Htpl as ([] & _ & Htpl).
      injection Htpl as <-.
      apply snd_bindW_ok_inv in Hsel as ([vps' sink'] & _ & Hsel).
      apply snd_bindW_ok_inv in Hsel as (selector' & Hselector & Hsel).
      injection Hsel as _ _ _ <-.
      split; [by rewrite bool_decide_eq_true_2|]. split.
      * split; by eauto.
      * split; [|done]. destruct (selectorMissing (d_selector dirMeta));
          by injection Hselector as <-.
    + injection Htpl as <-.
      destruct (selectorMissing (d_selector dirMeta)); [discriminate|].
      injection Hsel as _ _ _ <-.
      split; [by rewrite bool_decide_eq_false_2; [|intros [? [=]]]|].
      split; [split; by intros [? [=]]|]. by split.
Qed.

End Queries.

(** ** A directive or pipe load that stores nothing *)

Section NothingStored.

Variable E : Env.

(** X21: a directive load writes the caches only when it returns
    [null]: when it throws, when it finds the type cached, and when it
    returns the promise of a template that is still loading, every cache
    is as before; a pipe load that throws leaves every cache as before
    too. *)
Theorem load_stores_nothing :
  (forall directiveType isSync st r st',
     _loadDirectiveMetadata E directiveType isSync st = Some (r, st') ->
     r <> Ok LoadNull -> sameCaches st st') /\
  (forall pipeType st e st',
     _loadPipeMetadata E pipeType st = Some (Err e, st') -> sameCaches st st').
Proof.
  split.
  - intros directiveType isSync st r st'. unfold _loadDirectiveMetadata.
    rewrite bindR_getState. destruct (JsMap.has _ _).
    { intros [= <- <-] _. apply sameCaches_refl. }
    intros H Hr.
    apply bindR_inv in H as [([[annotation metadata]|] & s1 & Hw & H)|(e & Hw & _)].
    + apply liftW_inv in Hw as [_ ->].
      assert (Hcreate : forall templateMetadata s,
                bindR (createDirectiveMetadata (resolveForwardRef directiveType) metadata
                         templateMetadata) (fun _ => retR LoadNull) s = Some (r, st') ->
                False).
      { intros templateMetadata s [= <- _]. by apply Hr. }
      destruct (dir_isComponent metadata); [|by apply Hcreate in H].
      destruct (dir_template metadata).
      2: { injection H as _ <-. apply sameCaches_logCalls. }
      apply bindR_inv in H as [(moduleUrl & s2 & Hurl & H)|(e & Hurl & _)].
      2: { apply liftW_inv in Hurl as [_ ->].
           eapply sameCaches_trans; apply sameCaches_logCalls. }
      apply liftW_inv in Hurl as [_ ->].
      apply bindR_inv in H as [([syncResult|asyncResult] & s3 & Hn & H)|(e & Hn & _)].
      * by apply Hcreate in H.
      * apply liftW_inv in Hn as [_ ->].
        assert (Hst' : st' = logCalls [CallNormalizeTemplate (resolveForwardRef directiveType)]
                               (logCalls (fst (componentModuleUrl E
                                                 (resolveForwardRef directiveType) annotation))
                                  (logCalls (fst (getNonNormalizedDirectiveMetadata E
                                                    (resolveForwardRef directiveType))) st)))
          by (destruct isSync; by injection H as _ <-).
        rewrite Hst'. eapply sameCaches_trans; [apply sameCaches_logCalls|].
        eapply sameCaches_trans; apply sameCaches_logCalls.
      * discriminate.
    + injection H as _ <-. apply liftW_inv in Hw as [_ ->]. apply sameCaches_logCalls.
    + apply liftW_inv in Hw as [_ ->]. apply sameCaches_logCalls.
  - intros pipeType st e st'. unfold _loadPipeMetadata. intros H.
    apply bindR_inv in H as [(annotation & s1 & Ha & H)|(e' & Ha & _)].
    2: { apply liftW_inv in Ha as [_ ->]. apply sameCaches_logCalls. }
    apply liftW_inv in Ha as [_ ->].
    apply bindR_inv in H as [(type & s2 & Ht & H)|(e' & Ht & _)].
    2: { apply liftW_inv in Ht as [_ ->].
         eapply sameCaches_trans; apply sameCaches_logCalls. }
    apply bindR_inv in H as [([] & s3 & _ & H)|(e' & H & _)]; discriminate.
Qed.

End NothingStored.

Lemma load_stores_nothing_witness :
  (exists p st',
     _loadDirectiveMetadata Example.env (VType 11) false newResolver
       = Some (Ok (LoadPromise p), st') /\ sameCaches newResolver st') /\
  (exists e st',
     _loadDirectiveMetadata Example.env (VType 11) true newResolver = Some (Err e, st') /\
     sameCaches newResolver st').
Proof.
  destruct (load_stores_nothing Example.env) as [Hdir _]. split.
  - destruct (_loadDirectiveMetadata Example.env (VType 11) false newResolver)
      as [[[[| |p]|e] st']|] eqn:Hrun; try (vm_compute in Hrun; discriminate).
    exists p, st'. split; [reflexivity|]. by apply (Hdir _ _ _ _ _ Hrun).
  - destruct (_loadDirectiveMetadata Example.env (VType 11) true newResolver)
      as [[[r|e] st']|] eqn:Hrun; try (vm_compute in Hrun; discriminate).
    exists e, st'. split; [reflexivity|]. by apply (Hdir _ _ _ _ _ Hrun).
Defined.

(** ** The imports of a resolved module are resolved *)

(** A chain of imports from one module type to another. *)
Inductive importPath (E : Env) (X : Value) : Value -> Prop :=
| importPath_here : importPath E X X
| importPath_step Y Z : importPath E X Y -> importsType E Y Z -> importPath E X Z.

(** X22: when a module was resolved, whatever was resolved before,
    every module its annotation imports, directly or through the imports
    of imported modules, has a record in the module cache, stored under
    its own type. *)
Theorem imports_resolved E ops fuel moduleType isSync throwIfNotFound compileMeta st' imported :
  modulesAreClasses E ->
  _loadNgModuleMetadata E fuel moduleType isSync throwIfNotFound
    (runOperations E ops newResolver) = Some (Ok (Some compileMeta), st') ->
  importPath E (resolveForwardRef moduleType) imported ->
  exists importedMeta,
    getNgModuleMetadata imported st' = Some (Ok importedMeta, st') /\
    type_reference (mod_type importedMeta) = imported.
Proof.
  intros HE Hrun Hpath.
  assert (Hst' : coherent E st').
  { apply (coherent_load E HE _ _ _ _ _ _ _ Hrun).
    apply coherent_runOperations; [done | apply coherent_newResolver]. }
  assert (Hget : exists m, JsMap.get (_ngModuleCache st') imported = Some m).
  { induction Hpath as [|Y Z _ IH Hstep].
    - exists compileMeta. by apply (loadNgModuleMetadata_cached _ _ _ _ _ _ _ _ Hrun).
    - destruct IH as [m Hm].
      destruct (Hst' _ _ Hm) as (_ & Hsum & Hlink & _).
      destruct (Hlink Z Hstep) as (s & Hs & <-).
      rewrite Forall_forall in Hsum.
      destruct (Hsum s) as (m' & Hm' & _); [apply elem_of_app; by left|]. by exists m'. }
  destruct Hget as [m Hm]. exists m. split.
  - unfold getNgModuleMetadata. by rewrite bindR_getState, Hm.
  - by destruct (Hst' _ _ Hm) as (Href & _).
Qed.

Lemma imports_resolved_witness :
  exists compileMeta st' importedMeta,
    _loadNgModuleMetadata Example.env 3 (VType 1) true true newResolver
      = Some (Ok (Some compileMeta), st') /\
    getNgModuleMetadata (VType 3) st' = Some (Ok importedMeta, st').
Proof.
  destruct (_loadNgModuleMetadata Example.env 3 (VType 1) true true newResolver)
    as [[[[compileMeta|]|e] st']|] eqn:Hrun; try (vm_compute in Hrun; discriminate).
  destruct (imports_resolved Example.env [] 3 (VType 1) true true compileMeta st' (VType 3)
              modulesAreClasses_example Hrun) as (importedMeta & Hget & _).
  - apply (importPath_step _ _ (VType 2)).
    + apply (importPath_step _ _ (VType 1)); [apply importPath_here|].
      exists Example.moduleA, [VType 2], (VType 2), (VType 2). by repeat split; try left.
    + exists Example.moduleB, [VType 3], (VType 3), (VType 3). by repeat split; try left.
  - by exists compileMeta, st', importedMeta.
Defined.

(** ** What a module sees and what it can export *)

Definition declaredDirectiveType (d : Declared) : option Value :=
  match d with DeclaredDirective t _ _ => Some t | DeclaredPipe _ _ => None end.

Definition declaredPipeType (d : Declared) : option Value :=
  match d with DeclaredPipe t _ => Some t | DeclaredDirective _ _ _ => None end.

Lemma fold_add_elem_of (ids : list CompileIdentifierMetadata) s x :
  x ∈ fold_left (fun s id => JsSet.add (reference id) s) ids s <->
  x ∈ s \/ x ∈ map reference ids.
Proof.
  revert s. induction ids as [|id ids IH]; intros s; simpl.
  - rewrite elem_of_nil. tauto.
  - rewrite IH, JsSet_elem_of_add, elem_of_cons. tauto.
Qed.

Lemma tm_directives_declared declared transitiveModule :
  tm_directives (fold_left declareIn declared transitiveModule) =
    tm_directives transitiveModule ++ omap declaredDirectiveOf declared.
Proof.
  revert transitiveModule. induction declared as [|d declared IH]; intros tm; simpl.
  - by rewrite app_nil_r.
  - rewrite IH. destruct d; simpl; [by rewrite <- app_assoc | done].
Qed.

Lemma tm_pipes_declared declared transitiveModule :
  tm_pipes (fold_left declareIn declared transitiveModule) =
    tm_pipes transitiveModule ++ omap declaredPipeOf declared.
Proof.
  revert transitiveModule. induction declared as [|d declared IH]; intros tm; simpl.
  - by rewrite app_nil_r.
  - rewrite IH. destruct d; simpl; [done | by rewrite <- app_assoc].
Qed.

Lemma tm_directivesSet_declared declared transitiveModule x :
  x ∈ tm_directivesSet (fold_left declareIn declared transitiveModule) <->
  x ∈ tm_directivesSet transitiveModule \/ x ∈ omap declaredDirectiveType declared.
Proof.
  revert transitiveModule. induction declared as [|d declared IH]; intros tm; simpl.
  - unfold omap; simpl. rewrite elem_of_nil. tauto.
  - rewrite IH. unfold omap. destruct d; simpl.
    + rewrite JsSet_elem_of_add, elem_of_cons. tauto.
    + tauto.
Qed.

Lemma tm_pipesSet_declared declared transitiveModule x :
  x ∈ tm_pipesSet (fold_left declareIn declared transitiveModule) <->
  x ∈ tm_pipesSet transitiveModule \/ x ∈ omap declaredPipeType declared.
Proof.
  revert transitiveModule. induction declared as [|d declared IH]; intros tm; simpl.
  - unfold omap; simpl. rewrite elem_of_nil. tauto.
  - rewrite IH. unfold omap. destruct d; simpl.
    + tauto.
    + rewrite JsSet_elem_of_add, elem_of_cons. tauto.
Qed.

Section Visible.

Variable E : Env.

Lemma declared_types isSync declarations declared :
  Forall2 (declaredFrom E isSync) declarations declared ->
  omap declaredDirectiveType declared =
    filter (fun t => directiveResolver_isDirective E t = true) declarations /\
  omap declaredPipeType declared =
    filter (fun t => directiveResolver_isDirective E t = false) declarations.
Proof.
  induction 1 as [|t d ts ds [_ Hd] _ (IH1 & IH2)]; [done|].
  unfold omap in *.
  destruct Hd as [[HisDir ->]|(HisDir & _ & ->)]; simpl.
  - rewrite filter_cons_True, (filter_cons_False _ t) by (done || congruence).
    simpl. by rewrite IH1, IH2.
  - rewrite filter_cons_False, (filter_cons_True _ t) by (done || congruence).
    simpl. by rewrite IH1, IH2.
Qed.

(** What [finishNgModule] keeps of the transitive module it is given. *)
Lemma finishNgModule_visible moduleType meta importedModules exportedModules ids providers
    entryComponents declared transitiveModule compileMeta :
  snd (finishNgModule E moduleType meta importedModules exportedModules ids providers
         entryComponents declared transitiveModule) = Ok compileMeta ->
  mod_importedModules compileMeta = importedModules /\
  tm_directives (mod_transitiveModule compileMeta) = tm_directives transitiveModule /\
  tm_pipes (mod_transitiveModule compileMeta) = tm_pipes transitiveModule /\
  tm_directivesSet (mod_transitiveModule compileMeta) = tm_directivesSet transitiveModule /\
  tm_pipesSet (mod_transitiveModule compileMeta) = tm_pipesSet transitiveModule.
Proof.
  unfold finishNgModule. intros H.
  apply snd_bindW_ok_inv in H as ([ds ps] & _ & H).
  apply snd_bindW_ok_inv in H as ([providers1 sink1] & _ & H).
  apply snd_bindW_ok_inv in H as (entryTypes & _ & H).
  apply snd_bindW_ok_inv in H as (bootstrapComponents & _ & H).
  apply snd_bindW_ok_inv in H as (type & _ & H).
  simpl in H. by injection H as <-.
Qed.

(** The directives and the pipes a module inherits: those exported by
    the modules it imports and by the modules these export, directly or
    through further exports. *)
Definition inheritedDirectives (compileMeta : CompileNgModuleMetadata)
    : list CompileIdentifierMetadata :=
  flat_map (fun ngModule => sum_exportedDirectives ngModule)
    (getTransitiveExportedModules (mod_importedModules compileMeta)).

Definition inheritedPipes (compileMeta : CompileNgModuleMetadata)
    : list CompileIdentifierMetadata :=
  flat_map (fun ngModule => sum_exportedPipes ngModule)
    (getTransitiveExportedModules (mod_importedModules compileMeta)).

Definition visibleDirective (meta : NgModule) (compileMeta : CompileNgModuleMetadata)
    (type : Value) : Prop :=
  type ∈ map reference (inheritedDirectives compileMeta) \/
  (type ∈ declarationsOf meta /\ directiveResolver_isDirective E type = true).

Definition visiblePipe (meta : NgModule) (compileMeta : CompileNgModuleMetadata)
    (type : Value) : Prop :=
  type ∈ map reference (inheritedPipes compileMeta) \/
  (type ∈ declarationsOf meta /\ directiveResolver_isDirective E type = false).

(** X23: the directives of the transitive module of a resolved module
    are the directives exported by the modules it imports, and by the
    modules these export, followed by the directives it declares; the
    modules it exports itself contribute none.  The same holds of the
    pipes.  The module exports as a directive only such a directive, and
    as a pipe only such a pipe that is no such directive. *)
Theorem visible_declarations fuel moduleType isSync throwIfNotFound st meta compileMeta st' :
  uncached st (resolveForwardRef moduleType) ->
  ngModuleResolver_resolve E (resolveForwardRef moduleType) = Some meta ->
  _loadNgModuleMetadata E fuel moduleType isSync throwIfNotFound st
    = Some (Ok (Some compileMeta), st') ->
  tm_directives (mod_transitiveModule compileMeta)
    = inheritedDirectives compileMeta ++ mod_declaredDirectives compileMeta /\
  tm_pipes (mod_transitiveModule compileMeta)
    = inheritedPipes compileMeta ++ mod_declaredPipes compileMeta /\
  (forall type,
     JsSet.has (tm_directivesSet (mod_transitiveModule compileMeta)) type = true
     <-> visibleDirective meta compileMeta type) /\
  (forall type,
     JsSet.has (tm_pipesSet (mod_transitiveModule compileMeta)) type = true
     <-> visiblePipe meta compileMeta type) /\
  (forall id, id ∈ mod_exportedDirectives compileMeta ->
     visibleDirective meta compileMeta (reference id)) /\
  (forall id, id ∈ mod_exportedPipes compileMeta ->
     visiblePipe meta compileMeta (reference id) /\
     ~ visibleDirective meta compileMeta (reference id)).
Proof.
  intros Hmiss Hmeta Hrun. destruct fuel as [|fuel]; [discriminate|].
  destruct (fresh_run_inv _ _ _ _ _ _ _ _ _ Hmiss Hmeta Hrun)
    as (imports & s1 & exports & s2 & declared & s3 & Hi & He & Hd & Hfinish & _).
  apply declarationsPhase_entries in Hd.
  destruct (declared_types _ _ _ Hd) as (Hdt & Hpt).
  pose proof (finishNgModule_fields _ _ _ _ _ _ _ _ _ _ _ Hfinish) as (Hdd & Hdp & _).
  pose proof (finishNgModule_visible _ _ _ _ _ _ _ _ _ _ Hfinish)
    as (Him & Htd & Htp & Htds & Htps).
  apply finishNgModule_exports in Hfinish as (ds & ps & Hclassify & Hds & Hps).
  apply classifyExports_ok_inv in Hclassify as (_ & -> & ->).
  assert (Hdset : forall type,
            JsSet.has (tm_directivesSet (mod_transitiveModule compileMeta)) type = true
            <-> visibleDirective meta compileMeta type).
  { intros type. rewrite JsSet_has_true, Htds. unfold transitiveModuleOf.
    rewrite tm_directivesSet_declared, Hdt. unfold visibleDirective, inheritedDirectives.
    rewrite Him. simpl. rewrite fold_add_elem_of, elem_of_nil, list_elem_of_filter. tauto. }
  assert (Hpset : forall type,
            JsSet.has (tm_pipesSet (mod_transitiveModule compileMeta)) type = true
            <-> visiblePipe meta compileMeta type).
  { intros type. rewrite JsSet_has_true, Htps. unfold transitiveModuleOf.
    rewrite tm_pipesSet_declared, Hpt. unfold visiblePipe, inheritedPipes.
    rewrite Him. simpl. rewrite fold_add_elem_of, elem_of_nil, list_elem_of_filter. tauto. }
  split; [|split; [|split; [done|split; [done|split]]]].
  - rewrite Htd, Hdd. unfold transitiveModuleOf, inheritedDirectives.
    by rewrite tm_directives_declared, Him.
  - rewrite Htp, Hdp. unfold transitiveModuleOf, inheritedPipes.
    by rewrite tm_pipes_declared, Him.
  - intros id. rewrite Hds. intros Hid%list_elem_of_In%filter_In.
    apply Hdset. rewrite Htds. apply Hid.
  - intros id. rewrite Hps. intros [_ Hid]%list_elem_of_In%filter_In.
    apply andb_true_iff in Hid as [Hnd Hp]. apply negb_true_iff in Hnd. split.
    + apply Hpset. rewrite Htps. apply Hp.
    + rewrite <- Hdset, Htds. unfold inDirectivesSet in Hnd. by rewrite Hnd.
Qed.

End Visible.

Module Example3.

(** Imports the module 7, which exports the directive 12 and the pipe 20,
    declares the directive 10, and exports the directives 12 and 10 and
    the pipe 20. *)
Definition module60 : NgModule :=
  mkRawNgModule None (Some [VType 10]) (Some [VType 7]) (Some [VType 12; VType 20; VType 10])
    None None None VNull.

Definition env : Env :=
  {| ngModuleResolver_resolve := fun type =>
       match type with
       | VType 60 => Some module60
       | _ => ngModuleResolver_resolve Example.env type
       end;
     ngModuleResolver_isNgModule := fun type =>
       match type with
       | VType 60 => true
       | _ => ngModuleResolver_isNgModule Example.env type
       end;
     directiveResolver_resolve := directiveResolver_resolve Example.env;
     directiveResolver_isDirective := directiveResolver_isDirective Example.env;
     pipeResolver_resolve := pipeResolver_resolve Example.env;
     pipeResolver_isPipe := pipeResolver_isPipe Example.env;
     reflector_parameters := reflector_parameters Example.env;
     reflector_importUri := reflector_importUri Example.env;
     directiveNormalizer_normalizeTemplate :=
       directiveNormalizer_normalizeTemplate Example.env;
     schemaRegistry_getDefaultComponentElementName :=
       schemaRegistry_getDefaultComponentElementName Example.env;
     LIFECYCLE_HOOKS_VALUES := LIFECYCLE_HOOKS_VALUES Example.env;
     hasLifecycleHook := hasLifecycleHook Example.env;
     ANALYZE_FOR_ENTRY_COMPONENTS := ANALYZE_FOR_ENTRY_COMPONENTS Example.env;
     stringify := stringify Example.env;
     stringifyToken := stringifyToken Example.env;
     getUrlScheme := getUrlScheme Example.env;
     MODULE_SUFFIX := MODULE_SUFFIX Example.env;
     assertArrayOfStrings := assertArrayOfStrings Example.env;
     assertInterpolationSymbols := assertInterpolationSymbols Example.env;
     splitQuerySelector := splitQuerySelector Example.env;
     create_inputs := create_inputs Example.env;
     create_outputs := create_outputs Example.env;
     create_hostListeners := create_hostListeners Example.env;
     create_hostProperties := create_hostProperties Example.env;
     create_hostAttributes := create_hostAttributes Example.env |}.

End Example3.

Lemma visible_declarations_witness :
  exists compileMeta st',
    _loadNgModuleMetadata Example3.env 3 (VType 60) true true newResolver
      = Some (Ok (Some compileMeta), st') /\
    map reference (tm_directives (mod_transitiveModule compileMeta)) = [VType 12; VType 10] /\
    map reference (tm_pipes (mod_transitiveModule compileMeta)) = [VType 20] /\
    map reference (mod_exportedDirectives compileMeta) = [VType 12; VType 10] /\
    map reference (mod_exportedPipes compileMeta) = [VType 20] /\
    tm_directives (mod_transitiveModule compileMeta)
      = inheritedDirectives compileMeta ++ mod_declaredDirectives compileMeta.
Proof.
  destruct (_loadNgModuleMetadata Example3.env 3 (VType 60) true true newResolver)
    as [[[[compileMeta|]|e] st']|] eqn:Hrun; try (vm_compute in Hrun; discriminate).
  destruct (visible_declarations Example3.env 3 (VType 60) true true newResolver
              Example3.module60 compileMeta st' eq_refl eq_refl Hrun) as (Hd & _).
  assert (Hc : map reference (tm_directives (mod_transitiveModule compileMeta))
                 = [VType 12; VType 10] /\
               map reference (tm_pipes (mod_transitiveModule compileMeta)) = [VType 20] /\
               map reference (mod_exportedDirectives compileMeta) = [VType 12; VType 10] /\
               map reference (mod_exportedPipes compileMeta) = [VType 20]).
  { pose proof Hrun as Hc. vm_compute in Hc. by injection Hc as <- _. }
  destruct Hc as (H1 & H2 & H3 & H4). by exists compileMeta, st'.
Defined.

(** ** A directive loader that fails *)

Lemma mapR_err_inv {A B} (f : A -> R B) l st e st' :
  mapR f l st = Some (Err e, st') ->
  exists pre x post ys s1,
    l = pre ++ x :: post /\ mapR f pre st = Some (Ok ys, s1) /\ f x s1 = Some (Err e, st').
Proof.
  revert st. induction l as [|x l IH]; intros st; simpl; [discriminate|].
  intros H. apply bindR_inv in H as [(y & s1 & Hy & H)|(e' & Hx & [= <-])].
  - apply bindR_inv in H as [(ys & s2 & Hys & H)|(e' & Hl & [= <-])]; [discriminate|].
    destruct (IH _ Hl) as (pre & x' & post & ys & s2 & -> & Hpre & Hx').
    exists (x :: pre), x', post, (y :: ys), s2. split; [done|]. split; [|done].
    simpl. by rewrite (bindR_run_ok _ _ _ _ _ Hy), (bindR_run_ok _ _ _ _ _ Hpre).
  - by exists [], x, l, [], st.
Qed.

(** X24: when [loadNgModuleMetadata] resolved the module and one of the
    directive loaders then throws, the error is the one of that loader,
    the loaders before it have run, and nothing is undone: the record of
    the module stays in the module cache, and the directives loaded
    before the failure stay in the directive cache. *)
Theorem failed_loader_keeps_module E fuel moduleType isSync throwIfNotFound st compileMeta s1
    e st' :
  _loadNgModuleMetadata E fuel moduleType isSync throwIfNotFound st
    = Some (Ok (Some compileMeta), s1) ->
  loadNgModuleMetadata E fuel moduleType isSync throwIfNotFound st = Some (Err e, st') ->
  JsMap.get (_ngModuleCache st') (resolveForwardRef moduleType) = Some compileMeta /\
  keepsDirectives s1 st' /\
  exists pre loader post results s2,
    tm_directiveLoaders (mod_transitiveModule compileMeta) = pre ++ loader :: post /\
    mapR (fun loader =>
            _loadDirectiveMetadata E (loader_declaredType loader) (loader_isSync loader))
      pre s1 = Some (Ok results, s2) /\
    _loadDirectiveMetadata E (loader_declaredType loader) (loader_isSync loader) s2
      = Some (Err e, st') /\
    Forall2 (fun loader r => loaderOutcome loader r st') pre results.
Proof.
  intros Hload Hrun. unfold loadNgModuleMetadata in Hrun.
  rewrite (bindR_run_ok _ _ _ _ _ Hload) in Hrun.
  apply bindR_inv in Hrun as [(loading & s2 & _ & [=])|(e' & Hloaders & [= <-])].
  pose proof (steps_loaders E sameModuleCache sameModuleCache_directiveFrame
                _ _ _ _ Hloaders) as Hcache.
  pose proof (steps_loaders E keepsDirectives keepsDirectives_directiveFrame
                _ _ _ _ Hloaders) as Hkeeps.
  split; [|split; [done|]].
  - rewrite Hcache. by apply (loadNgModuleMetadata_cached _ _ _ _ _ _ _ _ Hload).
  - apply mapR_err_inv in Hloaders as (pre & loader & post & results & s2 & Hl & Hpre & Hx).
    exists pre, loader, post, results, s2. split; [done|]. split; [done|]. split; [done|].
    destruct (loaders_outcome _ _ _ _ _ Hpre) as [_ Hall].
    pose proof (steps_loadDirectiveMetadata E keepsDirectives keepsDirectives_directiveFrame
                  _ _ _ _ _ Hx) as Hs2.
    eapply Forall2_impl; [exact Hall|].
    intros l [| |p] Hq; simpl in *; by auto.
Qed.

Lemma failed_loader_keeps_module_witness :
  exists compileMeta st',
    loadNgModuleMetadata Example.env 1 (VType 8) true true newResolver
      = Some (Err (ComponentStillLoading (VType 11)), st') /\
    JsMap.get (_ngModuleCache st') (VType 8) = Some compileMeta.
Proof.
  destruct (_loadNgModuleMetadata Example.env 1 (VType 8) true true newResolver)
    as [[[[compileMeta|]|e] s1]|] eqn:Hload; try (vm_compute in Hload; discriminate).
  destruct (loadNgModuleMetadata Example.env 1 (VType 8) true true newResolver)
    as [[[r|e] st']|] eqn:Hrun; try (vm_compute in Hrun; discriminate).
  destruct (failed_loader_keeps_module _ _ _ _ _ _ _ _ _ _ Hload Hrun) as (Hget & _).
  assert (He : e = ComponentStillLoading (VType 11)).
  { pose proof Hrun as Hc. vm_compute in Hc. by injection Hc as <- _. }
  subst e. by exists compileMeta, st'.
Defined.
